(* ===== verification/_CoqProject ===== *)
-Q . S2P
Prelude.v
GoStd.v
Kind.v
Txn.v
Proto.v
Ruleset.v
Eval.v
Classify.v
DefaultRules.v
Reorder.v
Occ.v
Wire.v
Rewrite.v
Proc.v
State.v
Session.v
System.v
Samples.v
Firewall.v
Failing.v
Conflicts.v
Jobs.v
Transparent.v
Batches.v
Synchrony.v
Repairs.v
Commit.v
Prepared.v
Refusals.v
Pipeline.v
Shadows.v
Relay.v
Proxy.v
Json.v
Compare.v
Record.v
Fixtures.v
Suite.v
Run.v
Net.v
Commands.v
Reports.v
Emulator.v
