(* ===== verification/Prelude.v ===== *)
(** * The Aurora DSQL emulator, verified

    The program (Go, under [src/]) is a proxy between PostgreSQL clients and a
    PostgreSQL server that makes the server behave like Aurora DSQL: it refuses
    what the dialect refuses, keeps DSQL's transaction rules, and turns a lock
    PostgreSQL would wait for into a conflict reported at COMMIT.  A suite of
    probes is run against the real service and against the emulator, and the two
    records are compared.  This library translates the program into definitions
    that run, and proves what they promise.

    ** The parts of the program, and where they are

    A client connection is one session with two goroutines: the frontend pump
    reads the client's messages and the backend pump the server's.  A message is
    framed by [internal/wire]; a statement in it is judged by
    [internal/classify] against the ruleset of [rules] and admitted by the
    tracker of [internal/txn]; a statement that may be refused a lock is described
    by [internal/occ], and the session's adjudicator uses the description to
    answer for it.

    - [Prelude.v]: tactics and list lemmas shared by everything.
    - [GoStd.v]: what the program uses of Go's standard library: machine
      integers, decimal text, the [strings] functions, durations.
    - [Kind.v]: kinds, verdicts and results ([classify/classify.go]), and the class
      [StatementClassifier], the interface the session is verified against.
    - [Txn.v]: [internal/txn/txn.go].  [Tracker] and [Admit]; and, written down on its
      own, the history of transactions the server has, and the rule on them.
    - [Proto.v]: parse trees as protobuf messages, the walks over them
      ([classify/walk.go]), and the class [PgQuery] of the parser, scanner and
      deparser, which are a C library.
    - [Ruleset.v]: [rules/rules.go]; [DefaultRules.v]: the embedded YAML as the
      value it decodes to.
    - [Eval.v]: every predicate a rule can set and the messages refusals carry
      ([classify/eval.go], [walk.go], [message.go]); [Classify.v]: [Classify] itself
      with [kind.go] and [isolation.go], and the instance of [StatementClassifier];
      [Reorder.v]: that none of it depends on the order reflection visits fields.
    - [Occ.v]: [internal/occ/occ.go].
    - [Wire.v]: [internal/wire]; the [pgproto3] codecs are the class [PgProto].
    - [Rewrite.v]: [internal/proxy/rewrite.go].
    - [Proc.v]: a handler as a sequence of atomic steps; [State.v]: the session's
      struct as the record [session]; [Session.v]: every method of
      [internal/proxy/session.go] and [adjudicator.go], one definition each, under
      the source's names; [System.v]: the two pumps interleaved step by step.
    - [Samples.v]: a concrete parser, codec and configuration at which the
      properties are shown to hold.
    - [Firewall.v], [Failing.v], [Conflicts.v], [Jobs.v], [Transparent.v],
      [Batches.v], [Synchrony.v], [Repairs.v], [Commit.v], [Prepared.v],
      [Refusals.v], [Pipeline.v] and [Shadows.v]: the properties of the session.
    - [Relay.v]: [internal/proxy/relay.go], the two pipes of a connection that is
      not intercepted; [Proxy.v]: [internal/proxy/proxy.go], the configuration, the
      loop that accepts clients and the set of connections it tracks.
    - [Suite.v]: [internal/conformance/suite.go], the probes as the value they are;
      [Run.v]: running them ([record.go]) through the class [Driver], which is pgx,
      each call under its context.
    - [Compare.v]: [internal/conformance/compare.go]; [Json.v]: the encoder that
      comparison and change detection rest on; [Record.v] and [Fixtures.v]: what of
      a record is enforced, when it counts as changed, and how it is saved as one
      fixture per group and read back ([record.go]).
    - [Net.v]: what the mains use of Go's [net] and [net/url].  [Commands.v]: what
      [cmd/dsql-baseline] decides, the URL it connects to, and
      [internal/conformance]'s check for leftovers; [Reports.v]: the lines printed
      about a difference, a case and the suite; [Emulator.v]: [cmd/dsql-emu] and
      [internal/proxy/tls.go].

    ** How state and operations correspond

    A method of the session is a [proc]: a critical section under [stateMu], a
    write to a connection or a use of the tracker is one atomic step, and what is
    between two steps can be interleaved with the other goroutine's.  [run]
    executes a handler alone, which is what the functional theorems speak of;
    [System.step] interleaves the two pumps, and [safe] carries an invariant
    through every interleaving.  The fields of [session] are those of the struct;
    a map is a [gmap], a set of names a [gset]; [hidden] is a pointer into
    [exchanges], since the closures it points at have captured variables that
    change while the pointer is replaced, and each pair of closures is a
    constructor of [hiddenExchange].  A parameter's value is an option, since
    SQL NULL is not the empty value.  A connection is what was written to it and
    whether it is closed; the clock and the random bytes are read from the state
    and the configuration.  A panic of Go's is a step that closes both
    connections, which is what the peers of a process that died would see.

    ** What the theorems show

    - What reaches the server ([Firewall.v]): under every interleaving, only
      messages whose text was not rejected, their equivalents, and the emulator's
      own statements; and the bookkeeping of failures and hidden exchanges stays
      well formed.
    - Refusals and failed transactions ([Failing.v], [Refusals.v]): what the
      client and the server see when a statement is refused in and out of a
      transaction and in an extended-query batch, that an injected failure hides
      exactly the answers it is owed, and that a failed transaction stays failed
      until the client ends it.
    - Answers ([Synchrony.v], [Repairs.v], [Pipeline.v]): each request of the client
      is answered with exactly one ReadyForQuery, whatever the emulator said on its
      own behalf to answer it; the outcome of a repair, in every way its restore and
      its shadow can go, is the one [repair_of] specifies; and under every
      interleaving, from the server's startup on and whatever the client pipelines
      once it was passed the startup's ReadyForQuery, the count of pending exchanges
      is what the upstream owes.  [Pipeline.v] also shows what a query pipelined
      before that does to the count, and what a pipeline with two refusals gets.
    - Conflicts ([Conflicts.v], [Commit.v], [Occ.v], [Shadows.v]): a statement refused
      a lock is answered with the count its shadow reports and its transaction fails
      at COMMIT, a prepared COMMIT as well; the injection rules count commits exactly;
      an intent is exactly the one its statement calls for, the text of the shadow
      included; and a shadow's references get the values, in
      the formats, that the client bound to those they stand for.
    - Prepared statements ([Prepared.v]): under every interleaving what is remembered
      of one stays until the client prepares another under its name or closes it,
      and executing one without the ASYNC keyword is checked as a query of its text
      would be; what a rejected Parse forgets, and how ASYNC differs.
    - Protocol ([Batches.v], [Transparent.v], [Jobs.v], [Wire.v], [Rewrite.v]):
      nothing is injected into an open batch; with nothing under way the backend
      pump is a wire; a job id is spliced into its own statement's result, from the
      query that asks for it to the row, when no statement ahead of it is empty;
      frames round-trip; the ASYNC keyword and the gap after it are cut without
      touching anything else; job ids have their shape and keep all their
      randomness.
    - The dialect ([Classify.v], [DefaultRules.v], [Reorder.v], [Ruleset.v],
      [Txn.v]): what is accepted, exactly; that the embedded rules refuse what they
      must, the session's own savepoint included; that a ruleset is validated
      exactly; and that the tracker answers as the rule does on the transaction the
      server has open, the age limit included, so that no transaction breaks the DDL
      rules, when every BEGIN begins one; and what a nested BEGIN does.
    - Connections ([Relay.v], [Proxy.v]): under every interleaving a relay passes
      each direction exactly and in order, closes a half only when its peer has
      finished, and unwinds; the proxy's set holds the connections in use and no
      others, and cancelling closes those.
    - Conformance ([Suite.v], [Run.v], [Compare.v], [Record.v], [Fixtures.v],
      [Commands.v], [Json.v]): the suite can be recorded, saved and compared, and
      its cleanup drops what it creates, with the exceptions named; a run records
      every case in order and, its context done or not, cleans up as long as its
      connection lasts; comparison and change detection are exact, each against a
      specification of what it enforces; a record unchanged passes, when the losers
      of a race lost alike; a saved record is read back; a failed save keeps the fixtures; and [dsql-baseline]
      never replaces a record with a partial one, and its connection URL reads
      back whatever the token holds.
    - The emulator ([Emulator.v]): the hosts its certificate is good for, and what
      each exit code says.

    ** Bounds and fuel

    Recursion is structural everywhere but in [Wire.read_all], the loop of a pump
    over a stream: a frame takes at least five bytes, so a step per byte of the
    stream, and one for its end, reads it to the end, as [stream_round_trip]
    proves.  [Synchrony.v] follows a request through what the upstream answers to
    it: five answers are enough for any request, its repair included.  [Run.v]
    sends a schema statement at most [schemaAttempts] times, as the code does.  An [int] is 64 bits and its
    arithmetic wraps where the code's would; a theorem that counts says how far
    below the wrap it holds.

    ** What is not modelled, and why

    The parser, scanner and deparser, the [pgproto3] codecs, the YAML decoder, the
    pgx driver, with Go's contexts, and the file system are not under [src/] and are
    parameters; what is read back from a fixture written is the record it was
    written from.
    So are keys, signatures and reading a pair from disk ([tls.go] is otherwise
    modelled), and TLS on a connection is the outcome of its handshake.  Logging and
    when progress is reported are left out; the driver connects without looking at
    the URL, and closing the first connection as [dsql-baseline] ends is left out.
    The relay starts on connections nothing was written to, with its counters at
    zero, where the code's hold the startup's bytes.  The URL's reader in [Net.v] is
    [url.Parse] for URLs with an authority, of addresses without a zone.  Flags are
    parsed and signals delivered by Go's library.  The SQL of the backing database
    is run by PostgreSQL.

    Not stated: an asynchronous job from its statement to its row over every
    interleaving; [serverVersionNum] against the number PostgreSQL would report; and
    an extended-query batch in a failed transaction. *)

From Stdlib Require Import Ascii String.
From stdpp Require Import base numbers strings gmap list.

(** ** Tactics *)

(** Case analysis on every [if], [match] and [let] scrutinee of the goal. *)
Ltac case_all :=
  repeat (case_match; simplify_eq/=; try done).

(** The same in a named hypothesis. *)
Ltac case_in H :=
  repeat (case_match; simplify_eq/=; try done; simpl in H).

(** Turn the boolean tests of the code into propositions. *)
Ltac bprop :=
  repeat match goal with
  | H : andb _ _ = true |- _ => apply andb_true_iff in H as [? ?]
  | H : orb _ _ = false |- _ => apply orb_false_iff in H as [? ?]
  | H : negb _ = true |- _ => apply negb_true_iff in H
  | H : negb _ = false |- _ => apply negb_false_iff in H
  | H : String.eqb _ _ = true |- _ => apply String.eqb_eq in H
  | H : String.eqb _ _ = false |- _ => apply String.eqb_neq in H
  | H : Z.ltb _ _ = true |- _ => apply Z.ltb_lt in H
  | H : Z.ltb _ _ = false |- _ => apply Z.ltb_ge in H
  | H : Z.leb _ _ = true |- _ => apply Z.leb_le in H
  | H : Z.leb _ _ = false |- _ => apply Z.leb_gt in H
  | H : Z.eqb _ _ = true |- _ => apply Z.eqb_eq in H
  | H : Z.eqb _ _ = false |- _ => apply Z.eqb_neq in H
  end.

Create HintDb dsql.

(** ** Lists *)

Lemma existsb_false_iff {A} (f : A -> bool) (l : list A) :
  existsb f l = false <-> forall x, x ∈ l -> f x = false.
Proof.
  rewrite <- not_true_iff_false, existsb_exists. split.
  - intros Hn x Hx. apply not_true_iff_false. intros Hf. apply Hn.
    exists x. by rewrite <- list_elem_of_In.
  - intros Hall (x & Hx & Hf). apply list_elem_of_In in Hx.
    by rewrite Hall in Hf.
Qed.

Lemma existsb_true_iff {A} (f : A -> bool) (l : list A) :
  existsb f l = true <-> exists x, x ∈ l /\ f x = true.
Proof.
  rewrite existsb_exists. split; intros (x & Hx & Hf); exists x;
    by rewrite list_elem_of_In in *.
Qed.

Lemma filter_bool_perm {A} (f : A -> bool) (l l' : list A) :
  l ≡ₚ l' -> List.filter f l ≡ₚ List.filter f l'.
Proof.
  induction 1 as [|x l l' _ IH|x y l|l1 l2 l3 _ IH1 _ IH2]; simpl.
  - done.
  - destruct (f x); by rewrite IH.
  - destruct (f x), (f y); by try apply Permutation_swap.
  - by etrans.
Qed.
