(* ===== verification/GoStd.v ===== *)
(** * The part of Go's standard library the emulator calls

    Go strings are byte strings, [string] here; [int] is 64 bits wide and is a
    [Z] with its wrap-around written out.  Case mapping is exact on ASCII and on
    the non-ASCII letters that map onto an ASCII one, which is what decides a
    comparison with an ASCII word; every other non-ASCII letter maps to a
    non-ASCII one in Go and is left as it is here. *)

From Stdlib Require Import Ascii String.
From stdpp Require Import base numbers pretty strings list.
From S2P Require Import Prelude.

Local Open Scope Z_scope.

(** ** Machine integers *)

Definition wrap (bits : Z) (z : Z) : Z :=
  (z + 2 ^ (bits - 1)) mod 2 ^ bits - 2 ^ (bits - 1).

Definition int64 (z : Z) : Z := wrap 64 z.
Definition int32 (z : Z) : Z := wrap 32 z.

Lemma wrap_small bits z :
  0 < bits -> - 2 ^ (bits - 1) <= z < 2 ^ (bits - 1) -> wrap bits z = z.
Proof.
  intros Hb Hz. unfold wrap.
  assert (2 ^ bits = 2 * 2 ^ (bits - 1)) as Hp.
  { rewrite <- Z.pow_succ_r by lia. f_equal. lia. }
  rewrite Z.mod_small; lia.
Qed.

Lemma int64_small z : - 2 ^ 63 <= z < 2 ^ 63 -> int64 z = z.
Proof. apply (wrap_small 64). lia. Qed.

Lemma wrap_range bits z :
  0 < bits -> - 2 ^ (bits - 1) <= wrap bits z < 2 ^ (bits - 1).
Proof.
  intros Hb. unfold wrap.
  assert (2 ^ bits = 2 * 2 ^ (bits - 1)) as Hp.
  { rewrite <- Z.pow_succ_r by lia. f_equal. lia. }
  pose proof (Z.mod_pos_bound (z + 2 ^ (bits - 1)) (2 ^ bits)).
  assert (0 < 2 ^ (bits - 1)) by (apply Z.pow_pos_nonneg; lia). lia.
Qed.

(** ** Decimal rendering and parsing *)

(** [strconv.Itoa]. *)
Definition itoa (z : Z) : string := pretty z.

Definition digit_value (c : ascii) : option Z :=
  let n := Z.of_N (Ascii.N_of_ascii c) in
  if (48 <=? n) && (n <=? 57) then Some (n - 48) else None.

(** The digits of a number, read most significant first. *)
Fixpoint digits_value (acc : Z) (s : string) : option Z :=
  match s with
  | EmptyString => Some acc
  | String c rest =>
      match digit_value c with
      | Some d => digits_value (acc * 10 + d) rest
      | None => None
      end
  end.

(** [strconv.Atoi]: an optional sign and at least one digit; a number outside
    the 64-bit range is an error. *)
Definition atoi (s : string) : option Z :=
  let in_range z := if (- 2 ^ 63 <=? z) && (z <? 2 ^ 63) then Some z else None in
  let unsigned rest :=
    match rest with EmptyString => None | _ => digits_value 0 rest end in
  match s with
  | EmptyString => None
  | String c rest =>
      if Ascii.eqb c "+" then unsigned rest ≫= in_range
      else if Ascii.eqb c "-" then unsigned rest ≫= (fun z => in_range (- z))
      else unsigned s ≫= in_range
  end.

(** ** Runes and white space *)

Definition code (c : ascii) : N := Ascii.N_of_ascii c.

Definition is_ascii_space (c : ascii) : bool :=
  ((9 <=? code c) && (code c <=? 13) || (code c =? 32))%N.

(** The third byte of the white space that UTF-8 encodes as [E2 80 xx]. *)
Definition is_general_space (n : N) : bool :=
  ((128 <=? n) && (n <=? 138) || (n =? 168) || (n =? 169) || (n =? 175))%N.

(** How many bytes the white-space rune at the front of a string takes, and 0
    when there is none: [unicode.IsSpace] on the first rune. *)
Definition space_width (s : string) : nat :=
  match s with
  | EmptyString => 0
  | String c rest =>
      if is_ascii_space c then 1
      else match rest with
      | EmptyString => 0
      | String c1 rest1 =>
          if ((code c =? 194) && ((code c1 =? 133) || (code c1 =? 160)))%N then 2
          else match rest1 with
          | EmptyString => 0
          | String c2 _ =>
              if ((code c =? 225) && (code c1 =? 154) && (code c2 =? 128)
                  || (code c =? 226) && (code c1 =? 128) && is_general_space (code c2)
                  || (code c =? 226) && (code c1 =? 129) && (code c2 =? 159)
                  || (code c =? 227) && (code c1 =? 128) && (code c2 =? 128))%N
              then 3 else 0
          end
      end
  end%nat.

(** The same for the last rune, on the reversed string: a white-space rune's
    encoding starts with a byte no encoding continues with, so reading it
    backwards finds the same rune. *)
Definition space_width_rev (s : string) : nat :=
  match s with
  | EmptyString => 0
  | String c rest =>
      if is_ascii_space c then 1
      else match rest with
      | EmptyString => 0
      | String c1 rest1 =>
          if Nat.eqb (space_width (String c1 (String c EmptyString))) 2 then 2
          else match rest1 with
          | EmptyString => 0
          | String c2 _ =>
              if Nat.eqb (space_width (String c2 (String c1 (String c EmptyString)))) 3
              then 3 else 0
          end
      end
  end%nat.

Fixpoint string_rev_app (s acc : string) : string :=
  match s with
  | EmptyString => acc
  | String c rest => string_rev_app rest (String c acc)
  end.

Definition string_rev (s : string) : string := string_rev_app s EmptyString.

(** Drop the runes [width] recognises from the front; [skip] is how many bytes
    of the rune being dropped are left. *)
Fixpoint trim_front (width : string -> nat) (s : string) (skip : nat) : string :=
  match s with
  | EmptyString => EmptyString
  | String _ rest =>
      match skip with
      | S k => trim_front width rest k
      | O => match width s with
             | O => s
             | S k => trim_front width rest k
             end
      end
  end.

(** [strings.TrimSpace]. *)
Definition trim_space (s : string) : string :=
  string_rev (trim_front space_width_rev (string_rev (trim_front space_width s 0)) 0).

Definition flush (cur : string) (out : list string) : list string :=
  match cur with EmptyString => out | _ => string_rev cur :: out end.

Fixpoint fields_from (s : string) (skip : nat) (cur : string) : list string :=
  match s with
  | EmptyString => flush cur []
  | String c rest =>
      match skip with
      | S k => fields_from rest k cur
      | O => match space_width s with
             | O => fields_from rest 0 (String c cur)
             | S k => flush cur (fields_from rest k EmptyString)
             end
      end
  end.

(** [strings.Fields]. *)
Definition fields (s : string) : list string := fields_from s 0 EmptyString.

(** ** Case *)

Definition lower_ascii (c : ascii) : ascii :=
  if ((65 <=? code c) && (code c <=? 90))%N then Ascii.ascii_of_N (code c + 32) else c.

Definition upper_ascii (c : ascii) : ascii :=
  if ((97 <=? code c) && (code c <=? 122))%N then Ascii.ascii_of_N (code c - 32) else c.

(** [strings.ToLower].  U+0130 and U+212A are the two non-ASCII letters whose
    lower case is ASCII. *)
Fixpoint to_lower (s : string) : string :=
  match s with
  | String c ((String c1 rest1) as rest) =>
      if ((code c =? 196) && (code c1 =? 176))%N then String "i" (to_lower rest1)
      else match rest1 with
      | String c2 rest2 =>
          if ((code c =? 226) && (code c1 =? 132) && (code c2 =? 170))%N
          then String "k" (to_lower rest2)
          else String (lower_ascii c) (to_lower rest)
      | EmptyString => String (lower_ascii c) (to_lower rest)
      end
  | String c rest => String (lower_ascii c) (to_lower rest)
  | EmptyString => EmptyString
  end.

(** [strings.ToUpper] on ASCII. *)
Fixpoint to_upper (s : string) : string :=
  match s with
  | String c rest => String (upper_ascii c) (to_upper rest)
  | EmptyString => EmptyString
  end.

(** The representative of a string under simple case folding.  U+017F and
    U+212A are the two non-ASCII letters that fold onto ASCII ones. *)
Fixpoint fold_case (s : string) : string :=
  match s with
  | String c ((String c1 rest1) as rest) =>
      if ((code c =? 197) && (code c1 =? 191))%N then String "s" (fold_case rest1)
      else match rest1 with
      | String c2 rest2 =>
          if ((code c =? 226) && (code c1 =? 132) && (code c2 =? 170))%N
          then String "k" (fold_case rest2)
          else String (lower_ascii c) (fold_case rest)
      | EmptyString => String (lower_ascii c) (fold_case rest)
      end
  | String c rest => String (lower_ascii c) (fold_case rest)
  | EmptyString => EmptyString
  end.

(** [strings.EqualFold]. *)
Definition equal_fold (a b : string) : bool := String.eqb (fold_case a) (fold_case b).

(** ** Searching and replacing *)

(** [strings.Contains]. *)
Fixpoint string_contains (s sub : string) : bool :=
  String.prefix sub s ||
  match s with
  | EmptyString => false
  | String _ rest => string_contains rest sub
  end.

Fixpoint replace_from (old new s : string) (skip : nat) : string :=
  match s with
  | EmptyString => EmptyString
  | String c rest =>
      match skip with
      | S k => replace_from old new rest k
      | O => if String.prefix old s
             then new +:+ replace_from old new rest (pred (String.length old))
             else String c (replace_from old new rest 0)
      end
  end.

(** [strings.ReplaceAll] for a non-empty [old]. *)
Definition replace_all (s old new : string) : string := replace_from old new s 0.

(** [strings.TrimSuffix]. *)
Definition trim_suffix (s suffix : string) : string :=
  if String.prefix (string_rev suffix) (string_rev s)
  then String.substring 0 (String.length s - String.length suffix) s
  else s.

(** [strings.CutPrefix]: what follows the prefix. *)
Definition cut_prefix (s p : string) : option string :=
  if String.prefix p s
  then Some (String.substring (String.length p) (String.length s - String.length p) s)
  else None.

(** [strings.SplitN] on one character, into at most [n + 1] pieces. *)
Fixpoint split_char (sep : ascii) (n : nat) (s cur : string) : list string :=
  match s with
  | EmptyString => [string_rev cur]
  | String c rest =>
      match n with
      | S k => if Ascii.eqb c sep
               then string_rev cur :: split_char sep k rest EmptyString
               else split_char sep n rest (String c cur)
      | O => [string_rev cur +:+ s]
      end
  end.

Lemma string_app_assoc (a b c : string) : (a +:+ b) +:+ c = a +:+ (b +:+ c).
Proof. induction a as [|x a IH]; [done | exact (f_equal (String x) IH)]. Qed.

Lemma string_app_nil (a : string) : a +:+ EmptyString = a.
Proof. induction a as [|x a IH]; [done | exact (f_equal (String x) IH)]. Qed.

(** [strings.Join]. *)
Definition join (sep : string) (l : list string) : string := String.concat sep l.

(** ** Durations and instants

    A [time.Duration] counts nanoseconds in 64 bits.  A [time.Time] is the
    nanoseconds since the zero instant, the one [IsZero] recognises. *)

Definition second : Z := 1000000000.

Fixpoint zeros_dropped (digits : nat) (u : Z) : nat * Z :=
  match digits with
  | O => (O, u)
  | S d => if u mod 10 =? 0 then zeros_dropped d (u / 10) else (S d, u)
  end.

Fixpoint pad_digits (digits : nat) (u : Z) (acc : string) : string :=
  match digits with
  | O => acc
  | S d => pad_digits d (u / 10) (itoa (u mod 10) +:+ acc)
  end.

(** The fraction [fmtFrac] prints: the lowest [prec] digits without their
    trailing zeros, and nothing at all when they are all zero. *)
Definition frac_string (prec : nat) (u : Z) : string :=
  let '(n, v) := zeros_dropped prec (u mod 10 ^ Z.of_nat prec) in
  match n with O => EmptyString | _ => "." +:+ pad_digits n v EmptyString end.

(** [Duration.String]. *)
Definition duration_string (d : Z) : string :=
  let u := Z.abs d in
  let body :=
    if u <? second then
      if u =? 0 then "0s"
      else if u <? 1000 then itoa u +:+ "ns"
      else if u <? 1000000
      then itoa (u / 1000) +:+ frac_string 3 u +:+
           String "194" (String "181" EmptyString) +:+ "s"
      else itoa (u / 1000000) +:+ frac_string 6 u +:+ "ms"
    else
      let secs := u / second in
      let tail := itoa (secs mod 60) +:+ frac_string 9 u +:+ "s" in
      let mins := secs / 60 in
      if mins =? 0 then tail
      else let tail := itoa (mins mod 60) +:+ "m" +:+ tail in
           let hours := mins / 60 in
           if hours =? 0 then tail else itoa hours +:+ "h" +:+ tail in
  if d <? 0 then "-" +:+ body else body.

Definition is_zero_time (t : Z) : bool := t =? 0.

(** [Time.Sub] saturates at the range of a duration. *)
Definition time_sub (t u : Z) : Z :=
  Z.max (- 2 ^ 63) (Z.min (2 ^ 63 - 1) (t - u)).

(** ** Checks *)

Example duration_30m : duration_string (1800 * second) = "30m0s".
Proof. reflexivity. Qed.
Example duration_frac : duration_string 1500000000 = "1.5s".
Proof. reflexivity. Qed.
Example duration_hours : duration_string (3661 * second) = "1h1m1s".
Proof. reflexivity. Qed.
Example fields_example : fields "  a  b
c " = ["a"; "b"; "c"].
Proof. reflexivity. Qed.
Example trim_space_example : trim_space "  select 1  " = "select 1".
Proof. reflexivity. Qed.
Example atoi_example : (atoi "-12", atoi "+7", atoi "1a", atoi "") = (Some (-12), Some 7, None, None).
Proof. reflexivity. Qed.
Example atoi_range : atoi "9223372036854775808" = None.
Proof. reflexivity. Qed.
Example replace_all_example : replace_all "a{x}b{x}" "{x}" "yy" = "ayybyy".
Proof. reflexivity. Qed.
Example split_char_example : split_char "." 2 "16.15.1.2" EmptyString = ["16"; "15"; "1.2"].
Proof. reflexivity. Qed.
Example equal_fold_example : equal_fold "ASYNC" "async" = true.
Proof. reflexivity. Qed.
