(* ===== verification/Kind.v ===== *)
(** * Statement kinds, verdicts and the interface of the classifier

    What [internal/classify] promises the transaction rules and the session:
    the kinds a statement is sorted into, the outcome of classifying a string,
    and the class through which the session sees a classifier. *)

From Stdlib Require Import Ascii String.
From stdpp Require Import base strings list.
From S2P Require Import Prelude.

(** The category of a statement. *)
Inductive Kind :=
| KindOther
| KindSelect
| KindDML
| KindDDL
| KindBegin
| KindCommit
| KindRollback.

#[export] Instance Kind_eq_dec : EqDecision Kind.
Proof. solve_decision. Defined.

Definition Kind_String (k : Kind) : string :=
  match k with
  | KindSelect => "select"
  | KindDML => "dml"
  | KindDDL => "ddl"
  | KindBegin => "begin"
  | KindCommit => "commit"
  | KindRollback => "rollback"
  | KindOther => "other"
  end.

(** The outcome of classifying one SQL string; the zero verdict forwards it. *)
Record Verdict := mkVerdict { RuleID : string; Code : string; Message : string }.

Definition zero_verdict : Verdict := mkVerdict "" "" "".

Definition Rejected (v : Verdict) : bool := negb (String.eqb (Code v) "").

(** A verdict with the kinds of the statements read and the relations they
    touch. *)
Record Result := mkResult { verdict : Verdict; Kinds : list Kind; Tables : list string }.

Definition zero_result : Result := mkResult zero_verdict [] [].

(** A batch of kinds that ends a transaction, and one that commits it: the two
    questions [session.go] asks of the kinds. *)
Definition endsTransaction (kinds : list Kind) : bool :=
  existsb (fun k => bool_decide (k = KindCommit) || bool_decide (k = KindRollback)) kinds.

Definition isCommit (kinds : list Kind) : bool :=
  existsb (fun k => bool_decide (k = KindCommit)) kinds.

(** What the session relies on: [classify async sql] is [None] when the parser
    refuses the string, and a rejected string reports no kinds, so that nothing
    a client writes can both be refused and end a transaction. *)
Class StatementClassifier := {
  classify : bool -> string -> option Result;
  rejected_no_kinds async sql r :
    classify async sql = Some r -> Rejected (verdict r) = true -> Kinds r = [];
}.

Lemma isCommit_ends kinds : isCommit kinds = true -> endsTransaction kinds = true.
Proof.
  unfold isCommit, endsTransaction. rewrite !existsb_true_iff.
  intros (k & Hk & Hc). exists k. split; [done|]. by rewrite Hc.
Qed.

Lemma endsTransaction_spec kinds :
  endsTransaction kinds = true <-> KindCommit ∈ kinds \/ KindRollback ∈ kinds.
Proof.
  unfold endsTransaction. rewrite existsb_true_iff. split.
  - intros (k & Hk & Hor). apply orb_true_iff in Hor as [H | H];
      apply bool_decide_eq_true in H; subst; auto.
  - intros [H | H]; eexists; (split; [exact H|]); done.
Qed.

Lemma rejected_never_ends `{StatementClassifier} async sql r :
  classify async sql = Some r -> Rejected (verdict r) = true ->
  endsTransaction (Kinds r) = false.
Proof. intros Hc Hr. by rewrite (rejected_no_kinds _ _ _ Hc Hr). Qed.

#[export] Hint Resolve isCommit_ends rejected_never_ends : dsql.
