(* ===== verification/Txn.v ===== *)
(** * Transaction rules: [internal/txn]

    The tracker that decides, batch by batch, whether a session's statements may
    share a transaction.  [Admit] is the code's two passes; [tx_run] reads a
    history of batches as the upstream does, into transactions, without the
    tracker; [rule_answer] is the rule on those transactions, which [Admit] is
    proved to implement, and [span_ok] what it keeps of every one of them. *)

From Stdlib Require Import Ascii String.
From stdpp Require Import base numbers strings sets list.
From S2P Require Import Prelude GoStd Kind.

Local Open Scope Z_scope.

Definition CodeFeatureUnsupported : string := "0A000".
Definition CodeProgramLimit : string := "54000".

Record Limits := mkLimits { MaxAge : Z }.

Record Violation := mkViolation { vCode : string; vMessage : string; vRule : string }.

Record Stats := mkStats { InTxn : bool; DDLCount : Z; DMLSeen : bool }.

Record Tracker := mkTracker {
  limits : Limits;
  inTxn : bool;
  beganAt : Z;
  ddlCount : Z;
  dmlSeen : bool;
}.

#[export] Instance Violation_eq_dec : EqDecision Violation.
Proof. solve_decision. Defined.
#[export] Instance Limits_eq_dec : EqDecision Limits.
Proof. solve_decision. Defined.
#[export] Instance Tracker_eq_dec : EqDecision Tracker.
Proof. solve_decision. Defined.

Definition New (l : Limits) : Tracker := mkTracker l false 0 0 false.

Definition reset (t : Tracker) : Tracker :=
  mkTracker (limits t) (inTxn t) (beganAt t) 0 false.

Definition ddl_count_violation : Violation :=
  mkViolation CodeFeatureUnsupported
    "multiple ddl statements not supported in a transaction" "ddl_count".

Definition ddl_dml_violation : Violation :=
  mkViolation CodeFeatureUnsupported
    "ddl and dml are not supported in the same transaction" "ddl_dml_mix".

Definition age_violation (max : Z) : Violation :=
  mkViolation CodeProgramLimit
    ("transaction age of " +:+ duration_string max +:+ " exceeded") "txn_age".

(** The first loop over the kinds: does the batch roll back? *)
Definition rolls_back (kinds : list Kind) : bool :=
  existsb (fun k => bool_decide (k = KindRollback)) kinds.

(** The age test. *)
Definition too_old (t : Tracker) (now : Z) : bool :=
  (0 <? MaxAge (limits t)) && negb (is_zero_time (beganAt t)) &&
  (MaxAge (limits t) <? time_sub now (beganAt t)).

(** The second loop: check the batch against the counts it starts from. *)
Fixpoint check_kinds (kinds : list Kind) (ddl : Z) (dml : bool) : option Violation :=
  match kinds with
  | [] => None
  | k :: rest =>
      match k with
      | KindBegin => check_kinds rest 0 false
      | KindCommit | KindRollback => check_kinds rest 0 false
      | KindDDL =>
          if 1 <=? ddl then Some ddl_count_violation
          else if dml then Some ddl_dml_violation
          else check_kinds rest (ddl + 1) dml
      | KindDML =>
          if 0 <? ddl then Some ddl_dml_violation
          else check_kinds rest ddl true
      | KindOther | KindSelect => check_kinds rest ddl dml
      end
  end.

(** The third loop: record the batch. *)
Definition record_kind (now : Z) (t : Tracker) (k : Kind) : Tracker :=
  match k with
  | KindBegin => mkTracker (limits t) true now 0 false
  | KindCommit | KindRollback => reset (mkTracker (limits t) false (beganAt t) (ddlCount t) (dmlSeen t))
  | KindDDL => mkTracker (limits t) (inTxn t) (beganAt t) (ddlCount t + 1) (dmlSeen t)
  | KindDML => mkTracker (limits t) (inTxn t) (beganAt t) (ddlCount t) true
  | KindOther | KindSelect => t
  end.

Definition Admit (kinds : list Kind) (now : Z) (t : Tracker) : option Violation * Tracker :=
  let t := if negb (inTxn t) then reset t else t in
  if negb (rolls_back kinds) && inTxn t && too_old t now
  then (Some (age_violation (MaxAge (limits t))), t)
  else
    match check_kinds kinds (ddlCount t) (dmlSeen t) with
    | Some v => (Some v, t)
    | None =>
        let t := if negb (inTxn t) then reset t else t in
        (None, fold_left (record_kind now) kinds t)
    end.

Definition Tracker_Stats (t : Tracker) : Stats := mkStats (inTxn t) (ddlCount t) (dmlSeen t).

(** ** The rule, stated on transactions

    The reference knows nothing of the tracker.  It reads statements the way the
    upstream does: BEGIN opens an explicit transaction, or does nothing inside
    one; what already ran in the same string belongs to the transaction it opens;
    COMMIT and ROLLBACK end the transaction; and a batch (what txn.go calls one:
    a simple Query or one prepared statement) that leaves no explicit transaction
    open ends with it the transaction it ran in. *)

Record Tx := mkTx {
  explicit : option Z;         (* the instant of the BEGIN, inside its transaction *)
  span : list Kind;            (* what the transaction has run *)
  ended : list (list Kind);    (* the transactions before it *)
}.

Definition no_tx : Tx := mkTx None [] [].

Definition end_tx (x : Tx) : Tx := mkTx None [] (ended x ++ [span x]).

Definition tx_kind (now : Z) (x : Tx) (k : Kind) : Tx :=
  match k with
  | KindBegin => match explicit x with
                 | Some _ => x
                 | None => mkTx (Some now) (span x) (ended x)
                 end
  | KindCommit | KindRollback => end_tx x
  | _ => mkTx (explicit x) (span x ++ [k]) (ended x)
  end.

Definition tx_batch (x : Tx) (b : Z * list Kind) : Tx :=
  let x := fold_left (tx_kind b.1) b.2 x in
  match explicit x with Some _ => x | None => end_tx x end.

(** Every transaction of a history of batches, the last one included. *)
Definition tx_run (bs : list (Z * list Kind)) : Tx := fold_left tx_batch bs no_tx.

Definition transactions (x : Tx) : list (list Kind) := ended x ++ [span x].

Definition count_ddl (span : list Kind) : nat :=
  length (filter (fun k => k = KindDDL) span).

Definition has_dml (span : list Kind) : bool := bool_decide (KindDML ∈ span).

Definition span_ok (span : list Kind) : Prop :=
  (count_ddl span <= 1)%nat /\ (KindDDL ∈ span -> KindDML ∉ span).

(** What the rule says of one more statement. *)
Definition allowed (span : list Kind) (k : Kind) : option Violation :=
  match k with
  | KindDDL =>
      if decide (KindDDL ∈ span) then Some ddl_count_violation
      else if decide (KindDML ∈ span) then Some ddl_dml_violation else None
  | KindDML => if decide (KindDDL ∈ span) then Some ddl_dml_violation else None
  | _ => None
  end.

(** The first statement of a batch the rule refuses. *)
Fixpoint first_violation (now : Z) (kinds : list Kind) (x : Tx) : option Violation :=
  match kinds with
  | [] => None
  | k :: rest =>
      match allowed (span x) k with
      | Some v => Some v
      | None => first_violation now rest (tx_kind now x k)
      end
  end.

(** The transaction the batch joins has outlived the limit. *)
Definition expired (max now : Z) (x : Tx) : bool :=
  match explicit x with
  | Some began => (0 <? max) && (max <? time_sub now began)
  | None => false
  end.

(** The rule's answer to a batch. *)
Definition rule_answer (max now : Z) (kinds : list Kind) (x : Tx) : option Violation :=
  if decide (KindRollback ∈ kinds) then first_violation now kinds x
  else if expired max now x then Some (age_violation max)
  else first_violation now kinds x.

(** A BEGIN that begins: no explicit transaction is open and nothing has run yet
    in the implicit one it would take over. *)
Definition begins (x : Tx) : bool :=
  bool_decide (explicit x = None) && (count_ddl (span x) =? 0)%nat && negb (has_dml (span x)).

Fixpoint batch_well_begun (now : Z) (kinds : list Kind) (x : Tx) : bool :=
  match kinds with
  | [] => true
  | k :: rest =>
      (match k with KindBegin => begins x | _ => true end) &&
      batch_well_begun now rest (tx_kind now x k)
  end.

(** Every BEGIN of a history begins. *)
Fixpoint well_begun_from (bs : list (Z * list Kind)) (x : Tx) : bool :=
  match bs with
  | [] => true
  | b :: rest => batch_well_begun b.1 b.2 x && well_begun_from rest (tx_batch x b)
  end.

Definition well_begun (bs : list (Z * list Kind)) : bool := well_begun_from bs no_tx.

(** ** What a tracker admits of the batches submitted to it *)

Fixpoint admitted_from (t : Tracker) (bs : list (Z * list Kind)) : list (Z * list Kind) * Tracker :=
  match bs with
  | [] => ([], t)
  | (now, kinds) :: rest =>
      match Admit kinds now t with
      | (None, t') => let (adm, t'') := admitted_from t' rest in ((now, kinds) :: adm, t'')
      | (Some _, t') => admitted_from t' rest
      end
  end.

Definition admitted (l : Limits) (bs : list (Z * list Kind)) : list (Z * list Kind) :=
  (admitted_from (New l) bs).1.

Definition tracker_after (l : Limits) (bs : list (Z * list Kind)) : Tracker :=
  (admitted_from (New l) bs).2.

(** The counters a span leaves in the tracker. *)
Definition counts (span : list Kind) (ddl : Z) (dml : bool) : Prop :=
  ddl = Z.of_nat (count_ddl span) /\ dml = has_dml span.

Definition is_boundary (k : Kind) : bool :=
  match k with KindBegin | KindCommit | KindRollback => true | _ => false end.

(** ** Lemmas on spans *)

Lemma count_ddl_app s1 s2 : count_ddl (s1 ++ s2) = (count_ddl s1 + count_ddl s2)%nat.
Proof. unfold count_ddl. by rewrite filter_app, length_app. Qed.

Lemma count_ddl_one k : count_ddl [k] = match k with KindDDL => 1%nat | _ => 0%nat end.
Proof. by destruct k. Qed.

Lemma count_ddl_pos span : KindDDL ∈ span <-> (0 < count_ddl span)%nat.
Proof.
  unfold count_ddl. split.
  - intros Hin.
    assert (KindDDL ∈ filter (fun k => k = KindDDL) span) as Hf
      by by apply list_elem_of_filter.
    destruct (filter _ span); [by apply elem_of_nil in Hf | simpl; lia].
  - intros Hpos. destruct (filter (fun k => k = KindDDL) span) as [|k r] eqn:E; [simpl in Hpos; lia|].
    assert (k ∈ filter (fun k => k = KindDDL) span) as Hk by (rewrite E; left).
    apply list_elem_of_filter in Hk as [-> ?]. done.
Qed.

Lemma counts_nil : counts [] 0 false.
Proof. done. Qed.

Lemma span_ok_nil : span_ok [].
Proof. split; [cbn; lia|]. intros H. by apply elem_of_nil in H. Qed.

Lemma counts_extend span k ddl dml :
  counts span ddl dml -> is_boundary k = false ->
  counts (span ++ [k]) (match k with KindDDL => ddl + 1 | _ => ddl end)
    (match k with KindDML => true | _ => dml end).
Proof.
  intros [-> ->] Hk. unfold counts, has_dml. rewrite count_ddl_app, count_ddl_one.
  split; [destruct k; simpl; lia|].
  destruct k; try done; symmetry;
    try (apply bool_decide_ext; rewrite elem_of_app, list_elem_of_singleton; naive_solver).
  apply bool_decide_eq_true. rewrite elem_of_app, list_elem_of_singleton. auto.
Qed.

Lemma span_ok_extend span k :
  span_ok span -> is_boundary k = false -> allowed span k = None -> span_ok (span ++ [k]).
Proof.
  intros [Hc Hm] Hb Ha. unfold span_ok. rewrite count_ddl_app, count_ddl_one.
  pose proof (count_ddl_pos span) as Hp.
  rewrite !elem_of_app, !list_elem_of_singleton.
  destruct k; simpl in *; repeat case_decide; try done;
    (split; [rewrite ?Hp in *; lia | naive_solver]).
Qed.

#[export] Hint Resolve counts_nil span_ok_nil : dsql.

(** ** The tracker and the reference, statement by statement *)

(** Inside a batch the tracker's counters count the span, and its transaction is
    the explicit one. *)
Definition in_step (t : Tracker) (x : Tx) : Prop :=
  counts (span x) (ddlCount t) (dmlSeen t) /\
  explicit x = (if inTxn t then Some (beganAt t) else None).

(** Between batches the counters matter only while a transaction is open. *)
Definition tracked (t : Tracker) (x : Tx) : Prop :=
  in_step (if inTxn t then t else reset t) x /\ Forall span_ok (transactions x).

Lemma begins_counts x : begins x = true -> explicit x = None /\ counts (span x) 0 false.
Proof.
  unfold begins, counts. rewrite !andb_true_iff, bool_decide_eq_true, Nat.eqb_eq, negb_true_iff.
  intros [[-> ->] ->]. done.
Qed.

Lemma counts_allowed s ddl dml k :
  counts s ddl dml ->
  allowed s k =
    match k with
    | KindDDL => if 1 <=? ddl then Some ddl_count_violation
                 else if dml then Some ddl_dml_violation else None
    | KindDML => if 0 <? ddl then Some ddl_dml_violation else None
    | _ => None
    end.
Proof.
  intros [-> ->]. pose proof (count_ddl_pos s) as Hp. unfold has_dml.
  destruct k; simpl; try done.
  - case_decide as Hd; destruct (Z.ltb_spec 0 (Z.of_nat (count_ddl s))); try done;
      exfalso; rewrite Hp in Hd; lia.
  - case_decide as Hd; destruct (Z.leb_spec 1 (Z.of_nat (count_ddl s))); try done;
      try (exfalso; rewrite Hp in Hd; lia).
    case_bool_decide; by case_decide.
Qed.

Lemma record_kind_in_step now t x k :
  in_step t x -> (k = KindBegin -> begins x = true) ->
  in_step (record_kind now t k) (tx_kind now x k).
Proof.
  intros (Hc & Hx) Hbeg. unfold in_step. destruct (is_boundary k) eqn:Hk.
  - destruct k; try done. destruct (begins_counts x (Hbeg eq_refl)) as [He Hs].
    simpl. by rewrite He.
  - pose proof (counts_extend (span x) k _ _ Hc Hk) as Hc'. by destruct k.
Qed.

Lemma tx_kind_transactions now x k :
  Forall span_ok (transactions x) -> allowed (span x) k = None ->
  Forall span_ok (transactions (tx_kind now x k)).
Proof.
  unfold transactions. rewrite !Forall_app, !Forall_singleton. intros [Hd Hc] Ha.
  destruct (is_boundary k) eqn:Hk.
  - destruct k; simpl; try done; [by destruct (explicit x)| |];
      rewrite Forall_app, Forall_singleton; auto with dsql.
  - pose proof (span_ok_extend _ _ Hc Hk Ha). by destruct k.
Qed.

(** The batch check is the rule's reading of the batch. *)
Lemma check_kinds_violation now kinds : forall t x,
  in_step t x -> batch_well_begun now kinds x = true ->
  check_kinds kinds (ddlCount t) (dmlSeen t) = first_violation now kinds x.
Proof.
  induction kinds as [|k rest IH]; intros t x Ht Hw; [done|].
  simpl in Hw. apply andb_true_iff in Hw as [Hk Hw].
  assert (in_step (record_kind now t k) (tx_kind now x k)) as Ht'.
  { apply record_kind_in_step; [done|]. by intros ->. }
  specialize (IH _ _ Ht' Hw). destruct Ht as (Hc & _).
  cbn [check_kinds first_violation]. rewrite (counts_allowed _ _ _ k Hc), <- IH.
  destruct k; simpl; try done; by repeat case_match.
Qed.

Lemma record_batch now kinds : forall t x,
  in_step t x -> batch_well_begun now kinds x = true ->
  Forall span_ok (transactions x) -> first_violation now kinds x = None ->
  in_step (fold_left (record_kind now) kinds t) (fold_left (tx_kind now) kinds x) /\
  Forall span_ok (transactions (fold_left (tx_kind now) kinds x)).
Proof.
  induction kinds as [|k rest IH]; intros t x Ht Hw Hs Hv; [done|].
  simpl in Hw, Hv. apply andb_true_iff in Hw as [Hk Hw].
  destruct (allowed (span x) k) eqn:Ha; [done|]. simpl. apply IH; try done.
  - apply record_kind_in_step; [done|]. by intros ->.
  - by apply tx_kind_transactions.
Qed.

(** The end of a batch. *)
Lemma in_step_tracked t x :
  in_step t x -> Forall span_ok (transactions x) ->
  tracked t (match explicit x with Some _ => x | None => end_tx x end).
Proof.
  intros (Hc & Hx) Hs. rewrite Hx. unfold tracked. destruct (inTxn t) eqn:Hin; split; try done.
  - unfold in_step. by rewrite Hin, Hx.
  - unfold in_step. simpl. by rewrite Hin.
  - unfold transactions. simpl. apply Forall_app_2; auto with dsql.
Qed.

Lemma rolls_back_elem kinds : rolls_back kinds = bool_decide (KindRollback ∈ kinds).
Proof.
  unfold rolls_back. apply eq_true_iff_eq.
  rewrite existsb_exists, bool_decide_eq_true, list_elem_of_In. split.
  - intros (k & Hk & He). apply bool_decide_eq_true in He. by subst k.
  - intros H. exists KindRollback. split; [done | by apply bool_decide_eq_true].
Qed.

(** The outcome of [Admit] is the rule's answer. *)
Lemma Admit_rule kinds now t x :
  tracked t x -> (inTxn t = true -> beganAt t <> 0) -> batch_well_begun now kinds x = true ->
  (Admit kinds now t).1 = rule_answer (MaxAge (limits t)) now kinds x.
Proof.
  intros [Ht _] Hb Hw.
  assert (check_kinds kinds (ddlCount (if inTxn t then t else reset t))
            (dmlSeen (if inTxn t then t else reset t)) = first_violation now kinds x) as Hck
    by by apply check_kinds_violation.
  destruct Ht as (_ & Hx). unfold Admit, rule_answer, expired, too_old, is_zero_time.
  rewrite rolls_back_elem, Hx. revert Hx Hb Hck.
  destruct (inTxn t) eqn:Hin; simpl; rewrite Hin; simpl; intros _ Hb <-.
  - specialize (Hb eq_refl). apply Z.eqb_neq in Hb. rewrite Hb. simpl.
    case_bool_decide; case_decide; try done; simpl; rewrite ?andb_true_r; repeat case_match; try done.
  - rewrite andb_false_r. simpl. repeat case_match; done.
Qed.

Lemma Admit_refused kinds now t v t' :
  Admit kinds now t = (Some v, t') -> t' = if inTxn t then t else reset t.
Proof.
  unfold Admit. destruct (inTxn t) eqn:Hin; simpl; rewrite Hin; simpl;
    repeat case_match; intros; simplify_eq; by rewrite ?Hin.
Qed.

Lemma Admit_accepted kinds now t t' :
  Admit kinds now t = (None, t') ->
  check_kinds kinds (ddlCount (if inTxn t then t else reset t))
    (dmlSeen (if inTxn t then t else reset t)) = None /\
  t' = fold_left (record_kind now) kinds (if inTxn t then t else reset t).
Proof.
  unfold Admit. destruct (inTxn t) eqn:Hin; simpl; rewrite Hin; simpl;
    repeat case_match; intros; by simplify_eq/=.
Qed.

Lemma record_kinds_limits now kinds : forall t,
  limits (fold_left (record_kind now) kinds t) = limits t.
Proof.
  induction kinds as [|k rest IH]; intros t; [done|]. simpl. rewrite IH. by destruct k.
Qed.

Lemma Admit_limits kinds now t : limits (Admit kinds now t).2 = limits t.
Proof.
  destruct (Admit kinds now t) as [[v|] t'] eqn:HA; simpl.
  - apply Admit_refused in HA as ->. by destruct (inTxn t).
  - apply Admit_accepted in HA as [_ ->]. rewrite record_kinds_limits. by destruct (inTxn t).
Qed.

Lemma refused_tracked kinds now t v t' x :
  Admit kinds now t = (Some v, t') -> tracked t x -> tracked t' x.
Proof.
  intros ->%Admit_refused Ht. destruct (inTxn t) eqn:Hin; [done|].
  unfold tracked in *. simpl. by rewrite Hin in *.
Qed.

Lemma accepted_tracked kinds now t t' x :
  Admit kinds now t = (None, t') -> batch_well_begun now kinds x = true ->
  tracked t x -> tracked t' (tx_batch x (now, kinds)).
Proof.
  intros [Hck ->]%Admit_accepted Hw [Ht Hs]. unfold tx_batch.
  rewrite (check_kinds_violation now kinds _ x) in Hck by done.
  destruct (record_batch now kinds _ x Ht Hw Hs Hck). by apply in_step_tracked.
Qed.

(** A whole history. *)
Lemma admitted_tracked bs : forall t x,
  tracked t x ->
  well_begun_from (admitted_from t bs).1 x = true ->
  tracked (admitted_from t bs).2 (fold_left tx_batch (admitted_from t bs).1 x) /\
  limits (admitted_from t bs).2 = limits t.
Proof.
  induction bs as [|[now kinds] rest IH]; intros t x Ht Hw; [done|]. simpl in *.
  pose proof (Admit_limits kinds now t) as Hl.
  destruct (Admit kinds now t) as [[v|] t'] eqn:HA; simpl in Hl.
  - rewrite <- Hl. apply IH; [by eapply refused_tracked|done..].
  - destruct (admitted_from t' rest) as [adm t''] eqn:Hr. simpl in *.
    apply andb_true_iff in Hw as [Hb Hw]. rewrite <- Hl.
    specialize (IH t' (tx_batch x (now, kinds))). rewrite Hr in IH.
    apply IH; [by eapply accepted_tracked|done..].
Qed.

(** The transaction of a tracker began at a real instant. *)
Lemma record_kind_began now t k :
  now <> 0 -> (inTxn t = true -> beganAt t <> 0) ->
  inTxn (record_kind now t k) = true -> beganAt (record_kind now t k) <> 0.
Proof. by destruct k. Qed.

Lemma record_kinds_began now kinds : forall t,
  now <> 0 -> (inTxn t = true -> beganAt t <> 0) ->
  inTxn (fold_left (record_kind now) kinds t) = true ->
  beganAt (fold_left (record_kind now) kinds t) <> 0.
Proof.
  induction kinds as [|k rest IH]; intros t Hn Ht; [done|]. simpl. apply IH; [done|].
  by apply record_kind_began.
Qed.

Lemma admitted_began bs : forall t,
  Forall (fun b => b.1 <> 0) bs -> (inTxn t = true -> beganAt t <> 0) ->
  inTxn (admitted_from t bs).2 = true -> beganAt (admitted_from t bs).2 <> 0.
Proof.
  induction bs as [|[now kinds] rest IH]; intros t Hz Ht; [done|].
  apply Forall_cons in Hz as [Hn Hz]. simpl in *.
  destruct (Admit kinds now t) as [[v|] t'] eqn:HA.
  - apply IH; [done|]. apply Admit_refused in HA as ->. destruct (inTxn t) eqn:Hin; simpl; [by auto | congruence].
  - specialize (IH t' Hz). destruct (admitted_from t' rest). apply IH.
    apply Admit_accepted in HA as [_ ->]. apply record_kinds_began; [done|].
    destruct (inTxn t) eqn:Hin; simpl; [by auto | congruence].
Qed.

Lemma New_tracked l : tracked (New l) no_tx.
Proof.
  unfold tracked, in_step. simpl. split; [done|]. apply Forall_singleton, span_ok_nil.
Qed.

Lemma well_begun_from_app bs1 bs2 x :
  well_begun_from (bs1 ++ bs2) x = well_begun_from bs1 x && well_begun_from bs2 (fold_left tx_batch bs1 x).
Proof.
  revert x. induction bs1 as [|b bs1 IH]; intros x; simpl; [done|]. by rewrite IH, andb_assoc.
Qed.

(** The checks never mention the age. *)
Lemma check_kinds_not_age max kinds : forall ddl dml,
  check_kinds kinds ddl dml <> Some (age_violation max).
Proof.
  induction kinds as [|k rest IH]; intros ddl dml; simpl; [done|].
  repeat case_match; try done; eauto.
Qed.

(** ** Properties *)

(** C14: Whatever batches a session submits, at whatever instants, take those the
    tracker admits and read them as the upstream does.  If every BEGIN among them
    begins a transaction (none is sent inside one, or behind DDL or DML in the
    same string), every transaction holds at most one DDL statement and never
    mixes DDL with DML.  Where a BEGIN begins nothing the rule is lost:
    [nested_begin_breaks_the_rule]. *)
Theorem one_ddl_per_transaction (l : Limits) (bs : list (Z * list Kind)) :
  well_begun (admitted l bs) = true -> Forall span_ok (transactions (tx_run (admitted l bs))).
Proof.
  intros Hw. apply (admitted_tracked bs (New l) no_tx); [apply New_tracked | done..].
Qed.

(** C15: After any history [Admit] answers a batch exactly as the rule does,
    reading it against the transaction the upstream has open: the age violation
    for a batch with no ROLLBACK in an explicit transaction past the limit, and
    otherwise the first statement that would be a second DDL statement or mix DDL
    with DML.  The instants are real ones, and every BEGIN begins: see
    [nested_begin_breaks_the_rule]. *)
Theorem Admit_implements_rule (l : Limits) (bs : list (Z * list Kind)) (now : Z) (kinds : list Kind) :
  Forall (fun b => b.1 <> 0) bs ->
  well_begun (admitted l bs ++ [(now, kinds)]) = true ->
  (Admit kinds now (tracker_after l bs)).1 =
    rule_answer (MaxAge l) now kinds (tx_run (admitted l bs)).
Proof.
  intros Hz Hw. unfold well_begun in Hw. rewrite well_begun_from_app in Hw.
  apply andb_true_iff in Hw as [Hw Hb]. simpl in Hb. rewrite andb_true_r in Hb.
  destruct (admitted_tracked bs (New l) no_tx (New_tracked l) Hw) as [Ht Hl].
  pose proof (Admit_rule kinds now _ _ Ht (admitted_began bs (New l) Hz ltac:(done)) Hb) as H.
  unfold tracker_after. by rewrite Hl in H.
Qed.

(** a refused batch is invisible: whatever is submitted next is answered,
    and leaves the tracker, as if the refused batch had never been sent. *)
Theorem refused_batch_invisible kinds now t v t' kinds2 now2 :
  Admit kinds now t = (Some v, t') -> Admit kinds2 now2 t' = Admit kinds2 now2 t.
Proof.
  intros HA. apply Admit_refused in HA as ->.
  destruct (inTxn t) eqn:Hin; [done|]. unfold Admit. simpl. by rewrite Hin.
Qed.

(** C26: The age limit is exact: a batch is refused for its age precisely when a
    transaction is open that began at a real instant, a limit is set and more than
    it has passed, and no statement of the batch is a ROLLBACK.  A lone ROLLBACK is
    admitted at any age and leaves no transaction behind. *)
Theorem age_limit_exact kinds now t :
  ((Admit kinds now t).1 = Some (age_violation (MaxAge (limits t)))
     <-> inTxn t = true /\ beganAt t <> 0 /\ 0 < MaxAge (limits t) /\
         MaxAge (limits t) < time_sub now (beganAt t) /\ KindRollback ∉ kinds) /\
  (Admit [KindRollback] now t).1 = None /\ inTxn (Admit [KindRollback] now t).2 = false.
Proof.
  split; [|unfold Admit; by destruct (inTxn t) eqn:Hin].
  assert ((Admit kinds now t).1 = Some (age_violation (MaxAge (limits t))) <->
            negb (rolls_back kinds) && inTxn t && too_old t now = true) as ->.
  { pose proof (check_kinds_not_age (MaxAge (limits t)) kinds) as Hna. unfold Admit.
    destruct (inTxn t) eqn:Hin; simpl; rewrite Hin, ?andb_false_r; simpl;
      repeat case_match; naive_solver. }
  rewrite rolls_back_elem. unfold too_old, is_zero_time.
  rewrite !andb_true_iff, !negb_true_iff, bool_decide_eq_false, !Z.ltb_lt, Z.eqb_neq. tauto.
Qed.

(** ** Witnesses and examples *)

Definition thirty_minutes : Limits := mkLimits (1800 * second).

(** A tracker inside a transaction begun at instant 1. *)
Definition open_tracker : Tracker := mkTracker thirty_minutes true 1 0 false.

Lemma refused_batch_invisible_witness :
  Admit [KindDDL; KindDML] 5 open_tracker = (Some ddl_dml_violation, open_tracker) /\
  Admit [KindDDL] 6 open_tracker = Admit [KindDDL] 6 open_tracker.
Proof.
  split; [reflexivity|].
  apply (refused_batch_invisible [KindDDL; KindDML] 5 open_tracker ddl_dml_violation).
  reflexivity.
Defined.

(** BEGIN; DDL; (refused DML); COMMIT; DDL, each a batch of its own. *)
Definition some_history : list (Z * list Kind) :=
  [(1, [KindBegin]); (2, [KindDDL]); (3, [KindDML]); (4, [KindCommit]); (5, [KindDDL; KindSelect])].

Lemma one_ddl_per_transaction_witness :
  Forall span_ok (transactions (tx_run (admitted thirty_minutes some_history))) /\
  transactions (tx_run (admitted thirty_minutes some_history)) =
    [[KindDDL]; []; [KindDDL; KindSelect]; []].
Proof.
  split; [|reflexivity].
  apply (one_ddl_per_transaction thirty_minutes some_history). reflexivity.
Defined.

Lemma Admit_implements_rule_witness :
  let bs := [(1, [KindBegin]); (2, [KindDDL])] in
  (Admit [KindSelect; KindDDL] 3 (tracker_after thirty_minutes bs)).1 =
    rule_answer (MaxAge thirty_minutes) 3 [KindSelect; KindDDL] (tx_run (admitted thirty_minutes bs)) /\
  rule_answer (MaxAge thirty_minutes) 3 [KindSelect; KindDDL] (tx_run (admitted thirty_minutes bs)) =
    Some ddl_count_violation.
Proof.
  intros bs. split; [|reflexivity].
  apply (Admit_implements_rule thirty_minutes bs 3 [KindSelect; KindDDL]);
    [repeat constructor; discriminate | reflexivity].
Defined.

(** A second BEGIN starts the tracker's count over although the transaction it is
    sent in goes on: one transaction then holds two DDL statements, where the rule
    refuses the second.  The same happens to a BEGIN behind DDL in its own string. *)
Lemma nested_begin_breaks_the_rule :
  let bs := [(1, [KindBegin]); (2, [KindDDL]); (3, [KindBegin])] in
  (Admit [KindDDL] 4 (tracker_after thirty_minutes bs)).1 = None /\
  rule_answer (MaxAge thirty_minutes) 4 [KindDDL] (tx_run (admitted thirty_minutes bs)) =
    Some ddl_count_violation /\
  transactions (tx_run (admitted thirty_minutes (bs ++ [(4, [KindDDL])]))) = [[KindDDL; KindDDL]] /\
  transactions (tx_run (admitted thirty_minutes [(1, [KindDDL; KindBegin; KindDDL])])) =
    [[KindDDL; KindDDL]].
Proof. vm_compute. auto. Qed.

(** A refused batch outside a transaction does change the tracker: its counters
    are zeroed before it is looked at. *)
Lemma refused_batch_resets_counters :
  let t := (Admit [KindDDL] 1 (New thirty_minutes)).2 in
  let refused := Admit [KindDDL; KindDDL] 1 t in
  refused.1 = Some ddl_count_violation /\ DDLCount (Tracker_Stats t) = 1 /\
  DDLCount (Tracker_Stats refused.2) = 0.
Proof. vm_compute. auto. Qed.

Example age_message : vMessage (age_violation (MaxAge thirty_minutes)) =
  "transaction age of 30m0s exceeded".
Proof. reflexivity. Qed.
