(* ===== verification/Proto.v ===== *)
(** * Parse trees: the protobuf messages of libpg_query

    A parse tree reaches the program as protobuf messages.  The program reads
    them in two ways: through generated accessors, which are safe on an absent
    message and give the zero value of an unset field, and by reflection, which
    ranges over the populated fields of a message in no particular order.  A
    message here is its descriptor's name and its populated fields; a field's
    key is its name in the protobuf schema, so that [GetTableElts] reads
    "table_elts".  A [Node] message holds its single oneof field. *)

From Stdlib Require Import Ascii String.
From stdpp Require Import base numbers strings list.
From S2P Require Import Prelude.

Local Unset Elimination Schemes.

(** An enum value carries the name its [String] method prints. *)
Inductive msg :=
| Msg (descriptor : string) (populated : list (string * fval))
with fval :=
| FStr (s : string)
| FInt (z : Z)
| FBool (b : bool)
| FEnum (name : string)
| FMsg (m : msg)
| FList (ms : list msg).

Local Set Elimination Schemes.

Definition msg_name (m : msg) : string := match m with Msg n _ => n end.
Definition msg_fields (m : msg) : list (string * fval) := match m with Msg _ fs => fs end.

(** The messages directly below a field, and below a message. *)
Definition fval_children (v : fval) : list msg :=
  match v with
  | FMsg m => [m]
  | FList ms => ms
  | _ => []
  end.

Definition children (m : msg) : list msg :=
  flat_map (fun f => fval_children f.2) (msg_fields m).

Section msg_ind.
Variable P : msg -> Prop.
Hypothesis P_msg : forall n fs, Forall (fun f => Forall P (fval_children f.2)) fs -> P (Msg n fs).

Fixpoint msg_ind (m : msg) : P m :=
  match m with
  | Msg n fs =>
      P_msg n fs
        ((fix go_fields (fs : list (string * fval)) :
            Forall (fun f => Forall P (fval_children f.2)) fs :=
            match fs with
            | [] => Forall_nil_2 _
            | (k, v) :: rest =>
                Forall_cons_2 _ (k, v) rest
                  (match v return Forall P (fval_children v) with
                   | FMsg m' => Forall_cons_2 P m' [] (msg_ind m') (Forall_nil_2 P)
                   | FList ms =>
                       (fix go_list (ms : list msg) : Forall P ms :=
                          match ms with
                          | [] => Forall_nil_2 P
                          | m' :: ms' => Forall_cons_2 P m' ms' (msg_ind m') (go_list ms')
                          end) ms
                   | _ => Forall_nil_2 P
                   end)
                  (go_fields rest)
            end) fs)
  end.
End msg_ind.

(** ** Accessors *)

Fixpoint assoc {A} (k : string) (l : list (string * A)) : option A :=
  match l with
  | [] => None
  | (k', v) :: rest => if String.eqb k k' then Some v else assoc k rest
  end.

(** A populated field of a message that may be absent. *)
Definition field (k : string) (m : option msg) : option fval :=
  m ≫= fun m => assoc k (msg_fields m).

Definition get_msg (k : string) (m : option msg) : option msg :=
  match field k m with Some (FMsg m') => Some m' | _ => None end.

Definition get_list (k : string) (m : option msg) : list msg :=
  match field k m with Some (FList ms) => ms | _ => [] end.

Definition get_str (k : string) (m : option msg) : string :=
  match field k m with Some (FStr s) => s | _ => EmptyString end.

Definition get_int (k : string) (m : option msg) : Z :=
  match field k m with Some (FInt z) => z | _ => 0%Z end.

Definition get_bool (k : string) (m : option msg) : bool :=
  match field k m with Some (FBool b) => b | _ => false end.

(** The name of an enum field; [zero] is the name of the enum's zero value,
    which an unset field has. *)
Definition get_enum (k zero : string) (m : option msg) : string :=
  match field k m with Some (FEnum n) => n | _ => zero end.

(** Whether a message is a [Node], the type every statement and expression is
    wrapped in, and the name of the oneof field it holds. *)
Definition is_node (m : msg) : bool := String.eqb (msg_name m) "Node".

Definition oneof_name (m : msg) : string :=
  match msg_fields m with (k, _) :: _ => k | [] => EmptyString end.

(** ** The parser

    [pg_query] is a C library behind a Go binding: its entry points are
    parameters of the development.  [pg_parse] is the statements of a string,
    each possibly without a node, [pg_scan] its tokens, [pg_deparse] the text of
    one statement, and [pg_zero_enum] the name of each enum's zero value. *)

Inductive Token :=
| ASCII_59
| CREATE
| UNIQUE
| INDEX
| ALTER
| TABLE
| IDENT
| IF_P
| ON
| NUL
| OtherToken (n : Z).

#[export] Instance Token_eq_dec : EqDecision Token.
Proof. solve_decision. Defined.

(** A scanned token: its kind and the bytes it spans. *)
Record ScanToken := mkTok { tok : Token; tok_start : Z; tok_end : Z }.

Class PgQuery := {
  pg_parse : string -> option (list (option msg));
  pg_scan : string -> option (list ScanToken);
  pg_deparse : msg -> option string;
  pg_zero_enum : string -> string;
}.

(** ** Walks *)

(** Every message of a tree, the root first and the fields in the order they
    are ranged over. *)
Fixpoint walkMessages (m : msg) : list msg :=
  match m with
  | Msg n fs =>
      m :: (fix go_fields (fs : list (string * fval)) : list msg :=
              match fs with
              | [] => []
              | (_, v) :: rest =>
                  match v with
                  | FMsg m' => walkMessages m'
                  | FList ms =>
                      (fix go_list (ms : list msg) : list msg :=
                         match ms with
                         | [] => []
                         | m' :: ms' => walkMessages m' ++ go_list ms'
                         end) ms
                  | _ => []
                  end ++ go_fields rest
              end) fs
  end.

(** The [Node] messages of a tree, in visiting order. *)
Definition walkNodes (m : msg) : list msg := List.filter is_node (walkMessages m).

(** Rewrite the messages of a tree from the root down. *)
Fixpoint map_msg (f : string -> list (string * fval) -> list (string * fval)) (m : msg) : msg :=
  match m with
  | Msg n fs =>
      Msg n (f n ((fix go_fields (fs : list (string * fval)) : list (string * fval) :=
              match fs with
              | [] => []
              | (k, v) :: rest =>
                  (k, match v with
                      | FMsg m' => FMsg (map_msg f m')
                      | FList ms =>
                          FList ((fix go_list (ms : list msg) : list msg :=
                             match ms with
                             | [] => []
                             | m' :: ms' => map_msg f m' :: go_list ms'
                             end) ms)
                      | _ => v
                      end) :: go_fields rest
              end) fs))
  end.

(** ** Unfolding the recursions *)

Definition map_val (f : string -> list (string * fval) -> list (string * fval)) (v : fval) : fval :=
  match v with
  | FMsg m => FMsg (map_msg f m)
  | FList ms => FList (map (map_msg f) ms)
  | _ => v
  end.

Lemma walkMessages_children m : walkMessages m = m :: flat_map walkMessages (children m).
Proof.
  destruct m as [n fs]. simpl. f_equal. unfold children. simpl.
  induction fs as [|[k v] fs IH]; simpl; [done|].
  rewrite flat_map_app, IH. f_equal. destruct v; simpl; by rewrite ?app_nil_r.
Qed.

Lemma map_msg_unfold f n fs :
  map_msg f (Msg n fs) = Msg n (f n (map (fun kv => (kv.1, map_val f kv.2)) fs)).
Proof.
  simpl. do 2 f_equal. induction fs as [|[k v] fs IH]; simpl; [done|]. by rewrite IH.
Qed.

Lemma assoc_map {A B} (h : string * A -> string * B) (k : string) (l : list (string * A)) :
  (forall x, (h x).1 = x.1) -> assoc k (map h l) = (fun v => (h (k, v)).2) <$> assoc k l.
Proof.
  intros Hh. induction l as [|[k' v] l IH]; simpl; [done|].
  pose proof (Hh (k', v)) as Hk. destruct (h (k', v)) as [k2 w] eqn:E. simpl in Hk. subst.
  destruct (String.eqb_spec k k') as [->|]; [|done]. simpl. by rewrite E.
Qed.

(** A parser that knows the strings of a table, for concrete instances. *)
Definition table_pg (parses : list (string * list (option msg)))
    (scans : list (string * list ScanToken)) (deparse : msg -> option string) : PgQuery := {|
  pg_parse sql := assoc sql parses;
  pg_scan sql := assoc sql scans;
  pg_deparse := deparse;
  pg_zero_enum k := k +:+ "_UNDEFINED";
|}.
