(* ===== verification/Ruleset.v ===== *)
(** * The ruleset: [rules/rules.go]

    The description of what the dialect supports, and the validation every
    ruleset passes before it is used.  Decoding the YAML text is the library's;
    what is modelled is the value it decodes to. *)

From Stdlib Require Import Ascii String.
From stdpp Require Import base numbers strings gmap list.
From S2P Require Import Prelude GoStd.

Local Open Scope Z_scope.

(** A rule rejects a statement that matches every predicate it sets. *)
Record Rule := mkRule {
  ID : string;
  Stmt : string;
  Relpersistence : list string;
  ColumnType : list string;
  Objtype : list string;
  TxnKind : list string;
  SetName : list string;
  ColumnArray : bool;
  RemoveType : list string;
  RenameType : list string;
  Locking : list string;
  Function_ : list string;
  Contains : list string;
  VacuumKind : list string;
  ShowName : list string;
  AlterAction : list string;
  AddConstraintMissingNotValid : bool;
  AddConstraintType : list string;
  AddColumnConstraint : list string;
  LanguageNot : list string;
  IdentityTypeNot : list string;
  UnlessAsync : bool;
  SequenceCacheMin : option Z;
  IdentityCacheMin : option Z;
  CacheAllow : list Z;
  rCode : string;
  rMessage : string;
  Since : string;
}.

Record Isolation := mkIsolation { Supported : list string }.

Record TxnLimits := mkTxnLimits { DMLRowsPerTxn : Z; TxnAgeSeconds : Z }.

Record OCCInjection := mkInjection { injID : string; injTables : list string; Every : Z }.

Record OCC := mkOCC {
  Sources : list string;
  KeyColumnsOnlyFor : list string;
  occError : string;
  SQLState : string;
  Inject : list OCCInjection;
  LockTimeoutMS : Z;
}.

Record Ruleset := mkRuleset {
  DSQLVersion : string;
  Unsupported : list Rule;
  rsIsolation : Isolation;
  rsLimits : TxnLimits;
  rsOCC : OCC;
}.

(** ** Validation *)

Definition quoted (s : string) : string :=
  let q := String (Ascii.ascii_of_nat 34) EmptyString in q +:+ s +:+ q.

(** The error [validate] reports for one rule, given the ids seen before it. *)
Definition validate_rule (i : Z) (seen : gset string) (r : Rule) : option string :=
  if String.eqb (ID r) "" then Some ("ruleset: rule " +:+ itoa i +:+ " has no id")
  else if bool_decide (ID r ∈ seen) then Some ("ruleset: duplicate rule id " +:+ quoted (ID r))
  else if String.eqb (Stmt r) "" then Some ("ruleset: rule " +:+ quoted (ID r) +:+ " has no stmt")
  else if String.eqb (rCode r) "" then Some ("ruleset: rule " +:+ quoted (ID r) +:+ " has no code")
  else if String.eqb (rMessage r) ""
  then Some ("ruleset: rule " +:+ quoted (ID r) +:+ " has no message")
  else None.

(** Both lists of the ruleset are checked in order, each entry against the ids
    of the ones before it. *)
Fixpoint first_problem {A} (id : A -> string) (check : Z -> gset string -> A -> option string)
    (i : Z) (seen : gset string) (l : list A) : option string :=
  match l with
  | [] => None
  | x :: rest =>
      match check i seen x with
      | Some e => Some e
      | None => first_problem id check (i + 1) ({[id x]} ∪ seen) rest
      end
  end.

Definition validate_rules : list Rule -> option string := first_problem ID validate_rule 0 ∅.

Definition empty_table (t : string) : bool := String.eqb (trim_space t) "".

Definition validate_injection (i : Z) (seen : gset string) (inj : OCCInjection) : option string :=
  if String.eqb (injID inj) "" then Some ("ruleset: occ injection " +:+ itoa i +:+ " has no id")
  else if bool_decide (injID inj ∈ seen)
  then Some ("ruleset: duplicate occ injection id " +:+ quoted (injID inj))
  else if Every inj <? 0
  then Some ("ruleset: occ injection " +:+ quoted (injID inj) +:+ " has every " +:+
             itoa (Every inj) +:+ "; use 1 for every commit")
  else if existsb empty_table (injTables inj)
  then Some ("ruleset: occ injection " +:+ quoted (injID inj) +:+ " names an empty table")
  else None.

Definition validate_injections : list OCCInjection -> option string :=
  first_problem injID validate_injection 0 ∅.

Definition OCC_validate (o : OCC) : option string :=
  if LockTimeoutMS o <? 0
  then Some ("ruleset: occ.lock_timeout_ms is " +:+ itoa (LockTimeoutMS o) +:+
             "; use 0 to let the backend wait")
  else validate_injections (Inject o).

(** [validate] reports the first problem, or [None] for a sound ruleset. *)
Definition validate (rs : Ruleset) : option string :=
  if String.eqb (DSQLVersion rs) "" then Some "ruleset: dsql_version is required"
  else match Supported (rsIsolation rs) with
  | [] => Some "ruleset: isolation.supported must list at least one level"
  | _ =>
      match validate_rules (Unsupported rs) with
      | Some e => Some e
      | None => OCC_validate (rsOCC rs)
      end
  end.

(** [Load]: decoding is the YAML library's, and what it decodes is validated. *)
Definition Load (decode : string -> Ruleset + string) (text : string) : Ruleset + string :=
  match decode text with
  | inr e => inr ("decode ruleset: " +:+ e)
  | inl rs => match validate rs with Some e => inr e | None => inl rs end
  end.

(** ** What a validated ruleset guarantees *)

Definition rule_ok (r : Rule) : Prop :=
  ID r <> "" /\ Stmt r <> "" /\ rCode r <> "" /\ rMessage r <> "".

Definition injection_ok (inj : OCCInjection) : Prop :=
  injID inj <> "" /\ 0 <= Every inj /\ Forall (fun t => trim_space t <> "") (injTables inj).

Definition ruleset_ok (rs : Ruleset) : Prop :=
  DSQLVersion rs <> "" /\ Supported (rsIsolation rs) <> [] /\
  Forall rule_ok (Unsupported rs) /\ NoDup (map ID (Unsupported rs)) /\
  0 <= LockTimeoutMS (rsOCC rs) /\
  Forall injection_ok (Inject (rsOCC rs)) /\ NoDup (map injID (Inject (rsOCC rs))).

Lemma validate_rule_none i seen r :
  validate_rule i seen r = None <-> rule_ok r /\ ID r ∉ seen.
Proof.
  unfold validate_rule, rule_ok.
  destruct (String.eqb_spec (ID r) ""), (String.eqb_spec (Stmt r) ""),
    (String.eqb_spec (rCode r) ""), (String.eqb_spec (rMessage r) "");
    try case_bool_decide; naive_solver.
Qed.

Lemma first_problem_none {A} (id : A -> string) check (ok : A -> Prop) :
  (forall i seen x, check i seen x = None <-> ok x /\ id x ∉ seen) ->
  forall l i seen, first_problem id check i seen l = None <->
    Forall ok l /\ NoDup (map id l) /\ (forall x, x ∈ l -> id x ∉ seen).
Proof.
  intros Hcheck l. induction l as [|x l IH]; intros i seen; simpl.
  - split; [intros _ | done]. split_and!; [constructor|constructor|].
    intros r Hr. by apply elem_of_nil in Hr.
  - rewrite Forall_cons, NoDup_cons. destruct (check i seen x) eqn:Hx.
    + split; [done|]. intros ([Hok _] & _ & Hs). exfalso.
      assert (check i seen x = None); [|congruence].
      apply Hcheck. split; [done | apply Hs; left].
    + apply Hcheck in Hx as [Hok Hns]. rewrite IH.
      setoid_rewrite elem_of_cons. rewrite list_elem_of_fmap. split.
      * intros (Hf & Hnd & Hs). split_and!; try done.
        -- intros (y & He & Hy). apply Hs in Hy. set_solver.
        -- intros y [-> | Hy]; [done|]. apply Hs in Hy. set_solver.
      * intros ([_ Hf] & [Hni Hnd] & Hs). split_and!; try done.
        intros y Hy. rewrite not_elem_of_union, not_elem_of_singleton. split; [|auto].
        intros He. apply Hni. eauto.
Qed.

Lemma validate_injection_none i seen inj :
  validate_injection i seen inj = None <-> injection_ok inj /\ injID inj ∉ seen.
Proof.
  unfold validate_injection, injection_ok.
  assert (existsb empty_table (injTables inj) = false <->
          Forall (fun t => trim_space t <> "") (injTables inj)) as Ht.
  { rewrite existsb_false_iff, Forall_forall. unfold empty_table.
    setoid_rewrite String.eqb_neq. done. }
  destruct (String.eqb_spec (injID inj) ""), (Z.ltb_spec (Every inj) 0),
    (existsb empty_table (injTables inj)); try case_bool_decide; naive_solver lia.
Qed.


Lemma OCC_validate_none o :
  OCC_validate o = None <->
  0 <= LockTimeoutMS o /\ Forall injection_ok (Inject o) /\ NoDup (map injID (Inject o)).
Proof.
  unfold OCC_validate, validate_injections.
  rewrite <- Z.ltb_ge. destruct (LockTimeoutMS o <? 0); [naive_solver|].
  rewrite (first_problem_none _ _ _ validate_injection_none). set_solver.
Qed.

Lemma validate_none rs : validate rs = None <-> ruleset_ok rs.
Proof.
  unfold validate, ruleset_ok, validate_rules.
  destruct (String.eqb_spec (DSQLVersion rs) ""); [naive_solver|].
  destruct (Supported (rsIsolation rs)); [naive_solver|].
  destruct (first_problem _ _ _ _ _) eqn:Hr.
  - split; [done|]. intros (_ & _ & Hf & Hnd & _). exfalso.
    assert (first_problem ID validate_rule 0 ∅ (Unsupported rs) = None); [|congruence].
    apply (first_problem_none _ _ _ validate_rule_none). set_solver.
  - apply (first_problem_none _ _ _ validate_rule_none) in Hr as (Hf & Hnd & _).
    rewrite OCC_validate_none. naive_solver.
Qed.

(** ** Properties *)

(** Loading is exact: a text becomes a ruleset precisely when it decodes to
    one that names a version and an isolation level, in which every rule has an
    id of its own, a statement, a code and a message, and every injection an id
    of its own, a period that is not negative and no blank table.  The ruleset is
    then what was decoded, unaltered. *)
Theorem Load_exact decode text rs :
  Load decode text = inl rs <-> decode text = inl rs /\ ruleset_ok rs.
Proof.
  unfold Load. destruct (decode text) as [rs'|e]; [|naive_solver].
  destruct (validate rs') as [e|] eqn:Hv.
  - split; [done|]. intros [[= ->] Hok%validate_none]. congruence.
  - apply validate_none in Hv. naive_solver.
Qed.
