(* ===== verification/Eval.v ===== *)
(** * Rule evaluation: [internal/classify], [eval.go], [walk.go], [message.go]

    What a rule's predicates read out of a statement, when a rule matches one,
    and the message of the refusal.  Field keys and enum names are the schema's;
    a constant such as [AlterTableType_AT_AddColumn] is the name it prints. *)

From Stdlib Require Import Ascii String.
From stdpp Require Import base numbers strings list.
From S2P Require Import Prelude GoStd Proto Ruleset.

Local Open Scope Z_scope.

Definition contains (want : list string) (got : string) : bool :=
  existsb (fun w => String.eqb w got) want.

Definition containsInt (want : list Z) (got : Z) : bool :=
  existsb (fun w => Z.eqb w got) want.

Definition intersects (want got : list string) : bool :=
  existsb (fun g => contains want g) got.

Definition nonempty {A} (l : list A) : bool := match l with [] => false | _ => true end.

(** The statement or node a [Node] wraps, when it is of the given sort. *)
Definition stmt_of (k : string) (node : msg) : option msg := get_msg k (Some node).

Definition is_some {A} (o : option A) : bool := match o with Some _ => true | None => false end.

(** [s.GetSval()] of an optional [String] message, "" when it is absent. *)
Definition sval (m : option msg) : string := get_str "sval" m.

Definition last_msg (l : list msg) : option msg := last l.

Section eval.
Context {PG : PgQuery}.

Definition nodeType (node : msg) : string := oneof_name node.

Definition relpersistence (node : msg) : string :=
  let rel := get_msg "relation" (stmt_of "create_stmt" node) in
  let into_rel := get_msg "rel" (get_msg "into" (stmt_of "create_table_as_stmt" node)) in
  if is_some rel then get_str "relpersistence" rel
  else if is_some into_rel then get_str "relpersistence" into_rel
  else "".

Definition subtype (cmd : option msg) : string :=
  get_enum "subtype" (pg_zero_enum "AlterTableType") cmd.

Definition contype (con : option msg) : string :=
  get_enum "contype" (pg_zero_enum "ConstrType") con.

Definition AT_AddColumn : string := "AT_AddColumn".
Definition AT_AlterColumnType : string := "AT_AlterColumnType".
Definition AT_AddConstraint : string := "AT_AddConstraint".
Definition CONSTR_IDENTITY : string := "CONSTR_IDENTITY".
Definition CONSTR_CHECK : string := "CONSTR_CHECK".
Definition CONSTR_FOREIGN : string := "CONSTR_FOREIGN".

(** The [AlterTableCmd]s of an ALTER TABLE, the nodes that hold none skipped. *)
Definition alter_cmds (node : msg) : list msg :=
  omap (stmt_of "alter_table_cmd") (get_list "cmds" (stmt_of "alter_table_stmt" node)).

Definition columnDefs (node : msg) : list msg :=
  match stmt_of "create_stmt" node with
  | Some cs => omap (stmt_of "column_def") (get_list "table_elts" (Some cs))
  | None =>
      omap (fun cmd : msg =>
        if String.eqb (subtype (Some cmd)) AT_AddColumn
           || String.eqb (subtype (Some cmd)) AT_AlterColumnType
        then get_msg "column_def" (get_msg "def" (Some cmd)) else None)
      (alter_cmds node)
  end.

(** The type's own name, without the schema a built-in is qualified with. *)
Definition lastTypeName (name : option msg) : string :=
  match last_msg (get_list "names" name) with
  | Some n => sval (stmt_of "string" n)
  | None => ""
  end.

Definition columnTypes (node : msg) : list string :=
  omap (fun col : msg =>
    match get_msg "type_name" (Some col) with
    | None => None
    | Some name =>
        match last_msg (get_list "names" (Some name)) with
        | None => None
        | Some n => match stmt_of "string" n with
                    | Some s => Some (sval (Some s))
                    | None => None
                    end
        end
    end) (columnDefs node).

Definition lockingStrengths (node : msg) : list string :=
  omap (fun clause =>
    match stmt_of "locking_clause" clause with
    | Some lc => Some (get_enum "strength" (pg_zero_enum "LockClauseStrength") (Some lc))
    | None => None
    end) (get_list "locking_clause" (stmt_of "select_stmt" node)).

Definition alterActions (node : msg) : list string :=
  map (fun cmd => subtype (Some cmd)) (alter_cmds node).

Definition addsColumnWithConstraint (node : msg) (kinds : list string) : bool :=
  existsb (fun cmd =>
    String.eqb (subtype (Some cmd)) AT_AddColumn &&
    existsb (fun con =>
      match stmt_of "constraint" con with
      | Some c => contains kinds (contype (Some c))
      | None => false
      end)
      (get_list "constraints" (get_msg "column_def" (get_msg "def" (Some cmd)))))
    (alter_cmds node).

(** The constraint an ADD CONSTRAINT command carries. *)
Definition added_constraint (cmd : msg) : option msg :=
  if String.eqb (subtype (Some cmd)) AT_AddConstraint
  then get_msg "constraint" (get_msg "def" (Some cmd)) else None.

Definition addsConstraintOfType (node : msg) (kinds : list string) : bool :=
  existsb (fun cmd =>
    match added_constraint cmd with
    | None => false
    | Some c =>
        if negb (String.eqb (get_str "indexname" (Some c)) "") then false
        else contains kinds (contype (Some c))
    end) (alter_cmds node).

Definition addsConstraintWithoutValidation (node : msg) : bool :=
  existsb (fun cmd =>
    match added_constraint cmd with
    | None => false
    | Some c =>
        if get_bool "skip_validation" (Some c) then false
        else String.eqb (contype (Some c)) CONSTR_CHECK
             || String.eqb (contype (Some c)) CONSTR_FOREIGN
    end) (alter_cmds node).

Definition showName (node : msg) : string := get_str "name" (stmt_of "variable_show_stmt" node).

(** An enum of a statement that may not be there. *)
Definition stmt_enum (stmt_key k enum : string) (node : msg) : string :=
  match stmt_of stmt_key node with
  | Some s => get_enum k (pg_zero_enum enum) (Some s)
  | None => ""
  end.

Definition removeType (node : msg) : string := stmt_enum "drop_stmt" "remove_type" "ObjectType" node.

Definition renameType (node : msg) : string := stmt_enum "rename_stmt" "rename_type" "ObjectType" node.

Definition objtype (node : msg) : string :=
  stmt_enum "create_table_as_stmt" "objtype" "ObjectType" node.

Definition txnKind (node : msg) : string :=
  stmt_enum "transaction_stmt" "kind" "TransactionStmtKind" node.

Definition hasArrayColumn (node : msg) : bool :=
  existsb (fun col => nonempty (get_list "array_bounds" (get_msg "type_name" (Some col))))
    (columnDefs node).

Definition setParameter (node : msg) : string := get_str "name" (stmt_of "variable_set_stmt" node).

(** The first option of a list of [DefElem]s that has the name and a value of
    the sort [value] reads. *)
Fixpoint def_elem {A} (value : option msg -> option A) (name : string) (opts : list msg) : option A :=
  match opts with
  | [] => None
  | opt :: rest =>
      let de := stmt_of "def_elem" opt in
      if is_some de && String.eqb (get_str "defname" de) name
      then match value (get_msg "arg" de) with
           | Some v => Some v
           | None => def_elem value name rest
           end
      else def_elem value name rest
  end.

Definition functionLanguage (node : msg) : string :=
  match def_elem (fun arg => match get_msg "string" arg with
                             | Some s => Some (sval (Some s)) | None => None end)
          "language" (get_list "options" (stmt_of "create_function_stmt" node)) with
  | Some l => l
  | None => ""
  end.

Definition defElemInt (nodes : list msg) (name : string) : Z * bool :=
  match def_elem (fun arg => match get_msg "integer" arg with
                             | Some i => Some (get_int "ival" (Some i)) | None => None end)
          name nodes with
  | Some v => (v, true)
  | None => (0, false)
  end.

Definition sequenceCache (node : msg) : Z * bool :=
  match stmt_of "create_seq_stmt" node with
  | Some seq => defElemInt (get_list "options" (Some seq)) "cache"
  | None => (0, false)
  end.

(** The identity constraints of a column. *)
Definition identity_constraints (col : msg) : list msg :=
  List.filter (fun c => String.eqb (contype (Some c)) CONSTR_IDENTITY)
    (omap (stmt_of "constraint") (get_list "constraints" (Some col))).

Definition isIdentityColumn (col : msg) : bool := nonempty (identity_constraints col).

Definition identityColumnType (node : msg) (allowed : list string) : option string :=
  head (List.filter (fun written => negb (String.eqb written "" || contains allowed written))
    (map (fun col => lastTypeName (get_msg "type_name" (Some col)))
       (List.filter isIdentityColumn (columnDefs node)))).

Definition cacheTooSmall (cache : Z) (ok : bool) (min : Z) (allow : list Z) : bool :=
  if negb ok then true
  else if min <=? cache then false
  else negb (containsInt allow cache).

Definition hasSmallIdentityCache (node : msg) (min : Z) (allow : list Z) : bool :=
  existsb (fun col =>
    existsb (fun c => let '(cache, ok) := defElemInt (get_list "options" (Some c)) "cache" in
                      cacheTooSmall cache ok min allow)
      (identity_constraints col))
    (omap (stmt_of "column_def") (get_list "table_elts" (stmt_of "create_stmt" node))).

(** ** Walking a statement *)

Definition functionName (call : msg) : string :=
  match last_msg (get_list "funcname" (Some call)) with
  | Some n => sval (stmt_of "string" n)
  | None => ""
  end.

(** What [functionNames] collects at one node. *)
Definition calledName (n : msg) : option string :=
  match stmt_of "func_call" n with
  | Some call => if String.eqb (functionName call) "" then None else Some (functionName call)
  | None => None
  end.

Definition functionNames (node : msg) : list string := omap calledName (walkNodes node).

Definition containsNode (node : msg) (wanted : list string) : bool :=
  existsb (fun m => is_node m && contains wanted (nodeType m) || contains wanted (msg_name m))
    (walkMessages node).

Definition vacuumKind (node : msg) : string :=
  match stmt_of "vacuum_stmt" node with
  | None => ""
  | Some s => if get_bool "is_vacuumcmd" (Some s) then "VACUUM" else "ANALYZE"
  end.

(** ** Matching *)

(** One predicate of a rule: unset, or satisfied. *)
Definition pred {A} (set : list A) (holds : bool) : bool := negb (nonempty set) || holds.

Definition matches (r : Rule) (node : msg) : bool :=
  String.eqb (nodeType node) (Stmt r) &&
  pred (Relpersistence r) (contains (Relpersistence r) (relpersistence node)) &&
  pred (ColumnType r) (intersects (ColumnType r) (columnTypes node)) &&
  (negb (ColumnArray r) || hasArrayColumn node) &&
  pred (RemoveType r) (contains (RemoveType r) (removeType node)) &&
  pred (RenameType r) (contains (RenameType r) (renameType node)) &&
  pred (Locking r) (intersects (Locking r) (lockingStrengths node)) &&
  pred (Function_ r) (intersects (Function_ r) (functionNames node)) &&
  pred (Contains r) (containsNode node (Contains r)) &&
  pred (VacuumKind r) (contains (VacuumKind r) (vacuumKind node)) &&
  pred (ShowName r) (contains (ShowName r) (showName node)) &&
  pred (AlterAction r) (intersects (AlterAction r) (alterActions node)) &&
  (negb (AddConstraintMissingNotValid r) || addsConstraintWithoutValidation node) &&
  pred (AddConstraintType r) (addsConstraintOfType node (AddConstraintType r)) &&
  pred (AddColumnConstraint r) (addsColumnWithConstraint node (AddColumnConstraint r)) &&
  pred (Objtype r) (contains (Objtype r) (objtype node)) &&
  pred (TxnKind r) (contains (TxnKind r) (txnKind node)) &&
  pred (SetName r) (contains (SetName r) (setParameter node)) &&
  pred (LanguageNot r) (negb (contains (LanguageNot r) (functionLanguage node))) &&
  match SequenceCacheMin r with
  | Some min => let '(cache, ok) := sequenceCache node in cacheTooSmall cache ok min (CacheAllow r)
  | None => true
  end &&
  pred (IdentityTypeNot r) (is_some (identityColumnType node (IdentityTypeNot r))) &&
  match IdentityCacheMin r with
  | Some min => hasSmallIdentityCache node min (CacheAllow r)
  | None => true
  end.

(** ** Messages *)

Definition typePlaceholder : string := "{type}".
Definition languagePlaceholder : string := "{language}".

Definition canonical : list (string * string) :=
  [("int2", "smallint"); ("int4", "integer"); ("int8", "bigint"); ("float4", "real");
   ("float8", "double precision"); ("bool", "boolean"); ("varbit", "bit varying");
   ("bpchar", "character"); ("varchar", "character varying")].

Definition canonicalType (written : string) : string :=
  match assoc written canonical with Some name => name | None => written end.

(** What each predicate a rule sets names, and nothing when it names no type. *)
Definition refused_array (r : Rule) (node : msg) : option string :=
  if ColumnArray r
  then head (omap (fun col : msg =>
         match get_msg "type_name" (Some col) with
         | Some name => if nonempty (get_list "array_bounds" (Some name))
                        then Some (canonicalType (lastTypeName (Some name)) +:+ "[]") else None
         | None => None
         end) (columnDefs node))
  else None.

Definition refused_identity (r : Rule) (node : msg) : option string :=
  if nonempty (IdentityTypeNot r)
  then canonicalType <$> identityColumnType node (IdentityTypeNot r) else None.

Definition refused_column (r : Rule) (node : msg) : option string :=
  if nonempty (ColumnType r)
  then head (omap (fun col : msg =>
         match get_msg "type_name" (Some col) with
         | Some name => let written := lastTypeName (Some name) in
                        if contains (ColumnType r) written then Some (canonicalType written) else None
         | None => None
         end) (columnDefs node))
  else None.

Definition refused_function (r : Rule) (node : msg) : option string :=
  head (omap (fun called => if contains (Function_ r) called
                            then Some (canonicalType called) else None) (functionNames node)).

Definition or_else {A} (o : option A) (d : option A) : option A :=
  match o with Some x => Some x | None => d end.

Definition refusedType (r : Rule) (node : msg) : string :=
  default "" (or_else (refused_array r node)
             (or_else (refused_identity r node)
             (or_else (refused_column r node)
                      (refused_function r node)))).

Definition fill (r : Rule) (node : msg) : string :=
  let message := rMessage r in
  if negb (string_contains message "{") then message
  else
    let message := if string_contains message typePlaceholder
                   then replace_all message typePlaceholder (refusedType r node) else message in
    if string_contains message languagePlaceholder
    then replace_all message languagePlaceholder (functionLanguage node) else message.

End eval.
