(* ===== verification/Classify.v ===== *)
(** * The classifier: [internal/classify], [kind.go], [isolation.go], [classify.go]

    Parsing is the library's; a statement is classified by the isolation level
    it asks for, then by the first rule it matches, and otherwise by its kind.
    [ruleset_classifier] is the interface of [Kind.v], implemented. *)

From Stdlib Require Import Ascii String.
From stdpp Require Import base numbers strings list.
From S2P Require Import Prelude GoStd Kind Proto Ruleset Eval.

Local Open Scope Z_scope.

Definition ddlNodes : list string :=
  ["create_stmt"; "alter_table_stmt"; "drop_stmt"; "index_stmt"; "view_stmt";
   "create_seq_stmt"; "alter_seq_stmt"; "create_schema_stmt"; "grant_stmt"; "revoke_stmt";
   "comment_stmt"; "create_table_as_stmt"; "rename_stmt"; "alter_owner_stmt";
   "alter_object_schema_stmt"].

Definition relationName (rel : option msg) : list string :=
  if negb (is_some rel) || String.eqb (get_str "relname" rel) "" then []
  else [get_str "relname" rel].

Definition statementTables (node : msg) : list string :=
  match stmt_of "insert_stmt" node, stmt_of "update_stmt" node,
        stmt_of "delete_stmt" node, stmt_of "merge_stmt" node with
  | Some s, _, _, _ | None, Some s, _, _ | None, None, Some s, _ | None, None, None, Some s =>
      relationName (get_msg "relation" (Some s))
  | None, None, None, None => []
  end.

(** The string argument of the named [DefElem]. *)
Definition defElemValue (nodes : list msg) (name : string) : string :=
  default "" (def_elem (fun arg => match get_msg "sval" (get_msg "a_const" arg) with
                                   | Some s => Some (sval (Some s)) | None => None end)
                name nodes).

Definition isolationLevel (node : msg) : string :=
  match stmt_of "transaction_stmt" node with
  | Some ts => defElemValue (get_list "options" (Some ts)) "transaction_isolation"
  | None =>
      match stmt_of "variable_set_stmt" node with
      | None => ""
      | Some vs =>
          let name := get_str "name" (Some vs) in
          if String.eqb name "TRANSACTION" || String.eqb name "SESSION CHARACTERISTICS"
          then defElemValue (get_list "args" (Some vs)) "transaction_isolation"
          else if String.eqb name "transaction_isolation"
                  || String.eqb name "default_transaction_isolation"
          then match get_list "args" (Some vs) with
               | [] => ""
               | arg :: _ => sval (get_msg "sval" (stmt_of "a_const" arg))
               end
          else ""
      end
  end.

(** The unsupported level a statement asks for, upper-cased. *)
Definition unsupportedIsolation (node : msg) (supported : list string) : option string :=
  let level := isolationLevel node in
  if String.eqb level "" then None
  else if existsb (fun s => equal_fold s level) supported then None
  else Some (to_upper level).

Section classify.
Context {PG : PgQuery}.

Definition kindOf (node : msg) : Kind :=
  let t := nodeType node in
  if contains ["insert_stmt"; "update_stmt"; "delete_stmt"; "merge_stmt"] t then KindDML
  else if String.eqb t "select_stmt" then KindSelect
  else if String.eqb t "transaction_stmt" then
    let k := txnKind node in
    if contains ["TRANS_STMT_BEGIN"; "TRANS_STMT_START"] k then KindBegin
    else if String.eqb k "TRANS_STMT_COMMIT" then KindCommit
    else if String.eqb k "TRANS_STMT_ROLLBACK" then KindRollback
    else KindOther
  else if contains ddlNodes t then KindDDL
  else KindOther.

Definition isolation_verdict (level : string) : Verdict :=
  mkVerdict "isolation" "0A000" ("Unsupported isolation level: " +:+ level).

(** The first rule a statement matches; a rule that only asks for ASYNC is
    passed over for a statement that carried it. *)
Fixpoint first_match (async : bool) (rules : list Rule) (node : msg) : option Verdict :=
  match rules with
  | [] => None
  | r :: rest =>
      if UnlessAsync r && async then first_match async rest node
      else if matches r node then Some (mkVerdict (ID r) (rCode r) (fill r node))
      else first_match async rest node
  end.

(** What one statement is refused for. *)
Definition refusal (rs : Ruleset) (async : bool) (node : msg) : option Verdict :=
  match unsupportedIsolation node (Supported (rsIsolation rs)) with
  | Some level => Some (isolation_verdict level)
  | None => first_match async (Unsupported rs) node
  end.

Fixpoint classify_stmts (rs : Ruleset) (async : bool) (stmts : list (option msg)) (acc : Result) : Result :=
  match stmts with
  | [] => acc
  | None :: rest => classify_stmts rs async rest acc
  | Some node :: rest =>
      match refusal rs async node with
      | Some v => mkResult v [] []
      | None =>
          classify_stmts rs async rest
            (mkResult (verdict acc) (Kinds acc ++ [kindOf node]) (Tables acc ++ statementTables node))
      end
  end.

(** [Classify]; a parse error is no result. *)
Definition Classify (rs : Ruleset) (async : bool) (sql : string) : option Result :=
  match pg_parse sql with
  | None => None
  | Some stmts => Some (classify_stmts rs async stmts zero_result)
  end.

(** ** The reference: a string is its statements, each refused or admitted *)

Definition nodes_of (stmts : list (option msg)) : list msg := omap id stmts.

(** The first refusal among the statements, if any. *)
Definition first_refusal (rs : Ruleset) (async : bool) (stmts : list (option msg)) : option Verdict :=
  head (omap (refusal rs async) (nodes_of stmts)).

Definition classify_spec (rs : Ruleset) (async : bool) (stmts : list (option msg)) : Result :=
  match first_refusal rs async stmts with
  | Some v => mkResult v [] []
  | None => mkResult zero_verdict (map kindOf (nodes_of stmts))
              (flat_map statementTables (nodes_of stmts))
  end.

Lemma classify_stmts_acc rs async stmts v ks ts :
  classify_stmts rs async stmts (mkResult v ks ts) =
    match first_refusal rs async stmts with
    | Some v => mkResult v [] []
    | None => mkResult v (ks ++ map kindOf (nodes_of stmts))
                (ts ++ flat_map statementTables (nodes_of stmts))
    end.
Proof.
  unfold first_refusal. revert ks ts.
  induction stmts as [|[node|] rest IH]; intros ks ts; simpl.
  - by rewrite !app_nil_r.
  - destruct (refusal rs async node); [done|]. rewrite IH.
    simpl. by rewrite <- !app_assoc.
  - apply IH.
Qed.

Lemma Classify_spec rs async sql :
  Classify rs async sql = classify_spec rs async <$> pg_parse sql.
Proof.
  unfold Classify, classify_spec. destruct (pg_parse sql) as [stmts|]; [|done].
  simpl. unfold zero_result. by rewrite classify_stmts_acc.
Qed.

Lemma first_match_some async rules node v :
  first_match async rules node = Some v ->
  exists r, r ∈ rules /\ (UnlessAsync r && async) = false /\ matches r node = true /\
            v = mkVerdict (ID r) (rCode r) (fill r node).
Proof.
  induction rules as [|r rest IH]; simpl; [done|].
  destruct (UnlessAsync r && async) eqn:Ha; [|destruct (matches r node) eqn:Hm].
  - intros H. destruct (IH H) as (r' & ? & ?). exists r'. split; [by right|done].
  - intros [= <-]. exists r. split; [left|done].
  - intros H. destruct (IH H) as (r' & ? & ?). exists r'. split; [by right|done].
Qed.

Lemma first_match_none async rules node :
  first_match async rules node = None <->
  forall r, r ∈ rules -> (UnlessAsync r && async) = false -> matches r node = false.
Proof.
  induction rules as [|r rest IH]; simpl.
  - split; [|done]. intros _ r Hr. by apply elem_of_nil in Hr.
  - destruct (UnlessAsync r && async) eqn:Ha; [|destruct (matches r node) eqn:Hm].
    + rewrite IH. setoid_rewrite elem_of_cons. split; [|by auto].
      intros H r' [-> | Hr'] Hu; [congruence | by apply H].
    + split; [done|]. intros H. specialize (H r (list_elem_of_here _ _) Ha). congruence.
    + rewrite IH. setoid_rewrite elem_of_cons. split; [|by auto].
      intros H r' [-> | Hr'] Hu; [done | by apply H].
Qed.

(** A refusal by a validated ruleset carries a code, so it counts as one. *)
Lemma refusal_rejected rs async node v :
  ruleset_ok rs -> refusal rs async node = Some v -> Rejected v = true.
Proof.
  intros (_ & _ & Hf & _) Hr. unfold refusal in Hr.
  destruct (unsupportedIsolation _ _); [by simplify_eq|].
  apply first_match_some in Hr as (r & Hin & _ & _ & ->). unfold Rejected. simpl.
  rewrite Forall_forall in Hf. destruct (Hf r Hin) as (_ & _ & Hc & _).
  by apply negb_true_iff, String.eqb_neq.
Qed.

Lemma first_refusal_none rs async stmts :
  first_refusal rs async stmts = None <->
  forall node, Some node ∈ stmts -> refusal rs async node = None.
Proof.
  unfold first_refusal, nodes_of. induction stmts as [|[node|] rest IH]; simpl.
  - split; [|done]. intros _ n Hn. by apply elem_of_nil in Hn.
  - setoid_rewrite elem_of_cons. destruct (refusal rs async node) eqn:Hr.
    + split; [done|]. intros H. rewrite (H node) in Hr by auto. done.
    + rewrite IH. split; [|by auto]. intros H n [[= ->] | Hn]; auto.
  - setoid_rewrite elem_of_cons. rewrite IH. split; [|by auto].
    intros H n [Hn | Hn]; [done | auto].
Qed.

Lemma Classify_rejected_no_kinds rs async sql r :
  Classify rs async sql = Some r -> Rejected (verdict r) = true -> Kinds r = [].
Proof.
  rewrite Classify_spec. destruct (pg_parse sql); simpl; [|done]. intros [= <-].
  unfold classify_spec. by destruct (first_refusal _ _ _).
Qed.

#[export] Instance ruleset_classifier (rs : Ruleset) : StatementClassifier :=
  { classify := Classify rs; rejected_no_kinds := Classify_rejected_no_kinds rs }.

(** ** Properties *)

(** C16: What [Classify] accepts, against a validated ruleset.  A parsed string is
    not rejected exactly when none of its statements asks for an unsupported
    isolation level or matches a rule that applies to it, and then its kinds and
    tables are those of its statements, in order. *)
Theorem Classify_accepts_iff (rs : Ruleset) (async : bool) (sql : string) (stmts : list (option msg)) :
  ruleset_ok rs -> pg_parse sql = Some stmts ->
  exists r, Classify rs async sql = Some r /\
    (Rejected (verdict r) = false <->
       forall node, Some node ∈ stmts ->
         unsupportedIsolation node (Supported (rsIsolation rs)) = None /\
         forall rule, rule ∈ Unsupported rs -> (UnlessAsync rule && async) = false ->
           matches rule node = false) /\
    (Rejected (verdict r) = false ->
       Kinds r = map kindOf (nodes_of stmts) /\
       Tables r = flat_map statementTables (nodes_of stmts)).
Proof.
  intros Hok Hp. rewrite Classify_spec, Hp. simpl. eexists. split; [done|].
  assert (first_refusal rs async stmts = None <->
          forall node, Some node ∈ stmts ->
            unsupportedIsolation node (Supported (rsIsolation rs)) = None /\
            forall rule, rule ∈ Unsupported rs -> (UnlessAsync rule && async) = false ->
              matches rule node = false) as <-.
  { rewrite first_refusal_none. unfold refusal.
    split; intros H node Hn; specialize (H node Hn).
    - destruct (unsupportedIsolation _ _); [done|]. by rewrite <- first_match_none.
    - destruct H as [-> H]. by apply first_match_none. }
  unfold classify_spec. destruct (first_refusal rs async stmts) as [v|] eqn:Hf; simpl.
  - assert (Rejected v = true) as ->; [|done].
    unfold first_refusal in Hf. destruct (omap _ _) as [|v' vs] eqn:Ho; simplify_eq/=.
    assert (v ∈ omap (refusal rs async) (nodes_of stmts)) as Hv by (rewrite Ho; left).
    apply list_elem_of_omap in Hv as (node & _ & Hr). by eapply refusal_rejected.
  - done.
Qed.

End classify.
