(* ===== verification/DefaultRules.v ===== *)
(** * The embedded ruleset: [rules/dsql-2026.09.yaml]

    The rules in the file's order, each with the predicates it sets under the
    keys the file uses, and what they guarantee of every classification. *)

From Stdlib Require Import Ascii String.
From stdpp Require Import base numbers strings list.
From S2P Require Import Prelude GoStd Kind Proto Ruleset Eval Classify.

Local Open Scope Z_scope.

(** A predicate's value as the file writes it. *)
Inductive yaml :=
| YStrs (l : list string)
| YInts (l : list Z)
| YInt (z : Z)
| YBool (b : bool).

Definition ystrs (k : string) (fs : list (string * yaml)) : list string :=
  match assoc k fs with Some (YStrs l) => l | _ => [] end.
Definition yints (k : string) (fs : list (string * yaml)) : list Z :=
  match assoc k fs with Some (YInts l) => l | _ => [] end.
Definition yint (k : string) (fs : list (string * yaml)) : option Z :=
  match assoc k fs with Some (YInt z) => Some z | _ => None end.
Definition ybool (k : string) (fs : list (string * yaml)) : bool :=
  match assoc k fs with Some (YBool b) => b | _ => false end.

(** A rule as it decodes: the keys are the field tags of the [Rule] struct. *)
Definition rule (id stmt : string) (fs : list (string * yaml)) (code message : string) : Rule :=
  {| ID := id;
     Stmt := stmt;
     Relpersistence := ystrs "relpersistence" fs;
     ColumnType := ystrs "column_type" fs;
     Objtype := ystrs "objtype" fs;
     TxnKind := ystrs "txn_kind" fs;
     SetName := ystrs "set_name" fs;
     ColumnArray := ybool "column_array" fs;
     RemoveType := ystrs "remove_type" fs;
     RenameType := ystrs "rename_type" fs;
     Locking := ystrs "locking" fs;
     Function_ := ystrs "function" fs;
     Contains := ystrs "contains" fs;
     VacuumKind := ystrs "vacuum_kind" fs;
     ShowName := ystrs "show_name" fs;
     AlterAction := ystrs "alter_action" fs;
     AddConstraintMissingNotValid := ybool "add_constraint_missing_not_valid" fs;
     AddConstraintType := ystrs "add_constraint_type" fs;
     AddColumnConstraint := ystrs "add_column_constraint" fs;
     LanguageNot := ystrs "language_not" fs;
     IdentityTypeNot := ystrs "identity_type_not" fs;
     UnlessAsync := ybool "unless_async" fs;
     SequenceCacheMin := yint "sequence_cache_min" fs;
     IdentityCacheMin := yint "identity_cache_min" fs;
     CacheAllow := yints "cache_allow" fs;
     rCode := code;
     rMessage := message;
     Since := "" |}.

Definition default_rules : list Rule :=
  [rule "truncate" "truncate_stmt" [] "0A000"
      "unsupported statement: Truncate";
   rule "extensions" "create_extension_stmt" [] "0A000"
      "unsupported statement: CreateExtension";
   rule "triggers" "create_trig_stmt" [] "0A000"
      "CREATE TRIGGER not supported";
   rule "create_database" "createdb_stmt" [] "0A000"
      "unsupported statement: Createdb";
   rule "temporary_table" "create_stmt" [("relpersistence", YStrs ["t"])] "0A000"
      "TEMPORARY or TEMP table not supported for CREATE TABLE";
   rule "unlogged_table" "create_stmt" [("relpersistence", YStrs ["u"])] "0A000"
      "UNLOGGED table not supported for CREATE TABLE";
   rule "serial" "create_stmt" [("column_type", YStrs ["serial"; "bigserial"; "smallserial"])]
      "42704"
      ("type " +:+ quoted "serial" +:+ " does not exist");
   rule "serial_alter_column" "alter_table_stmt" [("column_type", YStrs ["serial"; "bigserial";
      "smallserial"])] "42704"
      ("type " +:+ quoted "serial" +:+ " does not exist");
   rule "identity_cache" "create_stmt" [("identity_cache_min", YInt 65536); ("cache_allow",
      YInts [1])] "0A000"
      "identity column is not supported without an explicit cache size. please define CACHE greater than or equal to 65536 or equal to 1";
   rule "identity_type" "create_stmt" [("identity_type_not", YStrs ["int8"])] "0A000"
      "datatype {type} not supported, identity column type must be bigint";
   rule "alter_add_column_constraint" "alter_table_stmt" [("add_column_constraint", YStrs
      ["CONSTR_NOTNULL"; "CONSTR_DEFAULT"; "CONSTR_CHECK"; "CONSTR_UNIQUE"; "CONSTR_IDENTITY";
      "CONSTR_PRIMARY"; "CONSTR_FOREIGN"])] "0A000"
      "ALTER TABLE ADD COLUMN with constraint not supported";
   rule "unsupported_type" "create_stmt" [("column_type", YStrs ["money"; "xml"; "inet";
      "cidr"; "macaddr"; "macaddr8"; "point"; "line"; "lseg"; "box"; "path"; "polygon"; "circle";
      "tsvector"; "tsquery"; "int4range"; "int8range"; "numrange"; "tsrange"; "tstzrange";
      "daterange"; "bit"; "varbit"; "pg_lsn"])] "0A000"
      "datatype {type} not supported";
   rule "alter_column_type" "alter_table_stmt" [("alter_action", YStrs ["AT_AlterColumnType"])]
      "0A000"
      "unsupported ALTER TABLE ALTER COLUMN ... SET DATA TYPE statement";
   rule "unsupported_type_alter_column" "alter_table_stmt" [("column_type", YStrs ["money";
      "xml"; "inet"; "cidr"; "macaddr"; "macaddr8"; "point"; "line"; "lseg"; "box"; "path";
      "polygon"; "circle"; "tsvector"; "tsquery"; "int4range"; "int8range"; "numrange"; "tsrange";
      "tstzrange"; "daterange"; "bit"; "varbit"; "pg_lsn"])] "0A000"
      "datatype {type} not supported";
   rule "array_column" "create_stmt" [("column_array", YBool true)] "0A000"
      "datatype {type} not supported";
   rule "array_column_alter_column" "alter_table_stmt" [("column_array", YBool true)] "0A000"
      "datatype {type} not supported";
   rule "alter_enum" "alter_enum_stmt" [] "0A000"
      "ALTER TYPE not supported";
   rule "rename_type" "rename_stmt" [("rename_type", YStrs ["OBJECT_TYPE"])] "0A000"
      "unsupported object in RENAME statement";
   rule "drop_type" "drop_stmt" [("remove_type", YStrs ["OBJECT_TYPE"])] "0A000"
      "unsupported object in DROP statement";
   rule "unsupported_text_search" "select_stmt" [("function", YStrs ["to_tsvector";
      "to_tsquery"; "plainto_tsquery"; "phraseto_tsquery"; "websearch_to_tsquery"; "ts_rank";
      "ts_headline"; "setweight"])] "42704"
      ("text search configuration " +:+ quoted "english" +:+ " does not exist");
   rule "unsupported_geometry" "select_stmt" [("function", YStrs ["line"; "circle"; "polygon";
      "box"; "path"; "lseg"; "center"; "radius"])] "0A000"
      "datatype {type} not supported";
   rule "unsupported_locking" "select_stmt" [("locking", YStrs ["LCS_FORSHARE";
      "LCS_FORNOKEYUPDATE"])] "0A000"
      "locking clauses other than FOR UPDATE/FOR KEY SHARE are not supported";
   rule "materialized_view" "create_table_as_stmt" [("objtype", YStrs ["OBJECT_MATVIEW"])]
      "0A000"
      "unsupported statement: CreateTableAs";
   rule "create_table_as" "create_table_as_stmt" [("objtype", YStrs ["OBJECT_TABLE"])] "0A000"
      "unsupported statement: CreateTableAs";
   rule "enum_type" "create_enum_stmt" [] "0A000"
      "CREATE TYPE not supported";
   rule "composite_type" "composite_type_stmt" [] "0A000"
      "unsupported statement: CompositeType";
   rule "range_type" "create_range_stmt" [] "0A000"
      "unsupported statement: CreateRange";
   rule "sequence_cache" "create_seq_stmt" [("sequence_cache_min", YInt 65536); ("cache_allow",
      YInts [1])] "0A000"
      "CREATE SEQUENCE is not supported without an explicit cache size. please define CACHE greater than or equal to 65536 or equal to 1";
   rule "tablespace" "create_table_space_stmt" [] "0A000"
      "unsupported statement: CreateTableSpace";
   rule "foreign_table" "create_foreign_table_stmt" [] "0A000"
      "unsupported statement: CreateForeignTable";
   rule "vacuum" "vacuum_stmt" [("vacuum_kind", YStrs ["VACUUM"])] "0A000"
      "unsupported VACUUM statement";
   rule "tablesample" "select_stmt" [("contains", YStrs ["RangeTableSample"])] "0A000"
      "TABLESAMPLE clause not supported";
   rule "alter_add_constraint_requires_not_valid" "alter_table_stmt"
      [("add_constraint_missing_not_valid", YBool true)] "0A000"
      "unsupported ALTER TABLE ADD CONSTRAINT statement";
   rule "alter_add_key_constraint" "alter_table_stmt" [("add_constraint_type", YStrs
      ["CONSTR_PRIMARY"; "CONSTR_UNIQUE"])] "0A000"
      "unsupported ALTER TABLE ADD CONSTRAINT statement";
   rule "alter_validate_requires_async" "alter_table_stmt" [("alter_action", YStrs
      ["AT_ValidateConstraint"]); ("unless_async", YBool true)] "0A000"
      "unsupported ALTER TABLE VALIDATE CONSTRAINT statement";
   rule "merge" "merge_stmt" [] "0A000"
      "unsupported statement type: MERGE";
   rule "show_lc_collate" "variable_show_stmt" [("show_name", YStrs ["lc_collate"])] "42704"
      ("unrecognized configuration parameter " +:+ quoted "lc_collate");
   rule "listen" "listen_stmt" [] "0A000"
      "unsupported statement: Listen";
   rule "notify" "notify_stmt" [] "0A000"
      "unsupported statement: Notify";
   rule "unlisten" "unlisten_stmt" [] "0A000"
      "unsupported statement: Unlisten";
   rule "alter_system" "alter_system_stmt" [] "0A000"
      "unsupported statement: AlterSystem";
   rule "set_transaction" "variable_set_stmt" [("set_name", YStrs ["TRANSACTION";
      "SESSION CHARACTERISTICS"])] "0A000"
      ("setting configuration parameter " +:+ quoted "TRANSACTION" +:+ " not supported");
   rule "set_isolation" "variable_set_stmt" [("set_name", YStrs ["transaction_isolation";
      "default_transaction_isolation"])] "0A000"
      ("setting configuration parameter " +:+ quoted "default_transaction_isolation" +:+ " not supported");
   rule "sync_index" "index_stmt" [("unless_async", YBool true)] "0A000"
      "unsupported mode. please use CREATE INDEX ASYNC.";
   rule "savepoint" "transaction_stmt" [("txn_kind", YStrs ["TRANS_STMT_SAVEPOINT"])] "0A000"
      "unsupported transaction statement: SAVEPOINT";
   rule "release_savepoint" "transaction_stmt" [("txn_kind", YStrs ["TRANS_STMT_RELEASE"])]
      "0A000"
      "unsupported transaction statement: RELEASE";
   rule "rollback_to_savepoint" "transaction_stmt" [("txn_kind", YStrs
      ["TRANS_STMT_ROLLBACK_TO"])] "0A000"
      "unsupported transaction statement: ROLLBACK TO";
   rule "create_function_language" "create_function_stmt" [("language_not", YStrs ["sql"])]
      "0A000"
      "CREATE FUNCTION with language {language} not supported"].

Definition default_occ : OCC :=
  {| Sources := ["write_write"; "select_for_update"; "select_for_key_share"; "fk_key_share"];
     KeyColumnsOnlyFor := ["fk_key_share"];
     occError := "change conflicts with another transaction (OC000)";
     SQLState := "40001";
     Inject := [];
     LockTimeoutMS := 50 |}.

Definition default_ruleset : Ruleset :=
  {| DSQLVersion := "2026.09";
     Unsupported := default_rules;
     rsIsolation := mkIsolation ["repeatable read"];
     rsLimits := mkTxnLimits 3000 1800;
     rsOCC := default_occ |}.

Lemma default_ruleset_validates : validate default_ruleset = None.
Proof. vm_compute. reflexivity. Qed.

Lemma default_ruleset_ok : ruleset_ok default_ruleset.
Proof. apply validate_none, default_ruleset_validates. Qed.

(** The statements a rule with no predicate refuses whatever they hold, and the
    ones that would reach the session's own savepoint. *)
Definition refused_outright : list string :=
  ["truncate_stmt"; "create_extension_stmt"; "create_trig_stmt"; "createdb_stmt";
   "alter_enum_stmt"; "create_enum_stmt"; "composite_type_stmt"; "create_range_stmt";
   "create_table_space_stmt"; "create_foreign_table_stmt"; "merge_stmt"; "listen_stmt";
   "notify_stmt"; "unlisten_stmt"; "alter_system_stmt"].

Definition savepoint_kinds : list string :=
  ["TRANS_STMT_SAVEPOINT"; "TRANS_STMT_RELEASE"; "TRANS_STMT_ROLLBACK_TO"].

Section default_rules_facts.
Context {PG : PgQuery}.

Definition refused_always (node : msg) : Prop :=
  nodeType node ∈ refused_outright \/
  nodeType node = "transaction_stmt" /\ txnKind node ∈ savepoint_kinds.

Lemma first_match_matching async rules node r :
  r ∈ rules -> UnlessAsync r = false -> matches r node = true ->
  first_match async rules node <> None.
Proof.
  intros Hin Hu Hm Hn. rewrite first_match_none in Hn.
  specialize (Hn r Hin). rewrite Hu in Hn. specialize (Hn eq_refl). congruence.
Qed.

(** A statement some rule matches makes the whole string rejected. *)
Lemma matching_rule_rejects rs async sql stmts node r res :
  ruleset_ok rs -> pg_parse sql = Some stmts -> Some node ∈ stmts ->
  r ∈ Unsupported rs -> UnlessAsync r = false -> matches r node = true ->
  Classify rs async sql = Some res -> Rejected (verdict res) = true.
Proof.
  intros Hok Hp Hn Hr Hu Hm Hc.
  rewrite Classify_spec, Hp in Hc. simplify_eq/=. unfold classify_spec.
  destruct (first_refusal rs async stmts) as [v|] eqn:Hf; simpl.
  - unfold first_refusal in Hf. destruct (omap _ _) as [|v' vs] eqn:Ho; simplify_eq/=.
    assert (v ∈ omap (refusal rs async) (nodes_of stmts)) as Hv by (rewrite Ho; left).
    apply list_elem_of_omap in Hv as (n & _ & Hrn). by eapply refusal_rejected.
  - rewrite first_refusal_none in Hf. specialize (Hf node Hn). unfold refusal in Hf.
    destruct (unsupportedIsolation _ _); [done|].
    by apply (first_match_matching async _ node r) in Hf.
Qed.

(** A rule that sets no predicate but the transaction kind matches on the node
    type and that kind alone. *)
Lemma matches_kind id stmt kinds code message node :
  nodeType node = stmt -> contains kinds (txnKind node) = true ->
  matches (rule id stmt [("txn_kind", YStrs kinds)] code message) node = true.
Proof.
  intros Hs Hk. unfold matches. cbn -[contains nodeType txnKind].
  rewrite Hs, String.eqb_refl. unfold pred. rewrite Hk. simpl.
  by rewrite !orb_true_r.
Qed.

Lemma matches_bare id stmt code message node :
  nodeType node = stmt -> matches (rule id stmt [] code message) node = true.
Proof.
  intros Hs. unfold matches. cbn -[nodeType]. by rewrite Hs, String.eqb_refl.
Qed.

Lemma refused_always_matched node :
  refused_always node ->
  exists r, r ∈ default_rules /\ UnlessAsync r = false /\ matches r node = true.
Proof.
  intros [Hn | [Hn Hk]].
  - unfold refused_outright in Hn. repeat (apply elem_of_cons in Hn as [Hn | Hn]);
      [..|by apply elem_of_nil in Hn];
      (eexists; split_and!; [| |by eapply matches_bare];
       [unfold default_rules; repeat (first [by left | right]) | done]).
  - unfold savepoint_kinds in Hk. repeat (apply elem_of_cons in Hk as [Hk | Hk]);
      [..|by apply elem_of_nil in Hk];
      (eexists; split_and!;
       [| |eapply (matches_kind _ _ [txnKind node]); [done|by simpl; rewrite String.eqb_refl]];
       [rewrite Hk; unfold default_rules; repeat (first [by left | right]) | done]).
Qed.

(** C17: Under the embedded ruleset, a string holding any statement of a kind the
    dialect refuses outright, or any SAVEPOINT, RELEASE or ROLLBACK TO, is
    rejected, with or without ASYNC and whatever else it holds; so no client can
    reach the savepoint the session keeps for itself. *)
Theorem refused_statements_rejected async sql stmts node res :
  pg_parse sql = Some stmts -> Some node ∈ stmts -> refused_always node ->
  Classify default_ruleset async sql = Some res -> Rejected (verdict res) = true.
Proof.
  intros Hp Hn Hr Hc. destruct (refused_always_matched node Hr) as (r & Hin & Hu & Hm).
  eapply matching_rule_rejects; eauto using default_ruleset_ok.
Qed.

End default_rules_facts.

(** ** Instances *)

Definition truncate_stmt : msg := Msg "Node" [("truncate_stmt", FMsg (Msg "TruncateStmt" []))].
Definition select_stmt : msg := Msg "Node" [("select_stmt", FMsg (Msg "SelectStmt" []))].

Definition two_statements : PgQuery :=
  table_pg [("SELECT 1; TRUNCATE t", [Some select_stmt; Some truncate_stmt])] [] (fun _ => None).

Lemma refused_statements_rejected_witness :
  let res := default zero_result (@Classify two_statements default_ruleset false "SELECT 1; TRUNCATE t") in
  RuleID (verdict res) = "truncate" /\ Rejected (verdict res) = true.
Proof.
  intros res. split; [vm_compute; reflexivity|].
  apply (@refused_statements_rejected two_statements false "SELECT 1; TRUNCATE t"
           [Some select_stmt; Some truncate_stmt] truncate_stmt).
  - reflexivity.
  - right. left.
  - left. left.
  - vm_compute. reflexivity.
Defined.

Lemma Classify_accepts_iff_witness :
  exists r, @Classify two_statements default_ruleset false "SELECT 1; TRUNCATE t" = Some r /\
    Rejected (verdict r) = true.
Proof.
  destruct (@Classify_accepts_iff two_statements default_ruleset false "SELECT 1; TRUNCATE t"
              [Some select_stmt; Some truncate_stmt] default_ruleset_ok eq_refl) as (r & Hr & _).
  exists r. split; [exact Hr|]. vm_compute in Hr. injection Hr as <-. reflexivity.
Defined.
