(* ===== verification/Reorder.v ===== *)
(** * Classification does not depend on reflection's field order

    [protoreflect.Message.Range] visits the populated fields of a message in no
    specified order.  [reordered] relates two parse trees that differ only in
    that order; every predicate a rule can set is a [Proper] function for it, and
    so are matching and the verdict's rule and code. *)

From Stdlib Require Import Ascii String.
From stdpp Require Import base numbers strings sets list.
From S2P Require Import Prelude GoStd Kind Proto Ruleset Eval Classify DefaultRules.

Local Unset Elimination Schemes.

(** A well-formed message has one value per field, and a [Node] one field. *)
Inductive reordered : msg -> msg -> Prop :=
| reordered_msg n fs fs' gs :
    NoDup (map fst fs') -> (n = "Node" -> (length fs' <= 1)%nat) ->
    Forall2 (fun f g => f.1 = g.1 /\ reordered_val f.2 g.2) fs fs' ->
    fs' ≡ₚ gs ->
    reordered (Msg n fs) (Msg n gs)
with reordered_val : fval -> fval -> Prop :=
| reordered_str s : reordered_val (FStr s) (FStr s)
| reordered_int z : reordered_val (FInt z) (FInt z)
| reordered_bool b : reordered_val (FBool b) (FBool b)
| reordered_enum n : reordered_val (FEnum n) (FEnum n)
| reordered_one m m' : reordered m m' -> reordered_val (FMsg m) (FMsg m')
| reordered_list ms ms' : Forall2 reordered ms ms' -> reordered_val (FList ms) (FList ms').

Local Set Elimination Schemes.

Abbreviation oreordered := (option_Forall2 reordered).
Abbreviation lreordered := (Forall2 reordered).

Create HintDb reord.

(** ** Accessors *)

Lemma assoc_perm {A} (k : string) (l l' : list (string * A)) :
  l ≡ₚ l' -> NoDup (map fst l) -> assoc k l = assoc k l'.
Proof.
  induction 1 as [|[k1 v] l l' Hp IH|[k1 v] [k2 w] l|l1 l2 l3 H12 IH12 H23 IH23]; simpl; intros Hnd.
  - done.
  - apply NoDup_cons in Hnd as [_ Hnd]. by rewrite IH.
  - apply NoDup_cons in Hnd as [Hni _].
    destruct (String.eqb_spec k k1), (String.eqb_spec k k2); try done.
    subst. exfalso. apply Hni. left.
  - rewrite IH12 by done. apply IH23. by rewrite <- H12.
Qed.

Lemma assoc_values k fs gs :
  Forall2 (fun f g => f.1 = g.1 /\ reordered_val f.2 g.2) fs gs ->
  option_Forall2 reordered_val (assoc k fs) (assoc k gs).
Proof.
  induction 1 as [|[k1 v] [k2 w] fs gs [He Hv] _ IH]; simpl; [constructor|].
  simpl in He, Hv. subst. by destruct (String.eqb k k2); [constructor|].
Qed.

Lemma field_reordered k o o' :
  oreordered o o' -> option_Forall2 reordered_val (field k o) (field k o').
Proof.
  destruct 1 as [m m' Hm|]; [|constructor]. destruct Hm as [n fs fs' gs Hnd _ Hf Hp].
  unfold field. simpl. rewrite <- (assoc_perm k fs' gs) by done. by apply assoc_values.
Qed.

Lemma get_msg_reordered k o o' :
  oreordered o o' -> oreordered (get_msg k o) (get_msg k o').
Proof.
  intros H. apply (field_reordered k) in H. unfold get_msg.
  by destruct H as [? ? []|]; constructor.
Qed.

Lemma get_list_reordered k o o' :
  oreordered o o' -> lreordered (get_list k o) (get_list k o').
Proof.
  intros H. apply (field_reordered k) in H. unfold get_list.
  by destruct H as [? ? []|]; try constructor.
Qed.

Lemma get_str_reordered k o o' : oreordered o o' -> get_str k o = get_str k o'.
Proof.
  intros H. apply (field_reordered k) in H. unfold get_str. by destruct H as [? ? []|].
Qed.

Lemma get_int_reordered k o o' : oreordered o o' -> get_int k o = get_int k o'.
Proof.
  intros H. apply (field_reordered k) in H. unfold get_int. by destruct H as [? ? []|].
Qed.

Lemma get_bool_reordered k o o' : oreordered o o' -> get_bool k o = get_bool k o'.
Proof.
  intros H. apply (field_reordered k) in H. unfold get_bool. by destruct H as [? ? []|].
Qed.

Lemma get_enum_reordered k z o o' : oreordered o o' -> get_enum k z o = get_enum k z o'.
Proof.
  intros H. apply (field_reordered k) in H. unfold get_enum. by destruct H as [? ? []|].
Qed.

Lemma some_reordered m m' : reordered m m' -> oreordered (Some m) (Some m').
Proof. by constructor. Qed.

Lemma stmt_of_reordered k m m' : reordered m m' -> oreordered (stmt_of k m) (stmt_of k m').
Proof. intros. by apply get_msg_reordered, some_reordered. Qed.

Lemma is_some_reordered o o' : oreordered o o' -> is_some o = is_some o'.
Proof. by destruct 1. Qed.

Lemma nonempty_reordered l l' : lreordered l l' -> nonempty l = nonempty l'.
Proof. by destruct 1. Qed.

Lemma last_reordered l l' : lreordered l l' -> oreordered (last_msg l) (last_msg l').
Proof.
  unfold last_msg. induction 1 as [|x y l l' Hxy Hl IH]; [constructor|].
  destruct Hl; [by constructor|]. exact IH.
Qed.

Lemma msg_name_reordered m m' : reordered m m' -> msg_name m = msg_name m'.
Proof. by destruct 1. Qed.

Lemma is_node_reordered m m' : reordered m m' -> is_node m = is_node m'.
Proof. by destruct 1. Qed.

(** ** Lists of related messages *)

Lemma existsb_reordered (f g : msg -> bool) l l' :
  (forall x y, reordered x y -> f x = g y) -> lreordered l l' -> existsb f l = existsb g l'.
Proof. intros Hfg. induction 1; simpl; [done|]. f_equal; auto. Qed.

Lemma map_reordered {A} (f g : msg -> A) l l' :
  (forall x y, reordered x y -> f x = g y) -> lreordered l l' -> map f l = map g l'.
Proof. intros Hfg. induction 1; simpl; [done|]. f_equal; auto. Qed.

Lemma omap_reordered (f g : msg -> option msg) l l' :
  (forall x y, reordered x y -> oreordered (f x) (g y)) -> lreordered l l' ->
  lreordered (omap f l) (omap g l').
Proof.
  intros Hfg. induction 1 as [|x y l l' Hxy _ IH]; simpl; [constructor|].
  destruct (Hfg x y Hxy); [by constructor | done].
Qed.

Lemma omap_eq_reordered {A} (f g : msg -> option A) l l' :
  (forall x y, reordered x y -> f x = g y) -> lreordered l l' -> omap f l = omap g l'.
Proof.
  intros Hfg. induction 1 as [|x y l l' Hxy _ IH]; simpl; [done|].
  rewrite (Hfg x y Hxy). by destruct (g y); [f_equal|].
Qed.

Lemma filter_reordered (f g : msg -> bool) l l' :
  (forall x y, reordered x y -> f x = g y) -> lreordered l l' ->
  lreordered (List.filter f l) (List.filter g l').
Proof.
  intros Hfg. induction 1 as [|x y l l' Hxy _ IH]; simpl; [constructor|].
  rewrite (Hfg x y Hxy). by destruct (g y); [constructor|].
Qed.

#[export] Hint Resolve some_reordered stmt_of_reordered get_msg_reordered get_list_reordered
  last_reordered omap_reordered filter_reordered : reord.

(** Rewrite one accessor of the left tree into the same of the right one. *)
Ltac reord1 :=
  match goal with
  | |- ?x = ?x => reflexivity
  | |- String.eqb _ _ = String.eqb _ _ => f_equal
  | |- andb _ _ = andb _ _ => f_equal
  | |- orb _ _ = orb _ _ => f_equal
  | |- negb _ = negb _ => f_equal
  | |- contains _ _ = contains _ _ => f_equal
  | |- intersects _ _ = intersects _ _ => f_equal
  | |- Some _ = Some _ => f_equal
  | |- get_str _ _ = get_str _ _ => apply get_str_reordered
  | |- get_int _ _ = get_int _ _ => apply get_int_reordered
  | |- get_bool _ _ = get_bool _ _ => apply get_bool_reordered
  | |- get_enum _ _ _ = get_enum _ _ _ => apply get_enum_reordered
  | |- is_some _ = is_some _ => apply is_some_reordered
  | |- nonempty _ = nonempty _ => apply nonempty_reordered
  | |- existsb _ _ = existsb _ _ => apply existsb_reordered; [intros ? ? ?|]
  | |- map _ _ = map _ _ => apply map_reordered; [intros ? ? ?|]
  | |- omap _ _ = omap _ _ => apply omap_eq_reordered; [intros ? ? ?|]
  | |- oreordered (if ?b then _ else _) (if ?c then _ else _) =>
      replace b with c; [destruct c|symmetry]
  | |- (if ?b then _ else _) = (if ?c then _ else _) =>
      replace b with c; [destruct c|symmetry]
  | |- (match ?o with Some _ => _ | None => _ end) = (match ?o' with Some _ => _ | None => _ end) =>
      let H := fresh in assert (oreordered o o') as H by eauto 6 with reord; destruct H
  | |- oreordered _ _ => solve [constructor | eauto 8 with reord]
  | |- lreordered _ _ => solve [constructor | eauto 8 with reord]
  end.
Ltac reord := repeat reord1.

Section predicates.
Context {PG : PgQuery}.

Lemma oneof_name_reordered m m' : is_node m = true -> reordered m m' -> nodeType m = nodeType m'.
Proof.
  unfold is_node, nodeType, oneof_name. intros Hn Hr. destruct Hr as [n fs fs' gs _ Hl Hf Hp].
  simpl in *. apply String.eqb_eq in Hn. specialize (Hl Hn).
  destruct Hf as [|[k v] [k' v'] fs fs' [He _] Hf]; simpl in *.
  - by apply Permutation_nil_l in Hp as <-.
  - destruct fs' as [|? ?]; simpl in *; [|lia].
    apply Permutation_singleton_l in Hp as <-. exact He.
Qed.

Lemma relpersistence_reordered m m' : reordered m m' -> relpersistence m = relpersistence m'.
Proof. intros H. unfold relpersistence. reord. Qed.

Lemma subtype_reordered m m' : reordered m m' -> subtype (Some m) = subtype (Some m').
Proof. intros H. unfold subtype. reord. Qed.

Lemma contype_reordered m m' : reordered m m' -> contype (Some m) = contype (Some m').
Proof. intros H. unfold contype. reord. Qed.

Lemma alter_cmds_reordered m m' : reordered m m' -> lreordered (alter_cmds m) (alter_cmds m').
Proof. intros H. unfold alter_cmds. apply omap_reordered; [intros|]; reord. Qed.

Hint Resolve alter_cmds_reordered : reord.

Lemma columnDefs_reordered m m' : reordered m m' -> lreordered (columnDefs m) (columnDefs m').
Proof.
  intros H. unfold columnDefs.
  assert (oreordered (stmt_of "create_stmt" m) (stmt_of "create_stmt" m')) as Hc by reord.
  destruct Hc as [c c' Hc|].
  - apply omap_reordered; [intros|]; reord.
  - apply omap_reordered; [|by apply alter_cmds_reordered].
    intros x y Hxy. rewrite (subtype_reordered x y Hxy). reord.
Qed.

Lemma lastTypeName_reordered o o' : oreordered o o' -> lastTypeName o = lastTypeName o'.
Proof. intros H. unfold lastTypeName, sval. reord. Qed.

Lemma columnTypes_reordered m m' : reordered m m' -> columnTypes m = columnTypes m'.
Proof.
  intros H. apply columnDefs_reordered in H. unfold columnTypes, sval. reord.
Qed.

Lemma lockingStrengths_reordered m m' : reordered m m' -> lockingStrengths m = lockingStrengths m'.
Proof. intros H. unfold lockingStrengths. reord. Qed.

Lemma alterActions_reordered m m' : reordered m m' -> alterActions m = alterActions m'.
Proof. intros H. unfold alterActions, subtype. reord. Qed.

Lemma addsColumnWithConstraint_reordered m m' ks :
  reordered m m' -> addsColumnWithConstraint m ks = addsColumnWithConstraint m' ks.
Proof.
  intros H. unfold addsColumnWithConstraint, subtype, contype. reord.
Qed.

Lemma added_constraint_reordered m m' :
  reordered m m' -> oreordered (added_constraint m) (added_constraint m').
Proof. intros H. unfold added_constraint. rewrite (subtype_reordered m m' H). reord. Qed.

Hint Resolve added_constraint_reordered : reord.

Lemma addsConstraintOfType_reordered m m' ks :
  reordered m m' -> addsConstraintOfType m ks = addsConstraintOfType m' ks.
Proof.
  intros H. unfold addsConstraintOfType, contype. reord.
Qed.

Lemma addsConstraintWithoutValidation_reordered m m' :
  reordered m m' -> addsConstraintWithoutValidation m = addsConstraintWithoutValidation m'.
Proof.
  intros H. unfold addsConstraintWithoutValidation, contype. reord.
Qed.

Lemma stmt_enum_reordered k1 k2 e m m' : reordered m m' -> stmt_enum k1 k2 e m = stmt_enum k1 k2 e m'.
Proof. intros H. unfold stmt_enum. reord. Qed.

Lemma hasArrayColumn_reordered m m' : reordered m m' -> hasArrayColumn m = hasArrayColumn m'.
Proof. intros H. apply columnDefs_reordered in H. unfold hasArrayColumn. reord. Qed.

Lemma def_elem_reordered {A} (f : option msg -> option A) k l l' :
  (forall o o', oreordered o o' -> f o = f o') -> lreordered l l' ->
  def_elem f k l = def_elem f k l'.
Proof.
  intros Hf. induction 1 as [|x y l l' Hxy _ IH]; simpl; [done|].
  assert (oreordered (stmt_of "def_elem" x) (stmt_of "def_elem" y)) as Hd by reord.
  rewrite (is_some_reordered _ _ Hd), (get_str_reordered _ _ _ Hd), IH.
  by rewrite (Hf _ (get_msg "arg" (stmt_of "def_elem" y))) by reord.
Qed.

Lemma functionLanguage_reordered m m' : reordered m m' -> functionLanguage m = functionLanguage m'.
Proof.
  intros H. unfold functionLanguage.
  rewrite (def_elem_reordered _ _ _ (get_list "options" (stmt_of "create_function_stmt" m'))); [done| |reord].
  intros o o' Ho. unfold sval. reord.
Qed.

Lemma defElemInt_reordered l l' k : lreordered l l' -> defElemInt l k = defElemInt l' k.
Proof.
  intros H. unfold defElemInt. rewrite (def_elem_reordered _ _ _ l'); [done| |done].
  intros o o' Ho. reord.
Qed.

Lemma sequenceCache_reordered m m' : reordered m m' -> sequenceCache m = sequenceCache m'.
Proof. intros H. unfold sequenceCache. reord. apply defElemInt_reordered. reord. Qed.

Lemma identity_constraints_reordered m m' :
  reordered m m' -> lreordered (identity_constraints m) (identity_constraints m').
Proof.
  intros H. unfold identity_constraints. apply filter_reordered.
  - intros x y Hxy. by rewrite (contype_reordered x y Hxy).
  - apply omap_reordered; [intros|]; reord.
Qed.

Lemma identityColumnType_reordered m m' l :
  reordered m m' -> identityColumnType m l = identityColumnType m' l.
Proof.
  intros H. unfold identityColumnType. do 2 f_equal. apply map_reordered.
  - intros x y Hxy. apply lastTypeName_reordered. reord.
  - apply filter_reordered; [|by apply columnDefs_reordered].
    intros x y Hxy. unfold isIdentityColumn. reord1. by apply identity_constraints_reordered.
Qed.

Lemma hasSmallIdentityCache_reordered m m' z l :
  reordered m m' -> hasSmallIdentityCache m z l = hasSmallIdentityCache m' z l.
Proof.
  intros H. unfold hasSmallIdentityCache. apply existsb_reordered.
  - intros x y Hxy. apply existsb_reordered; [|by apply identity_constraints_reordered].
    intros c c' Hc. by rewrite (defElemInt_reordered _ (get_list "options" (Some c'))) by reord.
  - apply omap_reordered; [intros|]; reord.
Qed.

(** ** Walks visit the same messages, in another order *)

Definition same_messages (l l' : list msg) : Prop :=
  exists l1, lreordered l l1 /\ l1 ≡ₚ l'.

Lemma same_messages_app l1 l1' l2 l2' :
  same_messages l1 l1' -> same_messages l2 l2' -> same_messages (l1 ++ l2) (l1' ++ l2').
Proof.
  intros (k1 & Hf1 & Hp1) (k2 & Hf2 & Hp2). exists (k1 ++ k2).
  split; [by apply Forall2_app | by rewrite Hp1, Hp2].
Qed.

Lemma same_messages_perm l l1 l2 : same_messages l l1 -> l1 ≡ₚ l2 -> same_messages l l2.
Proof. intros (k & Hf & Hp) H. exists k. split; [done | by etrans]. Qed.

Lemma same_messages_children (ms ms' : list msg) :
  Forall (fun m => forall m', reordered m m' -> same_messages (walkMessages m) (walkMessages m')) ms ->
  lreordered ms ms' ->
  same_messages (flat_map walkMessages ms) (flat_map walkMessages ms').
Proof.
  intros HP Hl. induction Hl as [|m m' ms ms' Hm Hl IH]; simpl.
  - by exists [].
  - apply Forall_cons in HP as [HP1 HP2]. apply same_messages_app; auto.
Qed.

Lemma fval_children_reordered v v' :
  reordered_val v v' -> lreordered (fval_children v) (fval_children v').
Proof. destruct 1; simpl; try constructor; auto. Qed.

Lemma walkMessages_reordered m m' :
  reordered m m' -> same_messages (walkMessages m) (walkMessages m').
Proof.
  revert m'. induction m as [n fs IH] using msg_ind. intros m' Hr.
  rewrite !walkMessages_children. change (?x :: ?l) with ([x] ++ l).
  apply same_messages_app.
  { exists [m']. split; [by repeat constructor | done]. }
  inversion Hr as [n' fs1 fs' gs Hnd Hl Hf Hp]; subst. unfold children. simpl.
  apply (same_messages_perm _ (flat_map walkMessages (flat_map (fun f => fval_children f.2) fs'))).
  2: { by rewrite Hp. }
  clear Hr Hnd Hl Hp gs. induction Hf as [|[k v] [k' v'] fs fs' [_ Hv] Hf IHf]; simpl.
  - by exists [].
  - apply Forall_cons in IH as [IH1 IH2]. rewrite !flat_map_app.
    apply same_messages_app; [|auto].
    apply same_messages_children; [done | by apply fval_children_reordered].
Qed.

Lemma existsb_same_messages (f : msg -> bool) l l' :
  (forall x y, reordered x y -> f x = f y) -> same_messages l l' -> existsb f l = existsb f l'.
Proof.
  intros Hf (l1 & Hl & Hp). rewrite (existsb_reordered f f l l1) by done.
  apply eq_true_iff_eq. rewrite !existsb_true_iff. by setoid_rewrite Hp.
Qed.

Lemma containsNode_reordered m m' l : reordered m m' -> containsNode m l = containsNode m' l.
Proof.
  intros H. apply walkMessages_reordered in H. unfold containsNode.
  apply existsb_same_messages; [|done]. intros x y Hxy.
  rewrite (is_node_reordered x y Hxy), (msg_name_reordered x y Hxy).
  destruct (is_node y) eqn:Hn; [|done].
  by rewrite (oneof_name_reordered x y) by (rewrite ?(is_node_reordered x y Hxy); done).
Qed.

Lemma calledName_reordered m m' : reordered m m' -> calledName m = calledName m'.
Proof.
  intros H. unfold calledName. reord; unfold functionName, sval; reord.
Qed.

Lemma functionNames_reordered m m' :
  reordered m m' -> functionNames m ≡ₚ functionNames m'.
Proof.
  intros H. apply walkMessages_reordered in H as (l1 & Hl & Hp).
  unfold functionNames, walkNodes.
  assert (lreordered (List.filter is_node (walkMessages m)) (List.filter is_node l1)) as Hl'
    by (apply filter_reordered; eauto using is_node_reordered).
  rewrite (omap_eq_reordered _ _ _ _ calledName_reordered Hl').
  apply omap_Permutation. by apply filter_bool_perm.
Qed.

(** ** Matching and classification *)

Lemma intersects_perm want l l' : l ≡ₚ l' -> intersects want l = intersects want l'.
Proof.
  intros Hp. unfold intersects. apply eq_true_iff_eq. rewrite !existsb_true_iff.
  by setoid_rewrite Hp.
Qed.

Lemma vacuumKind_reordered m m' : reordered m m' -> vacuumKind m = vacuumKind m'.
Proof. intros H. unfold vacuumKind. reord. Qed.

Lemma showName_reordered m m' : reordered m m' -> showName m = showName m'.
Proof. intros H. unfold showName. reord. Qed.

Lemma setParameter_reordered m m' : reordered m m' -> setParameter m = setParameter m'.
Proof. intros H. unfold setParameter. reord. Qed.

Lemma matches_reordered r m m' :
  is_node m = true -> reordered m m' -> matches r m = matches r m'.
Proof.
  intros Hn H. unfold matches, removeType, renameType, objtype, txnKind.
  rewrite (oneof_name_reordered m m' Hn H), (relpersistence_reordered m m' H),
    (columnTypes_reordered m m' H), (hasArrayColumn_reordered m m' H),
    (lockingStrengths_reordered m m' H), (containsNode_reordered m m' _ H),
    (vacuumKind_reordered m m' H), (showName_reordered m m' H), (alterActions_reordered m m' H),
    (addsConstraintWithoutValidation_reordered m m' H), (addsConstraintOfType_reordered m m' _ H),
    (addsColumnWithConstraint_reordered m m' _ H), (setParameter_reordered m m' H),
    (functionLanguage_reordered m m' H), (sequenceCache_reordered m m' H),
    (identityColumnType_reordered m m' _ H), (intersects_perm _ _ _ (functionNames_reordered m m' H)).
  rewrite !(stmt_enum_reordered _ _ _ m m' H).
  by destruct (IdentityCacheMin r); [rewrite (hasSmallIdentityCache_reordered m m' _ _ H)|].
Qed.

Lemma defElemValue_reordered l l' k : lreordered l l' -> defElemValue l k = defElemValue l' k.
Proof.
  intros H. unfold defElemValue. f_equal. apply def_elem_reordered; [|done].
  intros o o' Ho. unfold sval. reord.
Qed.

Lemma isolationLevel_reordered m m' : reordered m m' -> isolationLevel m = isolationLevel m'.
Proof.
  intros H. unfold isolationLevel.
  assert (oreordered (stmt_of "transaction_stmt" m) (stmt_of "transaction_stmt" m')) as Ht by reord.
  destruct Ht as [t t' Ht|]; [apply defElemValue_reordered; reord|].
  assert (oreordered (stmt_of "variable_set_stmt" m) (stmt_of "variable_set_stmt" m')) as Hv by reord.
  destruct Hv as [v v' Hv|]; [|done].
  rewrite (get_str_reordered _ _ _ (some_reordered v v' Hv)).
  case_match; [apply defElemValue_reordered; reord|]. case_match; [|done].
  assert (lreordered (get_list "args" (Some v)) (get_list "args" (Some v'))) as Hl by reord.
  destruct Hl as [|a a' l l' Ha _]; [done|]. unfold sval. reord.
Qed.

Lemma relationName_reordered o o' : oreordered o o' -> relationName o = relationName o'.
Proof.
  intros H. unfold relationName.
  by rewrite (is_some_reordered _ _ H), (get_str_reordered _ _ _ H).
Qed.

Lemma statementTables_reordered m m' : reordered m m' -> statementTables m = statementTables m'.
Proof.
  intros H. unfold statementTables.
  assert (forall k, oreordered (stmt_of k m) (stmt_of k m')) as Hs by (intros; reord).
  destruct (Hs "insert_stmt"), (Hs "update_stmt"), (Hs "delete_stmt"), (Hs "merge_stmt");
    try done; apply relationName_reordered; reord.
Qed.

Lemma kindOf_reordered m m' : is_node m = true -> reordered m m' -> kindOf m = kindOf m'.
Proof.
  intros Hn H. unfold kindOf, txnKind.
  by rewrite (oneof_name_reordered m m' Hn H), (stmt_enum_reordered _ _ _ m m' H).
Qed.

(** Verdicts that refuse for the same rule with the same code. *)
Definition same_verdict (v v' : Verdict) : Prop := RuleID v = RuleID v' /\ Code v = Code v'.

Lemma first_match_reordered async rules m m' :
  is_node m = true -> reordered m m' ->
  option_Forall2 same_verdict (first_match async rules m) (first_match async rules m').
Proof.
  intros Hn H. induction rules as [|r rest IH]; simpl; [constructor|].
  destruct (UnlessAsync r && async); [done|].
  rewrite (matches_reordered r m m' Hn H). by destruct (matches r m'); [constructor|].
Qed.

Lemma refusal_reordered rs async m m' :
  is_node m = true -> reordered m m' ->
  option_Forall2 same_verdict (refusal rs async m) (refusal rs async m').
Proof.
  intros Hn H. unfold refusal, unsupportedIsolation.
  rewrite (isolationLevel_reordered m m' H).
  case_match; [by constructor|]. by apply first_match_reordered.
Qed.

Lemma classify_stmts_reordered rs async stmts stmts' acc acc' :
  Forall2 (fun o o' => oreordered o o' /\ forall m, o = Some m -> is_node m = true) stmts stmts' ->
  same_verdict (verdict acc) (verdict acc') -> Kinds acc = Kinds acc' -> Tables acc = Tables acc' ->
  let r := classify_stmts rs async stmts acc in
  let r' := classify_stmts rs async stmts' acc' in
  same_verdict (verdict r) (verdict r') /\ Kinds r = Kinds r' /\ Tables r = Tables r'.
Proof.
  intros Hs. revert acc acc'.
  induction Hs as [|o o' rest rest' [Ho Hn] _ IH]; intros acc acc' Hv Hk Ht; simpl; [done|].
  destruct Ho as [m m' Hm|]; [|by apply IH].
  specialize (Hn m eq_refl). destruct (refusal_reordered rs async m m' Hn Hm); [done|].
  apply IH; simpl; [done| |].
  - by rewrite Hk, (kindOf_reordered m m' Hn Hm).
  - by rewrite Ht, (statementTables_reordered m m' Hm).
Qed.

#[global] Instance columnTypes_Proper : Proper (reordered ==> eq) columnTypes.
Proof. exact columnTypes_reordered. Qed.
#[global] Instance functionNames_Proper : Proper (reordered ==> (≡ₚ)) functionNames.
Proof. exact functionNames_reordered. Qed.
#[global] Instance statementTables_Proper : Proper (reordered ==> eq) statementTables.
Proof. exact statementTables_reordered. Qed.

(** C18: Classification does not depend on the order reflection ranges over the
    fields of a message: two parses of a string that differ only in it are
    refused by the same rule with the same code, or read as the same kinds and
    tables. *)
Theorem classification_order_independent rs async stmts stmts' :
  Forall2 (fun o o' => option_Forall2 reordered o o' /\ forall m, o = Some m -> is_node m = true) stmts stmts' ->
  let r := classify_stmts rs async stmts zero_result in
  let r' := classify_stmts rs async stmts' zero_result in
  RuleID (verdict r) = RuleID (verdict r') /\ Code (verdict r) = Code (verdict r') /\
  Kinds r = Kinds r' /\ Tables r = Tables r'.
Proof.
  intros Hs r r'.
  destruct (classify_stmts_reordered rs async stmts stmts' zero_result zero_result Hs)
    as ((? & ?) & ? & ?); done.
Qed.

End predicates.

(** ** Instances

    One select, read with its target list before its where clause and after it. *)

Definition call_node (f : string) : msg :=
  Msg "Node" [("func_call", FMsg (Msg "FuncCall"
    [("funcname", FList [Msg "Node" [("string", FMsg (Msg "String" [("sval", FStr f)]))]])]))].

Definition select_of (fields : list (string * fval)) : msg :=
  Msg "Node" [("select_stmt", FMsg (Msg "SelectStmt" fields))].

Definition target_field : string * fval := ("target_list", FList [call_node "circle"]).
Definition where_field : string * fval := ("where_clause", FMsg (call_node "box")).

Definition select_one_way : msg := select_of [target_field; where_field].
Definition select_other_way : msg := select_of [where_field; target_field].

Lemma reordered_fields n fs gs :
  NoDup (map fst fs) -> (n = "Node" -> (length fs <= 1)%nat) ->
  Forall (fun f => reordered_val f.2 f.2) fs -> fs ≡ₚ gs -> reordered (Msg n fs) (Msg n gs).
Proof.
  intros Hnd Hn Hf Hp. eapply reordered_msg; [exact Hnd | exact Hn | | exact Hp].
  clear -Hf. induction Hf; by constructor.
Qed.

Lemma call_node_reordered f : reordered (call_node f) (call_node f).
Proof.
  repeat (first [ apply reordered_fields;
      [repeat constructor; set_solver | intros; simpl; (lia || discriminate)
      | repeat (apply Forall_cons_2 || apply Forall_nil_2); simpl | reflexivity]
    | constructor ]).
Qed.

Lemma select_reordered : reordered select_one_way select_other_way.
Proof.
  eapply (reordered_msg _ _ [("select_stmt", FMsg (Msg "SelectStmt" [where_field; target_field]))]).
  - repeat constructor. set_solver.
  - done.
  - repeat constructor. simpl. apply reordered_fields.
    + simpl. apply NoDup_cons. split; [set_solver|]. apply NoDup_singleton.
    + discriminate.
    + apply Forall_cons_2; [|apply Forall_cons_2; [|apply Forall_nil_2]]; simpl.
      * apply reordered_list. repeat constructor. apply call_node_reordered.
      * apply reordered_one, call_node_reordered.
    + apply Permutation_swap.
  - reflexivity.
Qed.

Definition geometry_rule : Rule :=
  rule "unsupported_geometry" "select_stmt"
    [("function", YStrs ["line"; "circle"; "polygon"; "box"; "path"; "lseg"; "center"; "radius"])] "0A000"
    "datatype {type} not supported".

Definition geometry_ruleset : Ruleset :=
  {| DSQLVersion := "2026.09"; Unsupported := [geometry_rule]; rsIsolation := mkIsolation [];
     rsLimits := mkTxnLimits 0 0; rsOCC := default_occ |}.

Lemma classification_order_independent_witness :
  let PG := table_pg [] [] (fun _ => None) in
  let r := @classify_stmts PG geometry_ruleset false [Some select_one_way] zero_result in
  let r' := @classify_stmts PG geometry_ruleset false [Some select_other_way] zero_result in
  RuleID (verdict r) = "unsupported_geometry" /\ RuleID (verdict r) = RuleID (verdict r').
Proof.
  intros PG r r'. split; [vm_compute; reflexivity|].
  apply (@classification_order_independent PG geometry_ruleset false [Some select_one_way] [Some select_other_way]).
  constructor; [|constructor]. split; [constructor; apply select_reordered|].
  intros m [= <-]. reflexivity.
Defined.

(** The message does depend on the order: it names whichever of the functions is
    met first. *)
Lemma geometry_message_depends_on_order :
  let PG := table_pg [] [] (fun _ => None) in
  @fill PG geometry_rule select_one_way = "datatype circle not supported" /\
  @fill PG geometry_rule select_other_way = "datatype box not supported".
Proof. vm_compute. done. Qed.
