(* ===== verification/Occ.v ===== *)
(** * Refused statements: [internal/occ]

    Which statements a refused lock can be reported for at COMMIT, and the
    read-only statement that reproduces what the refused one would have
    reported.  Mutation in place is a function from tree to tree: the tree
    [Analyze] edits is its own. *)

From Stdlib Require Import Ascii String.
From stdpp Require Import base numbers strings sorting list.
From S2P Require Import Prelude GoStd Proto Eval.

Local Open Scope Z_scope.

Definition CodeLockTimeout : string := "55P03".
Definition CodeSerialization : string := "40001".

Definition IsConflict (code : string) : bool :=
  String.eqb code CodeLockTimeout || String.eqb code CodeSerialization.

Record Intent := mkIntent {
  Tag : string;
  Rows : Z;
  Shadow : string;
  Rowset : bool;
  Params : list Z;
}.

Definition CommandTag (i : Intent) (rows : Z) : string :=
  if String.eqb (Tag i) "INSERT" then "INSERT 0 " +:+ itoa rows
  else Tag i +:+ " " +:+ itoa rows.

(** ** Building shadows *)

Definition node_of (k : string) (m : msg) : msg := Msg "Node" [(k, FMsg m)].

Definition countStar : msg :=
  node_of "func_call" (Msg "FuncCall"
    [("funcname", FList [node_of "string" (Msg "String" [("sval", FStr "count")])]);
     ("agg_star", FBool true)]).

Definition resTarget (val : msg) : msg :=
  node_of "res_target" (Msg "ResTarget" [("val", FMsg val)]).

(** A field that is populated only when there is something to hold. *)
Definition opt_field (k : string) (m : option msg) : list (string * fval) :=
  match m with Some m => [(k, FMsg m)] | None => [] end.

Definition count_select (rel : msg) (extra : list msg) (where_clause : option msg) : msg :=
  node_of "select_stmt" (Msg "SelectStmt"
    ([("target_list", FList [resTarget countStar]);
      ("from_clause", FList (node_of "range_var" rel :: extra))] ++
     opt_field "where_clause" where_clause ++
     [("limit_option", FEnum "LIMIT_OPTION_DEFAULT"); ("op", FEnum "SETOP_NONE")])).

Definition remove_field (k : string) (m : msg) : msg :=
  Msg (msg_name m) (List.filter (fun f => negb (String.eqb f.1 k)) (msg_fields m)).

(** ** Parameters *)

(** The numbers of the parameters a statement refers to, in visiting order. *)
Definition param_number (n : msg) : option Z :=
  match stmt_of "param_ref" n with
  | Some ref => Some (get_int "number" (Some ref))
  | None => None
  end.

Definition param_refs (node : msg) : list Z := omap param_number (walkNodes node).

(** Each number once, in the order of first reference. *)
Fixpoint distinct_from (seen : list Z) (refs : list Z) : list Z :=
  match refs with
  | [] => []
  | n :: rest =>
      if bool_decide (n ∈ seen) then distinct_from seen rest
      else n :: distinct_from (n :: seen) rest
  end.

(** The client's positions, ascending. *)
Definition param_order (refs : list Z) : list Z := merge_sort Z.le (distinct_from [] refs).

(** The place of a number in the order, from 1; 0 when it is not there. *)
Fixpoint place_in (i : Z) (order : list Z) (n : Z) : Z :=
  match order with
  | [] => 0
  | m :: rest => if m =? n then i else place_in (i + 1) rest n
  end.

Definition renumbered (order : list Z) (n : Z) : Z := place_in 1 order n.

Definition set_number (f : Z -> Z) (fld : string * fval) : string * fval :=
  match fld with
  | (k, FInt z) => if String.eqb k "number" then (k, FInt (f z)) else fld
  | _ => fld
  end.

Definition set_ref (f : Z -> Z) (fld : string * fval) : string * fval :=
  match fld with
  | (k, FMsg (Msg n fs)) =>
      if String.eqb k "param_ref" then (k, FMsg (Msg n (map (set_number f) fs))) else fld
  | _ => fld
  end.

(** Renumber every parameter reference below a [Node]. *)
Definition renumber_fields (f : Z -> Z) (n : string) (fs : list (string * fval)) :
    list (string * fval) :=
  if String.eqb n "Node" then map (set_ref f) fs else fs.

Definition renumber (f : Z -> Z) : msg -> msg := map_msg (renumber_fields f).

(** The positions the shadow asks for and the statement that asks for them;
    [None] for a reference that is not a parameter this can reason about. *)
Definition renumberParams (node : msg) : option (list Z * msg) :=
  let refs := param_refs node in
  match refs with
  | [] => Some ([], node)
  | _ =>
      if existsb (fun n => n <? 1) refs then None
      else let order := param_order refs in Some (order, renumber (renumbered order) node)
  end.

(** ** Analysis *)

Section occ.
Context {PG : PgQuery}.

Definition shadowIntent (tag : string) (node : msg) (rowset : bool) : option Intent :=
  match renumberParams node with
  | None => None
  | Some (params, node') =>
      match pg_deparse node' with
      | None => None
      | Some shadow => Some (mkIntent tag (-1) shadow rowset params)
      end
  end.

Definition countIntent (tag : string) (rel : option msg) (extra : list msg)
    (where_clause : option msg) : option Intent :=
  match rel with
  | None => None
  | Some rel => shadowIntent tag (count_select rel extra where_clause) false
  end.

Definition analyze_node (node : msg) : option Intent :=
  match stmt_of "update_stmt" node with
  | Some u =>
      if nonempty (get_list "returning_list" (Some u)) then None
      else countIntent "UPDATE" (get_msg "relation" (Some u)) (get_list "from_clause" (Some u))
             (get_msg "where_clause" (Some u))
  | None =>
  match stmt_of "delete_stmt" node with
  | Some d =>
      if nonempty (get_list "returning_list" (Some d)) then None
      else countIntent "DELETE" (get_msg "relation" (Some d)) (get_list "using_clause" (Some d))
             (get_msg "where_clause" (Some d))
  | None =>
  match stmt_of "insert_stmt" node with
  | Some ins =>
      if nonempty (get_list "returning_list" (Some ins))
         || is_some (get_msg "on_conflict_clause" (Some ins)) then None
      else
        let values := get_msg "select_stmt" (get_msg "select_stmt" (Some ins)) in
        let rows := get_list "values_lists" values in
        if negb (is_some values) || negb (nonempty rows) then None
        else Some (mkIntent "INSERT" (Z.of_nat (length rows)) "" false [])
  | None =>
  match stmt_of "select_stmt" node with
  | Some sel =>
      if negb (nonempty (get_list "locking_clause" (Some sel))) then None
      else shadowIntent "SELECT" (node_of "select_stmt" (remove_field "locking_clause" sel)) true
  | None => None
  end end end end.

Definition Analyze (sql : string) : option Intent :=
  match pg_parse sql with
  | Some [Some node] => analyze_node node
  | _ => None
  end.

End occ.

(** ** Lemmas: the order of the parameters *)

Lemma elem_of_distinct_from seen refs n :
  n ∈ distinct_from seen refs <-> n ∈ refs /\ n ∉ seen.
Proof.
  revert seen. induction refs as [|m rest IH]; intros seen; simpl.
  - split; [|naive_solver]. intros H. by apply elem_of_nil in H.
  - rewrite elem_of_cons. case_bool_decide as Hm.
    + rewrite IH. naive_solver.
    + rewrite elem_of_cons, IH, elem_of_cons. destruct (decide (n = m)); naive_solver.
Qed.

Lemma NoDup_distinct_from seen refs : NoDup (distinct_from seen refs).
Proof.
  revert seen. induction refs as [|m rest IH]; intros seen; simpl; [constructor|].
  case_bool_decide; [done|]. constructor; [|done].
  rewrite elem_of_distinct_from, elem_of_cons. naive_solver.
Qed.

Lemma param_order_perm refs : param_order refs ≡ₚ distinct_from [] refs.
Proof. apply merge_sort_Permutation. Qed.

Lemma elem_of_param_order refs n : n ∈ param_order refs <-> n ∈ refs.
Proof.
  rewrite param_order_perm, elem_of_distinct_from. split; [naive_solver|].
  intros H. split; [done|]. by apply not_elem_of_nil.
Qed.

Lemma NoDup_param_order refs : NoDup (param_order refs).
Proof. rewrite param_order_perm. apply NoDup_distinct_from. Qed.

Lemma Sorted_param_order refs : Sorted Z.le (param_order refs).
Proof. apply Sorted_merge_sort. intros x y. lia. Qed.

Lemma place_in_spec i order n :
  n ∈ order -> NoDup order ->
  i <= place_in i order n < i + Z.of_nat (length order) /\
  order !! Z.to_nat (place_in i order n - i) = Some n.
Proof.
  revert i. induction order as [|m rest IH]; intros i Hin Hnd; simpl.
  - by apply elem_of_nil in Hin.
  - apply NoDup_cons in Hnd as [Hni Hnd].
    destruct (Z.eqb_spec m n) as [->|Hne].
    + rewrite Z.sub_diag. split; [lia | done].
    + apply elem_of_cons in Hin as [->|Hin]; [done|].
      destruct (IH (i + 1) Hin Hnd) as [Hr Hl]. split; [lia|].
      replace (Z.to_nat (place_in (i + 1) rest n - i))
        with (S (Z.to_nat (place_in (i + 1) rest n - (i + 1)))) by lia. done.
Qed.

(** ** Lemmas: renumbering a tree *)

Section renumber.
Variable f : Z -> Z.
Hypothesis f_zero : f 0 = 0.

(** What renumbering does to a message as the walk sees it. *)
Definition renumbers (x y : msg) : Prop :=
  is_node x = is_node y /\ (is_node x = true -> param_number y = f <$> param_number x).

Lemma set_number_key x : (set_number f x).1 = x.1.
Proof. destruct x as [k []]; simpl; try done. by case_match. Qed.

Lemma set_ref_key x : (set_ref f x).1 = x.1.
Proof. destruct x as [k [| | | |[]|]]; simpl; try done. by case_match. Qed.

Lemma set_number_children x : fval_children (set_number f x).2 = fval_children x.2.
Proof. destruct x as [k []]; simpl; try done. by case_match. Qed.

Lemma children_set_number n fs : children (Msg n (map (set_number f) fs)) = children (Msg n fs).
Proof.
  unfold children. simpl. induction fs as [|x fs IH]; simpl; [done|].
  by rewrite set_number_children, IH.
Qed.

Lemma param_number_set_number n fs :
  param_number (Msg n (map (set_number f) fs)) = param_number (Msg n fs).
Proof.
  unfold param_number, stmt_of, get_msg, field. simpl.
  rewrite (assoc_map (set_number f)) by apply set_number_key.
  by destruct (assoc "param_ref" fs) as [[]|].
Qed.

Definition renumbered_fields (n : string) (fs : list (string * fval)) : list (string * fval) :=
  renumber_fields f n (map (fun kv => (kv.1, map_val (renumber_fields f) kv.2)) fs).

Lemma renumber_unfold n fs : renumber f (Msg n fs) = Msg n (renumbered_fields n fs).
Proof. apply map_msg_unfold. Qed.

Lemma get_int_set_number n fs :
  get_int "number" (Some (Msg n (map (set_number f) fs))) = f (get_int "number" (Some (Msg n fs))).
Proof.
  unfold get_int, field. simpl. rewrite (assoc_map (set_number f)) by apply set_number_key.
  destruct (assoc "number" fs) as [[]|]; simpl; by rewrite ?f_zero.
Qed.

Lemma get_int_renumber (p : msg) :
  get_int "number" (Some (renumber f p)) = get_int "number" (Some p).
Proof.
  destruct p as [n fs]. rewrite renumber_unfold. unfold get_int, field, renumbered_fields, renumber_fields.
  simpl. destruct (String.eqb n "Node");
    rewrite ?(assoc_map (set_ref f)) by apply set_ref_key;
    rewrite assoc_map by done; by destruct (assoc "number" fs) as [[| | | |[]|]|].
Qed.

(** The parameter reference below a [Node], renumbered. *)
Definition renumbered_ref (p : msg) : msg :=
  Msg (msg_name p) (map (set_number f) (msg_fields (renumber f p))).

Lemma set_ref_renumber k p :
  set_ref f (k, FMsg (renumber f p)) =
    (k, FMsg (if String.eqb k "param_ref" then renumbered_ref p else renumber f p)).
Proof.
  destruct p as [n fs]. unfold renumbered_ref. rewrite renumber_unfold. simpl.
  by destruct (String.eqb k "param_ref").
Qed.

Lemma param_number_renumber m :
  is_node m = true -> param_number (renumber f m) = f <$> param_number m.
Proof.
  destruct m as [n fs]. unfold is_node. simpl. intros Hn.
  rewrite renumber_unfold. unfold renumbered_fields, renumber_fields at 1. rewrite Hn.
  unfold param_number, stmt_of, get_msg, field. simpl msg_fields. simpl mbind.
  rewrite (assoc_map (set_ref f)) by apply set_ref_key. rewrite assoc_map by done.
  destruct (assoc "param_ref" fs) as [[| | | |p|]|]; try done.
  change ((fun v => (set_ref f ("param_ref", v)).2) <$> _)
    with (Some (set_ref f ("param_ref", FMsg (renumber f p))).2).
  rewrite set_ref_renumber. simpl.
  unfold renumbered_ref. rewrite get_int_set_number. destruct p as [n' fs']. do 2 f_equal.
  exact (get_int_renumber (Msg n' fs')).
Qed.

Lemma is_node_renumber m : is_node (renumber f m) = is_node m.
Proof. destruct m as [n fs]. by rewrite renumber_unfold. Qed.

Lemma renumbers_self m : renumbers m (renumber f m).
Proof. split; [by rewrite is_node_renumber | apply param_number_renumber]. Qed.

(** The walk below a reference that was renumbered is the walk below it. *)
Lemma walk_renumbered_ref p :
  Forall2 renumbers (walkMessages p) (walkMessages (renumber f p)) ->
  Forall2 renumbers (walkMessages p) (walkMessages (renumbered_ref p)).
Proof.
  destruct p as [n fs]. unfold renumbered_ref. rewrite renumber_unfold.
  simpl msg_name. simpl msg_fields. intros H.
  rewrite !walkMessages_children in *. rewrite children_set_number.
  inversion H as [|x y l l' [Hn Hp] Hl]; subst. constructor; [|done].
  split; [done|]. intros Hx. rewrite param_number_set_number. by apply Hp.
Qed.

Lemma walk_renumber_list ms :
  Forall (fun m => Forall2 renumbers (walkMessages m) (walkMessages (renumber f m))) ms ->
  Forall2 renumbers (flat_map walkMessages ms) (flat_map walkMessages (map (renumber f) ms)).
Proof. induction 1; simpl; [constructor | by apply Forall2_app]. Qed.

Lemma walk_renumber_field (node : bool) k v :
  Forall (fun m => Forall2 renumbers (walkMessages m) (walkMessages (renumber f m))) (fval_children v) ->
  let fld := (k, map_val (renumber_fields f) v) in
  Forall2 renumbers (flat_map walkMessages (fval_children v))
    (flat_map walkMessages (fval_children (if node then set_ref f fld else fld).2)).
Proof.
  intros Hv. destruct v as [| | | |p|ms]; try (destruct node; constructor).
  - cbn [map_val]. change (map_msg _ p) with (renumber f p). cbv zeta.
    inversion Hv as [|? ? Hp _]; subst.
    destruct node; [rewrite set_ref_renumber; destruct (String.eqb k "param_ref")|];
      cbn [fval_children snd flat_map]; rewrite !app_nil_r; try exact Hp.
    by apply walk_renumbered_ref.
  - destruct node; by apply walk_renumber_list.
Qed.

Lemma walk_renumber m : Forall2 renumbers (walkMessages m) (walkMessages (renumber f m)).
Proof.
  induction m as [n fs IH] using msg_ind. rewrite !walkMessages_children.
  constructor; [apply renumbers_self|]. rewrite renumber_unfold.
  unfold children, renumbered_fields, renumber_fields at 1. simpl.
  destruct (String.eqb n "Node").
  - induction IH as [|[k v] fs Hv _ IHf]; [constructor|].
    cbn [map flat_map fst snd]. rewrite !flat_map_app. apply Forall2_app; [|exact IHf].
    exact (walk_renumber_field true k v Hv).
  - induction IH as [|[k v] fs Hv _ IHf]; [constructor|].
    cbn [map flat_map fst snd]. rewrite !flat_map_app. apply Forall2_app; [|exact IHf].
    exact (walk_renumber_field false k v Hv).
Qed.

Lemma param_refs_renumber m : param_refs (renumber f m) = map f (param_refs m).
Proof.
  unfold param_refs, walkNodes. induction (walk_renumber m) as [|x y l l' [Hn Hp] _ IH]; simpl; [done|].
  rewrite <- Hn. destruct (is_node x); simpl; [|done]. rewrite (Hp eq_refl).
  destruct (param_number x); simpl; [f_equal|]; exact IH.
Qed.
End renumber.

(** ** What renumbering guarantees *)

(** The references of the new statement line up with the old ones: each new
    number, used as a place in the positions, finds the old number there. *)
Definition lines_up (params : list Z) (old new : Z) : Prop :=
  1 <= new <= Z.of_nat (length params) /\ params !! Z.to_nat (new - 1) = Some old.

Lemma renumbered_lines_up refs n :
  n ∈ refs -> lines_up (param_order refs) n (renumbered (param_order refs) n).
Proof.
  intros Hn. destruct (place_in_spec 1 (param_order refs) n) as [Hr Hl].
  - by apply elem_of_param_order.
  - apply NoDup_param_order.
  - split; [unfold renumbered; lia | done].
Qed.

Lemma place_in_absent i order n : n ∉ order -> place_in i order n = 0.
Proof.
  revert i. induction order as [|m rest IH]; intros i Hn; simpl; [done|].
  apply not_elem_of_cons in Hn as [Hm Hr].
  destruct (Z.eqb_spec m n) as [->|]; [done | by apply IH].
Qed.

Lemma renumbered_zero refs :
  existsb (fun n => n <? 1) refs = false -> renumbered (param_order refs) 0 = 0.
Proof.
  intros Hpos. apply place_in_absent. rewrite elem_of_param_order. intros H0.
  pose proof (proj1 (existsb_false_iff _ _) Hpos 0 H0). done.
Qed.

Lemma renumberParams_lines node params node' :
  renumberParams node = Some (params, node') ->
  Forall2 (lines_up params) (param_refs node) (param_refs node') /\
  (forall n, n ∈ params <-> n ∈ param_refs node).
Proof.
  unfold renumberParams. destruct (param_refs node) as [|r rs] eqn:Hrefs.
  { intros [= <- <-]. rewrite Hrefs. split; [constructor | done]. }
  rewrite <- Hrefs. destruct (existsb _ _) eqn:Hpos; [done|]. intros [= <- <-].
  rewrite param_refs_renumber by by apply renumbered_zero. split.
  - rewrite Forall2_fmap_r. apply Forall_Forall2_diag, Forall_forall.
    intros n Hn. by apply renumbered_lines_up.
  - intros n. apply elem_of_param_order.
Qed.

(** The parameters of a shadow statement run from $1: each reference of the
    rewritten statement is a place in the list of the client's positions, and
    the position at that place is the one the reference had before.  The
    positions are the client's referenced parameters, each once, ascending. *)
Theorem renumberParams_correct node params node' :
  renumberParams node = Some (params, node') ->
  Forall2 (lines_up params) (param_refs node) (param_refs node') /\
  NoDup params /\ Sorted Z.le params /\ Forall (fun n => 1 <= n) params /\
  (forall n, n ∈ params <-> n ∈ param_refs node).
Proof.
  intros H. destruct (renumberParams_lines _ _ _ H) as [Hl Hin]. revert H.
  unfold renumberParams. destruct (param_refs node) as [|r rs] eqn:Hrefs.
  { intros [= <- <-]. split_and!; try done; constructor. }
  rewrite <- Hrefs. destruct (existsb _ _) eqn:Hpos; [done|]. intros [= <- <-].
  rewrite Hrefs in *. split_and!; [done|..|done].
  - apply NoDup_param_order.
  - apply Sorted_param_order.
  - apply Forall_forall. intros n Hn. rewrite Hin in Hn.
    pose proof (proj1 (existsb_false_iff _ _) Hpos n Hn) as Hlt. by apply Z.ltb_ge in Hlt.
Qed.

Definition sample_ref (n : Z) : msg :=
  node_of "param_ref" (Msg "ParamRef" [("number", FInt n)]).

Definition sample_expr (refs : list Z) : msg :=
  node_of "bool_expr" (Msg "BoolExpr" [("args", FList (map sample_ref refs))]).

Lemma renumberParams_correct_witness :
  renumberParams (sample_expr [7; 3; 7]) = Some ([3; 7], sample_expr [2; 1; 2]) /\
  Forall2 (lines_up [3; 7]) (param_refs (sample_expr [7; 3; 7])) (param_refs (sample_expr [2; 1; 2])).
Proof.
  assert (H : renumberParams (sample_expr [7; 3; 7]) = Some ([3; 7], sample_expr [2; 1; 2]))
    by (vm_compute; reflexivity).
  split; [exact H | exact (proj1 (renumberParams_correct _ _ _ H))].
Defined.

(** ** What an intent promises *)

Section intents.
Context {PG : PgQuery}.

(** A statement that reads rows and locks none of those it selects from
    directly. *)
Definition unlocked_select (tree : msg) : Prop :=
  exists sel, stmt_of "select_stmt" tree = Some sel /\ get_list "locking_clause" (Some sel) = [].

(** The shadow of an intent is the text of an unlocked [SELECT] whose
    parameters are renumbered from [before]. *)
Definition shadow_of (before : msg) (i : Intent) : Prop :=
  exists tree, renumberParams before = Some (Params i, tree) /\
    pg_deparse tree = Some (Shadow i) /\ unlocked_select tree.

(** ** The statement a shadow is made from, by its fields *)

(** A message has no field but those named. *)
Definition only_fields (keys : list string) (m : msg) : Prop :=
  Forall (fun f => f.1 ∈ keys) (msg_fields m).

(** [count( * )], alone in a target list. *)
Definition is_count_star (target : msg) : Prop :=
  exists rt v call, stmt_of "res_target" target = Some rt /\ only_fields ["val"] rt /\
    get_msg "val" (Some rt) = Some v /\ stmt_of "func_call" v = Some call /\
    only_fields ["funcname"; "agg_star"] call /\ get_bool "agg_star" (Some call) = true /\
    map (fun n => get_str "sval" (stmt_of "string" n)) (get_list "funcname" (Some call)) = ["count"].

(** A [SELECT count( * )] over a relation, what it is joined to and a condition,
    and nothing more: no grouping, no limit, no lock. *)
Definition counts_rows (rel : msg) (extra : list msg) (where_clause : option msg) (tree : msg) : Prop :=
  exists sel, stmt_of "select_stmt" tree = Some sel /\
    (exists target, get_list "target_list" (Some sel) = [target] /\ is_count_star target) /\
    get_list "from_clause" (Some sel) = node_of "range_var" rel :: extra /\
    get_msg "where_clause" (Some sel) = where_clause /\
    get_enum "op" (pg_zero_enum "SetOperation") (Some sel) = "SETOP_NONE" /\
    get_enum "limit_option" (pg_zero_enum "LimitOption") (Some sel) = "LIMIT_OPTION_DEFAULT" /\
    only_fields ["target_list"; "from_clause"; "where_clause"; "limit_option"; "op"] sel.

(** A [SELECT] that is another but for its own locking clause. *)
Definition unlocked (sel sel' : msg) : Prop :=
  msg_name sel' = msg_name sel /\ field "locking_clause" (Some sel') = None /\
  forall k, k <> "locking_clause" -> field k (Some sel') = field k (Some sel).

(** ** The intent each kind of statement has *)

(** The intent whose shadow is made from a tree: there is none only when the tree
    has a parameter below [$1] or cannot be printed. *)
Definition shadowed (tag : string) (rowset : bool) (before : msg) (oi : option Intent) : Prop :=
  match oi with
  | Some i => Tag i = tag /\ Rowset i = rowset /\ Rows i = -1 /\ shadow_of before i
  | None => Exists (fun n => n < 1) (param_refs before) \/
            exists ps tree, renumberParams before = Some (ps, tree) /\ pg_deparse tree = None
  end.

(** UPDATE and DELETE: without RETURNING, and with a relation, the rows that
    relation, what it is joined to and the statement's own condition hold are
    counted; otherwise there is no intent. *)
Definition affects (tag others : string) (stmt : msg) (oi : option Intent) : Prop :=
  match get_list "returning_list" (Some stmt), get_msg "relation" (Some stmt) with
  | [], Some rel =>
      exists before,
        counts_rows rel (get_list others (Some stmt)) (get_msg "where_clause" (Some stmt)) before /\
        shadowed tag false before oi
  | _, _ => oi = None
  end.

(** INSERT: the rows of its VALUES, without RETURNING and ON CONFLICT. *)
Definition insert_rows (stmt : msg) : list msg :=
  get_list "values_lists" (get_msg "select_stmt" (get_msg "select_stmt" (Some stmt))).

Definition inserts (stmt : msg) (oi : option Intent) : Prop :=
  match get_list "returning_list" (Some stmt), get_msg "on_conflict_clause" (Some stmt), insert_rows stmt with
  | [], None, _ :: _ => oi = Some (mkIntent "INSERT" (Z.of_nat (length (insert_rows stmt))) "" false [])
  | _, _, _ => oi = None
  end.

(** SELECT: with a locking clause of its own, its rows without the lock. *)
Definition locks (stmt : msg) (oi : option Intent) : Prop :=
  match get_list "locking_clause" (Some stmt) with
  | [] => oi = None
  | _ :: _ => exists sel', unlocked stmt sel' /\ shadowed "SELECT" true (node_of "select_stmt" sel') oi
  end.

Definition intent_spec (k : string) (stmt : msg) (oi : option Intent) : Prop :=
  (k = "update_stmt" -> affects "UPDATE" "from_clause" stmt oi) /\
  (k = "delete_stmt" -> affects "DELETE" "using_clause" stmt oi) /\
  (k = "insert_stmt" -> inserts stmt oi) /\
  (k = "select_stmt" -> locks stmt oi) /\
  (k ∉ ["update_stmt"; "delete_stmt"; "insert_stmt"; "select_stmt"] -> oi = None).

Lemma get_list_renumber f k m :
  is_node m = false -> get_list k (Some (renumber f m)) = map (renumber f) (get_list k (Some m)).
Proof.
  destruct m as [n fs]. unfold is_node. simpl. intros Hn. rewrite renumber_unfold.
  unfold renumbered_fields, renumber_fields at 1. rewrite Hn. unfold get_list, field. simpl.
  rewrite assoc_map by done. by destruct (assoc k fs) as [[]|].
Qed.

Lemma stmt_of_renumber f k m :
  k <> "param_ref" -> stmt_of k (renumber f m) = renumber f <$> stmt_of k m.
Proof.
  destruct m as [n fs]. intros Hk. rewrite renumber_unfold.
  unfold renumbered_fields, renumber_fields at 1, stmt_of, get_msg, field. simpl.
  destruct (String.eqb n "Node").
  - rewrite (assoc_map (set_ref f)) by apply set_ref_key. rewrite assoc_map by done.
    destruct (assoc k fs) as [[| | | |p|]|]; try done.
    change ((fun v => (set_ref f (k, v)).2) <$> _) with (Some (set_ref f (k, FMsg (renumber f p))).2).
    rewrite set_ref_renumber. by rewrite (proj2 (String.eqb_neq k "param_ref")).
  - rewrite assoc_map by done. by destruct (assoc k fs) as [[]|].
Qed.

Lemma renumberParams_unlocked sel params tree :
  is_node sel = false -> get_list "locking_clause" (Some sel) = [] ->
  renumberParams (node_of "select_stmt" sel) = Some (params, tree) -> unlocked_select tree.
Proof.
  intros Hn Hl. unfold renumberParams. case_match; [intros [= <- <-]; by exists sel|].
  destruct (existsb _ _); [done|]. intros [= _ <-].
  eexists. split; [by rewrite stmt_of_renumber|].
  by rewrite get_list_renumber, Hl.
Qed.

Lemma renumberParams_none before :
  renumberParams before = None -> Exists (fun n => n < 1) (param_refs before).
Proof.
  unfold renumberParams. destruct (param_refs before) as [|n refs]; [done|].
  destruct (existsb _ _) eqn:He; [|done]. intros _. apply existsb_exists in He as (m & Hin & Hm).
  apply Exists_exists. exists m. split; [by apply list_elem_of_In | lia].
Qed.

Lemma shadowIntent_ok tag sel rowset :
  is_node sel = false -> get_list "locking_clause" (Some sel) = [] ->
  shadowed tag rowset (node_of "select_stmt" sel) (shadowIntent tag (node_of "select_stmt" sel) rowset).
Proof.
  unfold shadowIntent, shadowed. intros Hn Hl.
  destruct (renumberParams _) as [[params tree]|] eqn:Hr; [|left; by apply renumberParams_none].
  destruct (pg_deparse tree) as [text|] eqn:Hd; [|right; by eexists _, _].
  split_and!; [done..|]. exists tree. split_and!; [done..|]. by eapply renumberParams_unlocked.
Qed.

Lemma count_select_counts rel extra w : counts_rows rel extra w (count_select rel extra w).
Proof.
  eexists. split; [reflexivity|]. split.
  { exists (resTarget countStar). split; [done|]. eexists _, _, _. split_and!; try done;
      repeat constructor; rewrite !elem_of_cons; auto. }
  unfold only_fields. destruct w as [w|]; (split_and!; try done); simpl;
    repeat constructor; simpl; rewrite !elem_of_cons; auto 6.
Qed.

Lemma countIntent_affects tag others stmt :
  affects tag others stmt
    (if nonempty (get_list "returning_list" (Some stmt)) then None
     else countIntent tag (get_msg "relation" (Some stmt)) (get_list others (Some stmt))
            (get_msg "where_clause" (Some stmt))).
Proof.
  unfold affects, countIntent. destruct (get_list "returning_list" (Some stmt)); [|done]. simpl.
  destruct (get_msg "relation" (Some stmt)) as [rel|]; [|done].
  eexists. split; [apply count_select_counts|].
  apply shadowIntent_ok; by destruct (get_msg "where_clause" (Some stmt)).
Qed.

Lemma assoc_remove (k : string) (fs : list (string * fval)) :
  assoc k (List.filter (fun f => negb (String.eqb f.1 k)) fs) = None.
Proof.
  induction fs as [|[k' v] fs IH]; simpl; [done|].
  destruct (String.eqb_spec k' k) as [->|Hne]; simpl; [done|].
  destruct (String.eqb_spec k k'); congruence.
Qed.

Lemma assoc_remove_other (k k' : string) (fs : list (string * fval)) :
  k' <> k -> assoc k' (List.filter (fun f => negb (String.eqb f.1 k)) fs) = assoc k' fs.
Proof.
  intros Hk. induction fs as [|[k2 v] fs IH]; simpl; [done|].
  destruct (String.eqb_spec k2 k) as [->|Hne]; simpl; rewrite IH; [|done].
  by rewrite (proj2 (String.eqb_neq k' k)).
Qed.

Lemma remove_unlocked sel : unlocked sel (remove_field "locking_clause" sel).
Proof.
  unfold unlocked, remove_field, field. simpl. split_and!; [done | by apply assoc_remove|].
  intros k Hk. by apply assoc_remove_other.
Qed.

Lemma stmt_of_node (k k' : string) (stmt : msg) :
  stmt_of k' (node_of k stmt) = if String.eqb k' k then Some stmt else None.
Proof. unfold stmt_of, node_of, get_msg, field. simpl. by destruct (String.eqb k' k). Qed.

Lemma analyze_node_ok k stmt :
  is_node stmt = false -> intent_spec k stmt (analyze_node (node_of k stmt)).
Proof.
  intros Hn. unfold intent_spec, analyze_node. split_and!.
  - intros ->. rewrite stmt_of_node. apply countIntent_affects.
  - intros ->. rewrite !stmt_of_node. simpl. apply countIntent_affects.
  - intros ->. rewrite !stmt_of_node. simpl. unfold inserts, insert_rows.
    destruct (get_list "returning_list" _); [|done].
    destruct (get_msg "on_conflict_clause" _); [done|].
    destruct (get_msg "select_stmt" (get_msg "select_stmt" (Some stmt))); simpl; [|done].
    by destruct (get_list "values_lists" _).
  - intros ->. rewrite !stmt_of_node. simpl. unfold locks.
    destruct (get_list "locking_clause" (Some stmt)); [done|]. simpl.
    eexists. split; [apply remove_unlocked|]. apply shadowIntent_ok; [done|].
    unfold get_list, field. simpl. by rewrite assoc_remove.
  - intros Hk. rewrite !stmt_of_node. rewrite !not_elem_of_cons in Hk.
    destruct Hk as (? & ? & ? & ? & _). by rewrite !(proj2 (String.eqb_neq _ k)).
Qed.

(** C22: What refusing a statement a lock would be answered with, exactly.  An
    UPDATE or DELETE has an intent only without RETURNING and with a relation, and
    is answered by counting the rows of that relation, what it is joined to and
    its own condition: [SELECT count( * )] and nothing more.  An INSERT has one only
    without RETURNING and ON CONFLICT and for a VALUES list, and states the number
    of its rows.  A SELECT has one only with a locking clause, and is answered by
    itself without it, every other field kept.  The shadow is the text of that
    statement with its parameters renumbered.  Nothing else has an intent, nor
    does a string that is not one statement. *)
Theorem Analyze_intent sql :
  (forall k stmt, pg_parse sql = Some [Some (node_of k stmt)] -> is_node stmt = false ->
     intent_spec k stmt (Analyze sql)) /\
  ((forall node, pg_parse sql <> Some [Some node]) -> Analyze sql = None).
Proof.
  unfold Analyze. split.
  - intros k stmt -> Hn. by apply analyze_node_ok.
  - intros Hno. destruct (pg_parse sql) as [[|[node|] []]|]; try done. by destruct (Hno node).
Qed.

End intents.

Definition sample_update : msg :=
  Msg "UpdateStmt" [("relation", FMsg (Msg "RangeVar" [("relname", FStr "t")]));
                    ("where_clause", FMsg (sample_expr [7; 3; 7]))].

Lemma Analyze_intent_witness :
  let PG := table_pg [("U", [Some (node_of "update_stmt" sample_update)])] []
              (fun _ => Some "SELECT count(*) FROM t WHERE x") in
  exists i before, @Analyze PG "U" = Some i /\ Tag i = "UPDATE" /\ Params i = [3; 7] /\
    @counts_rows PG (Msg "RangeVar" [("relname", FStr "t")]) [] (Some (sample_expr [7; 3; 7])) before /\
    @shadow_of PG before i.
Proof.
  intros PG. destruct (proj1 (@Analyze_intent PG "U") "update_stmt" sample_update eq_refl eq_refl)
    as (H & _).
  destruct (H eq_refl) as (before & Hb & Hi).
  exists (mkIntent "UPDATE" (-1) "SELECT count(*) FROM t WHERE x" false [3; 7]), before.
  split; [vm_compute; reflexivity|]. split; [reflexivity|]. split; [reflexivity|].
  split; [exact Hb|]. exact (proj2 (proj2 (proj2 Hi))).
Defined.
