(* ===== verification/Wire.v ===== *)
(** * Framing: [internal/wire]

    Reading protocol messages off a byte stream without altering them, rewriting
    the startup message, and decoding frontend messages.  A stream is the bytes
    that have yet to arrive before its end; a read gives what it read or an
    error, with the bytes left.  The message codecs belong to [pgproto3] and are
    parameters. *)

From Stdlib Require Import Ascii String Strings.Byte.
From stdpp Require Import base numbers strings gmap list.
From S2P Require Import Prelude GoStd.

Local Open Scope Z_scope.

Abbreviation bytes := (list byte).

Definition maxMessageLength : Z := 2 ^ 28.

Definition ProtocolVersion3 : Z := 196608.
Definition ProtocolVersion32 : Z := 196610.
Definition SSLRequestCode : Z := 80877103.
Definition GSSENCRequest : Z := 80877104.
Definition CancelRequest : Z := 80877102.

Definition IsStartup (c : Z) : bool := (c =? ProtocolVersion3) || (c =? ProtocolVersion32).

(** ** Reading *)

Inductive io_error := EOF | ErrUnexpectedEOF.

Inductive wire_error :=
| ReadError (e : io_error)
| InvalidLength (n : Z) (t : byte)
| BodyError (t : byte) (e : io_error)
| InvalidStartupLength (n : Z)
| StartupBodyError (e : io_error).

(** [io.ReadFull]: all [n] bytes, or the error that says how far it got. *)
Definition ReadFull (n : nat) (s : bytes) : (bytes + io_error) * bytes :=
  if (n <=? length s)%nat then (inl (take n s), drop n s)
  else match s with
       | [] => (inr EOF, [])
       | _ => (inr ErrUnexpectedEOF, [])
       end.

Definition byte_value (b : byte) : Z := Z.of_N (Byte.to_N b).

(** The low eight bits as a byte. *)
Definition to_byte (z : Z) : byte :=
  match Byte.of_N (Z.to_N (z mod 256)) with Some b => b | None => x00 end.

(** [binary.BigEndian.Uint32] of four bytes. *)
Definition uint32_be (bs : bytes) : Z :=
  match bs with
  | b0 :: b1 :: b2 :: b3 :: _ =>
      Z.lor (Z.lor (Z.lor (byte_value b3) (Z.shiftl (byte_value b2) 8))
               (Z.shiftl (byte_value b1) 16)) (Z.shiftl (byte_value b0) 24)
  | _ => 0
  end.

(** The four bytes of an unsigned 32-bit number, most significant first. *)
Definition put_uint32_be (z : Z) : bytes :=
  [to_byte (Z.shiftr z 24); to_byte (Z.shiftr z 16); to_byte (Z.shiftr z 8); to_byte z].

Record Message := mkMessage { Type_ : byte; Body : bytes; Raw : bytes }.

Definition ReadTagged (r : bytes) : (Message + wire_error) * bytes :=
  match ReadFull 5 r with
  | (inr e, r1) => (inr (ReadError e), r1)
  | (inl hdr, r1) =>
      let t := default x00 (hdr !! 0%nat) in
      let length := uint32_be (drop 1 hdr) in
      if (length <? 4) || (length >? maxMessageLength) then (inr (InvalidLength length t), r1)
      else match ReadFull (Z.to_nat (length - 4)) r1 with
           | (inr e, r2) => (inr (BodyError t e), r2)
           | (inl body, r2) => (inl (mkMessage t body (hdr ++ body)), r2)
           end
  end.

Record Startup := mkStartup { suCode : Z; suBody : bytes; suRaw : bytes }.

Definition ReadStartup (r : bytes) : (Startup + wire_error) * bytes :=
  match ReadFull 4 r with
  | (inr e, r1) => (inr (ReadError e), r1)
  | (inl lenBuf, r1) =>
      let length := uint32_be lenBuf in
      if (length <? 8) || (length >? maxMessageLength) then (inr (InvalidStartupLength length), r1)
      else match ReadFull (Z.to_nat (length - 4)) r1 with
           | (inr e, r2) => (inr (StartupBodyError e), r2)
           | (inl rest, r2) =>
               (inl (mkStartup (int32 (uint32_be (take 4 rest))) rest (lenBuf ++ rest)), r2)
           end
  end.

(** ** Messages

    The messages the program decodes, with the fields it reads.  A message it
    only forwards keeps its name.  A parameter of a Bind that is SQL NULL, a nil
    slice in Go, is [None], apart from an empty value. *)

Inductive FrontendMessage :=
| Bind (PreparedStatement : string) (ParameterFormatCodes : list Z) (Parameters : list (option bytes))
       (ResultFormatCodes : list Z) (DestinationPortal : string)
| Close (ObjectType : byte) (Name : string)
| Describe
| Execute
| FunctionCall
| Flush
| Parse (Name : string) (Query : string) (ParameterOIDs : list Z)
| Query (String : string)
| Sync
| Terminate
| CopyData
| CopyDone
| CopyFail
| PasswordMessage.

(** The Go type of a message. *)
Inductive FrontendType :=
| TBind | TClose | TDescribe | TExecute | TFunctionCall | TFlush | TParse | TQuery | TSync
| TTerminate | TCopyData | TCopyDone | TCopyFail | TPasswordMessage.

Definition type_of (m : FrontendMessage) : FrontendType :=
  match m with
  | Bind _ _ _ _ _ => TBind | Close _ _ => TClose | Describe => TDescribe | Execute => TExecute
  | FunctionCall => TFunctionCall | Flush => TFlush | Parse _ _ _ => TParse | Query _ => TQuery
  | Sync => TSync | Terminate => TTerminate | CopyData => TCopyData | CopyDone => TCopyDone
  | CopyFail => TCopyFail | PasswordMessage => TPasswordMessage
  end.

Record ErrorFields := mkError {
  Severity : string; ErrCode : string; ErrMessage : string; Detail : string; Hint : string;
  OtherFields : list (string * string)
}.

Record FieldDescription := mkField {
  FieldName : string; TableOID : Z; TableAttributeNumber : Z; DataTypeOID : Z;
  DataTypeSize : Z; TypeModifier : Z; Format : Z
}.

Inductive BackendMessage :=
| ReadyForQuery (TxStatus : byte)
| ErrorResponse (er : ErrorFields)
| ParameterStatus (psName : string) (psValue : string)
| CommandComplete (CommandTag : string)
| RowDescription (Fields : list FieldDescription)
| DataRow (Values : list bytes).

(** The codecs of [pgproto3].  [fe_decode] fills a message of the type it is
    asked for; an encoding gives bytes together with whether it failed. *)
Class PgProto := {
  fe_decode : FrontendType -> bytes -> option FrontendMessage;
  fe_decode_type : forall ty b m, fe_decode ty b = Some m -> type_of m = ty;
  fe_encode : FrontendMessage -> bytes * bool;
  be_encode : BackendMessage -> bytes * bool;
  rfq_decode : bytes -> option byte;
  error_decode : bytes -> option ErrorFields;
  status_decode : bytes -> option (string * string);
  complete_decode : bytes -> option string;
  row_decode : bytes -> option (list bytes);
  startup_decode : bytes -> option (Z * gmap string string);
  startup_encode : Z -> gmap string string -> option bytes;
}.

Section wire.
Context {PP : PgProto}.

(** The type a frontend tag stands for. *)
Definition frontend_type (t : byte) : option FrontendType :=
  if Byte.eqb t "B" then Some TBind
  else if Byte.eqb t "C" then Some TClose
  else if Byte.eqb t "D" then Some TDescribe
  else if Byte.eqb t "E" then Some TExecute
  else if Byte.eqb t "F" then Some TFunctionCall
  else if Byte.eqb t "H" then Some TFlush
  else if Byte.eqb t "P" then Some TParse
  else if Byte.eqb t "Q" then Some TQuery
  else if Byte.eqb t "S" then Some TSync
  else if Byte.eqb t "X" then Some TTerminate
  else if Byte.eqb t "d" then Some TCopyData
  else if Byte.eqb t "c" then Some TCopyDone
  else if Byte.eqb t "f" then Some TCopyFail
  else if Byte.eqb t "p" then Some TPasswordMessage
  else None.

Inductive decoded :=
| NotModelled
| Decoded (m : FrontendMessage)
| DecodeError.

Definition DecodeFrontend (t : byte) (body : bytes) : decoded :=
  match frontend_type t with
  | None => NotModelled
  | Some ty => match fe_decode ty body with
               | Some m => Decoded m
               | None => DecodeError
               end
  end.

(** ** The startup message *)

(** Set every one of [params] over what the client sent. *)
Definition set_params (params existing : gmap string string) : gmap string string :=
  params ∪ existing.

Definition add_options (options : list string) (m : gmap string string) : gmap string string :=
  match options with
  | [] => m
  | _ =>
      let existing := default EmptyString (m !! "options") in
      let all := if String.eqb existing "" then options else existing :: options in
      <["options" := join " " all]> m
  end.

Definition RewriteStartup (startup : Startup) (params : gmap string string)
    (options : list string) : bytes :=
  match startup_decode (suBody startup) with
  | None => suRaw startup
  | Some (version, m) =>
      match startup_encode version (add_options options (set_params params m)) with
      | Some encoded => encoded
      | None => suRaw startup
      end
  end.

End wire.

(** ** Lemmas: bytes and lengths *)

Lemma byte_value_range b : 0 <= byte_value b < 256.
Proof. destruct b; vm_compute; split; congruence. Qed.

Lemma to_byte_value b : to_byte (byte_value b) = b.
Proof. by destruct b. Qed.

Lemma byte_value_to_byte z : byte_value (to_byte z) = z mod 256.
Proof.
  unfold byte_value, to_byte. pose proof (Z.mod_pos_bound z 256 ltac:(lia)) as Hb.
  destruct (Byte.of_N (Z.to_N (z mod 256))) as [b|] eqn:E.
  - apply Byte.to_of_N in E. rewrite E. lia.
  - apply Byte.of_N_None_iff in E. lia.
Qed.

Lemma uint32_be_sum b0 b1 b2 b3 rest :
  uint32_be (b0 :: b1 :: b2 :: b3 :: rest) =
    byte_value b0 * 2 ^ 24 + byte_value b1 * 2 ^ 16 + byte_value b2 * 2 ^ 8 + byte_value b3.
Proof.
  unfold uint32_be.
  pose proof (byte_value_range b0). pose proof (byte_value_range b1).
  pose proof (byte_value_range b2). pose proof (byte_value_range b3).
  rewrite !Z.shiftl_mul_pow2 by lia.
  assert (Hlor : forall a c n, 0 <= n -> 0 <= a < 2 ^ n -> Z.lor a (c * 2 ^ n) = a + c * 2 ^ n).
  { intros a c n Hn Ha. rewrite <- Z.add_lor_land, <- Z.shiftl_mul_pow2 by lia.
    assert (Z.land a (Z.shiftl c n) = 0) as ->; [|lia].
    apply Z.bits_inj'. intros k Hk. rewrite Z.land_spec, Z.bits_0.
    destruct (Z_lt_le_dec k n).
    - rewrite Z.shiftl_spec_low by lia. by rewrite andb_false_r.
    - rewrite (Z.testbit_eqb a) by lia. rewrite Z.div_small; [done|].
      split; [lia|]. apply Z.lt_le_trans with (2 ^ n); [lia|]. apply Z.pow_le_mono_r; lia. }
  rewrite (Hlor (byte_value b3) _ 8) by lia. rewrite (Hlor _ (byte_value b1) 16) by lia.
  rewrite (Hlor _ (byte_value b0) 24) by lia. lia.
Qed.

Lemma uint32_be_put z : 0 <= z < 2 ^ 32 -> uint32_be (put_uint32_be z) = z.
Proof.
  intros Hz. unfold put_uint32_be. rewrite uint32_be_sum, !byte_value_to_byte, !Z.shiftr_div_pow2 by lia.
  change (2 ^ 24) with 16777216 in *; change (2 ^ 16) with 65536 in *; change (2 ^ 8) with 256 in *.
  change (2 ^ 32) with 4294967296 in Hz. Z.to_euclidean_division_equations. lia.
Qed.

Lemma put_uint32_be_uint32 b0 b1 b2 b3 :
  put_uint32_be (uint32_be [b0; b1; b2; b3]) = [b0; b1; b2; b3].
Proof.
  rewrite uint32_be_sum.
  pose proof (byte_value_range b0). pose proof (byte_value_range b1).
  pose proof (byte_value_range b2). pose proof (byte_value_range b3).
  assert (Heq : forall z b, z mod 256 = byte_value b -> to_byte z = b).
  { intros z b Hz. rewrite <- (to_byte_value b). unfold to_byte. rewrite <- Hz.
    by rewrite Z.mod_mod. }
  unfold put_uint32_be. rewrite !Z.shiftr_div_pow2 by lia.
  change (2 ^ 24) with 16777216 in *; change (2 ^ 16) with 65536 in *; change (2 ^ 8) with 256 in *.
  repeat f_equal; apply Heq; Z.to_euclidean_division_equations; lia.
Qed.

Lemma ReadFull_app n s rest : length s = n -> ReadFull n (s ++ rest) = (inl s, rest).
Proof.
  intros <-. unfold ReadFull. rewrite length_app.
  destruct (Nat.leb_spec (length s) (length s + length rest)); [|lia].
  by rewrite take_app_length, drop_app_length.
Qed.

Lemma ReadFull_inl n s h rest : ReadFull n s = (inl h, rest) -> s = h ++ rest /\ length h = n.
Proof.
  unfold ReadFull. destruct (Nat.leb_spec n (length s)).
  - intros [= <- <-]. by rewrite take_drop, length_take_le.
  - by destruct s.
Qed.

(** ** Frames *)

(** The frame of a tagged message. *)
Definition frame (t : byte) (body : bytes) : bytes :=
  t :: put_uint32_be (Z.of_nat (length body) + 4) ++ body.

Definition frame_of (m : Message) : bytes := frame (Type_ m) (Body m).

(** What [ReadTagged] delivers: [Raw] is the frame. *)
Definition framed (m : Message) : Prop := Raw m = frame_of m.

Definition fits (body : bytes) : Prop := Z.of_nat (length body) + 4 <= maxMessageLength.

Lemma ReadTagged_frame t body rest :
  fits body -> ReadTagged (frame t body ++ rest) = (inl (mkMessage t body (frame t body)), rest).
Proof.
  unfold fits, maxMessageLength. intros Hlen. unfold ReadTagged, frame.
  set (len := Z.of_nat (length body) + 4) in *.
  replace ((t :: put_uint32_be len ++ body) ++ rest)
    with ((t :: put_uint32_be len) ++ (body ++ rest)) by done.
  rewrite ReadFull_app by done. cbn [lookup list_lookup default from_option drop].
  change (drop 0 (put_uint32_be len)) with (put_uint32_be len).
  rewrite uint32_be_put by lia. unfold maxMessageLength.
  destruct (Z.ltb_spec len 4); [lia|]. destruct (Z.gtb_spec len (2 ^ 28)); [lia|]. simpl.
  rewrite ReadFull_app by lia. done.
Qed.

Lemma ReadTagged_inl s m rest :
  ReadTagged s = (inl m, rest) -> s = frame_of m ++ rest /\ Raw m = frame_of m /\ fits (Body m).
Proof.
  unfold ReadTagged. destruct (ReadFull 5 s) as [[hdr|] r1] eqn:E1; [|done].
  apply ReadFull_inl in E1 as [-> Hh].
  destruct hdr as [|t [|b0 [|b1 [|b2 [|b3 [|]]]]]]; try done. clear Hh. cbn [lookup list_lookup default from_option drop].
  set (len := uint32_be [b0; b1; b2; b3]).
  destruct ((len <? 4) || (len >? maxMessageLength)) eqn:Hb; [done|].
  apply orb_false_iff in Hb as [Hlo Hhi]. apply Z.ltb_ge in Hlo.
  rewrite Z.gtb_ltb in Hhi. apply Z.ltb_ge in Hhi.
  destruct (ReadFull _ r1) as [[body|] r2] eqn:E2; [|done].
  apply ReadFull_inl in E2 as [-> Hlen]. intros [= <- <-].
  assert (Hl : Z.of_nat (length body) + 4 = len) by lia.
  unfold frame_of, frame, fits. simpl Type_. simpl Body. rewrite Hl.
  unfold len. rewrite put_uint32_be_uint32. split_and!; [|done|lia].
  simpl. done.
Qed.

Lemma ReadTagged_raw s m rest :
  s = Raw m ++ rest -> framed m -> fits (Body m) -> ReadTagged s = (inl m, rest).
Proof.
  unfold framed, frame_of. intros -> Hr Hf. rewrite Hr, ReadTagged_frame by done. by destruct m; simpl in *; subst.
Qed.

(** C23: [ReadTagged] reads exactly the frames: it succeeds if and only if the
    stream begins with the frame of a message whose length is within the bound,
    [Raw] is then the bytes it consumed, unaltered, and the rest is left. *)
Theorem ReadTagged_exact s m rest :
  ReadTagged s = (inl m, rest) <->
  s = Raw m ++ rest /\ Raw m = frame (Type_ m) (Body m) /\
  Z.of_nat (length (Body m)) + 4 <= maxMessageLength.
Proof.
  split.
  - intros H. apply ReadTagged_inl in H as (-> & Hr & Hf). by rewrite Hr.
  - intros (Hs & Hr & Hf). by apply ReadTagged_raw.
Qed.

(** A pump's loop over a stream: the messages read before the first error. *)
Fixpoint read_all (fuel : nat) (s : bytes) : list Message * wire_error :=
  match fuel with
  | O => ([], ReadError EOF)
  | S fuel => match ReadTagged s with
              | (inr e, _) => ([], e)
              | (inl m, rest) => let (ms, e) := read_all fuel rest in (m :: ms, e)
              end
  end.

Lemma frame_length t body : length (frame t body) = (5 + length body)%nat.
Proof. done. Qed.

(** C25: Reading a stream to its end delivers the messages it is made of, in
    order and nothing else, whatever their types: every sequence of bounded
    messages round-trips through their frames, and the reader stops with the end
    of the stream.  A step per byte is enough to read any stream. *)
Theorem stream_round_trip (ms : list Message) :
  Forall (fun m => Raw m = frame (Type_ m) (Body m) /\
                   Z.of_nat (length (Body m)) + 4 <= maxMessageLength) ms ->
  let stream := flat_map Raw ms in
  read_all (S (length stream)) stream = (ms, ReadError EOF).
Proof.
  intros H stream. subst stream.
  assert (Hgen : forall fuel, (length (flat_map Raw ms) < fuel)%nat ->
            read_all fuel (flat_map Raw ms) = (ms, ReadError EOF)).
  2: { apply Hgen. lia. }
  induction H as [|m ms [Hr Hf] _ IH]; intros fuel Hfuel; (destruct fuel as [|fuel]; [lia|]).
  - done.
  - change (flat_map Raw (m :: ms)) with (Raw m ++ flat_map Raw ms) in *. rewrite length_app, Hr, frame_length in Hfuel. cbn [read_all].
    rewrite (ReadTagged_raw _ m (flat_map Raw ms)) by done.
    rewrite IH by lia. done.
Qed.

(** ** The startup message *)

Section rewrite_startup.
Context {PP : PgProto}.

(** Rewriting a startup message only adds to it.  When it decodes and the
    result can be encoded, the server receives the encoding of a map in which
    every parameter asked for has the value asked for, the options asked for
    follow whatever options there were, and every other parameter is the
    client's; and otherwise it receives the client's bytes unchanged. *)
Theorem RewriteStartup_correct startup params options :
  params !! "options" = None ->
  (startup_decode (suBody startup) = None /\ RewriteStartup startup params options = suRaw startup) \/
  exists version m m',
    startup_decode (suBody startup) = Some (version, m) /\
    RewriteStartup startup params options = default (suRaw startup) (startup_encode version m') /\
    (forall k v, params !! k = Some v -> m' !! k = Some v) /\
    (forall k, params !! k = None -> k <> "options" -> m' !! k = m !! k) /\
    m' !! "options" = match options, m !! "options" with
                      | [], o => o
                      | _, None | _, Some EmptyString => Some (join " " options)
                      | _, Some o => Some (o +:+ " " +:+ join " " options)
                      end.
Proof.
  intros Hp. unfold RewriteStartup.
  destruct (startup_decode (suBody startup)) as [[version m]|]; [|by left]. right.
  exists version, m, (add_options options (set_params params m)).
  split; [done|]. split; [by destruct (startup_encode _ _)|].
  assert (Hset : forall k, set_params params m !! k = match params !! k with Some v => Some v | None => m !! k end).
  { intros k. unfold set_params. rewrite lookup_union. destruct (params !! k), (m !! k); done. }
  destruct options as [|o os]; simpl.
  - split_and!.
    + intros k v Hk. by rewrite Hset, Hk.
    + intros k Hk _. by rewrite Hset, Hk.
    + by rewrite Hset, Hp.
  - split_and!.
    + intros k v Hk. rewrite lookup_insert_ne by congruence. by rewrite Hset, Hk.
    + intros k Hk Hne. rewrite lookup_insert_ne by congruence. by rewrite Hset, Hk.
    + rewrite lookup_insert_eq, Hset, Hp. by destruct (m !! "options") as [[]|].
Qed.

End rewrite_startup.

(** ** A concrete codec, for instances

    A message is its text: enough to run the handlers on concrete traffic. *)

Definition text_of (s : string) : bytes := String.list_byte_of_string s.
Definition of_text (b : bytes) : string := String.string_of_list_byte b.

Definition sample_fe_decode (ty : FrontendType) (b : bytes) : option FrontendMessage :=
  Some match ty with
       | TBind => Bind (of_text b) [] [] [] ""
       | TClose => match b with [] => Close "P" "" | o :: n => Close o (of_text n) end
       | TDescribe => Describe | TExecute => Execute | TFunctionCall => FunctionCall
       | TFlush => Flush | TParse => Parse "" (of_text b) [] | TQuery => Query (of_text b)
       | TSync => Sync | TTerminate => Terminate | TCopyData => CopyData
       | TCopyDone => CopyDone | TCopyFail => CopyFail | TPasswordMessage => PasswordMessage
       end.

Lemma sample_fe_decode_type ty b m : sample_fe_decode ty b = Some m -> type_of m = ty.
Proof. intros [= <-]. destruct ty; try done. by destruct b. Qed.

(** A message too large for its length field is refused. *)
Definition sample_frame (t : byte) (body : bytes) : bytes * bool :=
  if Z.of_nat (length body) + 4 <? 2 ^ 32 then (frame t body, false) else ([], true).

Definition sample_proto : PgProto := {|
  fe_decode := sample_fe_decode;
  fe_decode_type := sample_fe_decode_type;
  fe_encode m := match m with
                 | Bind n _ ps _ _ => sample_frame "B" (text_of n ++ concat (map (default []) ps))
                 | Parse _ q _ => sample_frame "P" (text_of q)
                 | Query q => sample_frame "Q" (text_of q)
                 | Sync => sample_frame "S" []
                 | Execute => sample_frame "E" []
                 | _ => ([], true)
                 end;
  be_encode m := match m with
                 | ReadyForQuery st => (frame "Z" [st], false)
                 | ErrorResponse er => (frame "E" (text_of (ErrCode er)), false)
                 | ParameterStatus n v => (frame "S" (text_of (n +:+ "=" +:+ v)), false)
                 | CommandComplete t => (frame "C" (text_of t), false)
                 | RowDescription _ => (frame "T" [], false)
                 | DataRow vs => (frame "D" (concat vs), false)
                 end;
  rfq_decode b := head b;
  error_decode b := Some (mkError "ERROR" (of_text b) "" "" "" []);
  status_decode b := Some (of_text b, EmptyString);
  complete_decode b := Some (of_text b);
  row_decode b := Some [b];
  startup_decode b := Some (ProtocolVersion3, {["options" := of_text b]});
  startup_encode v m := Some (text_of (default EmptyString (m !! "options")));
|}.

Definition sample_messages : list Message :=
  [mkMessage "Q" (text_of "SELECT 1") (frame "Q" (text_of "SELECT 1")); mkMessage "S" [] (frame "S" [])].

Lemma stream_round_trip_witness :
  let stream := flat_map Raw sample_messages in
  read_all (S (length stream)) stream = (sample_messages, ReadError EOF).
Proof.
  apply (stream_round_trip sample_messages).
  repeat constructor; vm_compute; congruence.
Defined.

Definition sample_params : gmap string string :=
  {["default_transaction_isolation" := "repeatable read"]}.

Lemma RewriteStartup_correct_witness :
  let startup := mkStartup ProtocolVersion3 (text_of "-c a=1") [] in
  @RewriteStartup sample_proto startup sample_params
      ["-c lock_timeout=5ms"] = text_of "-c a=1 -c lock_timeout=5ms" /\
  (@startup_decode sample_proto (suBody startup) = None \/
   exists m, @startup_decode sample_proto (suBody startup) = Some (ProtocolVersion3, m)).
Proof.
  split; [vm_compute; reflexivity|].
  destruct (@RewriteStartup_correct sample_proto
              (mkStartup ProtocolVersion3 (text_of "-c a=1") [])
              sample_params
              ["-c lock_timeout=5ms"] ltac:(vm_compute; reflexivity))
    as [[H _] | (v & m & m' & H & _)]; [by left | right].
  exists m. injection H as <- <-. reflexivity.
Defined.
