(* ===== verification/Rewrite.v ===== *)
(** * Rewritten statements: [internal/proxy/rewrite.go]

    The ASYNC keyword is cut out of the statements that carry it, working on the
    scanner's tokens; a job id names the asynchronous statement; and the version
    is encoded as a number.  A slice outside the string, which Go answers with a
    panic, is [None]. *)

From Stdlib Require Import Ascii String Strings.Byte.
From stdpp Require Import base numbers pretty strings list sets.
From S2P Require Import Prelude GoStd Proto Wire.

Local Open Scope Z_scope.

(** [s[a:b]] of a string. *)
Definition slice (s : string) (a b : Z) : option string :=
  if (0 <=? a) && (a <=? b) && (b <=? Z.of_nat (String.length s))
  then Some (String.substring (Z.to_nat a) (Z.to_nat (b - a)) s) else None.

(** [s[a:]]. *)
Definition slice_from (s : string) (a : Z) : option string :=
  slice s a (Z.of_nat (String.length s)).

(** ** The ASYNC keyword *)

(** The tokens of each statement, split on the semicolons. *)
Fixpoint statements (cur tokens : list ScanToken) : list (list ScanToken) :=
  match tokens with
  | [] => [cur]
  | t :: rest =>
      if bool_decide (tok t = ASCII_59) then cur :: statements [] rest
      else statements (cur ++ [t]) rest
  end.

Definition tokenAt (tokens : list ScanToken) (i : nat) : Token :=
  match tokens !! i with Some t => tok t | None => NUL end.

Definition token_is (tokens : list ScanToken) (i : nat) (t : Token) : bool :=
  bool_decide (tokenAt tokens i = t).

Definition isAsync (sql : string) (tokens : list ScanToken) (i : nat) : option bool :=
  match tokens !! i with
  | None => Some false
  | Some t =>
      if negb (bool_decide (tok t = IDENT)) then Some false
      else if (tok_start t <? 0) || (tok_end t >? Z.of_nat (String.length sql)) then Some false
      else text ← slice sql (tok_start t) (tok_end t); Some (equal_fold text "async")
  end.

(** The index of the keyword in a statement's tokens, or -1. *)
Definition asyncKeyword (sql : string) (tokens : list ScanToken) : option Z :=
  match tokenAt tokens 0 with
  | CREATE =>
      let at_ := if token_is tokens 1 UNIQUE then 2%nat else 1%nat in
      if negb (token_is tokens at_ INDEX) then Some (-1)
      else a ← isAsync sql tokens (at_ + 1)%nat;
        if negb a then Some (-1)
        else match tokenAt tokens (at_ + 2)%nat with
             | IDENT | IF_P | ON => Some (Z.of_nat (at_ + 1))
             | _ => Some (-1)
             end
  | ALTER =>
      if negb (token_is tokens 1 TABLE) then Some (-1)
      else a ← isAsync sql tokens 2%nat;
        if negb a then Some (-1)
        else if token_is tokens 3 IDENT then Some 2 else Some (-1)
  | _ => Some (-1)
  end.

(** What is cut for the keyword at an index: through to the next token. *)
Definition cut_at (tokens : list ScanToken) (i : nat) : Z * Z :=
  match tokens !! i with
  | Some t =>
      (tok_start t, match tokens !! (i + 1)%nat with
                    | Some t' => tok_start t'
                    | None => tok_end t
                    end)
  | None => (0, 0)
  end.

(** The cuts of the statements from the [ordinal]th on, and the first ordinal
    with one. *)
Fixpoint find_cuts (sql : string) (ordinal : nat) (stmts : list (list ScanToken)) :
    option (list (Z * Z) * option nat) :=
  match stmts with
  | [] => Some ([], None)
  | tokens :: rest =>
      at_ ← asyncKeyword sql tokens;
      found ← find_cuts sql (S ordinal) rest;
      let (cuts, later) := found : list (Z * Z) * option nat in
      if at_ <? 0 then Some (cuts, later)
      else Some (cut_at tokens (Z.to_nat at_) :: cuts, Some ordinal)
  end.

(** The text between the cuts, from [prev] on. *)
Fixpoint cut_out (sql : string) (prev : Z) (cuts : list (Z * Z)) : option string :=
  match cuts with
  | [] => slice_from sql prev
  | (a, b) :: rest =>
      kept ← slice sql prev a;
      more ← cut_out sql b rest;
      Some (kept +:+ more)
  end.

Section strip.
Context {PG : PgQuery}.

(** [Some None] when there is nothing to strip, and [None] for a panic. *)
Definition stripAsync (sql : string) : option (option (string * nat)) :=
  match pg_scan sql with
  | None => Some None
  | Some tokens =>
      found ← find_cuts sql 0 (statements [] tokens);
      match found : list (Z * Z) * option nat with
      | (_, None) => Some None
      | (cuts, Some ordinal) => out ← cut_out sql 0 cuts; Some (Some (out, ordinal))
      end
  end.

End strip.

(** ** Job ids *)

Definition jobMarker (jobID : string) : string := "/* dsql_job=" +:+ jobID +:+ " */ ".

Definition JobIDLength : nat := 26.

(** RFC 4648 base32 without padding: the bits in groups of five, most
    significant first, the last group filled up with zeros. *)
Definition base32_alphabet : string := "ABCDEFGHIJKLMNOPQRSTUVWXYZ234567".

Definition byte_bits (b : byte) : list bool :=
  let '(b0, (b1, (b2, (b3, (b4, (b5, (b6, b7))))))) := Byte.to_bits b in
  [b7; b6; b5; b4; b3; b2; b1; b0].

Definition group_value (g : list bool) : nat :=
  fold_left (fun n b => (2 * n + Nat.b2n b)%nat) g 0%nat.

Fixpoint groups (cur : list bool) (bits : list bool) : list (list bool) :=
  match bits with
  | [] => match cur with [] => [] | _ => [take 5 (cur ++ repeat false 4)] end
  | b :: rest =>
      if (length cur =? 4)%nat then (cur ++ [b]) :: groups [] rest
      else groups (cur ++ [b]) rest
  end.

Definition base32_char (g : list bool) : ascii :=
  match String.get (group_value g) base32_alphabet with Some c => c | None => "A"%char end.

Definition EncodeToString (buf : bytes) : string :=
  String.string_of_list_ascii (map base32_char (groups [] (flat_map byte_bits buf))).

Fixpoint string_repeat (n : nat) (s : string) : string :=
  match n with O => EmptyString | S n => s +:+ string_repeat n s end.

(** [random] is what [rand.Read] filled the buffer with, or [None] if it failed. *)
Definition newJobID (random : option bytes) : string :=
  match random with
  | None => string_repeat JobIDLength "a"
  | Some buf => to_lower (EncodeToString buf)
  end.

(** ** The version number *)

(** The digits of a part, wrapping at 64 bits; anything else makes it 0. *)
Fixpoint version_atoi (n : Z) (s : string) : Z :=
  match s with
  | EmptyString => n
  | String c rest =>
      match digit_value c with
      | Some d => version_atoi (int64 (int64 (n * 10) + d)) rest
      | None => 0
      end
  end.

Definition serverVersionNum (version : string) : string :=
  let parts := split_char "." 2 (trim_space version) "" in
  let part i := version_atoi 0 (default EmptyString (parts !! i)) in
  let major := part 0%nat in
  let '(minor, patch) := match length parts with
                         | 2%nat => (0, part 1%nat)
                         | 3%nat => (part 1%nat, part 2%nat)
                         | _ => (0, 0)
                         end in
  itoa (int64 (int64 (int64 (major * 10000) + int64 (minor * 100)) + patch)).

Example serverVersionNum_example : serverVersionNum "16.15" = "160015".
Proof. vm_compute. reflexivity. Qed.
Example newJobID_example :
  newJobID (Some (repeat (to_byte 255) 16)) = "7777777777777777777777777" +:+ "4".
Proof. vm_compute. reflexivity. Qed.

(** ** Lemmas: slices *)

Lemma substring_split s n m k :
  String.substring n (m + k) s = String.substring n m s +:+ String.substring (n + m) k s.
Proof.
  revert n m k. induction s as [|c s IH]; intros n m k.
  - by destruct n, m, k.
  - destruct n as [|n]; [destruct m as [|m]; [done|]|].
    + exact (f_equal (String c) (IH 0%nat m k)).
    + exact (IH n m k).
Qed.

Lemma substring_nil s n : String.substring n 0 s = EmptyString.
Proof. revert n. induction s as [|c s IH]; intros [|n]; simpl; done. Qed.

Lemma substring_all s : String.substring 0 (String.length s) s = s.
Proof. induction s as [|c s IH]; simpl; by f_equal. Qed.

Lemma substring_length s : forall n m, String.length (String.substring n m s) = (m `min` (String.length s - n))%nat.
Proof.
  induction s as [|c s IH]; intros [|n] [|m]; simpl; try done; rewrite IH; simpl; lia.
Qed.

(** The text between two places of a string. *)
Definition between (s : string) (a b : Z) : string :=
  String.substring (Z.to_nat a) (Z.to_nat (b - a)) s.

Lemma slice_between s a b :
  0 <= a <= b -> b <= Z.of_nat (String.length s) -> slice s a b = Some (between s a b).
Proof.
  intros Ha Hb. unfold slice. rewrite (proj2 (Z.leb_le 0 a)), (proj2 (Z.leb_le a b)),
    (proj2 (Z.leb_le b _)) by lia. done.
Qed.

Lemma between_split s a b c :
  0 <= a <= b -> b <= c -> between s a c = between s a b +:+ between s b c.
Proof.
  intros Ha Hb. unfold between.
  replace (Z.to_nat (c - a)) with (Z.to_nat (b - a) + Z.to_nat (c - b))%nat by lia.
  rewrite substring_split. do 3 f_equal; lia.
Qed.

Lemma between_all s : between s 0 (Z.of_nat (String.length s)) = s.
Proof. unfold between. rewrite Z.sub_0_r, Nat2Z.id. apply substring_all. Qed.

(** ** Lemmas: tokens in order *)

(** The tokens of a text, in order and between two places of it. *)
Fixpoint ordered (lo hi : Z) (tokens : list ScanToken) : Prop :=
  match tokens with
  | [] => lo <= hi
  | t :: rest => lo <= tok_start t /\ tok_start t <= tok_end t /\ ordered (tok_end t) hi rest
  end.

Lemma ordered_le lo hi l : ordered lo hi l -> lo <= hi.
Proof. revert lo. induction l as [|t l IH]; simpl; intros lo; [done|]. intros (? & ? & ?%IH). lia. Qed.

Lemma ordered_weaken lo lo' hi l : lo' <= lo -> ordered lo hi l -> ordered lo' hi l.
Proof. destruct l; simpl; [lia|]. intros ? (? & ? & ?). split_and!; [lia|done..]. Qed.

Lemma ordered_sublist lo hi l l' : l' `sublist_of` l -> ordered lo hi l -> ordered lo hi l'.
Proof.
  intros Hs. revert lo. induction Hs as [|t l1 l2 _ IH|t l1 l2 _ IH]; intros lo; simpl; [done| |].
  - intros (? & ? & ?). auto.
  - intros (? & ? & ?). apply IH. eapply ordered_weaken; [|done]. lia.
Qed.

Lemma ordered_app lo hi l1 l2 :
  ordered lo hi (l1 ++ l2) -> exists mid, ordered lo mid l1 /\ ordered mid hi l2.
Proof.
  revert lo. induction l1 as [|t l1 IH]; simpl; intros lo.
  - intros H. exists lo. split; [lia | done].
  - intros (? & ? & H). destruct (IH _ H) as (mid & ? & ?). by exists mid.
Qed.

Lemma ordered_lookup lo hi l i t :
  ordered lo hi l -> l !! i = Some t -> lo <= tok_start t /\ tok_start t <= tok_end t <= hi.
Proof.
  revert lo i. induction l as [|t' l IH]; intros lo [|i]; simpl; try done.
  - intros (? & ? & H) [= ->]. apply ordered_le in H. lia.
  - intros (? & ? & H) Hi. specialize (IH _ _ H Hi). lia.
Qed.

Lemma statements_sublist cur tokens : concat (statements cur tokens) `sublist_of` cur ++ tokens.
Proof.
  revert cur. induction tokens as [|t rest IH]; intros cur; simpl.
  - done.
  - case_bool_decide; simpl.
    + apply sublist_app; [done|]. apply sublist_cons. apply (IH []).
    + etrans; [apply IH|]. by rewrite <- app_assoc.
Qed.

(** ** Lemmas: the keyword *)

(** The word ASYNC, bare. *)
Definition reads_async (sql : string) (t : ScanToken) : Prop :=
  tok t = IDENT /\ equal_fold (between sql (tok_start t) (tok_end t)) "async" = true.

(** The dialect's forms: [async_form sql stmt w n] when the statement opens with
    one, [w] its keyword and [n] the token behind it. *)
Inductive async_form (sql : string) : list ScanToken -> ScanToken -> ScanToken -> Prop :=
| form_create_index c i w n rest :
    tok c = CREATE -> tok i = INDEX -> reads_async sql w -> tok n ∈ [IDENT; IF_P; ON] ->
    async_form sql (c :: i :: w :: n :: rest) w n
| form_create_unique_index c u i w n rest :
    tok c = CREATE -> tok u = UNIQUE -> tok i = INDEX -> reads_async sql w ->
    tok n ∈ [IDENT; IF_P; ON] ->
    async_form sql (c :: u :: i :: w :: n :: rest) w n
| form_alter_table a t w n rest :
    tok a = ALTER -> tok t = TABLE -> reads_async sql w -> tok n = IDENT ->
    async_form sql (a :: t :: w :: n :: rest) w n.

(** A statement that carries the keyword. *)
Definition carries (sql : string) (stmt : list ScanToken) : Prop := exists w n, async_form sql stmt w n.

Lemma async_form_fun sql stmt w n w' n' :
  async_form sql stmt w n -> async_form sql stmt w' n' -> w = w' /\ n = n'.
Proof. intros H. inversion H; subst; intros H'; inversion H'; subst; naive_solver congruence. Qed.

Lemma async_form_in sql stmt w n :
  async_form sql stmt w n -> exists i, stmt !! i = Some w /\ stmt !! S i = Some n.
Proof.
  intros H. destruct H; [exists 2%nat | exists 3%nat | exists 2%nat]; done.
Qed.

Lemma ordered_next lo hi l i w n :
  ordered lo hi l -> l !! i = Some w -> l !! S i = Some n ->
  lo <= tok_start w /\ tok_start w <= tok_end w /\ tok_end w <= tok_start n /\ tok_start n <= hi.
Proof.
  revert lo i. induction l as [|u l IH]; intros lo [|i]; simpl; try done.
  - intros (? & ? & H) [= ->] Hn. pose proof (ordered_lookup _ _ _ 0 _ H Hn). lia.
  - intros (? & ? & H) Hw Hn. pose proof (IH _ _ H Hw Hn). lia.
Qed.

Lemma isAsync_ordered sql tokens i lo hi :
  0 <= lo -> hi <= Z.of_nat (String.length sql) -> ordered lo hi tokens ->
  exists a, isAsync sql tokens i = Some a /\
    (a = true <-> exists t, tokens !! i = Some t /\ reads_async sql t).
Proof.
  intros Hlo Hhi Ho. unfold isAsync, reads_async.
  destruct (tokens !! i) as [t|] eqn:Hi; [|exists false; naive_solver].
  pose proof (ordered_lookup _ _ _ _ _ Ho Hi).
  case_bool_decide as Ht; simpl; [|exists false; naive_solver].
  rewrite (proj2 (Z.ltb_ge (tok_start t) 0)) by lia. rewrite Z.gtb_ltb.
  rewrite (proj2 (Z.ltb_ge (Z.of_nat (String.length sql)) (tok_end t))) by lia. simpl.
  rewrite slice_between by lia. simpl. eexists. split; [done|]. naive_solver.
Qed.

(** A word, bare ASYNC, at a place, with a token behind it. *)
Definition async_behind (sql : string) (stmt : list ScanToken) (i : nat) (w n : ScanToken) : Prop :=
  stmt !! i = Some w /\ reads_async sql w /\ stmt !! S i = Some n.

Definition index_place (stmt : list ScanToken) : nat := if token_is stmt 1 UNIQUE then 2 else 1.

(** The forms by the places of their tokens. *)
Lemma async_form_places sql stmt w n :
  async_form sql stmt w n <->
  (tokenAt stmt 0 = CREATE /\ tokenAt stmt (index_place stmt) = INDEX /\
     async_behind sql stmt (S (index_place stmt)) w n /\ tok n ∈ [IDENT; IF_P; ON]) \/
  (tokenAt stmt 0 = ALTER /\ tokenAt stmt 1 = TABLE /\ async_behind sql stmt 2 w n /\ tok n = IDENT).
Proof.
  unfold async_behind. split.
  - destruct 1 as [c i ? ? ? Hc Hi|c u i ? ? ? Hc Hu Hi|a t ? ? ? Ha Ht];
      unfold index_place, token_is, tokenAt; simpl.
    + rewrite (bool_decide_false (tok i = UNIQUE)) by congruence. left. by rewrite Hc.
    + rewrite (bool_decide_true (tok u = UNIQUE)) by done. left. by rewrite Hc.
    + right. by rewrite Ha, Ht.
  - intros [(Hc & Hi & (Hw & Hr & Hn) & Hin)|(Ha & Ht & (Hw & Hr & Hn) & Hin)].
    + unfold index_place, token_is in *. case_bool_decide as Hu;
        destruct stmt as [|c [|u [|i [|x [|y rest]]]]]; unfold tokenAt in *; simplify_eq/=;
        by constructor.
    + destruct stmt as [|a [|t [|x [|y rest]]]]; unfold tokenAt in *; simplify_eq/=; by constructor.
Qed.

(** What [asyncKeyword] finds. *)
Definition keyword_spec (sql : string) (stmt : list ScanToken) (at_ : Z) : Prop :=
  (0 <= at_ /\ exists w n, async_form sql stmt w n /\
     cut_at stmt (Z.to_nat at_) = (tok_start w, tok_start n)) \/
  (at_ < 0 /\ ~ carries sql stmt).

Lemma keyword_found sql stmt i w n :
  async_form sql stmt w n -> stmt !! i = Some w -> stmt !! S i = Some n ->
  keyword_spec sql stmt (Z.of_nat i).
Proof.
  intros Hf Hw Hn. left. split; [lia|]. exists w, n. split; [done|].
  unfold cut_at. by rewrite Nat2Z.id, Hw, Nat.add_1_r, Hn.
Qed.

Lemma tokenAt_some stmt i : tokenAt stmt i <> NUL -> exists t, stmt !! i = Some t /\ tok t = tokenAt stmt i.
Proof. unfold tokenAt. destruct (stmt !! i) as [t|]; [by exists t | done]. Qed.

Lemma asyncKeyword_ordered sql stmt lo hi :
  0 <= lo -> hi <= Z.of_nat (String.length sql) -> ordered lo hi stmt ->
  exists at_, asyncKeyword sql stmt = Some at_ /\ keyword_spec sql stmt at_.
Proof.
  intros Hlo Hhi Ho. unfold asyncKeyword.
  assert (Hno : (forall w n, async_form sql stmt w n -> False) ->
                exists at_ : Z, Some (-1) = Some at_ /\ keyword_spec sql stmt at_).
  { intros H. exists (-1). split; [done|]. right. split; [lia|]. intros (w & n & ?). eauto. }
  destruct (tokenAt stmt 0) eqn:H0;
    try (apply Hno; intros w0 n0 [(? & _)|(? & _)]%async_form_places; congruence).
  - fold (index_place stmt). unfold token_is. rewrite Nat.add_1_r.
    replace (index_place stmt + 2)%nat with (S (S (index_place stmt))) by lia.
    case_bool_decide as Hi; simpl;
      [|apply Hno; intros w n [(_ & ? & _)|(? & _)]%async_form_places; congruence].
    destruct (isAsync_ordered sql stmt (S (index_place stmt)) lo hi Hlo Hhi Ho) as (a & -> & Ha).
    destruct a; simpl; [|apply Hno; intros w n [(_ & _ & (? & ? & _) & _)|(? & _)]%async_form_places;
                          [naive_solver | congruence]].
    destruct (proj1 Ha eq_refl) as (w & Hw & Hr).
    destruct (tokenAt stmt (S (S (index_place stmt)))) eqn:Hn;
      try (apply Hno; intros w0 n0 [(_ & _ & (_ & _ & Hl) & Hin)|(? & _)]%async_form_places;
           [unfold tokenAt in Hn; rewrite Hl in Hn; rewrite Hn in Hin; set_solver | congruence]);
      (destruct (tokenAt_some stmt (S (S (index_place stmt)))) as (n & Hl & Ht); [congruence|];
       eexists; split; [done|]; apply (keyword_found _ _ _ w n); try done;
       apply async_form_places; left; rewrite Ht, Hn; split_and!; try done; set_solver).
  - unfold token_is. case_bool_decide as Hi; simpl;
      [|apply Hno; intros w n [(? & _)|(_ & ? & _)]%async_form_places; congruence].
    destruct (isAsync_ordered sql stmt 2 lo hi Hlo Hhi Ho) as (a & -> & Ha).
    destruct a; simpl; [|apply Hno; intros w n [(? & _)|(_ & _ & (? & ? & _) & _)]%async_form_places;
                          [congruence | naive_solver]].
    destruct (proj1 Ha eq_refl) as (w & Hw & Hr). case_bool_decide as Hn.
    + destruct (tokenAt_some stmt 3) as (n & Hl & Ht); [congruence|].
      eexists; split; [done|]. apply (keyword_found _ _ 2 w n); try done.
      apply async_form_places. right. rewrite Ht. done.
    + apply Hno. intros w' n' [(? & _)|(_ & _ & (_ & _ & Hl) & Hin)]%async_form_places; [congruence|].
      apply Hn. unfold tokenAt. by rewrite Hl.
Qed.

(** ** What stripping does to the text *)

(** [less P p s s']: [s'] is [s], which stands at the place [p] of a text, less
    the characters at the places [P] holds of. *)
Inductive less (P : Z -> Prop) : Z -> string -> string -> Prop :=
| less_end p : less P p EmptyString EmptyString
| less_drop p c s s' : P p -> less P (p + 1) s s' -> less P p (String c s) s'
| less_keep p c s s' : ~ P p -> less P (p + 1) s s' -> less P p (String c s) (String c s').

(** The places stripped: from the keyword of a statement that carries it up to
    the token behind. *)
Definition stripped (sql : string) (stmts : list (list ScanToken)) (p : Z) : Prop :=
  exists stmt w n, stmt ∈ stmts /\ async_form sql stmt w n /\ tok_start w <= p < tok_start n.

Definition len (s : string) : Z := Z.of_nat (String.length s).

Lemma len_cons c s : len (String c s) = len s + 1.
Proof. unfold len. simpl. lia. Qed.

Lemma less_none P s : forall p, (forall q, p <= q < p + len s -> ~ P q) -> less P p s s.
Proof.
  induction s as [|c s IH]; intros p H; [constructor|]. rewrite len_cons in H.
  assert (0 <= len s) by (unfold len; lia).
  apply less_keep; [apply H; lia | apply IH; intros q Hq; apply H; lia].
Qed.

Lemma less_all P s : forall p, (forall q, p <= q < p + len s -> P q) -> less P p s EmptyString.
Proof.
  induction s as [|c s IH]; intros p H; [constructor|]. rewrite len_cons in H.
  assert (0 <= len s) by (unfold len; lia).
  apply less_drop; [apply H; lia | apply IH; intros q Hq; apply H; lia].
Qed.

Lemma less_app P s1 s2 r1 r2 : forall p,
  less P p s1 r1 -> less P (p + len s1) s2 r2 -> less P p (s1 +:+ s2) (r1 +:+ r2).
Proof.
  intros p H. induction H as [p|p c s s' HP H IH|p c s s' HP H IH]; intros H2.
  - by rewrite Z.add_0_r in H2.
  - simpl. apply less_drop; [done|]. apply IH.
    by replace (p + 1 + len s) with (p + len (String c s)) by (rewrite len_cons; lia).
  - simpl. apply less_keep; [done|]. apply IH.
    by replace (p + 1 + len s) with (p + len (String c s)) by (rewrite len_cons; lia).
Qed.

Lemma less_ext P Q s s' : forall p,
  (forall q, p <= q < p + len s -> P q <-> Q q) -> less P p s s' -> less Q p s s'.
Proof.
  intros p Hq H. induction H as [p|p c s s' HP H IH|p c s s' HP H IH]; [constructor| |];
    rewrite len_cons in Hq; assert (0 <= len s) by (unfold len; lia).
  - apply less_drop; [apply Hq; [lia | done] | apply IH; intros; apply Hq; lia].
  - apply less_keep; [rewrite <- Hq; [done | lia] | apply IH; intros; apply Hq; lia].
Qed.

(** The places say what is left. *)
Lemma less_fun P p s r r' : less P p s r -> less P p s r' -> r = r'.
Proof.
  intros H. revert r'. induction H; intros r' H'; inversion H'; subst; try done.
  - by apply IHless.
  - f_equal. by apply IHless.
Qed.

Lemma len_between sql a b : 0 <= a <= b -> b <= len sql -> len (between sql a b) = b - a.
Proof.
  unfold len, between. intros Ha Hb. rewrite substring_length. lia.
Qed.

(** What is stripped of the statements in order stands where they do. *)
Lemma stripped_from sql stmts lo hi p :
  ordered lo hi (concat stmts) -> stripped sql stmts p -> lo <= p.
Proof.
  intros Ho (stmt & w & n & Hin & Hf & Hp).
  apply list_elem_of_split in Hin as (l1 & l2 & ->). rewrite concat_app in Ho.
  apply ordered_app in Ho as (mid & H1 & H2). cbn [concat] in H2.
  apply ordered_app in H2 as (mid' & Ho' & _). pose proof (ordered_le _ _ _ H1).
  destruct (async_form_in _ _ _ _ Hf) as (i & Hw & Hn).
  pose proof (ordered_next _ _ _ _ _ _ Ho' Hw Hn). lia.
Qed.

Lemma find_cuts_ordered sql stmts : forall ordinal lo prev,
  0 <= prev <= lo -> ordered lo (len sql) (concat stmts) ->
  exists cuts found out,
    find_cuts sql ordinal stmts = Some (cuts, found) /\
    cut_out sql prev cuts = Some out /\
    less (stripped sql stmts) prev (between sql prev (len sql)) out /\
    match found with
    | None => forall stmt, stmt ∈ stmts -> ~ carries sql stmt
    | Some k => exists i stmt, k = (ordinal + i)%nat /\ stmts !! i = Some stmt /\ carries sql stmt /\
        forall j before, (j < i)%nat -> stmts !! j = Some before -> ~ carries sql before
    end.
Proof.
  induction stmts as [|tokens rest IH]; intros ordinal lo prev Hp Ho; cbn [concat] in Ho.
  - exists [], None, (between sql prev (len sql)). cbn [ordered] in Ho. split_and!; try done.
    + cbn [cut_out]. unfold slice_from. by rewrite slice_between by (unfold len in *; lia).
    + apply less_none. by intros q _ (? & ? & ? & Hin%elem_of_nil & _).
    + by intros stmt Hin%elem_of_nil.
  - apply ordered_app in Ho as (mid & Ht & Hr).
    pose proof (ordered_le _ _ _ Ht). pose proof (ordered_le _ _ _ Hr).
    destruct (asyncKeyword_ordered sql tokens lo mid) as (at_ & Hat & Hk);
      [lia | unfold len in *; lia | done|].
    cbn [find_cuts]. rewrite Hat. cbn [mbind option_bind].
    destruct Hk as [(Hpos & w & n & Hf & Hcut)|(Hneg & Hno)].
    + rewrite (proj2 (Z.ltb_ge at_ 0)), Hcut by lia.
      destruct (async_form_in _ _ _ _ Hf) as (i & Hw & Hn).
      pose proof (ordered_next _ _ _ _ _ _ Ht Hw Hn).
      destruct (IH (S ordinal) mid (tok_start n)) as (cuts & found & out & -> & Hout & Hl & _);
        [lia | done|].
      eexists _, _, (between sql prev (tok_start w) +:+ out). split_and!; [done| | |].
      * cbn [cut_out]. rewrite slice_between by (unfold len in *; lia). by rewrite Hout.
      * rewrite (between_split sql prev (tok_start w)) by lia.
        rewrite (between_split sql (tok_start w) (tok_start n)) by lia.
        apply less_app.
        { apply less_none. rewrite len_between by lia. intros q Hq (stmt & w' & n' & Hin & Hf' & Hq').
          apply elem_of_cons in Hin as [->|Hin].
          - destruct (async_form_fun _ _ _ _ _ _ Hf Hf') as [-> ->]. lia.
          - assert (mid <= q); [|lia]. apply (stripped_from sql rest mid (len sql)); [done|].
            by exists stmt, w', n'. }
        rewrite len_between by lia. replace (prev + (tok_start w - prev)) with (tok_start w) by lia.
        change out with (EmptyString +:+ out). apply less_app.
        { apply less_all. rewrite len_between by lia. intros q Hq. exists tokens, w, n.
          split; [by left|]. split; [done | lia]. }
        rewrite len_between by lia. replace (tok_start w + (tok_start n - tok_start w)) with (tok_start n) by lia.
        eapply less_ext; [|exact Hl]. intros q Hq. split; intros (stmt & w' & n' & Hin & Hf' & Hq').
        -- exists stmt, w', n'. split; [by right | done].
        -- apply elem_of_cons in Hin as [->|Hin]; [|by exists stmt, w', n'].
           destruct (async_form_fun _ _ _ _ _ _ Hf Hf') as [-> ->]. lia.
      * exists 0%nat, tokens. split_and!; [lia | done | by exists w, n | intros; lia].
    + rewrite (proj2 (Z.ltb_lt at_ 0)) by lia.
      destruct (IH (S ordinal) mid prev) as (cuts & found & out & -> & Hout & Hl & Hfound); [lia | done|].
      exists cuts, found, out. split_and!; [done | done | |].
      * eapply less_ext; [|exact Hl]. intros q _. split; intros (stmt & w & n & Hin & Hf & Hq).
        -- exists stmt, w, n. split; [by right | done].
        -- apply elem_of_cons in Hin as [->|Hin]; [destruct Hno; by exists w, n | by exists stmt, w, n].
      * destruct found as [k|].
        -- destruct Hfound as (i & stmt & -> & Hi & Hc & Hb). exists (S i), stmt.
           split_and!; [lia | done | done|]. intros [|j] before Hj Hl'; [by simplify_eq/=|].
           apply (Hb j); [lia | done].
        -- intros stmt [->|Hin]%elem_of_cons; [done | by apply Hfound].
Qed.

Section strip_facts.
Context {PG : PgQuery}.

(** C23: Stripping ASYNC, on the tokens of a scanner that reports them in order
    and inside the text.  It never slices out of range.  It reports nothing exactly
    when no statement opens with one of the dialect's forms, CREATE [UNIQUE] INDEX
    ASYNC before a name, IF or ON, or ALTER TABLE ASYNC before a name; otherwise
    what it returns is the text less, in every such statement and nowhere else, the
    characters from the keyword up to the next token, and the ordinal of the first
    such statement among the stretches between the semicolons. *)
Theorem stripAsync_correct sql tokens :
  pg_scan sql = Some tokens -> ordered 0 (len sql) tokens ->
  exists r, stripAsync sql = Some r /\
    match r with
    | None => forall stmt, stmt ∈ statements [] tokens -> ~ carries sql stmt
    | Some (out, k) =>
        less (stripped sql (statements [] tokens)) 0 sql out /\
        (exists stmt, statements [] tokens !! k = Some stmt /\ carries sql stmt) /\
        forall j before, (j < k)%nat -> statements [] tokens !! j = Some before -> ~ carries sql before
    end.
Proof.
  intros Hs Ho. unfold stripAsync. rewrite Hs.
  destruct (find_cuts_ordered sql (statements [] tokens) 0 0 0) as
    (cuts & found & out & -> & Hout & Hl & Hfound); [lia| |].
  { eapply ordered_sublist; [|exact Ho]. apply (statements_sublist [] tokens). }
  unfold len in Hl. rewrite between_all in Hl. cbn [mbind option_bind].
  destruct found as [k|]; [rewrite Hout|]; (eexists; split; [done|]); [|done].
  destruct Hfound as (i & stmt & -> & Hi & Hc & Hb). split_and!; [done | by exists stmt | done].
Qed.

End strip_facts.

Definition sample_scan_text : string := "ALTER TABLE ASYNC t VALIDATE; CREATE INDEX async ON t (a)".

Definition sample_scan : list ScanToken :=
  [mkTok ALTER 0 5; mkTok TABLE 6 11; mkTok IDENT 12 17; mkTok IDENT 18 19; mkTok (OtherToken 700) 20 28;
   mkTok ASCII_59 28 29; mkTok CREATE 30 36; mkTok INDEX 37 42; mkTok IDENT 43 48; mkTok ON 49 51;
   mkTok IDENT 52 53; mkTok (OtherToken 40) 54 55; mkTok IDENT 55 56; mkTok (OtherToken 41) 56 57].

Lemma stripAsync_correct_witness :
  let PG := table_pg [] [(sample_scan_text, sample_scan)] (fun _ => None) in
  @stripAsync PG sample_scan_text =
    Some (Some ("ALTER TABLE t VALIDATE; CREATE INDEX ON t (a)", 0%nat)) /\
  less (stripped sample_scan_text (statements [] sample_scan)) 0 sample_scan_text
    "ALTER TABLE t VALIDATE; CREATE INDEX ON t (a)".
Proof.
  intros PG. assert (Hr : @stripAsync PG sample_scan_text =
    Some (Some ("ALTER TABLE t VALIDATE; CREATE INDEX ON t (a)", 0%nat))) by (vm_compute; reflexivity).
  split; [exact Hr|].
  destruct (@stripAsync_correct PG sample_scan_text sample_scan) as (r & Hr' & H).
  - reflexivity.
  - vm_compute. repeat split; congruence.
  - rewrite Hr in Hr'. injection Hr' as <-. exact (proj1 H).
Defined.

(** The ordinal counts the stretches between semicolons, an empty one too, for
    which the upstream sends no CommandComplete. *)
Definition empty_first_text : string := ";CREATE INDEX ASYNC ON t (a)".

Definition empty_first_scan : list ScanToken :=
  [mkTok ASCII_59 0 1; mkTok CREATE 1 7; mkTok INDEX 8 13; mkTok IDENT 14 19; mkTok ON 20 22;
   mkTok IDENT 23 24; mkTok (OtherToken 40) 25 26; mkTok IDENT 26 27; mkTok (OtherToken 41) 27 28].

Lemma ordinal_counts_empty :
  @stripAsync (table_pg [] [(empty_first_text, empty_first_scan)] (fun _ => None)) empty_first_text =
    Some (Some (";CREATE INDEX ON t (a)", 1%nat)).
Proof. vm_compute. reflexivity. Qed.

(** ** Job ids *)

(** The characters of a job id: [[a-z2-7]]. *)
Definition job_id_char (c : ascii) : bool :=
  ((97 <=? code c) && (code c <=? 122) || (50 <=? code c) && (code c <=? 55))%N.

Fixpoint all_chars (P : ascii -> bool) (s : string) : bool :=
  match s with EmptyString => true | String c rest => P c && all_chars P rest end.

(** The value a character of a job id stands for. *)
Definition id_char (g : list bool) : ascii := lower_ascii (base32_char g).

(** Every group of five bits, and the list of them all. *)
Fixpoint bit_lists (n : nat) : list (list bool) :=
  match n with
  | O => [[]]
  | S n => flat_map (fun l => [false :: l; true :: l]) (bit_lists n)
  end.

Lemma elem_of_bit_lists l : l ∈ bit_lists (length l).
Proof.
  induction l as [|b l IH]; simpl; [by left|]. apply list_elem_of_In, in_flat_map.
  exists l. split; [by apply list_elem_of_In | destruct b; simpl; auto].
Qed.

Lemma id_char_ok g : length g = 5%nat -> job_id_char (id_char g) = true /\ (code (base32_char g) < 128)%N.
Proof.
  intros Hg. assert (forallb (fun g => job_id_char (id_char g) && (code (base32_char g) <? 128)%N) (bit_lists 5) = true) as H
    by (vm_compute; reflexivity).
  rewrite forallb_forall in H. specialize (H g). rewrite <- Hg in H.
  specialize (H (proj1 (list_elem_of_In _ _) (elem_of_bit_lists g))).
  apply andb_true_iff in H as [? ?%N.ltb_lt]. done.
Qed.

Lemma id_char_inj g g' : length g = 5%nat -> length g' = 5%nat -> id_char g = id_char g' -> g = g'.
Proof.
  intros Hg Hg' He.
  assert (forallb (fun g => forallb (fun g' =>
            negb (Ascii.eqb (id_char g) (id_char g')) || bool_decide (g = g')) (bit_lists 5)) (bit_lists 5) = true) as H
    by (vm_compute; reflexivity).
  rewrite forallb_forall in H. specialize (H g). rewrite <- Hg in H.
  specialize (H (proj1 (list_elem_of_In _ _) (elem_of_bit_lists g))).
  rewrite forallb_forall in H. specialize (H g'). rewrite Hg, <- Hg' in H.
  specialize (H (proj1 (list_elem_of_In _ _) (elem_of_bit_lists g'))).
  rewrite He, Ascii.eqb_refl in H. simpl in H. by apply bool_decide_eq_true in H.
Qed.

(** On ASCII, lower case is character by character. *)
Lemma to_lower_ascii s : all_chars (fun c => code c <? 128)%N s = true ->
  to_lower s = String.string_of_list_ascii (map lower_ascii (String.list_ascii_of_string s)).
Proof.
  induction s as [|c s IH]; [done|]. cbn [all_chars]. intros [Hc Hs]%andb_true_iff.
  specialize (IH Hs). apply N.ltb_lt in Hc.
  assert ((code c =? 196)%N = false) as E1 by (apply N.eqb_neq; lia).
  assert ((code c =? 226)%N = false) as E2 by (apply N.eqb_neq; lia).
  destruct s as [|c1 [|c2 s]].
  - done.
  - cbn [to_lower]. rewrite E1. cbn [andb]. cbn [to_lower] in IH. rewrite IH. done.
  - change (to_lower (String c (String c1 (String c2 s)))) with
      (if ((code c =? 196) && (code c1 =? 176))%N then String "i" (to_lower (String c2 s))
       else if ((code c =? 226) && (code c1 =? 132) && (code c2 =? 170))%N
            then String "k" (to_lower s)
            else String (lower_ascii c) (to_lower (String c1 (String c2 s)))).
    rewrite E1, E2. cbn [andb]. by rewrite IH.
Qed.

Lemma groups_flat cur bits : (length cur < 5)%nat ->
  (exists pad, concat (groups cur bits) = cur ++ bits ++ pad) /\
  Forall (fun g => length g = 5%nat) (groups cur bits) /\
  (length (groups cur bits) = (length cur + length bits + 4) / 5)%nat.
Proof.
  revert cur. induction bits as [|b bits IH]; intros cur Hc.
  - destruct cur as [|b cur]; [split_and!; [by exists [] | constructor | done]|].
    change (groups (b :: cur) []) with [take 5 ((b :: cur) ++ repeat false 4)].
    assert (take 5 ((b :: cur) ++ repeat false 4) = (b :: cur) ++ take (4 - length cur) (repeat false 4)) as ->.
    { rewrite take_app, (take_ge (b :: cur)); [done | simpl in *; lia]. }
    split_and!.
    + simpl. eexists. rewrite app_nil_r. done.
    + constructor; [|constructor]. rewrite length_app, length_take, repeat_length. simpl in *. lia.
    + simpl length in *. apply (Nat.div_unique _ 5 1 (length cur)); lia.
  - cbn [groups]. destruct (Nat.eqb_spec (length cur) 4) as [Hl|Hl].
    + destruct (IH []) as ([pad Hp] & Hf & Hn); [simpl; lia|]. split_and!.
      * exists pad. simpl. rewrite Hp. simpl. by rewrite <- app_assoc.
      * constructor; [rewrite length_app; simpl; lia | done].
      * simpl length. rewrite Hn, Hl. simpl length.
        replace (4 + S (length bits) + 4)%nat with (0 + length bits + 4 + 1 * 5)%nat by lia.
        rewrite Nat.div_add by lia. lia.
    + destruct (IH (cur ++ [b])) as ([pad Hp] & Hf & Hn); [rewrite length_app; simpl; lia|].
      split_and!; [|done|].
      * exists pad. rewrite Hp. by rewrite <- app_assoc.
      * rewrite Hn, length_app. simpl length. f_equal. lia.
Qed.

Lemma byte_bits_length b : length (byte_bits b) = 8%nat.
Proof. by destruct b. Qed.

Lemma byte_bits_inj b b' : byte_bits b = byte_bits b' -> b = b'.
Proof.
  intros H. assert (Hto : Byte.to_bits b = Byte.to_bits b').
  { unfold byte_bits in H. destruct (Byte.to_bits b) as (?&?&?&?&?&?&?&?).
    destruct (Byte.to_bits b') as (?&?&?&?&?&?&?&?). by simplify_eq. }
  rewrite <- (Byte.of_bits_to_bits b), <- (Byte.of_bits_to_bits b'). by rewrite Hto.
Qed.

Lemma flat_byte_bits_length bs : length (flat_map byte_bits bs) = (8 * length bs)%nat.
Proof.
  induction bs as [|b bs IH]; [done|]. change (flat_map byte_bits (b :: bs)) with (byte_bits b ++ flat_map byte_bits bs).
  rewrite length_app, byte_bits_length, IH. simpl. lia.
Qed.

Lemma flat_byte_bits_inj bs bs' :
  flat_map byte_bits bs = flat_map byte_bits bs' -> bs = bs'.
Proof.
  revert bs'. induction bs as [|b bs IH]; intros bs' H.
  - apply (f_equal length) in H. rewrite !flat_byte_bits_length in H. by destruct bs'.
  - destruct bs' as [|b' bs']; [apply (f_equal length) in H; by rewrite !flat_byte_bits_length in H|].
    apply app_inj_1 in H as [Hb Hr]; [|by rewrite !byte_bits_length].
    f_equal; [by apply byte_bits_inj | by apply IH].
Qed.

(** The job id, group by group. *)
Definition id_groups (buf : bytes) : list (list bool) := groups [] (flat_map byte_bits buf).

Lemma id_groups_ok buf : Forall (fun g => length g = 5%nat) (id_groups buf).
Proof. by apply groups_flat; simpl; lia. Qed.

Lemma newJobID_groups buf :
  newJobID (Some buf) = String.string_of_list_ascii (map id_char (id_groups buf)).
Proof.
  unfold newJobID, EncodeToString. fold (id_groups buf). rewrite to_lower_ascii.
  - rewrite list_ascii_of_string_of_list_ascii, map_map. done.
  - induction (id_groups_ok buf) as [|g gs Hg _ IH]; [done|]. simpl.
    apply andb_true_iff. split; [|done]. apply N.ltb_lt, id_char_ok, Hg.
Qed.

Lemma string_of_list_ascii_length l : String.length (String.string_of_list_ascii l) = length l.
Proof. induction l; simpl; by f_equal. Qed.

Lemma id_groups_inj buf buf' :
  length buf = length buf' -> id_groups buf = id_groups buf' -> buf = buf'.
Proof.
  intros Hl H. apply flat_byte_bits_inj.
  destruct (groups_flat [] (flat_map byte_bits buf) ltac:(simpl; lia)) as ([pad Hp] & _).
  destruct (groups_flat [] (flat_map byte_bits buf') ltac:(simpl; lia)) as ([pad' Hp'] & _).
  unfold id_groups in H. rewrite H, Hp' in Hp. simpl in Hp.
  apply app_inj_1 in Hp as [Hp _]; [done|]. by rewrite !flat_byte_bits_length, Hl.
Qed.

(** A job id made from sixteen random bytes is 26 characters of [a-z] and
    [2-7], also when no randomness can be had, and keeps all of it: different
    bytes give different ids. *)
Theorem newJobID_shape random :
  (forall buf, random = Some buf -> length buf = 16%nat) ->
  String.length (newJobID random) = JobIDLength /\
  all_chars job_id_char (newJobID random) = true /\
  forall buf buf', random = Some buf -> length buf' = 16%nat ->
    newJobID (Some buf') = newJobID random -> buf' = buf.
Proof.
  intros Hr. destruct random as [buf|]; [|done]. specialize (Hr buf eq_refl).
  rewrite newJobID_groups. split_and!.
  - rewrite string_of_list_ascii_length, length_map.
    destruct (groups_flat [] (flat_map byte_bits buf) ltac:(simpl; lia)) as (_ & _ & Hn).
    unfold id_groups. rewrite Hn, flat_byte_bits_length, Hr. done.
  - induction (id_groups_ok buf) as [|g gs Hg _ IH]; [done|]. simpl.
    rewrite IH, andb_true_r. apply id_char_ok, Hg.
  - intros b buf' [= <-] Hl He. rewrite newJobID_groups in He.
    apply (f_equal String.list_ascii_of_string) in He.
    rewrite !list_ascii_of_string_of_list_ascii in He. apply id_groups_inj; [lia|].
    revert He. pose proof (id_groups_ok buf) as H1. pose proof (id_groups_ok buf') as H2.
    revert H2 H1. generalize (id_groups buf), (id_groups buf'). intros l l' H2. revert l.
    induction H2 as [|g gs Hg _ IH]; intros [|g' gs'] H1; simpl; try done.
    inversion H1; subst. intros [= ?%id_char_inj ?]; [|done..]. f_equal; [done | by apply IH].
Qed.

Lemma newJobID_shape_witness :
  String.length (newJobID (Some (repeat x61 16))) = JobIDLength /\
  newJobID (Some (repeat x61 16)) = "mfqwcylbmfqwcylbmfqwcylbme".
Proof.
  split; [|vm_compute; reflexivity].
  refine (proj1 (newJobID_shape (Some (repeat x61 16)) _)). intros buf [= <-]. reflexivity.
Defined.
