(* ===== verification/Proc.v ===== *)
(** * Handlers as sequences of atomic steps

    A session's two goroutines share its state under a mutex.  A handler is a
    sequence of atomic actions on that state, each one critical section, one
    write to a connection or one use of a component; between two actions another
    goroutine's may run.  [run] executes a handler alone, and [safe] says that
    every one of its actions keeps an invariant whatever ran in between, so that
    the invariant holds of every interleaving. *)

From stdpp Require Import base tactics.
From S2P Require Import Prelude.

Inductive proc (S A : Type) : Type :=
| Ret (a : A)
| Act {X : Type} (f : S -> X * S) (k : X -> proc S A).
Arguments Ret {S A} a.
Arguments Act {S A X} f k.

Section proc.
Context {S : Type}.

Fixpoint bind {A B} (p : proc S A) (q : A -> proc S B) : proc S B :=
  match p with
  | Ret a => q a
  | Act f k => Act f (fun x => bind (k x) q)
  end.

(** A critical section: an action with a result. *)
Definition locked {X} (f : S -> X * S) : proc S X := Act f Ret.

(** One that only reads, and one that only writes. *)
Definition get {X} (f : S -> X) : proc S X := locked (fun s => (f s, s)).
Definition modify (f : S -> S) : proc S unit := locked (fun s => (tt, f s)).

Definition skip : proc S unit := Ret tt.

Definition when (b : bool) (p : proc S unit) : proc S unit := if b then p else skip.

Fixpoint run {A} (p : proc S A) (s : S) : A * S :=
  match p with
  | Ret a => (a, s)
  | Act f k => let (x, s') := f s in run (k x) s'
  end.

(** The state a handler leaves behind when it runs alone. *)
Definition exec {A} (p : proc S A) (s : S) : S := (run p s).2.

Lemma run_bind {A B} (p : proc S A) (q : A -> proc S B) s :
  run (bind p q) s = let (a, s') := run p s in run (q a) s'.
Proof.
  revert s. induction p as [a|X f k IH]; intros s; simpl; [done|].
  destruct (f s) as [x s']. apply IH.
Qed.

Lemma exec_bind {A B} (p : proc S A) (q : A -> proc S B) s :
  exec (bind p q) s = exec (q (run p s).1) (run p s).2.
Proof. unfold exec. rewrite run_bind. by destruct (run p s). Qed.

(** ** Invariants of every interleaving *)

Section safe.
Variable I : S -> Prop.

(** Every action keeps [I], starting from any state that has it, and the result
    satisfies [Q]. *)
Fixpoint safe {A} (p : proc S A) (Q : A -> Prop) : Prop :=
  match p with
  | Ret a => Q a
  | Act f k => forall s, I s -> I (f s).2 /\ safe (k (f s).1) Q
  end.

Lemma safe_bind {A B} (p : proc S A) (q : A -> proc S B) (Q : A -> Prop) (R : B -> Prop) :
  safe p Q -> (forall a, Q a -> safe (q a) R) -> safe (bind p q) R.
Proof.
  induction p as [a|X f k IH]; simpl; intros Hp Hq; [by apply Hq|].
  intros s Hs. destruct (Hp s Hs) as [Hi Hk]. split; [done | by apply IH].
Qed.

Lemma safe_weaken {A} (p : proc S A) (Q Q' : A -> Prop) :
  safe p Q -> (forall a, Q a -> Q' a) -> safe p Q'.
Proof.
  induction p as [a|X f k IH]; simpl; intros Hp Hq; [by apply Hq|].
  intros s Hs. destruct (Hp s Hs) as [Hi Hk]. split; [done | by apply IH].
Qed.

Lemma safe_locked {X} (f : S -> X * S) (Q : X -> Prop) :
  (forall s, I s -> I (f s).2 /\ Q (f s).1) -> safe (locked f) Q.
Proof. done. Qed.

Lemma safe_get {X} (f : S -> X) (Q : X -> Prop) :
  (forall s, I s -> Q (f s)) -> safe (get f) Q.
Proof. intros H s Hs. simpl. auto. Qed.

Lemma safe_modify (f : S -> S) : (forall s, I s -> I (f s)) -> safe (modify f) (fun _ => True).
Proof. intros H s Hs. simpl. auto. Qed.

Lemma safe_ret {A} (a : A) (Q : A -> Prop) : Q a -> safe (Ret a) Q.
Proof. done. Qed.

Lemma safe_run {A} (p : proc S A) (Q : A -> Prop) s :
  safe p Q -> I s -> I (exec p s) /\ Q (run p s).1.
Proof.
  unfold exec. revert s. induction p as [a|X f k IH]; intros s; simpl; [done|].
  intros Hp Hs. destruct (Hp s Hs) as [Hi Hk]. destruct (f s) as [x s']. by apply IH.
Qed.

End safe.
End proc.

Declare Scope proc_scope.
Delimit Scope proc_scope with proc.
Notation "'let!' x := p 'in' q" := (bind p (fun x => q))
  (at level 10, x pattern, p at level 100, q at level 200) : proc_scope.
Notation "'do!' p ; q" := (bind p (fun _ => q))
  (at level 10, p at level 100, q at level 200) : proc_scope.
