(* ===== verification/State.v ===== *)
(** * The state of a session: [struct session]

    The fields of the session with the two connections it writes to, the clock
    it reads and the random bytes it has drawn.  A field that points at a struct
    nothing modifies afterwards holds its value; the hidden exchange, whose
    captured variables change while other code replaces the pointer to it, is a
    pointer into a list of the exchanges ever begun. *)

From Stdlib Require Import Ascii String Strings.Byte.
From stdpp Require Import base numbers strings gmap list.
From S2P Require Import Prelude GoStd Kind Txn Proto Ruleset Occ Wire Proc.

Local Open Scope Z_scope.

(** What was written to a connection, chunk by chunk, and whether it is closed:
    a write to a closed connection fails and writes nothing. *)
Record conn := mkConn { written : list bytes; closed_ : bool }.

Record txnFailure := mkFailure { statement : bytes; status : byte; swallow : Z }.

(** The statement the client is waiting on. *)
Record inFlight := mkInFlight {
  intent : Intent;
  extended : bool;
  formats : list Z;
  params : list (option bytes);
  paramFormats : list Z;
}.

(** An exchange the emulator runs on its own behalf, one constructor for each
    pair of closures that consume and finish one, with the variables they
    capture. *)
Inductive hiddenExchange :=
| SavepointExchange (failed : bool)
| RestoreExchange (failed : bool) (repair : inFlight)
| CountExchange (failed : bool) (rows : Z) (repair : inFlight)
| RowsetExchange (failed : bool) (repair : inFlight).

Record jobResult := mkJob { described : bool; jobID : string; precedingTags : Z }.

Record statementInfo := mkInfo {
  infoKinds : list Kind;
  infoTables : list string;
  infoIntent : option Intent;
  infoJobID : string;
}.

Record session := mkSession {
  client : conn;
  upstream : conn;
  tracker : Tracker;
  txStatus : byte;
  skipSync : bool;
  pendingCommandTag : string;
  txnAborted : bool;
  failure : option txnFailure;
  failureRFQs : Z;
  pendingFailure : option txnFailure;
  occTouched : gset string;
  occCommits : gmap nat Z;
  hidden : option nat;
  exchanges : list hiddenExchange;
  occSavepoint : bool;
  occDoomed : bool;
  occTxnStatements : Z;
  occInFlight : option inFlight;
  occRepair : option inFlight;
  extendedBatchOpen : bool;
  pendingExchanges : Z;
  job : option jobResult;
  statements_ : gmap string statementInfo;
  fromClient : Z;
  fromUpstream : Z;
  clock : Z;
  draws : nat;
}.

(** Assigning to one field. *)

Definition set_client (v : conn) (s : session) : session :=
  mkSession v (upstream s) (tracker s) (txStatus s) (skipSync s) (pendingCommandTag s)
    (txnAborted s) (failure s) (failureRFQs s) (pendingFailure s) (occTouched s) (occCommits
    s) (hidden s) (exchanges s) (occSavepoint s) (occDoomed s) (occTxnStatements s)
    (occInFlight s) (occRepair s) (extendedBatchOpen s) (pendingExchanges s) (job s)
    (statements_ s) (fromClient s) (fromUpstream s) (clock s) (draws s).
Definition set_upstream (v : conn) (s : session) : session :=
  mkSession (client s) v (tracker s) (txStatus s) (skipSync s) (pendingCommandTag s)
    (txnAborted s) (failure s) (failureRFQs s) (pendingFailure s) (occTouched s) (occCommits
    s) (hidden s) (exchanges s) (occSavepoint s) (occDoomed s) (occTxnStatements s)
    (occInFlight s) (occRepair s) (extendedBatchOpen s) (pendingExchanges s) (job s)
    (statements_ s) (fromClient s) (fromUpstream s) (clock s) (draws s).
Definition set_tracker (v : Tracker) (s : session) : session :=
  mkSession (client s) (upstream s) v (txStatus s) (skipSync s) (pendingCommandTag s)
    (txnAborted s) (failure s) (failureRFQs s) (pendingFailure s) (occTouched s) (occCommits
    s) (hidden s) (exchanges s) (occSavepoint s) (occDoomed s) (occTxnStatements s)
    (occInFlight s) (occRepair s) (extendedBatchOpen s) (pendingExchanges s) (job s)
    (statements_ s) (fromClient s) (fromUpstream s) (clock s) (draws s).
Definition set_txStatus (v : byte) (s : session) : session :=
  mkSession (client s) (upstream s) (tracker s) v (skipSync s) (pendingCommandTag s)
    (txnAborted s) (failure s) (failureRFQs s) (pendingFailure s) (occTouched s) (occCommits
    s) (hidden s) (exchanges s) (occSavepoint s) (occDoomed s) (occTxnStatements s)
    (occInFlight s) (occRepair s) (extendedBatchOpen s) (pendingExchanges s) (job s)
    (statements_ s) (fromClient s) (fromUpstream s) (clock s) (draws s).
Definition set_skipSync (v : bool) (s : session) : session :=
  mkSession (client s) (upstream s) (tracker s) (txStatus s) v (pendingCommandTag s)
    (txnAborted s) (failure s) (failureRFQs s) (pendingFailure s) (occTouched s) (occCommits
    s) (hidden s) (exchanges s) (occSavepoint s) (occDoomed s) (occTxnStatements s)
    (occInFlight s) (occRepair s) (extendedBatchOpen s) (pendingExchanges s) (job s)
    (statements_ s) (fromClient s) (fromUpstream s) (clock s) (draws s).
Definition set_pendingCommandTag (v : string) (s : session) : session :=
  mkSession (client s) (upstream s) (tracker s) (txStatus s) (skipSync s) v (txnAborted s)
    (failure s) (failureRFQs s) (pendingFailure s) (occTouched s) (occCommits s) (hidden s)
    (exchanges s) (occSavepoint s) (occDoomed s) (occTxnStatements s) (occInFlight s)
    (occRepair s) (extendedBatchOpen s) (pendingExchanges s) (job s) (statements_ s)
    (fromClient s) (fromUpstream s) (clock s) (draws s).
Definition set_txnAborted (v : bool) (s : session) : session :=
  mkSession (client s) (upstream s) (tracker s) (txStatus s) (skipSync s) (pendingCommandTag
    s) v (failure s) (failureRFQs s) (pendingFailure s) (occTouched s) (occCommits s)
    (hidden s) (exchanges s) (occSavepoint s) (occDoomed s) (occTxnStatements s)
    (occInFlight s) (occRepair s) (extendedBatchOpen s) (pendingExchanges s) (job s)
    (statements_ s) (fromClient s) (fromUpstream s) (clock s) (draws s).
Definition set_failure (v : option txnFailure) (s : session) : session :=
  mkSession (client s) (upstream s) (tracker s) (txStatus s) (skipSync s) (pendingCommandTag
    s) (txnAborted s) v (failureRFQs s) (pendingFailure s) (occTouched s) (occCommits s)
    (hidden s) (exchanges s) (occSavepoint s) (occDoomed s) (occTxnStatements s)
    (occInFlight s) (occRepair s) (extendedBatchOpen s) (pendingExchanges s) (job s)
    (statements_ s) (fromClient s) (fromUpstream s) (clock s) (draws s).
Definition set_failureRFQs (v : Z) (s : session) : session :=
  mkSession (client s) (upstream s) (tracker s) (txStatus s) (skipSync s) (pendingCommandTag
    s) (txnAborted s) (failure s) v (pendingFailure s) (occTouched s) (occCommits s) (hidden
    s) (exchanges s) (occSavepoint s) (occDoomed s) (occTxnStatements s) (occInFlight s)
    (occRepair s) (extendedBatchOpen s) (pendingExchanges s) (job s) (statements_ s)
    (fromClient s) (fromUpstream s) (clock s) (draws s).
Definition set_pendingFailure (v : option txnFailure) (s : session) : session :=
  mkSession (client s) (upstream s) (tracker s) (txStatus s) (skipSync s) (pendingCommandTag
    s) (txnAborted s) (failure s) (failureRFQs s) v (occTouched s) (occCommits s) (hidden s)
    (exchanges s) (occSavepoint s) (occDoomed s) (occTxnStatements s) (occInFlight s)
    (occRepair s) (extendedBatchOpen s) (pendingExchanges s) (job s) (statements_ s)
    (fromClient s) (fromUpstream s) (clock s) (draws s).
Definition set_occTouched (v : gset string) (s : session) : session :=
  mkSession (client s) (upstream s) (tracker s) (txStatus s) (skipSync s) (pendingCommandTag
    s) (txnAborted s) (failure s) (failureRFQs s) (pendingFailure s) v (occCommits s)
    (hidden s) (exchanges s) (occSavepoint s) (occDoomed s) (occTxnStatements s)
    (occInFlight s) (occRepair s) (extendedBatchOpen s) (pendingExchanges s) (job s)
    (statements_ s) (fromClient s) (fromUpstream s) (clock s) (draws s).
Definition set_occCommits (v : gmap nat Z) (s : session) : session :=
  mkSession (client s) (upstream s) (tracker s) (txStatus s) (skipSync s) (pendingCommandTag
    s) (txnAborted s) (failure s) (failureRFQs s) (pendingFailure s) (occTouched s) v
    (hidden s) (exchanges s) (occSavepoint s) (occDoomed s) (occTxnStatements s)
    (occInFlight s) (occRepair s) (extendedBatchOpen s) (pendingExchanges s) (job s)
    (statements_ s) (fromClient s) (fromUpstream s) (clock s) (draws s).
Definition set_hidden (v : option nat) (s : session) : session :=
  mkSession (client s) (upstream s) (tracker s) (txStatus s) (skipSync s) (pendingCommandTag
    s) (txnAborted s) (failure s) (failureRFQs s) (pendingFailure s) (occTouched s)
    (occCommits s) v (exchanges s) (occSavepoint s) (occDoomed s) (occTxnStatements s)
    (occInFlight s) (occRepair s) (extendedBatchOpen s) (pendingExchanges s) (job s)
    (statements_ s) (fromClient s) (fromUpstream s) (clock s) (draws s).
Definition set_exchanges (v : list hiddenExchange) (s : session) : session :=
  mkSession (client s) (upstream s) (tracker s) (txStatus s) (skipSync s) (pendingCommandTag
    s) (txnAborted s) (failure s) (failureRFQs s) (pendingFailure s) (occTouched s)
    (occCommits s) (hidden s) v (occSavepoint s) (occDoomed s) (occTxnStatements s)
    (occInFlight s) (occRepair s) (extendedBatchOpen s) (pendingExchanges s) (job s)
    (statements_ s) (fromClient s) (fromUpstream s) (clock s) (draws s).
Definition set_occSavepoint (v : bool) (s : session) : session :=
  mkSession (client s) (upstream s) (tracker s) (txStatus s) (skipSync s) (pendingCommandTag
    s) (txnAborted s) (failure s) (failureRFQs s) (pendingFailure s) (occTouched s)
    (occCommits s) (hidden s) (exchanges s) v (occDoomed s) (occTxnStatements s)
    (occInFlight s) (occRepair s) (extendedBatchOpen s) (pendingExchanges s) (job s)
    (statements_ s) (fromClient s) (fromUpstream s) (clock s) (draws s).
Definition set_occDoomed (v : bool) (s : session) : session :=
  mkSession (client s) (upstream s) (tracker s) (txStatus s) (skipSync s) (pendingCommandTag
    s) (txnAborted s) (failure s) (failureRFQs s) (pendingFailure s) (occTouched s)
    (occCommits s) (hidden s) (exchanges s) (occSavepoint s) v (occTxnStatements s)
    (occInFlight s) (occRepair s) (extendedBatchOpen s) (pendingExchanges s) (job s)
    (statements_ s) (fromClient s) (fromUpstream s) (clock s) (draws s).
Definition set_occTxnStatements (v : Z) (s : session) : session :=
  mkSession (client s) (upstream s) (tracker s) (txStatus s) (skipSync s) (pendingCommandTag
    s) (txnAborted s) (failure s) (failureRFQs s) (pendingFailure s) (occTouched s)
    (occCommits s) (hidden s) (exchanges s) (occSavepoint s) (occDoomed s) v (occInFlight s)
    (occRepair s) (extendedBatchOpen s) (pendingExchanges s) (job s) (statements_ s)
    (fromClient s) (fromUpstream s) (clock s) (draws s).
Definition set_occInFlight (v : option inFlight) (s : session) : session :=
  mkSession (client s) (upstream s) (tracker s) (txStatus s) (skipSync s) (pendingCommandTag
    s) (txnAborted s) (failure s) (failureRFQs s) (pendingFailure s) (occTouched s)
    (occCommits s) (hidden s) (exchanges s) (occSavepoint s) (occDoomed s) (occTxnStatements
    s) v (occRepair s) (extendedBatchOpen s) (pendingExchanges s) (job s) (statements_ s)
    (fromClient s) (fromUpstream s) (clock s) (draws s).
Definition set_occRepair (v : option inFlight) (s : session) : session :=
  mkSession (client s) (upstream s) (tracker s) (txStatus s) (skipSync s) (pendingCommandTag
    s) (txnAborted s) (failure s) (failureRFQs s) (pendingFailure s) (occTouched s)
    (occCommits s) (hidden s) (exchanges s) (occSavepoint s) (occDoomed s) (occTxnStatements
    s) (occInFlight s) v (extendedBatchOpen s) (pendingExchanges s) (job s) (statements_ s)
    (fromClient s) (fromUpstream s) (clock s) (draws s).
Definition set_extendedBatchOpen (v : bool) (s : session) : session :=
  mkSession (client s) (upstream s) (tracker s) (txStatus s) (skipSync s) (pendingCommandTag
    s) (txnAborted s) (failure s) (failureRFQs s) (pendingFailure s) (occTouched s)
    (occCommits s) (hidden s) (exchanges s) (occSavepoint s) (occDoomed s) (occTxnStatements
    s) (occInFlight s) (occRepair s) v (pendingExchanges s) (job s) (statements_ s)
    (fromClient s) (fromUpstream s) (clock s) (draws s).
Definition set_pendingExchanges (v : Z) (s : session) : session :=
  mkSession (client s) (upstream s) (tracker s) (txStatus s) (skipSync s) (pendingCommandTag
    s) (txnAborted s) (failure s) (failureRFQs s) (pendingFailure s) (occTouched s)
    (occCommits s) (hidden s) (exchanges s) (occSavepoint s) (occDoomed s) (occTxnStatements
    s) (occInFlight s) (occRepair s) (extendedBatchOpen s) v (job s) (statements_ s)
    (fromClient s) (fromUpstream s) (clock s) (draws s).
Definition set_job (v : option jobResult) (s : session) : session :=
  mkSession (client s) (upstream s) (tracker s) (txStatus s) (skipSync s) (pendingCommandTag
    s) (txnAborted s) (failure s) (failureRFQs s) (pendingFailure s) (occTouched s)
    (occCommits s) (hidden s) (exchanges s) (occSavepoint s) (occDoomed s) (occTxnStatements
    s) (occInFlight s) (occRepair s) (extendedBatchOpen s) (pendingExchanges s) v
    (statements_ s) (fromClient s) (fromUpstream s) (clock s) (draws s).
Definition set_statements_ (v : gmap string statementInfo) (s : session) : session :=
  mkSession (client s) (upstream s) (tracker s) (txStatus s) (skipSync s) (pendingCommandTag
    s) (txnAborted s) (failure s) (failureRFQs s) (pendingFailure s) (occTouched s)
    (occCommits s) (hidden s) (exchanges s) (occSavepoint s) (occDoomed s) (occTxnStatements
    s) (occInFlight s) (occRepair s) (extendedBatchOpen s) (pendingExchanges s) (job s) v
    (fromClient s) (fromUpstream s) (clock s) (draws s).
Definition set_fromClient (v : Z) (s : session) : session :=
  mkSession (client s) (upstream s) (tracker s) (txStatus s) (skipSync s) (pendingCommandTag
    s) (txnAborted s) (failure s) (failureRFQs s) (pendingFailure s) (occTouched s)
    (occCommits s) (hidden s) (exchanges s) (occSavepoint s) (occDoomed s) (occTxnStatements
    s) (occInFlight s) (occRepair s) (extendedBatchOpen s) (pendingExchanges s) (job s)
    (statements_ s) v (fromUpstream s) (clock s) (draws s).
Definition set_fromUpstream (v : Z) (s : session) : session :=
  mkSession (client s) (upstream s) (tracker s) (txStatus s) (skipSync s) (pendingCommandTag
    s) (txnAborted s) (failure s) (failureRFQs s) (pendingFailure s) (occTouched s)
    (occCommits s) (hidden s) (exchanges s) (occSavepoint s) (occDoomed s) (occTxnStatements
    s) (occInFlight s) (occRepair s) (extendedBatchOpen s) (pendingExchanges s) (job s)
    (statements_ s) (fromClient s) v (clock s) (draws s).
Definition set_clock (v : Z) (s : session) : session :=
  mkSession (client s) (upstream s) (tracker s) (txStatus s) (skipSync s) (pendingCommandTag
    s) (txnAborted s) (failure s) (failureRFQs s) (pendingFailure s) (occTouched s)
    (occCommits s) (hidden s) (exchanges s) (occSavepoint s) (occDoomed s) (occTxnStatements
    s) (occInFlight s) (occRepair s) (extendedBatchOpen s) (pendingExchanges s) (job s)
    (statements_ s) (fromClient s) (fromUpstream s) v (draws s).
Definition set_draws (v : nat) (s : session) : session :=
  mkSession (client s) (upstream s) (tracker s) (txStatus s) (skipSync s) (pendingCommandTag
    s) (txnAborted s) (failure s) (failureRFQs s) (pendingFailure s) (occTouched s)
    (occCommits s) (hidden s) (exchanges s) (occSavepoint s) (occDoomed s) (occTxnStatements
    s) (occInFlight s) (occRepair s) (extendedBatchOpen s) (pendingExchanges s) (job s)
    (statements_ s) (fromClient s) (fromUpstream s) (clock s) v.

(** What a session is configured with.  [entropy] is the outcome of each
    [rand.Read], and [tls_handshake] that of terminating client TLS. *)
Class Config := {
  ruleset : Ruleset;
  serverVersion : string;
  tlsConfig : bool;
  tls_handshake : bool;
  entropy : nat -> option bytes;
}.

Definition open_conn : conn := mkConn [] false.

(** The session [serve] builds for a new connection, accepted at [now]. *)
Definition new_session `{Config} (now : Z) : session :=
  mkSession open_conn open_conn
    (New (mkLimits (int64 (TxnAgeSeconds (rsLimits ruleset) * second))))
    "I" false EmptyString false None 0 None ∅ ∅ None [] false false 0 None None false 0 None ∅ 0 0
    now 0.

(** ** Connections *)

(** A write, and whether it succeeded. *)
Definition conn_write (b : bytes) (c : conn) : bool * conn :=
  if closed_ c then (false, c) else (true, mkConn (written c ++ [b]) false).

Definition conn_close (c : conn) : conn := mkConn (written c) true.

Definition writeUpstream (b : bytes) : proc session bool :=
  locked (fun s => let (ok, c) := conn_write b (upstream s) in (ok, set_upstream c s)).

Definition writeClient (b : bytes) : proc session bool :=
  locked (fun s => let (ok, c) := conn_write b (client s) in (ok, set_client c s)).

(** Closing both connections; also what is left of a process that panics. *)
Definition close_both (s : session) : session :=
  set_upstream (conn_close (upstream s)) (set_client (conn_close (client s)) s).

Definition close : proc session unit :=
  bind (modify (fun s => set_client (conn_close (client s)) s))
    (fun _ => modify (fun s => set_upstream (conn_close (upstream s)) s)).

Definition panic : proc session unit := modify close_both.

(** ** Running a step *)

Lemma run_get {X} (f : session -> X) s : run (get f) s = (f s, s).
Proof. done. Qed.

Lemma run_modify (f : session -> session) s : run (modify f) s = (tt, f s).
Proof. done. Qed.

Lemma run_locked {X} (f : session -> X * session) s : run (locked f) s = f s.
Proof. unfold locked. simpl. by destruct (f s). Qed.

Lemma run_ret {A} (a : A) (s : session) : run (Ret a) s = (a, s).
Proof. done. Qed.

Lemma run_writeClient b s :
  run (writeClient b) s = ((conn_write b (client s)).1, set_client (conn_write b (client s)).2 s).
Proof. unfold writeClient, locked. simpl. by destruct (conn_write b (client s)). Qed.

Lemma run_writeUpstream b s :
  run (writeUpstream b) s = ((conn_write b (upstream s)).1, set_upstream (conn_write b (upstream s)).2 s).
Proof. unfold writeUpstream, locked. simpl. by destruct (conn_write b (upstream s)). Qed.


(** What the client and the upstream are sent while their connections are open. *)
Definition told (bs : list bytes) (s : session) : session :=
  set_client (mkConn (written (client s) ++ bs) (closed_ (client s))) s.

Definition sent (bs : list bytes) (s : session) : session :=
  set_upstream (mkConn (written (upstream s) ++ bs) (closed_ (upstream s))) s.

Definition connected (s : session) : Prop :=
  closed_ (client s) = false /\ closed_ (upstream s) = false.

Lemma run_tell b s : connected s -> run (writeClient b) s = (true, told [b] s).
Proof. intros [Hc _]. rewrite run_writeClient. unfold conn_write, told. by rewrite Hc. Qed.

Lemma run_send b s : connected s -> run (writeUpstream b) s = (true, sent [b] s).
Proof. intros [_ Hu]. rewrite run_writeUpstream. unfold conn_write, sent. by rewrite Hu. Qed.

Lemma told_told bs bs' s : told bs (told bs' s) = told (bs' ++ bs) s.
Proof. unfold told. destruct s. simpl. by rewrite <- app_assoc. Qed.

Lemma sent_sent bs bs' s : sent bs (sent bs' s) = sent (bs' ++ bs) s.
Proof. unfold sent. destruct s. simpl. by rewrite <- app_assoc. Qed.
