(* ===== verification/Session.v ===== *)
(** * A session: [internal/proxy/session.go] and [adjudicator.go]

    One definition per method, as a sequence of atomic steps on the session's
    state: a critical section of the code is one step, and so is a write.
    Logging is left out.  A message the emulator makes is encoded by [pgproto3]'s
    codec, whose bytes are used even where the code ignores its error. *)

From Stdlib Require Import Ascii String Strings.Byte.
From stdpp Require Import base numbers strings gmap list.
From S2P Require Import Prelude GoStd Kind Txn Proto Ruleset Occ Wire Rewrite Proc State.

Local Open Scope Z_scope.
Local Open Scope proc_scope.

Definition stateInFailedTransaction : string := "25P02".
Definition messageInFailedTransaction : string :=
  "current transaction is aborted, commands ignored until end of transaction block".

Definition savepointName : string := "dsql_occ".

Definition DefaultVersionFunction : string := "PostgreSQL 16".

Section session.
Context {PG : PgQuery} {PP : PgProto} {SC : StatementClassifier} {CF : Config}.

(** ** Messages of the emulator's own *)

Definition simpleQuery (sql : string) : bytes := (fe_encode (Query sql)).1.
Definition encodeBackend (m : BackendMessage) : bytes := (be_encode m).1.

Definition abortTransactionQuery : bytes := simpleQuery "SELECT 1/0".
Definition rollbackQuery : bytes := simpleQuery "ROLLBACK".
Definition savepointQuery : bytes := simpleQuery ("SAVEPOINT " +:+ savepointName).
Definition rollbackToQuery : bytes := simpleQuery ("ROLLBACK TO SAVEPOINT " +:+ savepointName).
Definition restartQuery : bytes := simpleQuery "ROLLBACK; BEGIN".

Definition readyForQuery (st : byte) : bytes := encodeBackend (ReadyForQuery st).

Definition jobIDRowDescription : bytes :=
  encodeBackend (RowDescription [mkField "job_id" 0 0 25 (-1) (-1) 0]).

Definition jobIDDataRow (id : string) : bytes := encodeBackend (DataRow [text_of id]).

Definition errorResponse (c message : string) : bytes :=
  encodeBackend (ErrorResponse (mkError "ERROR" c message "" "" [])).

(** ** Exchanges with the upstream *)

Definition beginExchange : proc session unit :=
  modify (fun s => set_pendingExchanges (int64 (pendingExchanges s + 1)) s).

Definition endExchange : proc session unit :=
  modify (fun s => if 0 <? pendingExchanges s
                   then set_pendingExchanges (pendingExchanges s - 1) s else s).

Definition writeUpstreamExchange (b : bytes) : proc session bool :=
  do! beginExchange; writeUpstream b.

Definition is_tag (m : Message) (t : byte) : bool := Byte.eqb (Type_ m) t.

Definition forward (msg : Message) : proc session unit :=
  do! when (is_tag msg "Q" || is_tag msg "S") beginExchange;
  let! ok := writeUpstream (Raw msg) in
  when (negb ok) close.

Definition tag_in (t : byte) (l : list byte) : bool := existsb (Byte.eqb t) l.

Definition noteBatchState (t : byte) : proc session unit :=
  if tag_in t ["P"%byte; "B"%byte; "D"%byte; "E"%byte; "C"%byte; "H"%byte]
  then modify (set_extendedBatchOpen true)
  else if tag_in t ["S"%byte; "Q"%byte] then modify (set_extendedBatchOpen false)
  else skip.

(** ** Refusals and failures *)

Definition sendError (c message : string) : proc session unit :=
  do! writeClient (errorResponse c message); skip.

Definition beginFailure (f : txnFailure) : proc session unit :=
  do! modify (fun s => set_txnAborted (Byte.eqb (status f) "E")
                (set_failureRFQs 0 (set_failure (Some f) s)));
  do! writeUpstreamExchange (statement f); skip.

Definition deferFailure (f : txnFailure) : proc session unit :=
  modify (fun s => set_skipSync true (set_pendingFailure (Some f) s)).

(** A failure of an open transaction, in the middle of an extended-query batch
    or not. *)
Definition failTxn (stmt : bytes) (st : byte) (ext : bool) : proc session unit :=
  if ext then deferFailure (mkFailure stmt st 2) else beginFailure (mkFailure stmt st 1).

Definition trackerInTxn (s : session) : bool := InTxn (Tracker_Stats (tracker s)).

Definition reject (c message : string) (ext : bool) : proc session unit :=
  do! sendError c message;
  let! inTxn := get trackerInTxn in
  if inTxn then failTxn abortTransactionQuery "E" ext
  else if ext then modify (set_skipSync true)
  else let! st := get txStatus in
       do! writeClient (readyForQuery st); skip.

Definition rejectFailed (ext : bool) : proc session unit :=
  do! sendError stateInFailedTransaction messageInFailedTransaction;
  if ext then modify (set_skipSync true)
  else do! writeClient (readyForQuery "E"); skip.

(** The status to report once the failure's last ReadyForQuery went by. *)
Definition count_failure (s : session) : option byte * session :=
  let rfqs := int64 (failureRFQs s + 1) in
  match failure s with
  | Some f => if swallow f <=? rfqs
              then (Some (status f), set_failureRFQs 0 (set_failure None s))
              else (None, set_failureRFQs rfqs s)
  | None => (None, set_failureRFQs rfqs s)
  end.

Definition consumeFailureMessage (msg : Message) : proc session unit :=
  if negb (is_tag msg "Z") then skip
  else let! done := locked count_failure in
       match done with
       | Some st => do! writeClient (readyForQuery st); skip
       | None => skip
       end.

(** ** Conflicts at COMMIT *)

Definition addOccTables (tables : list string) : proc session unit :=
  match tables with
  | [] => skip
  | _ => modify (fun s => set_occTouched (list_to_set tables ∪ occTouched s) s)
  end.

Definition reset_occ (s : session) : session :=
  set_occRepair None (set_occInFlight None (set_occDoomed false (set_occTouched ∅ s))).

Definition resetOcc : proc session unit := modify reset_occ.

(** One injection rule at a commit: whether it matches the tables touched. *)
Definition injection_matches (touched : gset string) (inj : OCCInjection) : bool :=
  match injTables inj with
  | [] => true
  | ts => existsb (fun t => bool_decide (t ∈ touched)) ts
  end.

(** The rules from the [i]th on, counting this commit for each that matches,
    through the first whose turn it is. *)
Fixpoint inject_from (i : nat) (touched : gset string) (rules : list OCCInjection)
    (counts : gmap nat Z) : bool * gmap nat Z :=
  match rules with
  | [] => (false, counts)
  | inj :: rest =>
      if negb (injection_matches touched inj) then inject_from (S i) touched rest counts
      else
        let n := int64 (default 0 (counts !! i) + 1) in
        let counts := <[i := n]> counts in
        let every := if Every inj <=? 0 then 1 else Every inj in
        if Z.rem n every =? 0 then (true, counts) else inject_from (S i) touched rest counts
  end.

Definition commit_conflict (s : session) : bool * session :=
  let (hit, counts) := inject_from 0 (occTouched s) (Inject (rsOCC ruleset)) (occCommits s) in
  (hit, set_occCommits counts s).

Definition occCommitConflict : proc session bool :=
  match Inject (rsOCC ruleset) with
  | [] => Ret false
  | _ => locked commit_conflict
  end.

Definition conflictError (cfg : OCC) : string * string :=
  (if String.eqb (SQLState cfg) "" then CodeSerialization else SQLState cfg,
   if String.eqb (occError cfg) "" then "change conflicts with another transaction (OC000)"
   else occError cfg).

Definition occFailure (ext : bool) : proc session unit :=
  let (c, message) := conflictError (rsOCC ruleset) in
  do! sendError c message;
  do! resetOcc;
  failTxn rollbackQuery "I" ext.

(** The commit test of both protocols: doomed by a refused lock, or failed by an
    injection rule, which counts the commit only if the first does not hold. *)
Definition commit_fails : proc session bool :=
  let! doomed := get occDoomed in
  if doomed then Ret true else occCommitConflict.

Definition rewriteConflictError (msg : Message) : proc session bool :=
  let (c, message) := conflictError (rsOCC ruleset) in
  match error_decode (Body msg) with
  | None => Ret false
  | Some er =>
      if negb (IsConflict (ErrCode er)) then Ret false
      else match be_encode (ErrorResponse (mkError (Severity er) c message "" "" (OtherFields er))) with
           | (_, true) => Ret false
           | (encoded, false) => writeClient encoded
           end
  end.

(** ** Transactions *)

(** [s.tracker.Admit(kinds, time.Now())]. *)
Definition admitBatch (kinds : list Kind) : proc session (option Violation) :=
  locked (fun s => let (v, t) := Admit kinds (clock s) (tracker s) in (v, set_tracker t s)).

Definition endAborted : proc session unit :=
  do! modify (fun s => set_skipSync false (set_txnAborted false s));
  do! resetOcc;
  do! admitBatch [KindRollback]; skip.

Definition aborted : proc session bool := get txnAborted.

(** Whether a text ends a transaction; what does not parse does not. *)
Definition text_ends_transaction (sql : string) : bool :=
  match classify false sql with
  | Some r => endsTransaction (Kinds r)
  | None => false
  end.

Definition countTxnStatement (kinds : list Kind) : proc session unit :=
  if existsb (fun k => bool_decide (k = KindBegin) || bool_decide (k = KindCommit)
                       || bool_decide (k = KindRollback)) kinds
  then modify (set_occTxnStatements 0)
  else modify (fun s => set_occTxnStatements (int64 (occTxnStatements s + 1)) s).

Definition note_tx_status (s : session) : session :=
  set_occTxnStatements 0 (set_occInFlight None (set_occDoomed false (set_occSavepoint false s))).

Definition noteTxStatus (st : byte) : proc session unit :=
  when (Byte.eqb st "I") (modify note_tx_status).

(** ** The adjudicator: refused locks *)

Definition bindFormat (codes : list Z) (position : Z) : Z :=
  match codes with
  | [] => 0
  | [c] => c
  | _ => if position - 1 <? Z.of_nat (length codes)
         then default 0 (codes !! Z.to_nat (position - 1)) else 0
  end.

(** The values and formats a shadow is bound with, or [None] when it asks for a
    position the client did not bind. *)
Fixpoint pick_params (positions : list Z) (ps : list (option bytes)) (codes : list Z) :
    option (list (option bytes) * list Z) :=
  match positions with
  | [] => Some ([], [])
  | pos :: rest =>
      if (pos <? 1) || (pos >? Z.of_nat (length ps)) then None
      else match pick_params rest ps codes with
           | None => None
           | Some (values, fs) =>
               Some (default None (ps !! Z.to_nat (pos - 1)) :: values, bindFormat codes pos :: fs)
           end
  end.

Definition shadowParams (f : inFlight) : option (list (option bytes) * list Z) :=
  pick_params (Params (intent f)) (params f) (paramFormats f).

(** The bytes of a statement run through the extended protocol. *)
Definition extendedQuery (sql : string) (values : list (option bytes)) (pfs rfs : list Z) : bytes :=
  (fe_encode (Parse "" sql [])).1 ++ (fe_encode (Bind "" pfs values rfs "")).1 ++
  (fe_encode Execute).1 ++ (fe_encode Sync).1.

Definition firstColumnInt (msg : Message) : option Z :=
  match row_decode (Body msg) with
  | Some (v :: _) => atoi (of_text v)
  | _ => None
  end.

(** Install a new exchange. *)
Definition setHidden (h : hiddenExchange) : proc session unit :=
  modify (fun s => set_hidden (Some (length (exchanges s))) (set_exchanges (exchanges s ++ [h]) s)).

Definition set_exchange (p : nat) (h : hiddenExchange) : proc session unit :=
  modify (fun s => set_exchanges (<[p := h]> (exchanges s)) s).

(** [Some r] when the answer is known, [None] when a savepoint is to be written. *)
Definition claim_savepoint (s : session) : option bool * session :=
  if occSavepoint s then (Some true, s)
  else if (0 <? pendingExchanges s) || extendedBatchOpen s then (Some false, s)
  else (None, set_occSavepoint true s).

Definition establishSavepoint : proc session bool :=
  let! known := locked claim_savepoint in
  match known with
  | Some r => Ret r
  | None =>
      do! setHidden (SavepointExchange false);
      let! ok := writeUpstreamExchange savepointQuery in
      if ok then Ret true else do! close; Ret false
  end.

(** The unnamed statement of a Bind, whose Parse a savepoint would destroy. *)
Definition binds_unnamed (bind : option FrontendMessage) : bool :=
  match bind with
  | Some (Bind name _ _ _ _) => String.eqb name ""
  | _ => false
  end.

Definition savepointReady (bind : option FrontendMessage) : proc session bool :=
  let! has := get occSavepoint in
  if has then Ret true
  else if binds_unnamed bind then Ret false
  else establishSavepoint.

(** What a statement in flight is remembered as. *)
Definition flight_of (i : option Intent) (bind : option FrontendMessage) : option inFlight :=
  match i, bind with
  | None, _ => None
  | Some i, Some (Bind _ pfs ps rfs _) => Some (mkInFlight i true rfs ps pfs)
  | Some i, _ => match Params i with [] => Some (mkInFlight i false [] [] []) | _ => None end
  end.

Definition setInFlight (i : option Intent) (bind : option FrontendMessage) : proc session unit :=
  modify (set_occInFlight (flight_of i bind)).

Definition armAdjudicator (i : option Intent) (bind : option FrontendMessage) : proc session unit :=
  match i with
  | None => setInFlight None None
  | Some _ => do! savepointReady bind; setInFlight i bind
  end.

(** The decision of [occIntercept], and the state it leaves. *)
Definition take_over (inTxn : bool) (s : session) : bool * session :=
  let repairable := occSavepoint s || (occTxnStatements s <=? 1) in
  if repairable && inTxn && bool_decide (is_Some (occInFlight s)) && (pendingExchanges s <=? 1)
  then (true, set_occInFlight None (set_occRepair (occInFlight s) s))
  else (false, s).

Definition occIntercept (msg : Message) : proc session bool :=
  match error_decode (Body msg) with
  | None => Ret false
  | Some er =>
      if negb (IsConflict (ErrCode er)) then Ret false
      else let! inTxn := get trackerInTxn in locked (take_over inTxn)
  end.

Definition repairPending : proc session bool := get (fun s => bool_decide (is_Some (occRepair s))).

Definition completeRepair (repair : inFlight) (rows : Z) : proc session unit :=
  do! writeClient (encodeBackend (CommandComplete (CommandTag (intent repair) rows)));
  do! writeClient (readyForQuery "T"); skip.

Definition failRepair : proc session unit :=
  let (c, message) := conflictError (rsOCC ruleset) in
  do! modify (set_occDoomed false);
  do! sendError c message;
  beginFailure (mkFailure abortTransactionQuery "E" 1).

(** A shadow statement, extended when it carries values. *)
Definition writeShadow (b : bytes) : proc session unit :=
  let! ok := writeUpstreamExchange b in when (negb ok) close.

Definition runCountShadow (repair : inFlight) : proc session unit :=
  match shadowParams repair with
  | None => failRepair
  | Some (values, fs) =>
      do! setHidden (CountExchange false 0 repair);
      writeShadow (match values with
                   | [] => simpleQuery (Shadow (intent repair))
                   | _ => extendedQuery (Shadow (intent repair)) values fs []
                   end)
  end.

Definition runRowsetShadow (repair : inFlight) : proc session unit :=
  match shadowParams repair with
  | None => failRepair
  | Some (values, fs) =>
      do! setHidden (RowsetExchange false repair);
      writeShadow (if extended repair
                   then extendedQuery (Shadow (intent repair)) values fs (formats repair)
                   else simpleQuery (Shadow (intent repair)))
  end.

Definition runShadow (repair : inFlight) : proc session unit :=
  if String.eqb (Shadow (intent repair)) "" then completeRepair repair (Rows (intent repair))
  else if Rowset (intent repair) then runRowsetShadow repair
  else runCountShadow repair.

(** Taking the refused statement over: its transaction is doomed, and as far as
    the client knows still open. *)
Definition take_repair (s : session) : option inFlight * session :=
  match occRepair s with
  | None => (None, s)
  | Some r => (Some r, set_txStatus "T" (set_occDoomed true (set_occRepair None s)))
  end.

Definition restore_statement (s : session) : bytes * session :=
  if occSavepoint s then (rollbackToQuery, s) else (restartQuery, set_occSavepoint false s).

Definition startRepair : proc session bool :=
  let! taken := locked take_repair in
  match taken with
  | None => Ret false
  | Some repair =>
      let! restore := locked restore_statement in
      do! setHidden (RestoreExchange false repair);
      let! ok := writeUpstreamExchange restore in
      do! when (negb ok) close;
      Ret true
  end.

(** Offering a message to an exchange: whether it is over. *)
Definition consume (p : nat) (msg : Message) : proc session bool :=
  let! h := get (fun s => exchanges s !! p) in
  match h with
  | None => Ret false
  | Some (SavepointExchange failed) =>
      do! when (is_tag msg "E") (set_exchange p (SavepointExchange true));
      Ret (is_tag msg "Z")
  | Some (RestoreExchange failed repair) =>
      do! when (is_tag msg "E") (set_exchange p (RestoreExchange true repair));
      Ret (is_tag msg "Z")
  | Some (CountExchange failed rows repair) =>
      let rows := match is_tag msg "D", firstColumnInt msg with
                  | true, Some n => n
                  | _, _ => rows
                  end in
      do! set_exchange p (CountExchange (failed || is_tag msg "E") rows repair);
      Ret (is_tag msg "Z")
  | Some (RowsetExchange failed repair) =>
      if is_tag msg "E" then do! set_exchange p (RowsetExchange true repair); Ret false
      else if is_tag msg "Z" then Ret true
      else if is_tag msg "D" || is_tag msg "C" then do! writeClient (Raw msg); Ret false
      else if is_tag msg "T" && negb (extended repair)
      then do! writeClient (Raw msg); Ret false
      else Ret false
  end.

Definition finish (p : nat) : proc session unit :=
  let! h := get (fun s => exchanges s !! p) in
  match h with
  | None => skip
  | Some (SavepointExchange failed) => when failed (modify (set_occSavepoint false))
  | Some (RestoreExchange failed repair) => if failed then failRepair else runShadow repair
  | Some (CountExchange failed rows repair) => if failed then failRepair else completeRepair repair rows
  | Some (RowsetExchange failed repair) =>
      if failed then failRepair else do! writeClient (readyForQuery "T"); skip
  end.

Definition consumeHidden (msg : Message) : proc session bool :=
  let! h := get hidden in
  match h with
  | None => Ret false
  | Some p =>
      let! over := consume p msg in
      if negb over then Ret true
      else do! modify (set_hidden None); do! finish p; Ret true
  end.

(** ** Asynchronous jobs *)

Definition markJobDescribed : proc session bool :=
  locked (fun s => match job s with
                   | Some j => if described j then (false, s)
                               else (true, set_job (Some (mkJob true (jobID j) (precedingTags j))) s)
                   | None => (false, s)
                   end).

Definition claim_job (s : session) : option jobResult * session :=
  match job s with
  | None => (None, s)
  | Some j =>
      if 0 <? precedingTags j
      then (None, set_job (Some (mkJob (described j) (jobID j) (precedingTags j - 1))) s)
      else (Some j, set_job None s)
  end.

Definition claimJob : proc session (option jobResult) := locked claim_job.

Definition takeJob : proc session unit := modify (set_job None).

Definition restoreJob (id : string) : proc session unit :=
  modify (fun s => match job s with
                   | None => set_job (Some (mkJob false id 0)) s
                   | Some _ => s
                   end).

(** [newJobID()], drawing the next random bytes. *)
Definition drawJobID : proc session string :=
  locked (fun s => (newJobID (entropy (draws s)), set_draws (S (draws s)) s)).

Definition set_statement (name : string) (info : statementInfo) : proc session unit :=
  modify (fun s => set_statements_ (<[name := info]> (statements_ s)) s).

Definition delete_statement (name : string) : proc session unit :=
  modify (fun s => set_statements_ (delete name (statements_ s)) s).

(** The kinds an asynchronous statement is admitted as. *)
Definition async_kinds (kinds : list Kind) : list Kind :=
  match kinds with [] => [KindDDL] | _ => kinds end.

(** A Query or Parse with its text replaced. *)
Definition with_text (m : FrontendMessage) (sql : string) : FrontendMessage :=
  match m with
  | Query _ => Query sql
  | Parse name _ oids => Parse name sql oids
  | _ => m
  end.

Definition is_query (m : FrontendMessage) : bool :=
  match m with Query _ => true | _ => false end.

(** Sending the marked statement down and remembering its job. *)
Definition sendAsyncJob (msg : Message) (frontend : FrontendMessage) (rewritten : string)
    (stmt : nat) (kinds : list Kind) : proc session unit :=
  let! id := drawJobID in
  do! modify (set_job (Some (mkJob false id (Z.of_nat stmt))));
  do! match frontend with
      | Parse name _ _ => set_statement name (mkInfo kinds [] None id)
      | _ => skip
      end;
  match fe_encode (with_text frontend (jobMarker id +:+ rewritten)) with
  | (_, true) => forward msg
  | (encoded, false) =>
      if is_query frontend then do! writeUpstreamExchange encoded; skip
      else do! writeUpstream encoded; skip
  end.

(** A prepared statement is admitted when it is bound. *)
Definition admitAsyncJob (msg : Message) (frontend : FrontendMessage) (rewritten : string)
    (stmt : nat) (ext : bool) (kinds : list Kind) : proc session unit :=
  if ext then sendAsyncJob msg frontend rewritten stmt kinds
  else
    let! v := admitBatch kinds in
    match v with
    | Some v => reject (vCode v) (vMessage v) ext
    | None => sendAsyncJob msg frontend rewritten stmt kinds
    end.

Definition forwardAsyncJob (msg : Message) (frontend : FrontendMessage) (rewritten : string)
    (stmt : nat) (ext : bool) : proc session unit :=
  let! failed := aborted in
  if failed then rejectFailed ext
  else
    match classify true rewritten with
    | Some r =>
        if Rejected (verdict r) then reject (Code (verdict r)) (Kind.Message (verdict r)) ext
        else admitAsyncJob msg frontend rewritten stmt ext (async_kinds (Kinds r))
    | None => admitAsyncJob msg frontend rewritten stmt ext [KindDDL]
    end.

(** ** Rewritten statements and answers *)

Definition rewriteParameterStatus (msg : Message) : proc session bool :=
  if String.eqb serverVersion "" then Ret false
  else match status_decode (Body msg) with
       | None => Ret false
       | Some (name, _) =>
           if negb (String.eqb name "server_version") then Ret false
           else match be_encode (ParameterStatus name serverVersion) with
                | (_, true) => Ret false
                | (encoded, false) => writeClient encoded
                end
       end.

(** What a text is compared by: lower case, one space between the words, and
    without a last semicolon. *)
Definition rewrite_key (sql : string) : string :=
  join " " (fields (to_lower (trim_suffix (trim_space sql) ";"))).

(** The statement sent instead, and whether its answer must say SHOW. *)
Definition rewrite_of (sql : string) : option (string * bool) :=
  let key := rewrite_key sql in
  let select v name := "SELECT '" +:+ v +:+ "' AS " +:+ name in
  if String.eqb key "select version()" then Some (select DefaultVersionFunction "version", false)
  else if String.eqb key "show server_version" then Some (select serverVersion "server_version", true)
  else if String.eqb key "select current_setting('server_version')"
  then Some (select serverVersion "current_setting", false)
  else if String.eqb key "select current_setting('server_version_num')"
  then Some (select (serverVersionNum serverVersion) "current_setting", false)
  else if String.eqb key "show server_version_num"
  then Some (select (serverVersionNum serverVersion) "server_version_num", true)
  else None.

Definition rewriteSQL (sql : string) : proc session (option string) :=
  match rewrite_of sql with
  | None => Ret None
  | Some (text, show) =>
      do! when show (modify (set_pendingCommandTag "SHOW"));
      Ret (Some text)
  end.

Definition take_tag (s : session) : string * session :=
  (pendingCommandTag s, set_pendingCommandTag EmptyString s).

Definition rewriteCommandTag (msg : Message) : proc session (option bytes) :=
  let! tag := locked take_tag in
  if String.eqb tag "" then Ret None
  else match complete_decode (Body msg) with
       | None => Ret None
       | Some _ => match be_encode (CommandComplete tag) with
                   | (_, true) => Ret None
                   | (encoded, false) => Ret (Some encoded)
                   end
       end.

(** ** The client's messages *)

Definition handleSync (msg : Message) : proc session unit :=
  let! pending := locked (fun s => (pendingFailure s, set_skipSync false (set_pendingFailure None s))) in
  do! forward msg;
  match pending with
  | Some f => beginFailure f
  | None => skip
  end.

(** What follows an admitted batch: its tables and its place in the transaction
    are recorded, its end may be failed, and a statement inside one is prepared
    to have its conflict deferred.  The result says whether to go on. *)
Definition afterAdmit (kinds : list Kind) (tables : list string) (i : option Intent)
    (bind : option FrontendMessage) (ext : bool) : proc session bool :=
  do! addOccTables tables;
  do! countTxnStatement kinds;
  if endsTransaction kinds then
    let! fails := (if isCommit kinds then commit_fails else Ret false) in
    if fails then do! occFailure ext; Ret false
    else do! resetOcc; Ret true
  else
    let! inTxn := get trackerInTxn in
    do! when inTxn (armAdjudicator i bind);
    Ret true.

Definition sendQuery (msg : Message) (sql : string) : proc session unit :=
  let! rewritten := rewriteSQL sql in
  match rewritten with
  | Some text =>
      match fe_encode (Query text) with
      | (encoded, false) => do! writeUpstreamExchange encoded; skip
      | (_, true) => forward msg
      end
  | None => forward msg
  end.

Definition queryAborted (msg : Message) (sql : string) : proc session unit :=
  if text_ends_transaction sql then do! endAborted; forward msg
  else rejectFailed false.

Definition queryClassified (msg : Message) (sql : string) (r : Result) : proc session unit :=
  if Rejected (verdict r) then reject (Code (verdict r)) (Kind.Message (verdict r)) false
  else
    let! v := admitBatch (Kinds r) in
    match v with
    | Some v => reject (vCode v) (vMessage v) false
    | None =>
        let! go := afterAdmit (Kinds r) (Tables r) (Analyze sql) None false in
        when go (sendQuery msg sql)
    end.

Definition handleQuery (msg : Message) : proc session unit :=
  match DecodeFrontend (Type_ msg) (Body msg) with
  | Decoded (Query sql) =>
      match stripAsync sql with
      | None => panic
      | Some (Some (rewritten, stmt)) => forwardAsyncJob msg (Query sql) rewritten stmt false
      | Some None =>
          let! failed := aborted in
          if failed then queryAborted msg sql
          else match classify false sql with
               | None => forward msg
               | Some r => queryClassified msg sql r
               end
      end
  | _ => forward msg
  end.

Definition parseAborted (msg : Message) (name sql : string) : proc session unit :=
  match classify false sql with
  | Some r => if endsTransaction (Kinds r)
              then do! set_statement name (mkInfo (Kinds r) (Tables r) None EmptyString); forward msg
              else rejectFailed true
  | None => rejectFailed true
  end.

(** Remembering a statement that goes down as it came, with the savepoint its
    conflicts would need. *)
Definition parseRemembered (msg : Message) (name sql : string) (r : Result) : proc session unit :=
  let i := Analyze sql in
  do! (if bool_decide (is_Some i) then
         let! inTxn := get trackerInTxn in
         when inTxn (do! establishSavepoint; skip)
       else skip);
  do! set_statement name (mkInfo (Kinds r) (Tables r) i EmptyString);
  forward msg.

Definition parseClassified (msg : Message) (name sql : string) (oids : list Z) (r : Result) :
    proc session unit :=
  if Rejected (verdict r) then
    do! delete_statement name;
    reject (Code (verdict r)) (Kind.Message (verdict r)) true
  else
    let! rewritten := rewriteSQL sql in
    match rewritten with
    | Some text =>
        match fe_encode (Parse name text oids) with
        | (encoded, false) =>
            do! set_statement name (mkInfo (Kinds r) (Tables r) None EmptyString);
            do! writeUpstream encoded; skip
        | (_, true) => parseRemembered msg name text r
        end
    | None => parseRemembered msg name sql r
    end.

Definition handleParse (msg : Message) : proc session unit :=
  match DecodeFrontend (Type_ msg) (Body msg) with
  | Decoded (Parse name sql oids) =>
      match stripAsync sql with
      | None => panic
      | Some (Some (rewritten, _)) => forwardAsyncJob msg (Parse name sql oids) rewritten 0 true
      | Some None =>
          let! failed := aborted in
          if failed then parseAborted msg name sql
          else match classify false sql with
               | None => do! delete_statement name; forward msg
               | Some r => parseClassified msg name sql oids r
               end
      end
  | _ => forward msg
  end.

Definition bindKnown (msg : Message) (bind : FrontendMessage) (info : statementInfo) : proc session unit :=
  let! failed := aborted in
  if failed then
    if endsTransaction (infoKinds info) then do! endAborted; forward msg
    else rejectFailed true
  else
    let! v := admitBatch (infoKinds info) in
    match v with
    | Some v => reject (vCode v) (vMessage v) true
    | None =>
        let! go := afterAdmit (infoKinds info) (infoTables info) (infoIntent info) (Some bind) true in
        when go
          (do! when (negb (String.eqb (infoJobID info) "")) (restoreJob (infoJobID info));
           forward msg)
    end.

Definition handleBind (msg : Message) : proc session unit :=
  match DecodeFrontend (Type_ msg) (Body msg) with
  | Decoded (Bind name pfs ps rfs portal) =>
      let! info := get (fun s => statements_ s !! name) in
      match info with
      | None => forward msg
      | Some info => bindKnown msg (Bind name pfs ps rfs portal) info
      end
  | _ => forward msg
  end.

Definition handleClose (msg : Message) : proc session unit :=
  match DecodeFrontend (Type_ msg) (Body msg) with
  | Decoded (Close o name) =>
      do! when (Byte.eqb o "S") (delete_statement name);
      forward msg
  | _ => forward msg
  end.

(** One round of [pumpFrontend] on a message: whether the loop goes on. *)
Definition frontendMessage (msg : Message) : proc session bool :=
  do! modify (fun s => set_fromClient (int64 (fromClient s + Z.of_nat (length (Raw msg)))) s);
  if is_tag msg "X" then do! writeUpstream (Raw msg); Ret false
  else if is_tag msg "S" then
    do! handleSync msg; do! noteBatchState (Type_ msg); Ret true
  else
    let! dropping := get skipSync in
    if dropping then Ret true
    else
      do! (if is_tag msg "Q" then handleQuery msg
           else if is_tag msg "P" then handleParse msg
           else if is_tag msg "B" then handleBind msg
           else if is_tag msg "C" then handleClose msg
           else forward msg);
      do! noteBatchState (Type_ msg);
      Ret true.

(** ** The upstream's messages *)

(** A message passed on to the client: whether the loop goes on. *)
Definition passOn (msg : Message) : proc session bool := writeClient (Raw msg).

(** A write whose error is ignored. *)
Definition tellClient (b : bytes) : proc session unit := do! writeClient b; skip.

Definition backendRowless (msg : Message) : proc session bool :=
  let! marked := markJobDescribed in
  if marked then do! tellClient jobIDRowDescription; Ret true else passOn msg.

Definition backendError (msg : Message) : proc session bool :=
  do! takeJob;
  let! taken := occIntercept msg in
  if taken then Ret true
  else let! handled := rewriteConflictError msg in
       if handled then Ret true else passOn msg.

Definition backendStatus (msg : Message) : proc session bool :=
  let! handled := rewriteParameterStatus msg in
  if handled then Ret true else passOn msg.

Definition backendReady (msg : Message) : proc session bool :=
  do! takeJob;
  match rfq_decode (Body msg) with
  | None => passOn msg
  | Some st =>
      let! repairing := startRepair in
      if repairing then Ret true
      else
        do! modify (set_txStatus st);
        do! noteTxStatus st;
        passOn msg
  end.

Definition spliceJob (j : jobResult) : proc session unit :=
  do! when (negb (described j)) (tellClient jobIDRowDescription);
  tellClient (jobIDDataRow (jobID j)).

Definition backendComplete (msg : Message) : proc session bool :=
  let! tag := rewriteCommandTag msg in
  match tag with
  | Some encoded => writeClient encoded
  | None =>
      let! claimed := claimJob in
      do! match claimed with Some j => spliceJob j | None => skip end;
      passOn msg
  end.

(** One round of [pumpBackend] on a message: whether the loop goes on. *)
Definition backendMessage (msg : Message) : proc session bool :=
  do! modify (fun s => set_fromUpstream (int64 (fromUpstream s + Z.of_nat (length (Raw msg)))) s);
  do! when (is_tag msg "Z") endExchange;
  let! own := consumeHidden msg in
  if own then Ret true
  else
    let! failing := get (fun s => bool_decide (is_Some (failure s))) in
    if failing then do! consumeFailureMessage msg; Ret true
    else
      let! repairing := (if is_tag msg "Z" then Ret false else repairPending) in
      if repairing then Ret true
      else if is_tag msg "n" then backendRowless msg
      else if is_tag msg "E" then backendError msg
      else if is_tag msg "S" then backendStatus msg
      else if is_tag msg "Z" then backendReady msg
      else if is_tag msg "C" then backendComplete msg
      else passOn msg.

(** ** The startup exchange *)

Inductive handshakeResult := Again | Intercept | RelayRaw | HandshakeError.

Definition negotiateTLS : proc session bool :=
  if negb tlsConfig then writeClient ["N"%byte]
  else let! ok := writeClient ["S"%byte] in Ret (ok && tls_handshake).

Definition startup_options : list string :=
  (let cap := DMLRowsPerTxn (rsLimits ruleset) in
   if 0 <? cap then ["-c dsql.row_cap=" +:+ itoa cap] else []) ++
  (let ms := LockTimeoutMS (rsOCC ruleset) in
   if 0 <? ms then ["-c lock_timeout=" +:+ itoa ms +:+ "ms"] else []).

Definition startup_params : gmap string string :=
  {["default_transaction_isolation" := "repeatable read"]}.

Definition handshakeStep (startup : Startup) : proc session handshakeResult :=
  do! modify (fun s => set_fromClient (int64 (fromClient s + Z.of_nat (length (suRaw startup)))) s);
  if suCode startup =? SSLRequestCode then
    let! ok := negotiateTLS in Ret (if ok then Again else HandshakeError)
  else if suCode startup =? GSSENCRequest then
    let! ok := writeClient ["N"%byte] in Ret (if ok then Again else HandshakeError)
  else
    let raw := if IsStartup (suCode startup)
               then RewriteStartup startup startup_params startup_options
               else suRaw startup in
    let! ok := writeUpstream raw in
    Ret (if negb ok then HandshakeError
         else if IsStartup (suCode startup) then Intercept else RelayRaw).

(** The loop, on the opening messages a client sends before its reads fail. *)
Fixpoint handshake (startups : list Startup) : proc session handshakeResult :=
  match startups with
  | [] => Ret HandshakeError
  | startup :: rest =>
      let! r := handshakeStep startup in
      match r with Again => handshake rest | _ => Ret r end
  end.

End session.
