(* ===== verification/System.v ===== *)
(** * Two goroutines: [session.run]

    The frontend pump and the backend pump run concurrently on one session.  A
    system state is the session with what each pump is in the middle of; a step
    is one atomic action of one pump, a message arriving at an idle pump, or
    something the environment does: time passing, a connection breaking.  Which
    messages arrive, and when, is not constrained; each is framed as [ReadTagged]
    reads it. *)

From stdpp Require Import base numbers strings gmap list.
From S2P Require Import Prelude Kind Proto Wire Proc State Session.

Inductive pump :=
| Waiting
| Running (p : proc session bool)
| Done.

Record system := mkSystem { shared : session; frontend : pump; backend : pump }.

(** What happens around the session. *)
Inductive env_step : session -> session -> Prop :=
| env_clock t s : env_step s (set_clock t s)
| env_client_gone s : env_step s (set_client (conn_close (client s)) s)
| env_upstream_gone s : env_step s (set_upstream (conn_close (upstream s)) s).

Section system.
Context {PG : PgQuery} {PP : PgProto} {SC : StatementClassifier} {CF : Config}.

(** [run] closes the upstream when the frontend pump returns. *)
Definition close_upstream (s : session) : session := set_upstream (conn_close (upstream s)) s.

Inductive step : system -> system -> Prop :=
| frontend_reads s be msg :
    framed msg ->
    step (mkSystem s Waiting be) (mkSystem s (Running (frontendMessage msg)) be)
| frontend_acts s be X (f : session -> X * session) k :
    step (mkSystem s (Running (Act f k)) be) (mkSystem (f s).2 (Running (k (f s).1)) be)
| frontend_loops s be :
    step (mkSystem s (Running (Ret true)) be) (mkSystem s Waiting be)
| frontend_returns s be :
    step (mkSystem s (Running (Ret false)) be) (mkSystem (close_upstream s) Done be)
| frontend_read_fails s be :
    step (mkSystem s Waiting be) (mkSystem (close_upstream s) Done be)
| backend_reads s fe msg :
    framed msg ->
    step (mkSystem s fe Waiting) (mkSystem s fe (Running (backendMessage msg)))
| backend_acts s fe X (f : session -> X * session) k :
    step (mkSystem s fe (Running (Act f k))) (mkSystem (f s).2 fe (Running (k (f s).1)))
| backend_loops s fe :
    step (mkSystem s fe (Running (Ret true))) (mkSystem s fe Waiting)
| backend_returns s fe :
    step (mkSystem s fe (Running (Ret false))) (mkSystem s fe Done)
| backend_read_fails s fe :
    step (mkSystem s fe Waiting) (mkSystem s fe Done)
| environment s s' fe be :
    env_step s s' -> step (mkSystem s fe be) (mkSystem s' fe be).

(** A session that has been through its startup exchange. *)
Definition started (s : session) : Prop :=
  exists now startups, run (handshake startups) (new_session now) = (Intercept, s).

Definition initial (y : system) : Prop :=
  started (shared y) /\ frontend y = Waiting /\ backend y = Waiting.

Definition reachable (y : system) : Prop := exists y0, initial y0 /\ rtc step y0 y.

(** ** Invariants of every interleaving *)

Section invariant.
Variable I : session -> Prop.
Hypothesis I_started : forall s, started s -> I s.
Hypothesis I_frontend : forall msg, framed msg -> safe I (frontendMessage msg) (fun _ => True).
Hypothesis I_backend : forall msg, framed msg -> safe I (backendMessage msg) (fun _ => True).
Hypothesis I_env : forall s s', env_step s s' -> I s -> I s'.

Definition pump_safe (p : pump) : Prop :=
  match p with Running p => safe I p (fun _ => True) | _ => True end.

Definition system_safe (y : system) : Prop :=
  I (shared y) /\ pump_safe (frontend y) /\ pump_safe (backend y).

Lemma step_safe y y' : step y y' -> system_safe y -> system_safe y'.
Proof.
  intros H (Hi & Hf & Hb). destruct H; simpl in *; unfold system_safe; simpl; split_and!;
    try done; try (by apply I_frontend); try (by apply I_backend); try (by eapply I_env; [eauto|]);
    try (destruct (Hf s Hi); done); try (destruct (Hb s Hi); done);
    try (by apply (I_env s), Hi; constructor).
Qed.

Lemma reachable_safe y : reachable y -> I (shared y).
Proof.
  intros (y0 & (Hs & Hf & Hb) & Hr).
  assert (system_safe y0) as H0.
  { unfold system_safe. rewrite Hf, Hb. split_and!; [by apply I_started | done..]. }
  cut (system_safe y); [by intros []|]. clear Hs Hf Hb.
  induction Hr as [|y1 y2 y3 Hst _ IH]; [done|]. apply IH. by eapply step_safe.
Qed.

End invariant.
End system.
