(* ===== verification/Samples.v ===== *)
(** * A concrete instance

    A parser that knows a handful of statements, the codec of [Wire.v] and the
    embedded ruleset: the instance the properties are shown to hold at, and a
    session that went through its startup exchange. *)

From Stdlib Require Import Ascii String Strings.Byte.
From stdpp Require Import base numbers strings gmap list relations.
From S2P Require Import Prelude GoStd Kind Txn Proto Ruleset Eval Classify DefaultRules Occ Wire Rewrite Proc State Session System.

Local Open Scope Z_scope.

Definition relation_t : string * fval := ("relation", FMsg (Msg "RangeVar" [("relname", FStr "t")])).

Definition txn_stmt (kind : string) : option msg :=
  Some (node_of "transaction_stmt" (Msg "TransactionStmt" [("kind", FEnum kind)])).

Definition update_node : msg := node_of "update_stmt" (Msg "UpdateStmt" [relation_t]).
Definition insert_node : msg :=
  node_of "insert_stmt" (Msg "InsertStmt"
    [relation_t;
     ("select_stmt", FMsg (node_of "select_stmt" (Msg "SelectStmt"
        [("values_lists", FList [Msg "Node" []; Msg "Node" []])])))]).
Definition select_node : msg := node_of "select_stmt" (Msg "SelectStmt" []).
Definition index_node : msg := node_of "index_stmt" (Msg "IndexStmt" []).
Definition truncate_node : msg := node_of "truncate_stmt" (Msg "TruncateStmt" []).

Definition behind_select_text : string := "SELECT 1;CREATE INDEX ASYNC ON t (a)".

Definition behind_select_scan : list ScanToken :=
  [mkTok (OtherToken 651) 0 6; mkTok (OtherToken 266) 7 8; mkTok ASCII_59 8 9; mkTok CREATE 9 15;
   mkTok INDEX 16 21; mkTok IDENT 22 27; mkTok ON 28 30; mkTok IDENT 31 32; mkTok (OtherToken 40) 33 34;
   mkTok IDENT 34 35; mkTok (OtherToken 41) 35 36].

Definition sample_pg : PgQuery :=
  table_pg
    [("BEGIN", [txn_stmt "TRANS_STMT_BEGIN"]); ("COMMIT", [txn_stmt "TRANS_STMT_COMMIT"]);
     ("ROLLBACK", [txn_stmt "TRANS_STMT_ROLLBACK"]);
     ("SELECT 1", [Some select_node]);
     ("UPDATE t SET a = 1", [Some update_node]);
     ("INSERT INTO t VALUES (1), (2)", [Some insert_node]);
     ("TRUNCATE t", [Some truncate_node]);
     ("CREATE INDEX ON t (a)", [Some index_node]);
     (";CREATE INDEX ON t (a)", [Some index_node]);
     ("SELECT 1;CREATE INDEX ON t (a)", [Some select_node; Some index_node]);
     ("SHOW server_version", [Some (node_of "variable_show_stmt" (Msg "VariableShowStmt" []))])]
    [("CREATE INDEX ASYNC ON t (a)",
      [mkTok CREATE 0 6; mkTok INDEX 7 12; mkTok IDENT 13 18; mkTok ON 19 21; mkTok IDENT 22 23;
       mkTok (OtherToken 40) 24 25; mkTok IDENT 25 26; mkTok (OtherToken 41) 26 27]);
     (empty_first_text, empty_first_scan);
     (behind_select_text, behind_select_scan)]
    (fun _ => Some "SELECT count(*) FROM t").

Definition sample_classifier : StatementClassifier := @ruleset_classifier sample_pg default_ruleset.

Definition sample_config : Config := {|
  ruleset := default_ruleset;
  serverVersion := "16.15";
  tlsConfig := false;
  tls_handshake := true;
  entropy n := Some (repeat (to_byte (Z.of_nat n)) 16);
|}.

#[export] Existing Instances sample_pg sample_proto sample_classifier sample_config.

(** A client's query and statement, and the server's answers. *)
Definition message (t : byte) (body : bytes) : Message := mkMessage t body (frame t body).
Definition query (sql : string) : Message := message "Q" (text_of sql).
Definition parse (sql : string) : Message := message "P" (text_of sql).
Definition bind_unnamed : Message := message "B" [].
Definition sync : Message := message "S" [].
Definition ready (st : byte) : Message := message "Z" [st].
Definition complete (tag : string) : Message := message "C" (text_of tag).
Definition error (code : string) : Message := message "E" (text_of code).

Definition sample_startup : Startup := mkStartup ProtocolVersion3 [] [].

Definition start_time : Z := 1000 * second.

(** The session after its startup exchange. *)
Definition session_started : session :=
  exec (handshake [sample_startup]) (new_session start_time).

(** The handlers of a list of messages, one after the other. *)
Definition client_sends (ms : list Message) (s : session) : session :=
  fold_left (fun s m => exec (frontendMessage m) s) ms s.
Definition server_sends (ms : list Message) (s : session) : session :=
  fold_left (fun s m => exec (backendMessage m) s) ms s.

(** A transaction opened by the client, and answered. *)
Definition session_in_txn : session :=
  server_sends [complete "BEGIN"; ready "T"] (client_sends [query "BEGIN"] session_started).

Example session_in_txn_open :
  trackerInTxn session_in_txn = true /\ txStatus session_in_txn = "T"%byte /\
  pendingExchanges session_in_txn = 0.
Proof. vm_compute. done. Qed.

Lemma session_started_started : started session_started.
Proof.
  exists start_time, [sample_startup].
  vm_compute. reflexivity.
Qed.

(** A pump's round, run without interruption, is a sequence of steps. *)
Lemma frontend_runs p s s' be :
  run p s = (true, s') -> rtc step (mkSystem s (Running p) be) (mkSystem s' Waiting be).
Proof.
  revert s. induction p as [b|X f k IH]; intros s Hr; simpl in Hr.
  - simplify_eq. apply rtc_once, frontend_loops.
  - destruct (f s) as [x s1] eqn:E. eapply rtc_l; [apply frontend_acts|].
    rewrite E. by apply IH.
Qed.

Lemma reachable_frontend s s' be msg :
  framed msg -> run (frontendMessage msg) s = (true, s') ->
  reachable (mkSystem s Waiting be) -> reachable (mkSystem s' Waiting be).
Proof.
  intros Hf Hr (y0 & Hi & Hs). exists y0. split; [done|].
  etrans; [exact Hs|]. eapply rtc_l; [by apply frontend_reads|].
  by apply frontend_runs.
Qed.

Lemma reachable_started s : started s -> reachable (mkSystem s Waiting Waiting).
Proof. intros Hs. exists (mkSystem s Waiting Waiting). split; [done | apply rtc_refl]. Qed.
