(* ===== verification/Firewall.v ===== *)
(** * What reaches the upstream

    Every chunk a session writes to the upstream, whatever the two goroutines
    do in between, is accounted for: it is the client's own message, and then no
    text in it was rejected; or an equivalent of one that was not; or one of the
    emulator's own statements. *)

From Stdlib Require Import Ascii String Strings.Byte.
From stdpp Require Import base numbers strings gmap list.
From S2P Require Import Prelude GoStd Kind Txn Proto Ruleset Occ Wire Rewrite Proc State Session System Samples.

Local Open Scope Z_scope.
Local Open Scope proc_scope.

Create HintDb guarded.

Section firewall.
Context {PG : PgQuery} {PP : PgProto} {SC : StatementClassifier} {CF : Config}.

(** ** What is permitted *)

(** A text the classifier does not reject. *)
Definition not_rejected (async : bool) (sql : string) : Prop :=
  forall r, classify async sql = Some r -> Rejected (verdict r) = false.

(** A text as the client wrote it: judged without its ASYNC keywords, if it
    carries any. *)
Definition text_allowed (sql : string) : Prop :=
  match stripAsync sql with
  | Some (Some (rewritten, _)) => not_rejected true rewritten
  | _ => not_rejected false sql
  end.

Definition message_text (m : FrontendMessage) : option string :=
  match m with
  | Query sql => Some sql
  | Parse _ sql _ => Some sql
  | _ => None
  end.

(** A client's message as it was framed, by the SQL text it carries. *)
Definition message_allowed (msg : Message) : Prop :=
  framed msg /\ forall m sql, DecodeFrontend (Type_ msg) (Body msg) = Decoded m ->
    message_text m = Some sql -> text_allowed sql.

Definition own_statements : list bytes :=
  [abortTransactionQuery; rollbackQuery; savepointQuery; rollbackToQuery; restartQuery].

(** The intent of a text that was let through, or of what it was rewritten to. *)
Definition intent_allowed (i : Intent) : Prop :=
  exists sql, Analyze sql = Some i /\
    (text_allowed sql \/ exists client_sql show, text_allowed client_sql /\
                           rewrite_of client_sql = Some (sql, show)).

Inductive permitted : bytes -> Prop :=
| permitted_message msg : message_allowed msg -> permitted (Raw msg)
| permitted_rewritten sql text show m :
    text_allowed sql -> rewrite_of sql = Some (text, show) -> message_text m = Some text ->
    permitted (fe_encode m).1
| permitted_async sql rewritten stmt id m :
    stripAsync sql = Some (Some (rewritten, stmt)) -> not_rejected true rewritten ->
    message_text m = Some (jobMarker id +:+ rewritten) ->
    permitted (fe_encode m).1
| permitted_own b : b ∈ own_statements -> permitted b
| permitted_simple_shadow i : intent_allowed i -> permitted (simpleQuery (Shadow i))
| permitted_extended_shadow i values pfs rfs :
    intent_allowed i -> permitted (extendedQuery (Shadow i) values pfs rfs).

(** ** The invariant *)

Definition flight_allowed (f : option inFlight) : Prop :=
  match f with Some f => intent_allowed (intent f) | None => True end.

Definition exchange_allowed (h : hiddenExchange) : Prop :=
  match h with
  | SavepointExchange _ => True
  | RestoreExchange _ r | CountExchange _ _ r | RowsetExchange _ r => intent_allowed (intent r)
  end.

Definition info_allowed (info : statementInfo) : Prop :=
  match infoIntent info with Some i => intent_allowed i | None => True end.

(** A failure sends a statement of the emulator's own and is over after one or
    two ReadyForQuery messages. *)
Definition failure_ok (f : txnFailure) : Prop :=
  statement f ∈ own_statements /\ 1 <= swallow f <= 2.

Definition failure_allowed (f : option txnFailure) : Prop :=
  match f with Some f => failure_ok f | None => True end.

(** A failure being injected has not had all its answers yet. *)
Definition failure_counted (f : option txnFailure) (rfqs : Z) : Prop :=
  match f with Some f => failure_ok f /\ 0 <= rfqs < swallow f | None => True end.

(** The exchange being run is one of those begun. *)
Definition exchange_exists (h : option nat) (hs : list hiddenExchange) : Prop :=
  match h with Some p => (p < length hs)%nat | None => True end.

(** The connection is opened by the rewritten startup message, and everything
    after it is permitted. *)
Definition upstream_allowed (chunks : list bytes) : Prop :=
  exists startup rest,
    chunks = RewriteStartup startup startup_params startup_options :: rest /\ Forall permitted rest.

Record firewall (s : session) : Prop := mkFirewall {
  fw_upstream : upstream_allowed (written (upstream s));
  fw_flight : flight_allowed (occInFlight s);
  fw_repair : flight_allowed (occRepair s);
  fw_exchanges : Forall exchange_allowed (exchanges s);
  fw_statements : map_Forall (fun _ info => info_allowed info) (statements_ s);
  fw_pending : failure_allowed (pendingFailure s);
  fw_failure : failure_counted (failure s) (failureRFQs s);
  fw_hidden : exchange_exists (hidden s) (exchanges s);
}.

Abbreviation guarded p := (safe firewall p (fun _ => True)) (only parsing).

(** A change to the fields the invariant does not speak of. *)
Lemma firewall_frame s s' :
  upstream s' = upstream s -> occInFlight s' = occInFlight s -> occRepair s' = occRepair s ->
  exchanges s' = exchanges s -> statements_ s' = statements_ s ->
  pendingFailure s' = pendingFailure s -> failure s' = failure s -> failureRFQs s' = failureRFQs s ->
  hidden s' = hidden s -> firewall s -> firewall s'.
Proof.
  intros E1 E2 E3 E4 E5 E6 E7 E8 E9 []. constructor; by rewrite ?E1, ?E2, ?E3, ?E4, ?E5, ?E6, ?E7, ?E8, ?E9.
Qed.

Lemma guarded_frame (f : session -> session) :
  (forall s, upstream (f s) = upstream s /\ occInFlight (f s) = occInFlight s /\
     occRepair (f s) = occRepair s /\ exchanges (f s) = exchanges s /\
     statements_ (f s) = statements_ s /\ pendingFailure (f s) = pendingFailure s /\
     failure (f s) = failure s /\ failureRFQs (f s) = failureRFQs s /\ hidden (f s) = hidden s) ->
  guarded (modify f).
Proof.
  intros H. apply safe_modify. intros s Hs. destruct (H s) as (?&?&?&?&?&?&?&?&?).
  by apply (firewall_frame s).
Qed.

Lemma guarded_get {X} (f : session -> X) : guarded (get f).
Proof. by apply safe_get. Qed.

Lemma guarded_bind {A B} (p : proc session A) (q : A -> proc session B) :
  guarded p -> (forall a, guarded (q a)) -> guarded (bind p q).
Proof. intros Hp Hq. eapply safe_bind; [exact Hp | auto]. Qed.

Lemma guarded_when b p : guarded p -> guarded (when b p).
Proof. by destruct b. Qed.

(** ** The steps *)

Lemma guarded_writeClient b : guarded (writeClient b).
Proof.
  apply safe_locked. intros s Hs. split; [|done]. destruct (conn_write b (client s)) as [ok c].
  by apply (firewall_frame s).
Qed.

Lemma guarded_tellClient b : guarded (tellClient b).
Proof. apply guarded_bind; [apply guarded_writeClient | done]. Qed.

Lemma guarded_writeUpstream b : permitted b -> guarded (writeUpstream b).
Proof.
  intros Hb. apply safe_locked. intros s [Hu]. unfold conn_write.
  destruct (closed_ (upstream s)) eqn:Hc; (split; [|done]); constructor; simpl; try done.
  destruct Hu as (startup & rest & -> & Hrest). exists startup, (rest ++ [b]). split; [done|].
  apply Forall_app. split; [done|]. by apply Forall_singleton.
Qed.

Lemma guarded_close : guarded close.
Proof.
  apply guarded_bind; [by apply guarded_frame|]. intros _.
  apply safe_modify. intros s []. by constructor.
Qed.

Lemma guarded_panic : guarded panic.
Proof. apply safe_modify. intros s []. by constructor. Qed.

Lemma guarded_beginExchange : guarded beginExchange.
Proof. by apply guarded_frame. Qed.

Lemma guarded_endExchange : guarded endExchange.
Proof. apply guarded_frame. intros s. by case_match. Qed.

Lemma guarded_writeUpstreamExchange b : permitted b -> guarded (writeUpstreamExchange b).
Proof.
  intros Hb. apply guarded_bind; [apply guarded_beginExchange|]. intros _.
  by apply guarded_writeUpstream.
Qed.

Lemma guarded_noteBatchState t : guarded (noteBatchState t).
Proof. unfold noteBatchState. repeat case_match; try done; by apply guarded_frame. Qed.


Lemma guarded_skip : guarded skip.
Proof. done. Qed.

Lemma guarded_ret {A} (a : A) : guarded (Ret a).
Proof. done. Qed.

Lemma guarded_forward msg : message_allowed msg -> guarded (forward msg).
Proof.
  intros Hm. apply guarded_bind; [apply guarded_when, guarded_beginExchange|]. intros _.
  apply guarded_bind; [by apply guarded_writeUpstream, permitted_message|].
  intros ok. apply guarded_when, guarded_close.
Qed.

Hint Resolve guarded_skip guarded_ret guarded_get guarded_writeClient guarded_tellClient guarded_writeUpstream
  guarded_close guarded_panic guarded_beginExchange guarded_endExchange guarded_writeUpstreamExchange
  guarded_noteBatchState guarded_forward guarded_bind guarded_when : guarded.

(** Follow a handler's structure to its steps. *)
Ltac follow :=
  repeat first
    [ solve [eauto 4 with guarded]
    | match goal with
      | |- safe _ (bind _ _) _ => apply guarded_bind; [|intros ?]
      | |- safe _ (when _ _) _ => apply guarded_when
      | |- safe _ (modify _) _ => apply guarded_frame; intros ?; solve [repeat case_match; done]
      | |- safe _ (match ?x with _ => _ end) _ => destruct x eqn:?
      end ].

(** ** Failures *)

Lemma own_abort : abortTransactionQuery ∈ own_statements.
Proof. left. Qed.
Lemma own_rollback : rollbackQuery ∈ own_statements.
Proof. right. left. Qed.

Lemma guarded_sendError c m : guarded (sendError c m).
Proof. unfold sendError. follow. Qed.

Lemma guarded_beginFailure f : failure_ok f -> guarded (beginFailure f).
Proof.
  intros Hf. unfold beginFailure. apply guarded_bind.
  - apply safe_modify. intros s []. constructor; try done. simpl. destruct Hf. split_and!; done || lia.
  - intros _. follow. by apply guarded_writeUpstreamExchange, permitted_own, Hf.
Qed.

Lemma guarded_deferFailure f : failure_ok f -> guarded (deferFailure f).
Proof. intros Hf. apply safe_modify. intros s []. by constructor. Qed.

Lemma guarded_failTxn stmt st ext : stmt ∈ own_statements -> guarded (failTxn stmt st ext).
Proof.
  intros Hs. unfold failTxn. destruct ext; [apply guarded_deferFailure | apply guarded_beginFailure];
    (split; [done | simpl; lia]).
Qed.

Lemma abort_ok : failure_ok (mkFailure abortTransactionQuery "E" 1).
Proof. split; [left | simpl; lia]. Qed.

Hint Resolve own_abort own_rollback abort_ok guarded_sendError guarded_beginFailure guarded_failTxn : guarded.

Lemma guarded_reject c m ext : guarded (reject c m ext).
Proof. unfold reject. follow. Qed.

Lemma guarded_rejectFailed ext : guarded (rejectFailed ext).
Proof. unfold rejectFailed. follow. Qed.

Lemma guarded_locked_frame {X} (f : session -> X * session) :
  (forall s, upstream (f s).2 = upstream s /\ occInFlight (f s).2 = occInFlight s /\
     occRepair (f s).2 = occRepair s /\ exchanges (f s).2 = exchanges s /\
     statements_ (f s).2 = statements_ s /\ pendingFailure (f s).2 = pendingFailure s /\
     failure (f s).2 = failure s /\ failureRFQs (f s).2 = failureRFQs s /\ hidden (f s).2 = hidden s) ->
  guarded (locked f).
Proof.
  intros H. apply safe_locked. intros s Hs. split; [|done]. destruct (H s) as (?&?&?&?&?&?&?&?&?).
  by apply (firewall_frame s).
Qed.

Lemma guarded_consumeFailureMessage msg : guarded (consumeFailureMessage msg).
Proof.
  unfold consumeFailureMessage. follow.
  apply safe_locked. intros s []. split; [|done]. unfold count_failure. destruct (failure s) as [f|] eqn:Hf.
  - simpl in fw_failure0. destruct fw_failure0 as [Hok Hn]. destruct Hok as [Hst Hsw].
    rewrite (int64_small (failureRFQs s + 1)) by lia.
    destruct (Z.leb_spec (swallow f) (failureRFQs s + 1)); constructor; try done. simpl. rewrite Hf.
    split; [done | lia].
  - constructor; try done. simpl. by rewrite Hf.
Qed.

Lemma guarded_addOccTables ts : guarded (addOccTables ts).
Proof. unfold addOccTables. follow. Qed.

Lemma guarded_resetOcc : guarded resetOcc.
Proof. apply safe_modify. intros s []. by constructor. Qed.

Hint Resolve guarded_reject guarded_rejectFailed guarded_consumeFailureMessage guarded_addOccTables
  guarded_resetOcc : guarded.

Lemma guarded_commit_fails : guarded commit_fails.
Proof.
  unfold commit_fails, occCommitConflict. follow.
  apply guarded_locked_frame. intros s. unfold commit_conflict. by destruct (inject_from _ _ _ _).
Qed.

Lemma guarded_occFailure ext : guarded (occFailure ext).
Proof. unfold occFailure. follow. Qed.

Lemma guarded_rewriteConflictError msg : guarded (rewriteConflictError msg).
Proof. unfold rewriteConflictError. follow. Qed.

Lemma guarded_admit kinds : guarded (admitBatch kinds).
Proof. apply guarded_locked_frame. intros s. by destruct (Admit _ _ _). Qed.

Hint Resolve guarded_commit_fails guarded_occFailure guarded_rewriteConflictError guarded_admit : guarded.

Lemma guarded_endAborted : guarded endAborted.
Proof. unfold endAborted. follow. Qed.

Lemma guarded_countTxnStatement kinds : guarded (countTxnStatement kinds).
Proof. unfold countTxnStatement. follow. Qed.

Lemma guarded_noteTxStatus st : guarded (noteTxStatus st).
Proof. unfold noteTxStatus. follow. apply safe_modify. intros s []. by constructor. Qed.

Hint Resolve guarded_endAborted guarded_countTxnStatement guarded_noteTxStatus : guarded.

(** ** The adjudicator *)

Lemma guarded_setHidden h : exchange_allowed h -> guarded (setHidden h).
Proof.
  intros Hh. apply safe_modify. intros s []. constructor; simpl; try done.
  - apply Forall_app. split; [done|]. by apply Forall_singleton.
  - rewrite length_app. simpl. lia.
Qed.

Lemma guarded_clearHidden : guarded (modify (set_hidden None)).
Proof. apply safe_modify. intros s []. by constructor. Qed.

Lemma guarded_set_exchange p h : exchange_allowed h -> guarded (set_exchange p h).
Proof.
  intros Hh. apply safe_modify. intros s []. constructor; simpl; try done.
  - by apply Forall_insert.
  - unfold exchange_exists in *. destruct (hidden s); [|done]. by rewrite length_insert.
Qed.

Lemma own_savepoint : savepointQuery ∈ own_statements.
Proof. unfold own_statements. set_solver. Qed.
Lemma own_rollback_to : rollbackToQuery ∈ own_statements.
Proof. unfold own_statements. set_solver. Qed.
Lemma own_restart : restartQuery ∈ own_statements.
Proof. unfold own_statements. set_solver. Qed.

Hint Resolve own_savepoint own_rollback_to own_restart permitted_own
  guarded_setHidden guarded_clearHidden guarded_set_exchange : guarded.

Lemma guarded_establishSavepoint : guarded establishSavepoint.
Proof.
  unfold establishSavepoint. follow.
  - apply guarded_locked_frame. intros s. unfold claim_savepoint. repeat case_match; done.
  - by apply guarded_setHidden.
Qed.

Hint Resolve guarded_establishSavepoint : guarded.

Lemma guarded_savepointReady bind : guarded (savepointReady bind).
Proof. unfold savepointReady. follow. Qed.

Lemma guarded_setInFlight i bind :
  (forall i', i = Some i' -> intent_allowed i') -> guarded (setInFlight i bind).
Proof.
  intros Hi. apply safe_modify. intros s []. constructor; simpl; try done.
  unfold flight_of. destruct i as [i|]; [|done]. specialize (Hi i eq_refl).
  repeat case_match; simplify_eq; done.
Qed.

Lemma guarded_armAdjudicator i bind :
  (forall i', i = Some i' -> intent_allowed i') -> guarded (armAdjudicator i bind).
Proof.
  intros Hi. unfold armAdjudicator. destruct i; [|by apply guarded_setInFlight].
  apply guarded_bind; [apply guarded_savepointReady|]. intros _. by apply guarded_setInFlight.
Qed.

Lemma guarded_take_over inTxn : guarded (locked (take_over inTxn)).
Proof.
  apply safe_locked. intros s []. split; [|done]. unfold take_over.
  case_match; constructor; done.
Qed.

Lemma guarded_occIntercept msg : guarded (occIntercept msg).
Proof. unfold occIntercept. follow. apply guarded_take_over. Qed.

Lemma guarded_completeRepair repair rows : guarded (completeRepair repair rows).
Proof. unfold completeRepair. follow. Qed.

Lemma guarded_failRepair : guarded failRepair.
Proof. unfold failRepair. follow. Qed.

Hint Resolve guarded_occIntercept guarded_completeRepair guarded_failRepair : guarded.

Lemma guarded_writeShadow b : permitted b -> guarded (writeShadow b).
Proof. intros Hb. unfold writeShadow. follow. Qed.

Lemma guarded_runShadow repair : intent_allowed (intent repair) -> guarded (runShadow repair).
Proof.
  intros Hi. unfold runShadow, runRowsetShadow, runCountShadow. follow.
  - apply guarded_writeShadow. case_match; [by apply permitted_extended_shadow | by apply permitted_simple_shadow].
  - apply guarded_writeShadow. case_match; [by apply permitted_simple_shadow | by apply permitted_extended_shadow].
Qed.

Lemma guarded_startRepair : guarded startRepair.
Proof.
  unfold startRepair. eapply (safe_bind _ _ _ flight_allowed).
  { apply safe_locked. intros s Hs. unfold take_repair. destruct (occRepair s) eqn:E; [|done].
    destruct Hs. rewrite E in *. split; [by constructor | done]. }
  intros [repair|] Hr; [|done]. simpl in Hr.
  eapply (safe_bind _ _ _ (fun b => permitted b)).
  { apply safe_locked. intros s Hs. unfold restore_statement.
    case_match; simpl; (split; [|by apply permitted_own; auto with guarded]); [done|].
    by apply (firewall_frame s). }
  intros restore Hp. follow.
Qed.

Lemma guarded_lookup {A} p (q : option hiddenExchange -> proc session A) :
  (forall h, exchange_allowed h -> guarded (q (Some h))) -> guarded (q None) ->
  guarded (bind (get (fun s => exchanges s !! p)) q).
Proof.
  intros Hq Hn. eapply (safe_bind _ _ _ (fun h => forall h', h = Some h' -> exchange_allowed h')).
  { apply safe_get. intros s [] h' Hh. by eapply Forall_lookup_1. }
  intros [h|] Hh; [by apply Hq, Hh | done].
Qed.

Lemma guarded_consume p msg : guarded (consume p msg).
Proof.
  unfold consume. apply guarded_lookup; [|done]. intros h Hh.
  destruct h; simpl in Hh; follow; by apply guarded_set_exchange.
Qed.

Lemma guarded_finish p : guarded (finish p).
Proof.
  unfold finish. apply guarded_lookup; [|done]. intros h Hh.
  destruct h; simpl in Hh; follow; by apply guarded_runShadow.
Qed.

Hint Resolve guarded_consume guarded_finish guarded_startRepair : guarded.

Lemma guarded_consumeHidden msg : guarded (consumeHidden msg).
Proof. unfold consumeHidden. follow. Qed.


Hint Resolve guarded_consumeHidden : guarded.

(** ** The pumps *)

Lemma guarded_backendMessage msg : guarded (backendMessage msg).
Proof.
  unfold backendMessage, backendRowless, backendError, backendStatus, backendReady, backendComplete,
    passOn, repairPending, rewriteParameterStatus, rewriteCommandTag, spliceJob, markJobDescribed,
    claimJob, takeJob.
  follow; apply guarded_locked_frame; intros s;
    [repeat case_match; done | done | unfold claim_job; repeat case_match; done].
Qed.

Lemma message_allowed_other msg :
  framed msg -> is_tag msg "Q" = false -> is_tag msg "P" = false -> message_allowed msg.
Proof.
  unfold is_tag. intros Hf HQ HP. split; [done|]. intros m sql Hd Ht. exfalso. revert Hd.
  unfold DecodeFrontend. destruct (frontend_type (Type_ msg)) as [ty|] eqn:Hty; [|done].
  destruct (fe_decode ty (Body msg)) as [m'|] eqn:Hm; [|done]. intros [= ->].
  apply fe_decode_type in Hm. unfold frontend_type in Hty. rewrite HQ, HP in Hty.
  repeat (case_match; simplify_eq; [by destruct m|]). case_match; simplify_eq. by destruct m.
Qed.

Lemma guarded_handleSync msg : message_allowed msg -> guarded (handleSync msg).
Proof.
  intros Hm. unfold handleSync. eapply (safe_bind _ _ _ failure_allowed).
  { apply safe_locked. intros s []. by repeat constructor. }
  intros pending Hp. follow.
Qed.

Lemma guarded_set_statement name info : info_allowed info -> guarded (set_statement name info).
Proof.
  intros Hi. apply safe_modify. intros s []. constructor; simpl; try done. by apply map_Forall_insert_2.
Qed.

Lemma guarded_delete_statement name : guarded (delete_statement name).
Proof. apply safe_modify. intros s []. constructor; simpl; try done. by apply map_Forall_delete. Qed.

Hint Resolve guarded_handleSync guarded_set_statement guarded_delete_statement : guarded.

Lemma guarded_handleClose msg : message_allowed msg -> guarded (handleClose msg).
Proof. intros Hm. unfold handleClose. follow. Qed.

(** *** Asynchronous jobs *)

Lemma guarded_sendAsyncJob msg m rewritten stmt kinds sql k :
  (text_allowed sql -> message_allowed msg) -> message_text m = Some sql -> stripAsync sql = Some (Some (rewritten, k)) ->
  not_rejected true rewritten -> guarded (sendAsyncJob msg m rewritten stmt kinds).
Proof.
  intros Hm Ht Hs Hr. assert (Ha : text_allowed sql) by (unfold text_allowed; by rewrite Hs).
  specialize (Hm Ha). unfold sendAsyncJob, drawJobID. apply guarded_bind.
  { by apply guarded_locked_frame. }
  intros id. assert (Hp : permitted (fe_encode (with_text m (jobMarker id +:+ rewritten))).1).
  { eapply permitted_async; [done..|]. by destruct m. }
  destruct (fe_encode _) as [encoded []]; simpl in Hp; follow;
    by apply guarded_set_statement.
Qed.

Lemma guarded_forwardAsyncJob msg m rewritten stmt ext sql k :
  (text_allowed sql -> message_allowed msg) -> message_text m = Some sql -> stripAsync sql = Some (Some (rewritten, k)) ->
  guarded (forwardAsyncJob msg m rewritten stmt ext).
Proof.
  intros Hm Ht Hs. unfold forwardAsyncJob, admitAsyncJob, aborted. apply guarded_bind; [apply guarded_get|].
  intros failed. destruct failed; [apply guarded_rejectFailed|].
  assert (Hsend : not_rejected true rewritten ->
            forall kinds, guarded (sendAsyncJob msg m rewritten stmt kinds)).
  { intros Hr kinds. by eapply guarded_sendAsyncJob. }
  destruct (classify true rewritten) as [r|] eqn:Hc; [destruct (Rejected (verdict r)) eqn:Hr|].
  - apply guarded_reject.
  - assert (Hn : not_rejected true rewritten) by (intros r' ?; congruence).
    specialize (Hsend Hn). follow.
  - assert (Hn : not_rejected true rewritten) by (intros r' ?; congruence).
    specialize (Hsend Hn). follow.
Qed.


Hint Resolve guarded_forwardAsyncJob guarded_handleClose : guarded.

(** *** Queries, statements and their execution *)

Lemma guarded_afterAdmit kinds tables i bind ext :
  (forall i', i = Some i' -> intent_allowed i') -> guarded (afterAdmit kinds tables i bind ext).
Proof.
  intros Hi. unfold afterAdmit. follow. by apply guarded_armAdjudicator.
Qed.

Lemma rewriteSQL_safe sql :
  safe firewall (rewriteSQL sql) (fun o => forall text, o = Some text -> exists show, rewrite_of sql = Some (text, show)).
Proof.
  unfold rewriteSQL. destruct (rewrite_of sql) as [[text show]|] eqn:E; [|done].
  eapply (safe_bind _ _ _ (fun _ => True)).
  - destruct show; [by apply guarded_frame | done].
  - intros _ _. simpl. intros text' [= <-]. by exists show.
Qed.

Lemma guarded_rewriteSQL {A} sql (q : option string -> proc session A) :
  guarded (q None) ->
  (forall text show, rewrite_of sql = Some (text, show) -> guarded (q (Some text))) ->
  guarded (bind (rewriteSQL sql) q).
Proof.
  intros Hn Hs. eapply safe_bind; [apply rewriteSQL_safe|].
  intros [text|] H; [|done]. destruct (H text eq_refl) as [show Hr]. by eapply Hs.
Qed.

(** What is known of a text whose keywords were looked for and not found, and
    that was classified. *)
Lemma text_allowed_plain sql :
  stripAsync sql = Some None -> not_rejected false sql -> text_allowed sql.
Proof. unfold text_allowed. by intros ->. Qed.

Lemma text_message_allowed msg m sql :
  framed msg -> DecodeFrontend (Type_ msg) (Body msg) = Decoded m -> message_text m = Some sql ->
  text_allowed sql -> message_allowed msg.
Proof. intros Hf Hd Ht Ha. split; [done|]. intros m' sql' Hd' Ht'. congruence. Qed.

Lemma undecoded_allowed msg :
  framed msg -> (forall m, DecodeFrontend (Type_ msg) (Body msg) = Decoded m -> message_text m = None) ->
  message_allowed msg.
Proof. intros Hf Hn. split; [done|]. intros m sql Hd Ht. rewrite (Hn m Hd) in Ht. done. Qed.

Lemma guarded_sendQuery msg sql :
  message_allowed msg -> text_allowed sql -> guarded (sendQuery msg sql).
Proof.
  intros Hm Ha. unfold sendQuery. apply guarded_rewriteSQL; [by apply guarded_forward|].
  intros text show Hr.
  assert (Hp : permitted (fe_encode (Query text)).1) by (by eapply permitted_rewritten).
  destruct (fe_encode (Query text)) as [encoded []]; simpl in Hp; follow.
Qed.

Lemma analyze_allowed sql i : text_allowed sql -> Analyze sql = Some i -> intent_allowed i.
Proof. intros Ha Hi. exists sql. auto. Qed.

(** A text that ends a transaction was not rejected: a rejected one has no kinds. *)
Lemma ends_not_rejected async sql r :
  classify async sql = Some r -> endsTransaction (Kinds r) = true -> not_rejected async sql.
Proof.
  intros Hc He r' Hc'. assert (r' = r) as -> by congruence.
  destruct (Rejected (verdict r)) eqn:Hr; [|done].
  by rewrite (rejected_never_ends _ _ _ Hc Hr) in He.
Qed.

Lemma is_tag_eq msg t : is_tag msg t = true -> Type_ msg = t.
Proof. apply Byte.byte_dec_bl. Qed.

Lemma decoded_type msg m :
  DecodeFrontend (Type_ msg) (Body msg) = Decoded m -> frontend_type (Type_ msg) = Some (type_of m).
Proof.
  unfold DecodeFrontend. destruct (frontend_type _) as [ty|]; [|done].
  destruct (fe_decode ty (Body msg)) as [m'|] eqn:Hm; [|done]. intros [= ->].
  by apply fe_decode_type in Hm as ->.
Qed.

Lemma decoded_query msg m :
  is_tag msg "Q" = true -> DecodeFrontend (Type_ msg) (Body msg) = Decoded m -> exists sql, m = Query sql.
Proof.
  intros Ht%is_tag_eq Hd%decoded_type. rewrite Ht in Hd. destruct m; try done. by eexists.
Qed.

Lemma decoded_parse msg m :
  is_tag msg "P" = true -> DecodeFrontend (Type_ msg) (Body msg) = Decoded m ->
  exists name sql oids, m = Parse name sql oids.
Proof.
  intros Ht%is_tag_eq Hd%decoded_type. rewrite Ht in Hd. destruct m; try done. by eexists _, _, _.
Qed.

Lemma classified_not_rejected async sql r :
  classify async sql = Some r -> Rejected (verdict r) = false -> not_rejected async sql.
Proof. intros Hc Hr r' Hc'. congruence. Qed.

Lemma unclassified_not_rejected async sql : classify async sql = None -> not_rejected async sql.
Proof. intros Hc r Hr. congruence. Qed.

Lemma text_ends_not_rejected sql : text_ends_transaction sql = true -> not_rejected false sql.
Proof.
  unfold text_ends_transaction. destruct (classify false sql) as [r|] eqn:Hc; [|done].
  intros He. by eapply ends_not_rejected.
Qed.

(** The cases a text is let through in. *)
Lemma plain_classified sql r :
  stripAsync sql = Some None -> classify false sql = Some r -> Rejected (verdict r) = false ->
  text_allowed sql.
Proof. intros Hs Hc Hr. apply text_allowed_plain; [done|]. by eapply classified_not_rejected. Qed.

Lemma plain_unclassified sql :
  stripAsync sql = Some None -> classify false sql = None -> text_allowed sql.
Proof. intros Hs Hc. apply text_allowed_plain; [done|]. by apply unclassified_not_rejected. Qed.

Lemma guarded_queryClassified msg sql r :
  (text_allowed sql -> message_allowed msg) -> stripAsync sql = Some None ->
  classify false sql = Some r -> guarded (queryClassified msg sql r).
Proof.
  intros Hm Hs Hc. unfold queryClassified. destruct (Rejected (verdict r)) eqn:Hr; [follow|].
  pose proof (plain_classified sql r Hs Hc Hr) as Ha. specialize (Hm Ha). follow.
  - apply guarded_afterAdmit. intros i Hi. by eapply analyze_allowed.
  - by apply guarded_sendQuery.
Qed.

Lemma guarded_handleQuery msg : framed msg -> is_tag msg "Q" = true -> guarded (handleQuery msg).
Proof.
  intros Hf Hq. unfold handleQuery. destruct (DecodeFrontend _ _) as [|m|] eqn:Hd.
  1, 3: apply guarded_forward, undecoded_allowed; [done | congruence].
  destruct (decoded_query msg m Hq Hd) as [sql ->].
  assert (Hm : text_allowed sql -> message_allowed msg) by (intros; by eapply text_message_allowed).
  destruct (stripAsync sql) as [[[rewritten stmt]|]|] eqn:Hs; [| |apply guarded_panic].
  { by eapply guarded_forwardAsyncJob. }
  apply guarded_bind; [apply guarded_get|]. intros failed. destruct failed.
  - unfold queryAborted. destruct (text_ends_transaction sql) eqn:He; [|apply guarded_rejectFailed].
    apply guarded_bind; [apply guarded_endAborted|]. intros _.
    apply guarded_forward, Hm, text_allowed_plain; [done|]. by apply text_ends_not_rejected.
  - destruct (classify false sql) as [r|] eqn:Hc; [by apply guarded_queryClassified|].
    apply guarded_forward, Hm. by apply plain_unclassified.
Qed.

Lemma guarded_parseRemembered msg name sql r :
  message_allowed msg -> (forall i, Analyze sql = Some i -> intent_allowed i) ->
  guarded (parseRemembered msg name sql r).
Proof.
  intros Hm Hi. unfold parseRemembered. destruct (Analyze sql) as [i|] eqn:Ha; follow;
    apply guarded_set_statement; unfold info_allowed; simpl; auto.
Qed.

Lemma guarded_parseClassified msg name sql oids r :
  (text_allowed sql -> message_allowed msg) -> stripAsync sql = Some None ->
  classify false sql = Some r -> guarded (parseClassified msg name sql oids r).
Proof.
  intros Hm Hs Hc. unfold parseClassified. destruct (Rejected (verdict r)) eqn:Hr; [follow|].
  pose proof (plain_classified sql r Hs Hc Hr) as Ha. specialize (Hm Ha).
  apply guarded_rewriteSQL.
  { apply guarded_parseRemembered; [done|]. intros i. by apply analyze_allowed. }
  intros text show Hw.
  assert (Hp : permitted (fe_encode (Parse name text oids)).1) by (by eapply permitted_rewritten).
  destruct (fe_encode (Parse name text oids)) as [encoded []]; simpl in Hp.
  - apply guarded_parseRemembered; [done|]. intros i Hi. exists text. split; [done|]. right. by exists sql, show.
  - follow. by apply guarded_set_statement.
Qed.

Lemma guarded_handleParse msg : framed msg -> is_tag msg "P" = true -> guarded (handleParse msg).
Proof.
  intros Hf Hq. unfold handleParse. destruct (DecodeFrontend _ _) as [|m|] eqn:Hd.
  1, 3: apply guarded_forward, undecoded_allowed; [done | congruence].
  destruct (decoded_parse msg m Hq Hd) as (name & sql & oids & ->).
  assert (Hm : text_allowed sql -> message_allowed msg) by (intros; by eapply text_message_allowed).
  destruct (stripAsync sql) as [[[rewritten stmt]|]|] eqn:Hs; [| |apply guarded_panic].
  { by eapply guarded_forwardAsyncJob. }
  apply guarded_bind; [apply guarded_get|]. intros failed. destruct failed.
  - unfold parseAborted. destruct (classify false sql) as [r|] eqn:Hc; [|apply guarded_rejectFailed].
    destruct (endsTransaction (Kinds r)) eqn:He; [|apply guarded_rejectFailed].
    assert (Ha : text_allowed sql).
    { apply text_allowed_plain; [done|]. by eapply ends_not_rejected. }
    specialize (Hm Ha). follow. by apply guarded_set_statement.
  - destruct (classify false sql) as [r|] eqn:Hc; [by apply guarded_parseClassified|].
    specialize (Hm (plain_unclassified sql Hs Hc)). follow.
Qed.

Lemma guarded_bindKnown msg bind info :
  message_allowed msg -> info_allowed info -> guarded (bindKnown msg bind info).
Proof.
  intros Hm Hi. unfold bindKnown, aborted, restoreJob. follow.
  apply guarded_afterAdmit. intros i E. unfold info_allowed in Hi. by rewrite E in Hi.
Qed.

Lemma guarded_handleBind msg : message_allowed msg -> guarded (handleBind msg).
Proof.
  intros Hm. unfold handleBind. destruct (DecodeFrontend _ _) as [|m|]; [follow| |follow].
  destruct m; try (by apply guarded_forward).
  eapply (safe_bind _ _ _ (fun o => forall info, o = Some info -> info_allowed info)).
  { apply safe_get. intros s [] info Hl. by eapply (map_Forall_lookup_1 _ _ _ _ fw_statements0). }
  intros [info|] Hinfo; [|by apply guarded_forward]. by apply guarded_bindKnown, Hinfo.
Qed.

Hint Resolve guarded_handleQuery guarded_handleParse guarded_handleBind : guarded.

Lemma tag_excludes msg t t' : is_tag msg t = true -> Byte.eqb t t' = false -> is_tag msg t' = false.
Proof. intros Ht%is_tag_eq He. unfold is_tag. by rewrite Ht. Qed.

Lemma guarded_frontendMessage msg : framed msg -> guarded (frontendMessage msg).
Proof.
  intros Hf. unfold frontendMessage. apply guarded_bind; [by apply guarded_frame|]. intros _.
  destruct (is_tag msg "Q") eqn:HQ; [|destruct (is_tag msg "P") eqn:HP].
  - rewrite (tag_excludes msg "Q" "X" HQ eq_refl), (tag_excludes msg "Q" "S" HQ eq_refl). cbv iota.
    apply guarded_bind; [apply guarded_get|]. intros []; [done|]. follow.
  - rewrite (tag_excludes msg "P" "X" HP eq_refl), (tag_excludes msg "P" "S" HP eq_refl). cbv iota.
    apply guarded_bind; [apply guarded_get|]. intros []; [done|]. follow.
  - pose proof (message_allowed_other msg Hf HQ HP) as Hm.
    assert (Hp : permitted (Raw msg)) by by apply permitted_message. follow.
Qed.

(** ** The theorem *)

(** A session nothing was sent for yet. *)
Record fresh (s : session) : Prop := mkFresh {
  fr_upstream : written (upstream s) = [];
  fr_flight : occInFlight s = None;
  fr_repair : occRepair s = None;
  fr_exchanges : exchanges s = [];
  fr_statements : statements_ s = ∅;
  fr_pending : pendingFailure s = None;
  fr_failure : failure s = None;
  fr_hidden : hidden s = None;
}.

Lemma conn_write_closed b c : (conn_write b c).1 = false -> (conn_write b c).2 = c.
Proof. unfold conn_write. by destruct (closed_ c). Qed.

Lemma fresh_client c s : fresh s -> fresh (set_client c s).
Proof. by intros []. Qed.

Lemma fresh_count n s : fresh s -> fresh (set_fromClient n s).
Proof. by intros []. Qed.

Lemma fresh_opens startup s :
  fresh s -> (conn_write (RewriteStartup startup startup_params startup_options) (upstream s)).1 = true ->
  firewall (set_upstream
    (conn_write (RewriteStartup startup startup_params startup_options) (upstream s)).2 s).
Proof.
  unfold conn_write. intros [Hu Hf Hr He Hs Hp Hfa Hhi] Hok.
  destruct (closed_ (upstream s)); [done|]. simpl. constructor; simpl.
  - rewrite Hu. by exists startup, [].
  - by rewrite Hf.
  - by rewrite Hr.
  - rewrite He. constructor.
  - rewrite Hs. by apply map_Forall_empty.
  - by rewrite Hp.
  - by rewrite Hfa.
  - by rewrite Hhi.
Qed.

Lemma handshakeStep_fresh startup s r s' :
  fresh s -> run (handshakeStep startup) s = (r, s') ->
  (r = Again -> fresh s') /\ (r = Intercept -> firewall s').
Proof.
  intros Hs. unfold handshakeStep, negotiateTLS. rewrite run_bind. cbn [run modify locked].
  apply fresh_count with (n := int64 (fromClient s + Z.of_nat (length (suRaw startup)))) in Hs.
  revert Hs. generalize (set_fromClient (int64 (fromClient s + Z.of_nat (length (suRaw startup)))) s).
  clear s. intros s Hs.
  destruct (suCode startup =? SSLRequestCode); [|destruct (suCode startup =? GSSENCRequest)].
  - destruct (negb tlsConfig); rewrite !run_bind, run_writeClient; cbn [run]; intros [= <- <-];
      (split; [intros _; by apply fresh_client | by case_match]).
  - rewrite run_bind, run_writeClient. cbn [run]. intros [= <- <-].
    split; [intros _; by apply fresh_client | by case_match].
  - destruct (IsStartup (suCode startup)); rewrite run_bind, run_writeUpstream; cbn [run]; intros [= <- <-].
    + destruct (conn_write _ _).1 eqn:Hok; simpl; (split; [done|]); [|done].
      intros _. by apply fresh_opens.
    + by destruct (conn_write _ _).1.
Qed.

Lemma handshake_firewall startups s s' :
  fresh s -> run (handshake startups) s = (Intercept, s') -> firewall s'.
Proof.
  revert s. induction startups as [|startup rest IH]; intros s Hs; [done|].
  cbn [handshake]. rewrite run_bind. destruct (run (handshakeStep startup) s) as [r s1] eqn:E.
  destruct (handshakeStep_fresh _ _ _ _ Hs E) as [Ha Hi].
  destruct r; cbn [run]; intros H; [by eapply IH, H; apply Ha|..]; simplify_eq. by apply Hi.
Qed.

Lemma reachable_firewall y : reachable y -> firewall (shared y).
Proof.
  revert y. apply reachable_safe.
  - intros s (now & startups & H). eapply handshake_firewall; [|exact H]. done.
  - apply guarded_frontendMessage.
  - intros msg _. apply guarded_backendMessage.
  - intros s s' [] []; by constructor.
Qed.

(** C1: Nothing the dialect refuses reaches the upstream.  In every state the two
    pumps can reach, whatever messages arrive, in whatever order their steps
    interleave and whichever connection breaks, the bytes written to the upstream
    are the rewritten startup message followed by chunks each of which is a
    client's message whose text the classifier does not reject, the equivalent or
    the marked form of such a text, a statement of the emulator's own, or a
    shadow made from a text that was let through. *)
Theorem upstream_only_permitted y :
  reachable y -> upstream_allowed (written (upstream (shared y))).
Proof. intros Hy. apply fw_upstream. by apply reachable_firewall. Qed.

(** C11: Under every interleaving of the two pumps the injected failure and the
    hidden exchange stay well formed.  A failure in progress, like one that waits
    for a Sync, sends one of the emulator's own statements and is owed one or two
    ReadyForQuery messages, of which fewer have gone by than it is owed, so it
    always ends; and the hidden exchange is one that was begun. *)
Theorem interleaving_well_formed y :
  reachable y ->
  (forall f, failure (shared y) = Some f ->
     statement f ∈ own_statements /\ 0 <= failureRFQs (shared y) < swallow f /\ swallow f <= 2) /\
  (forall f, pendingFailure (shared y) = Some f ->
     statement f ∈ own_statements /\ 1 <= swallow f <= 2) /\
  (forall p, hidden (shared y) = Some p -> is_Some (exchanges (shared y) !! p)).
Proof.
  intros Hy. destruct (reachable_firewall y Hy) as [_ _ _ _ _ Hp Hf Hh]. split_and!.
  - intros f Ef. rewrite Ef in Hf. destruct Hf as ([? ?] & ?). split_and!; done || lia.
  - intros f Ef. by rewrite Ef in Hp.
  - intros p Ep. rewrite Ep in Hh. by apply lookup_lt_is_Some.
Qed.

End firewall.

(** After a refused statement and an accepted one, the upstream has seen the
    startup message and the accepted one. *)
Definition witness_session1 : session := exec (frontendMessage (query "TRUNCATE t")) session_started.
Definition witness_session2 : session := exec (frontendMessage (query "SELECT 1")) witness_session1.
Definition witness_system : system := mkSystem witness_session2 Waiting Waiting.

Lemma witness_reachable : reachable witness_system.
Proof.
  apply (reachable_frontend witness_session1 _ _ (query "SELECT 1"));
    [reflexivity | vm_compute; reflexivity|].
  apply (reachable_frontend session_started _ _ (query "TRUNCATE t"));
    [reflexivity | vm_compute; reflexivity|].
  apply reachable_started, session_started_started.
Qed.

Lemma upstream_only_permitted_witness :
  length (written (upstream (shared witness_system))) = 2%nat /\
  upstream_allowed (written (upstream (shared witness_system))).
Proof.
  split; [vm_compute; reflexivity|].
  apply (upstream_only_permitted witness_system), witness_reachable.
Defined.

(** A refusal inside a transaction, before the upstream answered anything. *)
Definition witness_txn : session := exec (frontendMessage (query "BEGIN")) session_started.

Definition failing_session : session := exec (frontendMessage (query "TRUNCATE t")) witness_txn.

Definition failing_system : system := mkSystem failing_session Waiting Waiting.

Lemma failing_reachable : reachable failing_system.
Proof.
  apply (reachable_frontend witness_txn _ _ (query "TRUNCATE t"));
    [reflexivity | vm_compute; reflexivity|].
  apply (reachable_frontend session_started _ _ (query "BEGIN"));
    [reflexivity | vm_compute; reflexivity|].
  apply reachable_started, session_started_started.
Qed.

Lemma interleaving_well_formed_witness :
  let f := mkFailure abortTransactionQuery "E" 1 in
  failure (shared failing_system) = Some f /\
  0 <= failureRFQs (shared failing_system) < swallow f.
Proof.
  intros f. assert (Hf : failure (shared failing_system) = Some f) by (vm_compute; reflexivity).
  split; [exact Hf|].
  exact (proj1 (proj2 (proj1 (interleaving_well_formed failing_system failing_reachable) f Hf))).
Defined.
