(* ===== verification/Failing.v ===== *)
(** * Refused statements and failed transactions

    What a client and the upstream see when a statement is refused: outside a
    transaction the refusal is all there is; inside one the transaction is failed
    upstream behind the client's back, and until the client ends it every other
    statement is refused without reaching the upstream. *)

From Stdlib Require Import Ascii String Strings.Byte.
From stdpp Require Import base numbers strings gmap list relations.
From S2P Require Import Prelude GoStd Kind Txn Proto Ruleset Occ Wire Rewrite Proc State Session System Samples.

Local Open Scope Z_scope.
Local Open Scope proc_scope.

Lemma run_skip s : run skip (s : session) = (tt, s).
Proof. done. Qed.

(** Run the steps at the front of a handler. *)
Ltac step_run :=
  repeat first
    [ rewrite run_bind | rewrite run_get | rewrite run_modify | rewrite run_locked | rewrite run_ret
    | rewrite run_skip
    | progress cbv beta iota ].

Section failing.
Context {PG : PgQuery} {PP : PgProto} {SC : StatementClassifier} {CF : Config}.

Lemma connected_told bs s : connected s -> connected (told bs s).
Proof. by intros []. Qed.

Lemma connected_sent bs s : connected s -> connected (sent bs s).
Proof. by intros []. Qed.

Lemma run_tellClient b s : connected s -> run (tellClient b) s = (tt, told [b] s).
Proof. intros Hc. unfold tellClient. rewrite run_bind, run_tell by done. done. Qed.

Lemma run_sendError c m s : connected s -> run (sendError c m) s = (tt, told [errorResponse c m] s).
Proof. intros Hc. unfold sendError. rewrite run_bind, run_tell by done. done. Qed.

(** A request the upstream will answer. *)
Definition asked (b : bytes) (s : session) : session :=
  sent [b] (set_pendingExchanges (int64 (pendingExchanges s + 1)) s).

Lemma run_writeUpstreamExchange b s :
  connected s -> run (writeUpstreamExchange b) s = (true, asked b s).
Proof. intros Hc. unfold writeUpstreamExchange, beginExchange. step_run. by rewrite run_send. Qed.

Lemma run_forward msg s :
  connected s ->
  run (forward msg) s =
    (tt, sent [Raw msg] (if is_tag msg "Q" || is_tag msg "S"
                         then set_pendingExchanges (int64 (pendingExchanges s + 1)) s else s)).
Proof.
  intros Hc. unfold forward, beginExchange.
  destruct (is_tag msg "Q" || is_tag msg "S"); cbn [when]; step_run; by rewrite run_send.
Qed.

Lemma run_rejectFailed ext s :
  connected s ->
  run (rejectFailed ext) s =
    let s := told [errorResponse stateInFailedTransaction messageInFailedTransaction] s in
    (tt, if ext then set_skipSync true s else told [readyForQuery "E"] s).
Proof.
  intros Hc. unfold rejectFailed. rewrite run_bind, run_sendError by done. destruct ext; [done|].
  rewrite run_bind, run_tell by by apply connected_told. done.
Qed.

Definition failing (stmt : bytes) (st : byte) (n : Z) (s : session) : session :=
  set_txnAborted (Byte.eqb st "E") (set_failureRFQs 0 (set_failure (Some (mkFailure stmt st n)) s)).

Lemma run_beginFailure f s :
  connected s -> run (beginFailure f) s = (tt, asked (statement f) (failing (statement f) (status f) (swallow f) s)).
Proof.
  intros Hc. unfold beginFailure. step_run. rewrite run_writeUpstreamExchange by done.
  by destruct f.
Qed.

(** What a refusal of a simple query leaves behind. *)
Definition rejected (c m : string) (s : session) : session :=
  let s' := told [errorResponse c m] s in
  if trackerInTxn s then asked abortTransactionQuery (failing abortTransactionQuery "E" 1 s')
  else told [readyForQuery (txStatus s)] s'.

Lemma run_reject c m s : connected s -> run (reject c m false) s = (tt, rejected c m s).
Proof.
  intros Hc. unfold reject, rejected. rewrite run_bind, run_sendError by done. step_run.
  change (trackerInTxn (told _ s)) with (trackerInTxn s). destruct (trackerInTxn s).
  - unfold failTxn. by rewrite run_beginFailure.
  - step_run. by rewrite run_tell by by apply connected_told.
Qed.

(** The prefix of every round of the frontend pump. *)
Definition received (msg : Message) (s : session) : session :=
  set_fromClient (int64 (fromClient s + Z.of_nat (length (Raw msg)))) s.

Definition batch_closed (s : session) : session := set_extendedBatchOpen false s.

Lemma run_frontend_query msg s :
  is_tag msg "Q" = true -> skipSync s = false ->
  run (frontendMessage msg) s =
    (true, batch_closed (exec (handleQuery msg) (received msg s))).
Proof.
  intros Hq Hs. assert (Ht : Type_ msg = "Q"%byte) by by apply Byte.byte_dec_bl.
  unfold frontendMessage. step_run.
  assert (HX : is_tag msg "X" = false) by (unfold is_tag; by rewrite Ht).
  assert (HS : is_tag msg "S" = false) by (unfold is_tag; by rewrite Ht).
  rewrite HX, HS. step_run. change (skipSync (set_fromClient _ s)) with (skipSync s). rewrite Hs, Hq.
  step_run. fold (received msg s). unfold exec. destruct (run (handleQuery msg) (received msg s)) as [[] s'].
  rewrite Ht. done.
Qed.

(** ** Refusals *)

(** A simple query whose text is plain SQL: no ASYNC keyword was found. *)
Definition plain_query (msg : Message) (sql : string) : Prop :=
  is_tag msg "Q" = true /\ DecodeFrontend (Type_ msg) (Body msg) = Decoded (Query sql) /\
  stripAsync sql = Some None.

Lemma exec_query msg sql s :
  plain_query msg sql -> skipSync s = false ->
  exec (frontendMessage msg) s =
    batch_closed (exec (if txnAborted s then queryAborted msg sql
                        else match classify false sql with
                             | None => forward msg
                             | Some r => queryClassified msg sql r
                             end) (received msg s)).
Proof.
  intros (Hq & Hd & Hs) Hk. unfold exec at 1. rewrite run_frontend_query by done. simpl snd. f_equal.
  unfold handleQuery. rewrite Hd, Hs. unfold exec, aborted. step_run.
  change (txnAborted (received msg s)) with (txnAborted s). done.
Qed.

Lemma admit_rollback now t : exists t', Admit [KindRollback] now t = (None, t') /\ inTxn t' = false.
Proof. unfold Admit. simpl. destruct (inTxn t); simpl; eexists; done. Qed.

(** C10: While the client's transaction is failed, a simple query either ends the
    transaction or is refused without the upstream seeing it.  One that holds a
    COMMIT or ROLLBACK goes down as it came, after which the session is no longer
    in a failed transaction and the transaction rules start afresh; any other is
    answered with the error 25P02 and a ReadyForQuery that still reports the
    failed transaction, and changes nothing else. *)
Theorem aborted_until_ended msg sql s :
  connected s -> plain_query msg sql -> skipSync s = false -> txnAborted s = true ->
  let s' := exec (frontendMessage msg) s in
  (text_ends_transaction sql = true ->
     written (upstream s') = written (upstream s) ++ [Raw msg] /\ written (client s') = written (client s) /\
     txnAborted s' = false /\ trackerInTxn s' = false /\ occDoomed s' = false) /\
  (text_ends_transaction sql = false ->
     s' = batch_closed (told [errorResponse stateInFailedTransaction messageInFailedTransaction;
                              readyForQuery "E"] (received msg s))).
Proof.
  intros Hc Hm Hk Ha s'. subst s'. rewrite (exec_query msg sql s Hm Hk), Ha. unfold queryAborted.
  assert (Hc' : connected (received msg s)) by done.
  destruct (text_ends_transaction sql); (split; [|]); try done; intros _.
  - destruct (admit_rollback (clock s) (tracker s)) as (t & Had & Ht).
    unfold exec, endAborted, resetOcc, admitBatch. step_run.
    cbn [reset_occ set_occRepair set_occInFlight set_occDoomed set_occTouched set_skipSync set_txnAborted
         tracker clock received set_fromClient].
    rewrite Had. step_run. rewrite run_forward by done. rewrite (proj1 Hm).
    unfold trackerInTxn, Tracker_Stats. simpl. by rewrite Ht.
  - unfold exec. rewrite run_rejectFailed by done. cbv zeta. cbn [snd]. by rewrite told_told.
Qed.


(** ** Failing a transaction behind the client's back *)

(** A run of the backend pump over a list of messages. *)
Definition backend_run (ms : list Message) (s : session) : session :=
  fold_left (fun s m => exec (backendMessage m) s) ms s.

(** How many requests a list of messages answers. *)
Definition count_ready (ms : list Message) : Z :=
  Z.of_nat (length (List.filter (fun m => is_tag m "Z") ms)).

(** A failure being injected, [n] of its answers gone by and [k] to come, with
    nothing else going on at the backend. *)
Definition injecting (f : txnFailure) (n k : Z) (s : session) : Prop :=
  connected s /\ hidden s = None /\ failure s = Some f /\ failureRFQs s = n /\
  swallow f = n + k /\ 0 <= n /\ 0 < k /\ n + k < 2 ^ 62.

(** The fields a swallowed message leaves alone. *)
Definition same_transaction (s s' : session) : Prop :=
  txnAborted s' = txnAborted s /\ skipSync s' = skipSync s /\ tracker s' = tracker s /\
  pendingFailure s' = pendingFailure s /\ written (upstream s') = written (upstream s) /\
  closed_ (upstream s') = closed_ (upstream s) /\ closed_ (client s') = closed_ (client s) /\
  hidden s' = hidden s /\ occDoomed s' = occDoomed s.

Lemma same_transaction_trans s1 s2 s3 :
  same_transaction s1 s2 -> same_transaction s2 s3 -> same_transaction s1 s3.
Proof. unfold same_transaction. intuition congruence. Qed.

Lemma swallow_one msg f n k s :
  injecting f n k s ->
  let s' := exec (backendMessage msg) s in
  same_transaction s s' /\
  if negb (is_tag msg "Z") then injecting f n k s' /\ written (client s') = written (client s)
  else if k =? 1
  then failure s' = None /\ written (client s') = written (client s) ++ [readyForQuery (status f)]
  else injecting f (n + 1) (k - 1) s' /\ written (client s') = written (client s).
Proof.
  intros ([Hc Hu] & Hh & Hf & Hn & Hsw & Hpos).
  unfold exec, backendMessage, endExchange, consumeHidden, consumeFailureMessage.
  destruct s as [cl up]; simpl in *; subst. step_run.
  destruct (is_tag msg "Z"); cbn [when negb]; step_run; simpl.
  - set (d := 0 <? _).
    destruct d; simpl; unfold count_failure; simpl; rewrite (int64_small (_ + 1)) by lia;
      match goal with |- context [swallow f <=? ?m] => destruct (Z.leb_spec (swallow f) m) end;
      destruct (Z.eqb_spec k 1); try lia; simpl;
      unfold conn_write; rewrite ?Hc; simpl; repeat split; simpl; try done; lia.
  - repeat split; done || lia.
Qed.

Lemma count_ready_cons m ms :
  count_ready (m :: ms) = (if is_tag m "Z" then 1 else 0) + count_ready ms.
Proof. unfold count_ready. simpl. destruct (is_tag m "Z"); simpl; lia. Qed.

Lemma count_ready_nonneg ms : 0 <= count_ready ms.
Proof. unfold count_ready. lia. Qed.

Lemma swallow_some ms f n k s :
  injecting f n k s -> count_ready ms < k ->
  let s' := backend_run ms s in
  same_transaction s s' /\ injecting f (n + count_ready ms) (k - count_ready ms) s' /\
  written (client s') = written (client s).
Proof.
  revert n k s. induction ms as [|m ms IH]; intros n k s Hi Hk.
  - unfold count_ready. simpl. rewrite Z.add_0_r, Z.sub_0_r. done.
  - rewrite count_ready_cons in Hk. pose proof (count_ready_nonneg ms) as Hp. simpl.
    destruct (swallow_one m f n k s Hi) as [Hsame Hone].
    rewrite count_ready_cons. destruct (is_tag m "Z"); simpl in Hone.
    + destruct (Z.eqb_spec k 1); [lia|]. destruct Hone as [Hi' Hcl].
      destruct (IH (n + 1) (k - 1) _ Hi' ltac:(lia)) as (Hs' & Hi'' & Hcl').
      split_and!; [by eapply same_transaction_trans| |congruence].
      replace (n + (1 + count_ready ms)) with (n + 1 + count_ready ms) by lia.
      by replace (k - (1 + count_ready ms)) with (k - 1 - count_ready ms) by lia.
    + destruct Hone as [Hi' Hcl]. destruct (IH n k _ Hi' ltac:(lia)) as (Hs' & Hi'' & Hcl').
      split_and!; [by eapply same_transaction_trans| |congruence]. done.
Qed.

Lemma backend_run_app ms ms' s : backend_run (ms ++ ms') s = backend_run ms' (backend_run ms s).
Proof. apply fold_left_app. Qed.

(** The last answer a failure is owed ends it. *)
Lemma swallow_last f k s ms z :
  injecting f 0 k s -> count_ready ms = k - 1 -> is_tag z "Z" = true ->
  let s' := backend_run (ms ++ [z]) s in
  failure s' = None /\ written (client s') = written (client s) ++ [readyForQuery (status f)] /\
  same_transaction s s'.
Proof.
  intros Hi Hk Hz. destruct (swallow_some ms f 0 k s Hi ltac:(lia)) as (Hs & Hi' & Hcl).
  intros s'. subst s'. rewrite backend_run_app. simpl.
  destruct (swallow_one z f _ _ _ Hi') as [Hs' Hone]. rewrite Hz in Hone. simpl in Hone.
  replace (k - count_ready ms) with 1 in Hone by lia. destruct Hone as [Hf Hw].
  split_and!; [done | congruence | by eapply same_transaction_trans].
Qed.

(** C13: An injected failure takes over exactly the answers it is owed.  Until as
    many ReadyForQuery messages have gone by as the failure says, nothing the
    upstream sends reaches the client, whatever it is; with the last of them the
    client gets a single ReadyForQuery with the failure's status and the failure
    is over. *)
Theorem failure_swallows f k s ms z :
  injecting f 0 k s -> count_ready ms = k - 1 -> is_tag z "Z" = true ->
  written (client (backend_run ms s)) = written (client s) /\
  failure (backend_run ms s) = Some f /\
  let s' := backend_run (ms ++ [z]) s in
  failure s' = None /\ written (client s') = written (client s) ++ [readyForQuery (status f)] /\
  same_transaction s s'.
Proof.
  intros Hi Hk Hz. destruct (swallow_some ms f 0 k s Hi ltac:(lia)) as (Hs & Hi' & Hcl).
  split; [done|]. split; [apply Hi' | by apply (swallow_last f k)].
Qed.

(** A session between exchanges. *)
Definition settled (s : session) : Prop :=
  connected s /\ hidden s = None /\ failure s = None /\ skipSync s = false /\ txnAborted s = false.

(** C9: A simple query the dialect refuses inside a transaction fails the
    transaction, and the client sees nothing of how.  The client is answered with
    the refusal's error and, once the upstream's own exchange is over, with one
    ReadyForQuery that reports a failed transaction; the upstream is sent only
    the statement that fails its transaction, never the refused one; and the
    session is then in a failed transaction with nothing left to swallow. *)
Theorem refusal_fails_transaction msg sql r s ms z :
  settled s -> plain_query msg sql -> classify false sql = Some r -> Rejected (verdict r) = true ->
  trackerInTxn s = true -> count_ready ms = 0 -> is_tag z "Z" = true ->
  let s' := backend_run (ms ++ [z]) (exec (frontendMessage msg) s) in
  written (client s') = written (client s) ++
    [errorResponse (Code (verdict r)) (Kind.Message (verdict r)); readyForQuery "E"] /\
  written (upstream s') = written (upstream s) ++ [abortTransactionQuery] /\
  txnAborted s' = true /\ failure s' = None /\ tracker s' = tracker s.
Proof.
  intros (Hc & Hh & Hf & Hk & Ha) Hm Hcl Hr Ht Hms Hz.
  rewrite (exec_query msg sql s Hm Hk), Ha, Hcl. unfold queryClassified. rewrite Hr.
  unfold exec. rewrite run_reject by done. unfold rejected.
  change (trackerInTxn (received msg s)) with (trackerInTxn s). rewrite Ht. cbn [snd].
  set (f := mkFailure abortTransactionQuery "E" 1). set (s1 := batch_closed _).
  assert (Hi : injecting f 0 1 s1) by (repeat split; try done; apply Hc).
  destruct (swallow_last f 1 s1 ms z Hi ltac:(lia) Hz) as (Hnone & Hw & Hsame).
  destruct Hsame as (Hab & _ & Htr & _ & Hup & _). rewrite Hw, Hup, Hab, Htr.
  split_and!; try done. simpl. by rewrite <- app_assoc.
Qed.

End failing.

(** ** Instances *)

Definition sample_refusal : Result := default zero_result (classify false "TRUNCATE t").

Definition session_refused : session := exec (frontendMessage (query "TRUNCATE t")) session_in_txn.

Definition session_failed : session := backend_run [error "22012"; ready "E"] session_refused.

Lemma refusal_fails_transaction_witness :
  txnAborted session_failed = true /\ failure session_failed = None.
Proof.
  destruct (refusal_fails_transaction (query "TRUNCATE t") "TRUNCATE t" sample_refusal session_in_txn
              [error "22012"] (ready "E")) as (_ & _ & Ha & Hf & _);
    [vm_compute; repeat split..|].
  split; [exact Ha | exact Hf].
Defined.

Lemma failure_swallows_witness :
  written (client (backend_run [error "22012"] session_refused)) = written (client session_refused) /\
  failure session_refused = Some (mkFailure abortTransactionQuery "E" 1).
Proof.
  assert (Hi : injecting (mkFailure abortTransactionQuery "E" 1) 0 1 session_refused)
    by (vm_compute; repeat split; congruence).
  destruct (failure_swallows _ _ session_refused [error "22012"] (ready "E") Hi) as (Hc & _);
    [vm_compute; reflexivity..|].
  split; [exact Hc | apply Hi].
Defined.

Lemma aborted_until_ended_witness :
  txnAborted session_failed = true /\
  exec (frontendMessage (query "SELECT 1")) session_failed =
    batch_closed (told [errorResponse stateInFailedTransaction messageInFailedTransaction;
                        readyForQuery "E"] (received (query "SELECT 1") session_failed)).
Proof.
  split; [vm_compute; reflexivity|].
  apply (proj2 (aborted_until_ended (query "SELECT 1") "SELECT 1" session_failed
    ltac:(vm_compute; repeat split) ltac:(vm_compute; repeat split)
    ltac:(vm_compute; reflexivity) ltac:(vm_compute; reflexivity))).
  vm_compute. reflexivity.
Defined.
