(* ===== verification/Conflicts.v ===== *)
(** * Conflicts at COMMIT

    The injection rules that fail every so many commits, the COMMIT of a
    transaction that was refused a lock, and the repair that answers a refused
    statement as if it had run. *)

From Stdlib Require Import Ascii String Strings.Byte.
From stdpp Require Import base numbers strings gmap list relations.
From S2P Require Import Prelude GoStd Kind Txn Proto Ruleset Occ Wire Rewrite Proc State Session System Samples Failing.

Local Open Scope Z_scope.
Local Open Scope proc_scope.

(** ** Injection *)

Definition every_of (inj : OCCInjection) : Z := if Every inj <=? 0 then 1 else Every inj.

(** A rule's count once it matched one more commit, and whether it is its turn. *)
Definition next_count (counts : gmap nat Z) (i : nat) : Z := int64 (default 0 (counts !! i) + 1).

Definition its_turn (counts : gmap nat Z) (i : nat) (inj : OCCInjection) : bool :=
  Z.rem (next_count counts i) (every_of inj) =? 0.

(** A rule fails the commit when it matches and it is its turn. *)
Definition fires (touched : gset string) (counts : gmap nat Z) (i : nat) (inj : OCCInjection) : bool :=
  injection_matches touched inj && its_turn counts i inj.

Fixpoint no_fire (touched : gset string) (counts : gmap nat Z) (i : nat) (rules : list OCCInjection) : bool :=
  match rules with
  | [] => true
  | inj :: rest => negb (fires touched counts i inj) && no_fire touched counts (S i) rest
  end.

Lemma fires_insert touched counts i j n inj :
  i <> j -> fires touched (<[i := n]> counts) j inj = fires touched counts j inj.
Proof. intros H. unfold fires, its_turn, next_count. by rewrite lookup_insert_ne. Qed.

Lemma no_fire_insert touched counts i n rules : forall j,
  (i < j)%nat -> no_fire touched (<[i := n]> counts) j rules = no_fire touched counts j rules.
Proof.
  induction rules as [|inj rest IH]; intros j Hj; simpl; [done|].
  rewrite fires_insert by lia. by rewrite IH by lia.
Qed.

(** C24: An injected conflict is decided rule by rule, each on its own count.  A
    commit is failed exactly when some rule that matches the tables written has
    its turn; a rule's count goes up when it matches and no rule before it failed
    the commit, and at no other time. *)
Theorem injection_exact touched rules : forall i counts hit counts',
  inject_from i touched rules counts = (hit, counts') ->
  hit = negb (no_fire touched counts i rules) /\
  (forall j inj, rules !! j = Some inj ->
     counts' !! (i + j)%nat =
       if injection_matches touched inj && no_fire touched counts i (take j rules)
       then Some (next_count counts (i + j)) else counts !! (i + j)%nat) /\
  (forall k, (k < i)%nat -> counts' !! k = counts !! k).
Proof.
  induction rules as [|inj rest IH]; intros i counts hit counts' H; simpl in H.
  - simplify_eq. split_and!; done.
  - destruct (injection_matches touched inj) eqn:Hm; simpl in H.
    + change (Z.rem _ _ =? 0) with (its_turn counts i inj) in H.
      assert (Hf : fires touched counts i inj = its_turn counts i inj) by (unfold fires; by rewrite Hm).
      change (int64 (default 0 (counts !! i) + 1)) with (next_count counts i) in H.
      simpl. rewrite Hf. destruct (its_turn counts i inj) eqn:Ht; simpl.
      * simplify_eq. split_and!; [done| |intros k Hk; by rewrite lookup_insert_ne by lia].
        intros [|j] inj' Hj; simpl in *.
        -- simplify_eq. rewrite Hm, Nat.add_0_r. simpl. by rewrite lookup_insert_eq.
        -- rewrite Hf, andb_false_r. by rewrite lookup_insert_ne by lia.
      * destruct (IH _ _ _ _ H) as (-> & Hj & Hk). rewrite no_fire_insert by lia.
        split_and!; [done| |].
        -- intros [|j] inj' Hl; simpl in *.
           ++ simplify_eq. rewrite Hm, Nat.add_0_r. simpl. rewrite Hk by lia. by rewrite lookup_insert_eq.
           ++ rewrite Hf. simpl. rewrite Nat.add_succ_r, (Hj j inj' Hl).
              rewrite no_fire_insert by lia. unfold next_count. by rewrite lookup_insert_ne by lia.
        -- intros k Hlt. rewrite Hk by lia. by rewrite lookup_insert_ne by lia.
    + assert (Hf : fires touched counts i inj = false) by (unfold fires; by rewrite Hm).
      destruct (IH _ _ _ _ H) as (-> & Hj & Hk). simpl. rewrite Hf. simpl. split_and!; [done| |].
      * intros [|j] inj' Hl; simpl in *.
        -- simplify_eq. rewrite Hm, Nat.add_0_r. simpl. by rewrite Hk by lia.
        -- rewrite Hf. simpl. rewrite Nat.add_succ_r. by apply Hj.
      * intros k Hlt. apply Hk. lia.
Qed.

(** A rule on its own, over a number of commits that match it. *)
Fixpoint commits (n : nat) (touched : gset string) (inj : OCCInjection) (counts : gmap nat Z) : list bool :=
  match n with
  | O => []
  | S n => let (hit, counts) := inject_from 0 touched [inj] counts in hit :: commits n touched inj counts
  end.

(** a rule with [every: N] fails every Nth commit that matches it, counting
    from the first, and [every] unset or below one fails them all. *)
Theorem every_nth_commit touched inj n k :
  injection_matches touched inj = true -> (k < n)%nat -> Z.of_nat n < 2 ^ 62 ->
  commits n touched inj ∅ !! k = Some (Z.rem (Z.of_nat k + 1) (every_of inj) =? 0).
Proof.
  intros Hm Hk Hn.
  assert (Hgen : forall n k counts c, default 0 (counts !! 0%nat) = c -> 0 <= c -> (k < n)%nat ->
            c + Z.of_nat n < 2 ^ 62 ->
            commits n touched inj counts !! k = Some (Z.rem (c + Z.of_nat k + 1) (every_of inj) =? 0)).
  2: { by rewrite (Hgen n k ∅ 0). }
  clear n k Hk Hn. induction n as [|n IH]; intros k counts c Hc Hpos Hk Hn; [lia|].
  cbn [commits inject_from]. rewrite Hm. cbn [negb]. rewrite Hc.
  rewrite (int64_small (c + 1)) by lia. fold (every_of inj).
  destruct (Z.rem (c + 1) (every_of inj) =? 0) eqn:Hr;
    (destruct k as [|k]; [cbn; by rewrite Z.add_0_r, Hr|]);
    cbn [lookup list_lookup]; change (list_lookup k ?l) with (l !! k);
    (rewrite (IH k _ (c + 1)); [do 3 f_equal; lia| by rewrite lookup_insert_eq | lia..]).
Qed.

Section conflicts.
Context {PG : PgQuery} {PP : PgProto} {SC : StatementClassifier} {CF : Config}.

(** ** The COMMIT of a doomed transaction *)

(** A session between exchanges whose transaction was refused a lock. *)
Definition doomed (s : session) : Prop := settled s /\ occDoomed s = true.

(** C7: The COMMIT of a transaction that was refused a lock fails the way Aurora
    DSQL fails it.  The client is told the conflict in place of an answer, and
    once the upstream's exchange is over one ReadyForQuery that reports no
    transaction; the upstream is never sent the COMMIT but a ROLLBACK; and the
    session forgets the transaction. *)
Theorem doomed_commit_fails msg sql r t s ms z :
  doomed s -> plain_query msg sql ->
  classify false sql = Some r -> Rejected (verdict r) = false -> isCommit (Kinds r) = true ->
  Admit (Kinds r) (clock s) (tracker s) = (None, t) ->
  count_ready ms = 0 -> is_tag z "Z" = true ->
  let s' := backend_run (ms ++ [z]) (exec (frontendMessage msg) s) in
  let (c, m) := conflictError (rsOCC ruleset) in
  written (client s') = written (client s) ++ [errorResponse c m; readyForQuery "I"] /\
  written (upstream s') = written (upstream s) ++ [rollbackQuery] /\
  failure s' = None /\ txnAborted s' = false /\ tracker s' = t.
Proof.
  intros [(Hc & Hh & Hf & Hk & Ha) Hd] Hm Hcl Hr Hcm Had Hms Hz.
  rewrite (exec_query msg sql s Hm Hk), Ha, Hcl. unfold queryClassified. rewrite Hr.
  destruct (conflictError (rsOCC ruleset)) as [c m] eqn:Hce.
  set (s0 := set_tracker t (received msg s)).
  set (s1 := exec (countTxnStatement (Kinds r)) (exec (addOccTables (Tables r)) s0)).
  assert (Hs1 : connected s1 /\ client s1 = client s /\ upstream s1 = upstream s /\ hidden s1 = None /\
                tracker s1 = t /\ occDoomed s1 = true).
  { unfold s1, countTxnStatement, addOccTables.
    destruct (Tables r), (existsb _ _); repeat split; try done; apply Hc. }
  assert (Hrun : exec (let! v := admitBatch (Kinds r) in
            match v with
            | Some v => reject (vCode v) (vMessage v) false
            | None => let! go := afterAdmit (Kinds r) (Tables r) (Analyze sql) None false in
                      when go (sendQuery msg sql)
            end) (received msg s) = exec (occFailure false) s1).
  { unfold exec at 1, admitBatch. step_run. change (tracker (received msg s)) with (tracker s).
    change (clock (received msg s)) with (clock s). rewrite Had. step_run.
    unfold afterAdmit. step_run. rewrite (isCommit_ends _ Hcm), Hcm.
    destruct (run (addOccTables (Tables r)) s0) as [[] s2] eqn:E2. fold s0. rewrite E2.
    destruct (run (countTxnStatement (Kinds r)) s2) as [[] s3] eqn:E3.
    assert (Es1 : s3 = s1) by (unfold s1, exec; by rewrite E2; simpl; rewrite E3). subst s3.
    step_run. rewrite E3. unfold commit_fails. step_run. destruct Hs1 as (_ & _ & _ & _ & _ & Hd1). rewrite Hd1. step_run.
    unfold exec. destruct (run (occFailure false) s1) as [[] s4]. done. }
  rewrite Hrun. clear Hrun. destruct Hs1 as (Hc1 & Hcl1 & Hup1 & Hh1 & Ht1 & _).
  clearbody s1. unfold exec, occFailure. rewrite Hce. rewrite run_bind, run_sendError by done.
  unfold resetOcc. step_run. unfold failTxn. rewrite run_beginFailure by done. cbn [snd].
  set (f := mkFailure rollbackQuery "I" 1). set (s2 := batch_closed _).
  assert (Hi : injecting f 0 1 s2) by (repeat split; try done; apply Hc1).
  destruct (swallow_last f 1 s2 ms z Hi ltac:(lia) Hz) as (Hnone & Hw & Hsame).
  destruct Hsame as (Hab & _ & Htr & _ & Hup & _). rewrite Hw, Hup, Hab, Htr.
  simpl. rewrite Hcl1, Hup1, Ht1. split_and!; try done. by rewrite <- app_assoc.
Qed.


(** ** Exchanges of the emulator's own *)

(** What an exchange that reports nothing to the client makes of a message. *)
Definition noted (msg : Message) (h : hiddenExchange) : hiddenExchange :=
  match h with
  | SavepointExchange failed => SavepointExchange (failed || is_tag msg "E")
  | RestoreExchange failed r => RestoreExchange (failed || is_tag msg "E") r
  | CountExchange failed rows r =>
      CountExchange (failed || is_tag msg "E")
        (match is_tag msg "D", firstColumnInt msg with true, Some n => n | _, _ => rows end) r
  | RowsetExchange failed r => RowsetExchange (failed || is_tag msg "E") r
  end.

Definition is_rowset (h : hiddenExchange) : bool :=
  match h with RowsetExchange _ _ => true | _ => false end.

(** A session in which an exchange is running. *)
Definition running (p : nat) (h : hiddenExchange) (s : session) : Prop :=
  connected s /\ hidden s = Some p /\ exchanges s !! p = Some h /\ is_rowset h = false.

(** The upstream's message counted. *)
Definition heard (msg : Message) (s : session) : session :=
  set_fromUpstream (int64 (fromUpstream s + Z.of_nat (length (Raw msg)))) s.

(** Nothing but the exchanges and the byte count changed. *)
Definition quiet (s s' : session) : Prop :=
  s' = set_exchanges (exchanges s') (set_fromUpstream (fromUpstream s') s).

Lemma quiet_refl s : quiet s s.
Proof. by destruct s. Qed.

Lemma quiet_trans s1 s2 s3 : quiet s1 s2 -> quiet s2 s3 -> quiet s1 s3.
Proof. unfold quiet. intros -> ->. by destruct s1. Qed.

Lemma set_exchange_same p h s : exchanges s !! p = Some h -> set_exchanges (<[p := h]> (exchanges s)) s = s.
Proof. intros Hp. rewrite list_insert_id by done. by destruct s. Qed.

Lemma is_tag_disjoint msg t t' :
  is_tag msg t = true -> Byte.eqb t t' = false -> is_tag msg t' = false.
Proof. intros Ht He. unfold is_tag in *. by apply Byte.byte_dec_bl in Ht as ->. Qed.

(** Offering a message to a running exchange notes it. *)
Lemma exec_consume p h msg s :
  exchanges s !! p = Some h -> is_rowset h = false ->
  run (consume p msg) s = (is_tag msg "Z", set_exchanges (<[p := noted msg h]> (exchanges s)) s).
Proof.
  intros Hp Hn. unfold consume. step_run. rewrite Hp. destruct h as [f|f r|f rows r|f r]; [..|done].
  - cbn [noted]. destruct (is_tag msg "E"); cbn [when]; unfold set_exchange; step_run; [by rewrite orb_true_r|].
    by rewrite orb_false_r, set_exchange_same.
  - cbn [noted]. destruct (is_tag msg "E"); cbn [when]; unfold set_exchange; step_run; [by rewrite orb_true_r|].
    by rewrite orb_false_r, set_exchange_same.
  - cbn [noted]. unfold set_exchange. by step_run.
Qed.

Lemma hidden_message p h msg s :
  running p h s -> is_tag msg "Z" = false ->
  let s' := exec (backendMessage msg) s in quiet s s' /\ running p (noted msg h) s'.
Proof.
  intros (Hc & Hh & Hp & Hr) Hz. unfold exec, backendMessage, consumeHidden. step_run.
  rewrite Hz. cbn [when]. step_run. change (hidden (set_fromUpstream _ s)) with (hidden s). rewrite Hh.
  step_run. rewrite (exec_consume p h) by done. rewrite Hz. cbn [negb]. step_run. cbn [snd].
  assert (Hlt : (p < length (exchanges s))%nat) by by eapply lookup_lt_Some.
  split; [by destruct s|]. split_and!; simpl; try done; [by apply list_lookup_insert_eq|].
  by destruct h.
Qed.

Lemma hidden_messages ms : forall p h s,
  running p h s -> count_ready ms = 0 ->
  quiet s (backend_run ms s) /\ running p (foldl (fun h m => noted m h) h ms) (backend_run ms s).
Proof.
  induction ms as [|m ms IH]; intros p h s Hr Hz; [split; [apply quiet_refl | done]|].
  rewrite count_ready_cons in Hz. pose proof (count_ready_nonneg ms).
  destruct (is_tag m "Z") eqn:Hm; [lia|]. destruct (hidden_message p h m s Hr Hm) as [Hq Hr'].
  destruct (IH p _ _ Hr' ltac:(lia)) as [Hq' Hr'']. split; [by eapply quiet_trans | done].
Qed.

Lemma backendMessage_prefix msg s :
  run (backendMessage msg) s =
    run (let! own := consumeHidden msg in
         if own then Ret true
         else let! failing := get (fun s => bool_decide (is_Some (failure s))) in
              if failing then do! consumeFailureMessage msg; Ret true
              else let! repairing := (if is_tag msg "Z" then Ret false else repairPending) in
                   if repairing then Ret true
                   else if is_tag msg "n" then backendRowless msg
                   else if is_tag msg "E" then backendError msg
                   else if is_tag msg "S" then backendStatus msg
                   else if is_tag msg "Z" then backendReady msg
                   else if is_tag msg "C" then backendComplete msg
                   else passOn msg)
        (if is_tag msg "Z" then exec endExchange (heard msg s) else heard msg s).
Proof.
  unfold backendMessage. step_run. fold (heard msg s). destruct (is_tag msg "Z"); cbn [when]; [|by step_run].
  unfold endExchange, exec. by step_run.
Qed.

(** The ReadyForQuery that ends an exchange hands over to what finishes it. *)
Lemma hidden_over p h z s :
  running p h s -> is_tag z "Z" = true ->
  exec (backendMessage z) s = exec (finish p) (set_hidden None (exec endExchange (heard z s))).
Proof.
  intros (Hc & Hh & Hp & Hr) Hz. unfold exec at 1. rewrite backendMessage_prefix, Hz.
  set (s1 := exec endExchange (heard z s)).
  assert (Hs1 : hidden s1 = Some p /\ exchanges s1 !! p = Some h).
  { unfold s1, exec, endExchange. step_run. by destruct (0 <? _). }
  destruct Hs1 as [Hh1 Hp1]. clearbody s1. unfold consumeHidden. step_run. rewrite Hh1. step_run.
  rewrite (exec_consume p h) by done. rewrite Hz. cbn [negb]. step_run.
  assert (Hn : noted z h = h).
  { pose proof (is_tag_disjoint z "Z" "E" Hz eq_refl) as HE. pose proof (is_tag_disjoint z "Z" "D" Hz eq_refl) as HD.
    destruct h; simpl; by rewrite HE, ?HD, orb_false_r. }
  rewrite Hn, set_exchange_same by done. unfold exec.
  destruct (run (finish p) (set_hidden None s1)) as [[] s2]. by step_run.
Qed.


(** ** A refused statement, answered as if it had run *)

(** What the client, the upstream and the later handlers see of a session. *)
Definition view (s : session) :=
  (client s, upstream s, occDoomed s, txnAborted s, failure s, (tracker s, clock s), skipSync s).

Lemma quiet_view s s' : quiet s s' -> view s' = view s.
Proof. unfold quiet. by intros ->. Qed.

Lemma ended_view s : view (exec endExchange s) = view s.
Proof. unfold exec, endExchange. step_run. by destruct (0 <? _). Qed.

Lemma ended_frame s :
  exchanges (exec endExchange s) = exchanges s /\ occRepair (exec endExchange s) = occRepair s /\
  hidden (exec endExchange s) = hidden s /\ occSavepoint (exec endExchange s) = occSavepoint s.
Proof. unfold exec, endExchange. step_run. by destruct (0 <? _). Qed.

Lemma view_told bs s s' : view s' = view s -> view (told bs s') = view (told bs s).
Proof. intros H. injection H as H1 H2 H3 H4 H5 H6 H7 H8. unfold view. simpl. congruence. Qed.

Lemma view_sent bs s s' : view s' = view s -> view (sent bs s') = view (sent bs s).
Proof. intros H. injection H as H1 H2 H3 H4 H5 H6 H7 H8. unfold view. simpl. congruence. Qed.

Lemma view_doomed b s s' : view s' = view s -> view (set_occDoomed b s') = view (set_occDoomed b s).
Proof. intros H. injection H as H1 H2 H3 H4 H5 H6 H7 H8. unfold view. simpl. congruence. Qed.

Lemma view_connected s s' : view s' = view s -> connected s -> connected s'.
Proof. intros H. injection H as H1 H2 _ _ _ _ _ _. unfold connected. by rewrite H1, H2. Qed.

(** A transaction in which the statement being waited on can be taken over. *)
Definition refusable (flight : inFlight) (s : session) : Prop :=
  settled s /\ occInFlight s = Some flight /\ occRepair s = None /\ pendingExchanges s = 1 /\
  trackerInTxn s = true /\ (occSavepoint s || (occTxnStatements s <=? 1)) = true.

Definition is_conflict (msg : Message) : Prop :=
  is_tag msg "E" = true /\ exists er, error_decode (Body msg) = Some er /\ IsConflict (ErrCode er) = true.

(** The statement that makes the transaction usable again. *)
Definition restore_bytes (s : session) : bytes :=
  if occSavepoint s then rollbackToQuery else restartQuery.

(** Waiting for the ReadyForQuery that ends the refused statement's exchange. *)
Definition awaiting (flight : inFlight) (s : session) : Prop :=
  connected s /\ hidden s = None /\ failure s = None /\ occRepair s = Some flight.

Lemma refused_taken flight e s :
  refusable flight s -> is_conflict e ->
  let s' := exec (backendMessage e) s in
  awaiting flight s' /\ view s' = view s /\ occSavepoint s' = occSavepoint s.
Proof.
  intros ((Hc & Hh & Hf & _) & Hfl & Hrp & Hpe & Hin & Hrb) (He & er & Hd & Hco) s'. subst s'.
  pose proof (is_tag_disjoint e "E" "Z" He eq_refl) as HZ.
  pose proof (is_tag_disjoint e "E" "n" He eq_refl) as Hn.
  unfold exec. rewrite backendMessage_prefix, HZ. unfold consumeHidden. step_run.
  change (hidden (heard e s)) with (hidden s). rewrite Hh. step_run.
  change (failure (heard e s)) with (failure s). rewrite Hf, bool_decide_false by (by intros []).
  unfold repairPending. step_run. change (occRepair (heard e s)) with (occRepair s).
  rewrite Hrp, bool_decide_false by (by intros []). rewrite Hn, He.
  unfold backendError, takeJob, occIntercept. step_run. rewrite Hd, Hco. cbn [negb]. step_run.
  change (trackerInTxn (set_job None (heard e s))) with (trackerInTxn s). rewrite Hin.
  unfold take_over. change (occSavepoint (set_job None (heard e s))) with (occSavepoint s).
  change (occTxnStatements (set_job None (heard e s))) with (occTxnStatements s). rewrite Hrb.
  change (occInFlight (set_job None (heard e s))) with (occInFlight s). rewrite Hfl.
  change (pendingExchanges (set_job None (heard e s))) with (pendingExchanges s). rewrite Hpe.
  rewrite bool_decide_true by done. cbn [andb Z.leb Z.compare Pos.compare Pos.compare_cont]. step_run.
  cbn [snd]. unfold awaiting. split_and!; try done; apply Hc.
Qed.

Lemma awaiting_drops flight m s :
  awaiting flight s -> is_tag m "Z" = false -> exec (backendMessage m) s = heard m s.
Proof.
  intros (Hc & Hh & Hf & Hr) Hz. unfold exec. rewrite backendMessage_prefix, Hz. unfold consumeHidden. step_run.
  change (hidden (heard m s)) with (hidden s). rewrite Hh. step_run.
  change (failure (heard m s)) with (failure s). rewrite Hf, bool_decide_false by (by intros []).
  unfold repairPending. step_run. change (occRepair (heard m s)) with (occRepair s).
  rewrite Hr, bool_decide_true by done. by step_run.
Qed.

Lemma awaiting_drops_all flight ms s :
  awaiting flight s -> count_ready ms = 0 ->
  let s' := backend_run ms s in
  awaiting flight s' /\ view s' = view s /\ occSavepoint s' = occSavepoint s.
Proof.
  revert s. induction ms as [|m ms IH]; intros s Ha Hz; [done|].
  rewrite count_ready_cons in Hz. pose proof (count_ready_nonneg ms).
  destruct (is_tag m "Z") eqn:Hm; [lia|]. simpl. rewrite (awaiting_drops flight) by done.
  destruct (IH (heard m s) Ha ltac:(lia)) as (Ha' & Hv & Hs). by rewrite Hv, Hs.
Qed.

Lemma repair_starts flight z st s :
  awaiting flight s -> is_tag z "Z" = true -> rfq_decode (Body z) = Some st ->
  let s' := exec (backendMessage z) s in
  view s' = view (sent [restore_bytes s] (set_occDoomed true s)) /\
  exists p, running p (RestoreExchange false flight) s'.
Proof.
  intros (Hc & Hh & Hf & Hr) Hz Hd s'. subst s'.
  pose proof (is_tag_disjoint z "Z" "n" Hz eq_refl) as Hn. pose proof (is_tag_disjoint z "Z" "E" Hz eq_refl) as HE.
  pose proof (is_tag_disjoint z "Z" "S" Hz eq_refl) as HS.
  unfold exec. rewrite backendMessage_prefix, Hz, Hn, HE, HS.
  pose proof (ended_view (heard z s)) as Hv. pose proof (ended_frame (heard z s)) as (He & Hr1 & Hh1 & Hsp).
  set (s1 := exec endExchange (heard z s)) in *. clearbody s1.
  change (view (heard z s)) with (view s) in Hv. simpl in He, Hr1, Hh1, Hsp.
  assert (Hc1 : connected s1) by by eapply view_connected.
  injection Hv as Hv1 Hv2 Hv3 Hv4 Hv5 Hv6 Hv7 Hv8.
  unfold consumeHidden. step_run. rewrite Hh1, Hh. step_run. rewrite Hv5, Hf, bool_decide_false by (by intros []).
  step_run. unfold backendReady, takeJob, startRepair. step_run. rewrite Hd. step_run.
  unfold take_repair. change (occRepair (set_job None s1)) with (occRepair s1). rewrite Hr1, Hr. step_run.
  unfold restore_statement, restore_bytes. rewrite <- Hsp.
  set (s2 := set_txStatus _ _). change (occSavepoint s2) with (occSavepoint s1).
  assert (Hlook : forall l, (l ++ [RestoreExchange false flight]) !! length l = Some (RestoreExchange false flight)).
  { intros l. by rewrite lookup_app_r, Nat.sub_diag by lia. }
  destruct (occSavepoint s1); unfold setHidden; step_run; rewrite run_writeUpstreamExchange by done; step_run;
    cbn [when negb snd]; (split; [unfold view; simpl; by rewrite Hv1, Hv2, Hv4, Hv5, Hv6, Hv7, Hv8|]);
    eexists; (split_and!; [exact Hc1 | reflexivity | apply Hlook | done]).
Qed.

(** Messages that report no error leave an exchange unfailed. *)
Definition no_errors (ms : list Message) : Prop := Forall (fun m => is_tag m "E" = false) ms.

(** The number a count read off the rows: the first column of the last row that
    holds an integer. *)
Definition rows_of (rows : Z) (ms : list Message) : Z :=
  fold_left (fun rows m => match is_tag m "D", firstColumnInt m with true, Some n => n | _, _ => rows end)
    ms rows.

Lemma noted_restore ms r :
  no_errors ms -> foldl (fun h m => noted m h) (RestoreExchange false r) ms = RestoreExchange false r.
Proof. induction 1 as [|m ms Hm _ IH]; simpl; [done|]. by rewrite Hm. Qed.

Lemma noted_count ms r : forall rows,
  no_errors ms ->
  foldl (fun h m => noted m h) (CountExchange false rows r) ms = CountExchange false (rows_of rows ms) r.
Proof. induction ms as [|m ms IH]; intros rows H; [done|]. inversion H; subst. simpl. rewrite H2. by apply IH. Qed.

(** The statement that counts for a flight. *)
Definition count_bytes (flight : inFlight) (values : list (option bytes)) (fs : list Z) : bytes :=
  match values with
  | [] => simpleQuery (Shadow (intent flight))
  | _ => extendedQuery (Shadow (intent flight)) values fs []
  end.

(** A flight whose rows are counted by its shadow. *)
Definition counted (flight : inFlight) (values : list (option bytes)) (fs : list Z) : Prop :=
  Shadow (intent flight) <> EmptyString /\ Rowset (intent flight) = false /\
  shadowParams flight = Some (values, fs).

Lemma finish_connected p h z s :
  running p h s -> connected (set_hidden None (exec endExchange (heard z s))) /\
  exchanges (set_hidden None (exec endExchange (heard z s))) !! p = Some h.
Proof.
  intros (Hc & _ & Hp & _). split.
  - eapply (view_connected (heard z s)); [|done]. apply (ended_view (heard z s)).
  - destruct (ended_frame (heard z s)) as (He & _). simpl. by rewrite He.
Qed.

Lemma count_starts p flight values fs z s :
  running p (RestoreExchange false flight) s -> is_tag z "Z" = true -> counted flight values fs ->
  let s' := exec (backendMessage z) s in
  view s' = view (sent [count_bytes flight values fs] s) /\
  exists p', running p' (CountExchange false 0 flight) s'.
Proof.
  intros Hr Hz (Hsh & Hrs & Hps) s'. subst s'. rewrite (hidden_over p _ z s Hr Hz).
  destruct (finish_connected p _ z s Hr) as [Hc Hp].
  pose proof (ended_view (heard z s)) as Hv. change (view (heard z s)) with (view s) in Hv.
  set (s1 := exec endExchange (heard z s)) in *. clearbody s1.
  injection Hv as Hv1 Hv2 Hv3 Hv4 Hv5 Hv6 Hv7 Hv8.
  unfold exec, finish. step_run. rewrite Hp. unfold runShadow.
  rewrite (proj2 (String.eqb_neq _ _) Hsh), Hrs. unfold runCountShadow, writeShadow, setHidden. rewrite Hps.
  step_run. fold (count_bytes flight values fs). rewrite run_writeUpstreamExchange by done. step_run.
  cbn [negb when snd]. split; [unfold view; simpl; by rewrite Hv1, Hv2, Hv3, Hv4, Hv5, Hv6, Hv7, Hv8|].
  eexists. split_and!; [exact Hc | reflexivity | | done]. simpl. by rewrite lookup_app_r, Nat.sub_diag by lia.
Qed.

Lemma count_finishes p flight rows z s :
  running p (CountExchange false rows flight) s -> is_tag z "Z" = true ->
  let s' := exec (backendMessage z) s in
  view s' = view (told [encodeBackend (CommandComplete (CommandTag (intent flight) rows));
                        readyForQuery "T"] s) /\ hidden s' = None.
Proof.
  intros Hr Hz s'. subst s'. rewrite (hidden_over p _ z s Hr Hz).
  destruct (finish_connected p _ z s Hr) as [Hc Hp].
  pose proof (ended_view (heard z s)) as Hv. change (view (heard z s)) with (view s) in Hv.
  set (s1 := exec endExchange (heard z s)) in *. clearbody s1.
  injection Hv as Hv1 Hv2 Hv3 Hv4 Hv5 Hv6 Hv7 Hv8.
  unfold exec, finish. step_run. rewrite Hp. unfold completeRepair. step_run.
  rewrite run_tell by done. step_run. rewrite run_tell by by apply connected_told.
  rewrite told_told. step_run. cbn [snd].
  split; [unfold view; simpl; by rewrite Hv1, Hv2, Hv3, Hv4, Hv5, Hv6, Hv7, Hv8 | done].
Qed.

Lemma hidden_phase p h ms s :
  running p h s -> count_ready ms = 0 ->
  running p (foldl (fun h m => noted m h) h ms) (backend_run ms s) /\ view (backend_run ms s) = view s.
Proof. intros Hr Hz. destruct (hidden_messages ms p h s Hr Hz) as [Hq Hr']. split; [done | by apply quiet_view]. Qed.

(** A statement that is refused a lock inside a transaction is answered as
    though it had run, and the transaction is doomed.  Whatever the upstream says
    of the refused statement up to its ReadyForQuery is dropped; the transaction
    is restored, from the savepoint if it holds one and otherwise by being
    started again; the rows the statement would have changed are counted by its
    shadow; and the client receives only a CommandComplete with that count and a
    ReadyForQuery that reports an open transaction.  From then on the COMMIT
    fails. *)
Theorem refused_statement_deferred flight values fs s e ms1 z1 st ms2 z2 ms3 z3 :
  refusable flight s -> counted flight values fs -> is_conflict e ->
  count_ready ms1 = 0 -> is_tag z1 "Z" = true -> rfq_decode (Body z1) = Some st ->
  count_ready ms2 = 0 -> no_errors ms2 -> is_tag z2 "Z" = true ->
  count_ready ms3 = 0 -> no_errors ms3 -> is_tag z3 "Z" = true ->
  let s' := backend_run (e :: ms1 ++ [z1] ++ ms2 ++ [z2] ++ ms3 ++ [z3]) s in
  written (client s') = written (client s) ++
    [encodeBackend (CommandComplete (CommandTag (intent flight) (rows_of 0 ms3))); readyForQuery "T"] /\
  written (upstream s') = written (upstream s) ++ [restore_bytes s; count_bytes flight values fs] /\
  occDoomed s' = true /\ settled s' /\ trackerInTxn s' = true.
Proof.
  intros Href Hcnt He Hm1 Hz1 Hst Hm2 He2 Hz2 Hm3 He3 Hz3. cbv zeta.
  destruct (refused_taken flight e s Href He) as (Ha & Hv0 & Hsp0).
  change (backend_run (e :: ?l) s) with (backend_run l (exec (backendMessage e) s)).
  set (s0 := exec (backendMessage e) s) in *.
  destruct (awaiting_drops_all flight ms1 s0 Ha Hm1) as (Ha1 & Hv1 & Hsp1).
  rewrite !backend_run_app. set (s1 := backend_run ms1 s0) in *.
  destruct (repair_starts flight z1 st s1 Ha1 Hz1 Hst) as (Hv2 & p & Hr2).
  change (backend_run [z1] s1) with (exec (backendMessage z1) s1).
  set (s2 := exec (backendMessage z1) s1) in *.
  destruct (hidden_phase p _ ms2 s2 Hr2 Hm2) as (Hr3 & Hv3). rewrite noted_restore in Hr3 by done.
  set (s3 := backend_run ms2 s2) in *.
  destruct (count_starts p flight values fs z2 s3 Hr3 Hz2 Hcnt) as (Hv4 & p' & Hr4).
  change (backend_run [z2] s3) with (exec (backendMessage z2) s3). set (s4 := exec (backendMessage z2) s3) in *.
  destruct (hidden_phase p' _ ms3 s4 Hr4 Hm3) as (Hr5 & Hv5). rewrite noted_count in Hr5 by done.
  set (s5 := backend_run ms3 s4) in *.
  destruct (count_finishes p' flight _ z3 s5 Hr5 Hz3) as (Hv6 & Hh6).
  change (backend_run [z3] s5) with (exec (backendMessage z3) s5). set (s6 := exec (backendMessage z3) s5) in *.
  clearbody s0 s1 s2 s3 s4 s5 s6.
  assert (Hrb : restore_bytes s1 = restore_bytes s) by (unfold restore_bytes; by rewrite Hsp1, Hsp0).
  rewrite Hrb in Hv2. destruct Href as ((Hc & Hh & Hf & Hk & Hab) & _ & _ & _ & Hin & _).
  assert (Hv : view s6 = view (told [encodeBackend (CommandComplete (CommandTag (intent flight) (rows_of 0 ms3)));
                                     readyForQuery "T"]
            (sent [restore_bytes s; count_bytes flight values fs] (set_occDoomed true s)))).
  { rewrite Hv6. apply view_told. rewrite Hv5, Hv4.
    change [restore_bytes s; count_bytes flight values fs] with ([restore_bytes s] ++ [count_bytes flight values fs]).
    rewrite <- sent_sent. apply view_sent. rewrite Hv3, Hv2. apply view_sent, view_doomed. by rewrite Hv1. }
  injection Hv as Hw1 Hw2 Hw3 Hw4 Hw5 Hw6 Hw7 Hw8. unfold settled, connected, trackerInTxn in *.
  rewrite Hw1, Hw2, Hw3, Hw4, Hw5, Hw6, Hw8. simpl. destruct Hc. by split_and!.
Qed.

End conflicts.

(** ** Instances *)

Definition third_commit : OCCInjection := mkInjection "third" ["t"] 3.

Lemma injection_exact_witness :
  let counts := <[0%nat := 2]> ∅ : gmap nat Z in
  let r := inject_from 0 {["t"]} [third_commit] counts in
  r.1 = true /\ r.2 !! 0%nat = Some 3.
Proof.
  intros counts r.
  destruct (injection_exact {["t"]} [third_commit] 0 counts r.1 r.2 (surjective_pairing r)) as (Hh & Hc & _).
  split; [rewrite Hh; vm_compute; reflexivity|].
  etrans; [exact (Hc 0%nat third_commit eq_refl) | vm_compute; reflexivity].
Defined.

Lemma every_nth_commit_witness :
  commits 6 {["t"]} third_commit ∅ = [false; false; true; false; false; true] /\
  commits 6 {["t"]} third_commit ∅ !! 5%nat = Some true.
Proof.
  split; [vm_compute; reflexivity|].
  exact (every_nth_commit {["t"]} third_commit 6 5 eq_refl ltac:(lia) ltac:(lia)).
Defined.

(** An update inside a transaction, sent down after its savepoint. *)
Definition session_updating : session :=
  backend_run [complete "SAVEPOINT"; ready "T"]
    (exec (frontendMessage (query "UPDATE t SET a = 1")) session_in_txn).

Definition sample_flight : inFlight :=
  default (mkInFlight (mkIntent "" 0 "" false []) false [] [] []) (occInFlight session_updating).

(** The refusal and the answers to the repair and to the count. *)
Definition session_deferred : session :=
  backend_run (error "55P03" :: [] ++ [ready "E"] ++ [complete "ROLLBACK"] ++ [ready "T"] ++
               [message "T" []; message "D" (text_of "7"); complete "SELECT 1"] ++ [ready "T"]) session_updating.

Lemma refused_statement_deferred_witness :
  occDoomed session_deferred = true /\ settled session_deferred /\
  CommandTag (intent sample_flight) 7 = "UPDATE 7".
Proof.
  destruct (refused_statement_deferred sample_flight [] [] session_updating (error "55P03") [] (ready "E") "E"
      [complete "ROLLBACK"] (ready "T")
      [message "T" []; message "D" (text_of "7"); complete "SELECT 1"] (ready "T"))
    as (_ & _ & Hd & Hs & _).
  - vm_compute. repeat split.
  - split; [vm_compute; congruence | vm_compute; repeat split].
  - split; [reflexivity|]. eexists. split; reflexivity.
  - reflexivity.
  - reflexivity.
  - reflexivity.
  - reflexivity.
  - repeat constructor.
  - reflexivity.
  - reflexivity.
  - repeat constructor.
  - reflexivity.
  - split; [exact Hd|]. split; [exact Hs | vm_compute; reflexivity].
Defined.

Definition sample_commit : Result := default zero_result (classify false "COMMIT").

Definition session_committed : session :=
  backend_run ([complete "ROLLBACK"] ++ [ready "I"]) (exec (frontendMessage (query "COMMIT")) session_deferred).

Lemma doomed_commit_fails_witness :
  failure session_committed = None /\ txnAborted session_committed = false /\
  trackerInTxn session_committed = false.
Proof.
  pose proof (doomed_commit_fails (query "COMMIT") "COMMIT" sample_commit
    (Admit (Kinds sample_commit) (clock session_deferred) (tracker session_deferred)).2
    session_deferred [complete "ROLLBACK"] (ready "I")) as H.
  destruct H as (_ & _ & Hf & Ha & Ht); [vm_compute; repeat split..|].
  split; [exact Hf|]. split; [exact Ha|]. vm_compute. reflexivity.
Defined.
