(* ===== verification/Jobs.v ===== *)
(** * Asynchronous jobs

    The job id of an asynchronous statement is spliced into that statement's own
    result, wherever it stands among the statements of a simple query. *)

From Stdlib Require Import Ascii String Strings.Byte.
From stdpp Require Import base numbers strings gmap list relations.
From S2P Require Import Prelude GoStd Kind Txn Proto Ruleset Occ Wire Rewrite Proc State Session System Samples Failing Conflicts.

Local Open Scope Z_scope.
Local Open Scope proc_scope.

Lemma filter_all {A} (P : A -> Prop) `{!forall x, Decision (P x)} l : Forall P l -> filter P l = l.
Proof.
  induction 1 as [|x l Hx _ IH]; [done|]. by rewrite filter_cons_True, IH.
Qed.

Section jobs.
Context {PG : PgQuery} {PP : PgProto} {SC : StatementClassifier} {CF : Config}.

(** An asynchronous statement in flight, and nothing else of the emulator's. *)
Definition expecting (j : jobResult) (s : session) : Prop :=
  connected s /\ hidden s = None /\ failure s = None /\ occRepair s = None /\
  pendingCommandTag s = EmptyString /\ job s = Some j.

Definition completes (m : Message) : bool := is_tag m "C".

(** A message of a result: a CommandComplete, or one that is passed on as it is. *)
Definition of_result (m : Message) : Prop :=
  is_tag m "Z" = false /\ is_tag m "n" = false /\ is_tag m "E" = false /\ is_tag m "S" = false.

Definition count_complete (ms : list Message) : Z := Z.of_nat (length (List.filter completes ms)).

Definition jobs_left (j : jobResult) (n : Z) : jobResult := mkJob (described j) (jobID j) n.

(** What the client is told of a job. *)
Definition job_rows (j : jobResult) : list bytes :=
  (if described j then [] else [jobIDRowDescription]) ++ [jobIDDataRow (jobID j)].

Lemma run_backend_result msg j s :
  expecting j s -> of_result msg ->
  run (backendMessage msg) s = run (if completes msg then backendComplete msg else passOn msg) (heard msg s).
Proof.
  intros (Hc & Hh & Hf & Hr & _) (HZ & Hn & HE & HS). rewrite backendMessage_prefix, HZ.
  unfold consumeHidden. step_run. change (hidden (heard msg s)) with (hidden s). rewrite Hh. step_run.
  change (failure (heard msg s)) with (failure s). rewrite Hf, bool_decide_false by (by intros []).
  unfold repairPending. step_run. change (occRepair (heard msg s)) with (occRepair s).
  rewrite Hr, bool_decide_false by (by intros []). by rewrite Hn, HE, HS.
Qed.

Lemma result_before msg j s :
  expecting j s -> of_result msg -> (completes msg = true -> 0 < precedingTags j) ->
  let s' := exec (backendMessage msg) s in
  expecting (if completes msg then jobs_left j (precedingTags j - 1) else j) s' /\
  written (client s') = written (client s) ++ [Raw msg] /\ written (upstream s') = written (upstream s).
Proof.
  intros He Ho Hp s'. subst s'. unfold exec. rewrite (run_backend_result msg j) by done.
  destruct He as (Hc & Hh & Hf & Hr & Ht & Hj). destruct (completes msg).
  - unfold backendComplete, rewriteCommandTag, claimJob, passOn. step_run. unfold take_tag.
    change (pendingCommandTag (heard msg s)) with (pendingCommandTag s). rewrite Ht. step_run.
    change (String.eqb "" "") with true. step_run. unfold claim_job.
    change (job (set_pendingCommandTag _ (heard msg s))) with (job s). rewrite Hj.
    rewrite (proj2 (Z.ltb_lt _ _) (Hp eq_refl)). step_run. rewrite run_tell by done. cbn [snd].
    unfold expecting. by split_and!.
  - unfold passOn. rewrite run_tell by done. cbn [snd]. unfold expecting. by split_and!.
Qed.

Lemma results_before ms : forall j s,
  expecting j s -> Forall of_result ms -> count_complete ms <= precedingTags j ->
  let s' := backend_run ms s in
  expecting (jobs_left j (precedingTags j - count_complete ms)) s' /\
  written (client s') = written (client s) ++ map Raw ms /\ written (upstream s') = written (upstream s).
Proof.
  induction ms as [|m ms IH]; intros j s He Ho Hn.
  - unfold count_complete. simpl. rewrite Z.sub_0_r, app_nil_r. by destruct j.
  - inversion Ho as [|? ? Hm Hms]; subst.
    assert (Hcc : count_complete (m :: ms) = (if completes m then 1 else 0) + count_complete ms).
    { unfold count_complete. simpl. destruct (completes m); simpl; lia. }
    assert (0 <= count_complete ms) by (unfold count_complete; lia).
    rewrite Hcc in *. destruct (result_before m j s He Hm) as (He' & Hcl & Hup).
    { intros Hc. rewrite Hc in Hn. lia. }
    destruct (IH (if completes m then jobs_left j (precedingTags j - 1) else j) _ He' Hms) as (He'' & Hcl' & Hup').
    { destruct (completes m); simpl; lia. }
    simpl. rewrite Hcl', Hcl, <- app_assoc, Hup', Hup. split_and!; try done.
    destruct (completes m); simpl in He''.
    + replace (precedingTags j - (1 + count_complete ms)) with (precedingTags j - 1 - count_complete ms) by lia. done.
    + done.
Qed.

(** Behind as many CommandComplete messages as the job waits for, its row comes
    immediately before the next. *)
Lemma job_spliced_behind ms c j s :
  expecting j s -> Forall of_result ms -> count_complete ms = precedingTags j ->
  of_result c -> completes c = true ->
  let s' := backend_run (ms ++ [c]) s in
  written (client s') = written (client s) ++ map Raw ms ++ job_rows j ++ [Raw c] /\
  job s' = None /\ written (upstream s') = written (upstream s).
Proof.
  intros He Hms Hn Ho Hc s'. subst s'. rewrite backend_run_app.
  destruct (results_before ms j s He Hms ltac:(lia)) as (He' & Hcl & Hup).
  rewrite app_assoc, <- Hcl, <- Hup. set (s1 := backend_run ms s) in *. clearbody s1.
  rewrite Hn, Z.sub_diag in He'. change (backend_run [c] s1) with (exec (backendMessage c) s1).
  unfold exec. rewrite (run_backend_result c _ s1 He' Ho), Hc.
  destruct He' as (Hc1 & _ & _ & _ & Ht & Hj).
  unfold backendComplete, rewriteCommandTag, claimJob, passOn. step_run. unfold take_tag.
  change (pendingCommandTag (heard c s1)) with (pendingCommandTag s1). rewrite Ht.
  step_run. change (String.eqb "" "") with true. step_run. unfold claim_job.
  change (job (set_pendingCommandTag _ (heard c s1))) with (job s1). rewrite Hj.
  cbn [precedingTags jobs_left Z.ltb Z.compare]. step_run. unfold spliceJob. cbn [described jobs_left jobID].
  unfold job_rows. destruct (described j); cbn [negb when]; step_run.
  - rewrite run_tellClient by done. step_run. rewrite run_tell by by apply connected_told.
    rewrite told_told. done.
  - rewrite run_tellClient by done. step_run. rewrite run_tellClient by by apply connected_told. step_run.
    rewrite run_tell by by do 2 apply connected_told. by rewrite !told_told.
Qed.

(** ** From the client's query *)

(** Nothing of the emulator's own is under way, and the client's transaction is
    not failed. *)
Definition free (s : session) : Prop :=
  connected s /\ hidden s = None /\ failure s = None /\ occRepair s = None /\
  pendingCommandTag s = EmptyString /\ txnAborted s = false /\ skipSync s = false.

(** The stripped text is not refused: not by the ruleset, nor by the rules of the
    transaction it joins. *)
Definition async_let_through (rewritten : string) (s : session) : Prop :=
  match classify true rewritten with
  | Some r => Rejected (verdict r) = false /\ (Admit (async_kinds (Kinds r)) (clock s) (tracker s)).1 = None
  | None => (Admit [KindDDL] (clock s) (tracker s)).1 = None
  end.

(** The statements ahead of the [k]th of a text that are not empty. *)
Definition statements_ahead (tokens : list ScanToken) (k : nat) : list (list ScanToken) :=
  filter (fun stmt => stmt <> []) (take k (statements [] tokens)).

(** A simple query sent down marked with its job. *)
Lemma run_sendAsyncJob msg sql rewritten k kinds encoded s :
  connected s ->
  fe_encode (Query (jobMarker (newJobID (entropy (draws s))) +:+ rewritten)) = (encoded, false) ->
  run (sendAsyncJob msg (Query sql) rewritten k kinds) s =
    (tt, asked encoded (set_job (Some (mkJob false (newJobID (entropy (draws s))) (Z.of_nat k)))
                          (set_draws (S (draws s)) s))).
Proof.
  intros Hc He. unfold sendAsyncJob, drawJobID. step_run. cbn [with_text is_query]. rewrite He.
  step_run. by rewrite run_writeUpstreamExchange.
Qed.

Lemma run_forwardAsyncJob msg sql rewritten k encoded s :
  connected s -> txnAborted s = false -> async_let_through rewritten s ->
  fe_encode (Query (jobMarker (newJobID (entropy (draws s))) +:+ rewritten)) = (encoded, false) ->
  exists t,
    run (forwardAsyncJob msg (Query sql) rewritten k false) s =
      (tt, asked encoded (set_job (Some (mkJob false (newJobID (entropy (draws s))) (Z.of_nat k)))
                            (set_draws (S (draws s)) (set_tracker t s)))).
Proof.
  intros Hc Ha Hl He. unfold forwardAsyncJob, aborted. step_run. rewrite Ha. unfold async_let_through in Hl.
  assert (forall kinds, (Admit kinds (clock s) (tracker s)).1 = None -> exists t,
    run (admitAsyncJob msg (Query sql) rewritten k false kinds) s =
      (tt, asked encoded (set_job (Some (mkJob false (newJobID (entropy (draws s))) (Z.of_nat k)))
                            (set_draws (S (draws s)) (set_tracker t s))))) as Hadm.
  { intros kinds Hk. unfold admitAsyncJob, admitBatch. step_run.
    destruct (Admit kinds (clock s) (tracker s)) as [v t]. simpl in Hk. subst v. exists t. step_run.
    exact (run_sendAsyncJob msg sql rewritten k kinds encoded (set_tracker t s) Hc He). }
  destruct (classify true rewritten) as [r|]; [|by apply Hadm].
  destruct Hl as [-> Hk]. by apply Hadm.
Qed.

(** C21: The job id of an asynchronous statement is given with that statement's own
    result.  A simple query whose statement of ordinal [k] is its first with ASYNC,
    let through in a session with nothing of the emulator's own under way, goes
    up stripped and marked with a new id.  When none of the statements ahead of it
    is empty and the upstream completes each of them once, their results reach the
    client unaltered, and the id's row, described, comes immediately before the
    asynchronous statement's own CommandComplete; the job is then done. *)
Theorem job_spliced_in_place msg sql tokens rewritten k encoded ms c s :
  is_tag msg "Q" = true -> DecodeFrontend (Type_ msg) (Body msg) = Decoded (Query sql) ->
  pg_scan sql = Some tokens -> ordered 0 (len sql) tokens ->
  stripAsync sql = Some (Some (rewritten, k)) ->
  free s -> async_let_through rewritten s ->
  let id := newJobID (entropy (draws s)) in
  fe_encode (Query (jobMarker id +:+ rewritten)) = (encoded, false) ->
  Forall (fun stmt => stmt <> []) (take k (statements [] tokens)) ->
  Forall of_result ms -> count_complete ms = Z.of_nat (length (statements_ahead tokens k)) ->
  of_result c -> completes c = true ->
  let s1 := exec (frontendMessage msg) s in
  let s' := backend_run (ms ++ [c]) s1 in
  written (upstream s1) = written (upstream s) ++ [encoded] /\ written (client s1) = written (client s) /\
  written (client s') =
    written (client s) ++ map Raw ms ++ [jobIDRowDescription; jobIDDataRow id; Raw c] /\
  job s' = None /\ written (upstream s') = written (upstream s1).
Proof.
  intros Hq Hd Hs Ho Hk (Hc & Hh & Hf & Hr & Ht & Ha & Hsk) Hl id He Hne Hms Hn Hoc Hcc s1 s'.
  assert (Hlen : length (statements_ahead tokens k) = k).
  { destruct (stripAsync_correct sql tokens Hs Ho) as (r & Hr' & H). rewrite Hk in Hr'. injection Hr' as <-.
    destruct H as (_ & (stmt & Hstmt & _) & _). apply lookup_lt_Some in Hstmt.
    unfold statements_ahead. rewrite filter_all, length_take by done. lia. }
  rewrite Hlen in Hn.
  assert (exists t, s1 = batch_closed (asked encoded (set_job (Some (mkJob false id (Z.of_nat k)))
                      (set_draws (S (draws s)) (set_tracker t (received msg s)))))) as [t Hs1].
  { subst s1. unfold exec. rewrite run_frontend_query by done. cbn [snd]. unfold handleQuery. rewrite Hd, Hk.
    destruct (run_forwardAsyncJob msg sql rewritten k encoded (received msg s)) as [t Hrun]; [done..|].
    exists t. unfold exec. by rewrite Hrun. }
  assert (expecting (mkJob false id (Z.of_nat k)) s1) as Hexp by by rewrite Hs1.
  destruct (job_spliced_behind ms c _ s1 Hexp Hms Hn Hoc Hcc) as (Hcl & Hj & Hup).
  fold s' in Hcl, Hj, Hup. split_and!; [by rewrite Hs1 | by rewrite Hs1 | | done | done].
  rewrite Hcl, Hs1. done.
Qed.

End jobs.

(** An index built behind an ordinary statement of the same query. *)
Definition behind_select : Message := query behind_select_text.

Definition behind_select_job : string := newJobID (Some (repeat (to_byte 0) 16)).

Definition behind_select_marked : bytes :=
  frame "Q" (text_of (jobMarker behind_select_job +:+ "SELECT 1;CREATE INDEX ON t (a)")).

Lemma job_spliced_in_place_witness :
  let ms := [message "T" [x00]; message "D" [x01]; complete "SELECT 1"] in
  let s' := backend_run (ms ++ [complete "CREATE INDEX"])
              (exec (frontendMessage behind_select) session_started) in
  written (client s') = written (client session_started) ++ map Raw ms ++
    [jobIDRowDescription; jobIDDataRow behind_select_job; Raw (complete "CREATE INDEX")].
Proof.
  intros ms s'.
  destruct (job_spliced_in_place behind_select behind_select_text behind_select_scan
              "SELECT 1;CREATE INDEX ON t (a)" 1 behind_select_marked ms (complete "CREATE INDEX")
              session_started) as (_ & _ & H & _).
  1-13: try (vm_compute; reflexivity).
  - vm_compute. repeat split; congruence.
  - vm_compute. repeat split.
  - vm_compute. repeat split.
  - vm_compute. constructor; [discriminate | constructor].
  - repeat constructor.
  - vm_compute. repeat split.
  - exact H.
Defined.

(** An empty statement draws no CommandComplete but is counted by the ordinal: a
    job behind one waits for a completion that does not come, and its id is never
    told.  The client sees what the upstream sent and nothing else. *)
Lemma job_lost_behind_empty :
  let s := exec (frontendMessage (query empty_first_text)) session_started in
  let s' := backend_run [complete "CREATE INDEX"; ready "I"] s in
  option_map precedingTags (job s) = Some 1 /\
  written (client s') = written (client s) ++ [Raw (complete "CREATE INDEX"); Raw (ready "I")] /\
  job s' = None.
Proof. vm_compute. auto. Qed.
