(* ===== verification/Transparent.v ===== *)
(** * Passing traffic on

    With nothing of the emulator's own under way, what the upstream says reaches
    the client byte for byte and in order; and the messages of a client whose
    extended-query batch was refused are dropped up to its Sync, which alone
    reaches the upstream. *)

From Stdlib Require Import Ascii String Strings.Byte.
From stdpp Require Import base numbers strings gmap list relations.
From S2P Require Import Prelude GoStd Kind Txn Proto Ruleset Occ Wire Rewrite Proc State Session System Samples Failing Conflicts.

Local Open Scope Z_scope.
Local Open Scope proc_scope.

Section transparent.
Context {PG : PgQuery} {PP : PgProto} {SC : StatementClassifier} {CF : Config}.

(** Nothing of the emulator's own is under way at the backend. *)
Definition idle (s : session) : Prop :=
  connected s /\ hidden s = None /\ failure s = None /\ occRepair s = None /\ job s = None /\
  pendingCommandTag s = EmptyString.

(** An error that is not evidence of a conflict, and a parameter that is not the
    server's version. *)
Definition plain_error (m : Message) : Prop :=
  match error_decode (Body m) with Some er => IsConflict (ErrCode er) = false | None => True end.

Definition plain_status (m : Message) : Prop :=
  serverVersion = EmptyString \/
  match status_decode (Body m) with Some (name, _) => name <> "server_version" | None => True end.

Definition uninteresting (m : Message) : Prop :=
  (is_tag m "E" = true -> plain_error m) /\ (is_tag m "S" = true -> plain_status m).

(** The client was told the message and the upstream nothing. *)
Definition passed (m : Message) (s s' : session) : Prop :=
  idle s' /\ written (client s') = written (client s) ++ [Raw m] /\ written (upstream s') = written (upstream s).

Lemma passOn_passed m s s' :
  idle s' -> client s' = client s -> upstream s' = upstream s -> passed m s (run (passOn m) s').2.
Proof.
  intros Hi Ec Eu. unfold passOn. rewrite run_tell by apply Hi. unfold passed. simpl. by rewrite Ec, Eu.
Qed.

(** Noting a message leaves nothing under way but the exchange it may end. *)
Lemma heard_idle m s :
  idle s -> let s1 := if is_tag m "Z" then exec endExchange (heard m s) else heard m s in
  idle s1 /\ client s1 = client s /\ upstream s1 = upstream s.
Proof.
  intros (Hc & Hh & Hf & Hr & Hj & Ht) s1. unfold s1. destruct (is_tag m "Z"); [|by repeat split; try apply Hc].
  unfold exec, endExchange. step_run. destruct (0 <? _); by repeat split; try apply Hc.
Qed.

(** What follows the noting: an answer under way goes to no repair, no failure
    and no hidden exchange. *)
Lemma idle_ready m s : idle s -> passed m s (run (backendReady m) s).2.
Proof.
  intros (Hc & Hh & Hf & Hr & Hj & Ht). unfold backendReady, takeJob, startRepair. step_run.
  destruct (rfq_decode (Body m)) as [st|]; [|by apply passOn_passed; repeat split; try apply Hc]. step_run.
  unfold take_repair. change (occRepair (set_job None s)) with (occRepair s). rewrite Hr. step_run.
  unfold noteTxStatus. destruct (Byte.eqb st "I"); cbn [when]; step_run;
    apply passOn_passed; by repeat split; try apply Hc.
Qed.

Lemma idle_rowless m s : idle s -> passed m s (run (backendRowless m) s).2.
Proof.
  intros Hi. pose proof Hi as (_ & _ & _ & _ & Hj & _). unfold backendRowless, markJobDescribed. step_run.
  rewrite Hj. step_run. by apply passOn_passed.
Qed.

Lemma idle_error m s : idle s -> plain_error m -> passed m s (run (backendError m) s).2.
Proof.
  intros (Hc & Hh & Hf & Hr & Hj & Ht) HE. unfold plain_error in HE.
  unfold backendError, takeJob, occIntercept, rewriteConflictError. step_run. destruct (conflictError _) as [c msg].
  destruct (error_decode (Body m)) as [er|]; [rewrite HE; cbn [negb]|]; step_run;
    (apply passOn_passed; by repeat split; try apply Hc).
Qed.

Lemma idle_status m s : idle s -> plain_status m -> passed m s (run (backendStatus m) s).2.
Proof.
  intros Hi HS. unfold backendStatus, rewriteParameterStatus.
  destruct HS as [Hsv|Hn]; [rewrite Hsv; change (String.eqb "" "") with true; step_run; by apply passOn_passed|].
  destruct (String.eqb serverVersion ""); [step_run; by apply passOn_passed|].
  destruct (status_decode (Body m)) as [[name v]|]; [|step_run; by apply passOn_passed].
  rewrite (proj2 (String.eqb_neq _ _) Hn). cbn [negb]. step_run. by apply passOn_passed.
Qed.

Lemma idle_complete m s : idle s -> passed m s (run (backendComplete m) s).2.
Proof.
  intros (Hc & Hh & Hf & Hr & Hj & Ht). unfold backendComplete, rewriteCommandTag, claimJob. step_run.
  unfold take_tag. rewrite Ht. step_run. change (String.eqb "" "") with true. step_run. unfold claim_job.
  change (job (set_pendingCommandTag _ s)) with (job s). rewrite Hj. step_run.
  apply passOn_passed; by repeat split; try apply Hc.
Qed.

Lemma backend_idle m s :
  idle s -> uninteresting m -> passed m s (exec (backendMessage m) s).
Proof.
  intros Hi [HE HS]. unfold exec. rewrite backendMessage_prefix.
  destruct (heard_idle m s Hi) as (Hi1 & Hcl & Hup). cbv zeta in *.
  generalize dependent (if is_tag m "Z" then exec endExchange (heard m s) else heard m s).
  intros s1 Hi1 Hcl Hup. unfold passed. rewrite <- Hcl, <- Hup. fold (passed m s1).
  pose proof Hi1 as (_ & Hh1 & Hf1 & Hr1 & _).
  unfold consumeHidden. step_run. rewrite Hh1. step_run. rewrite Hf1, bool_decide_false by (by intros []).
  destruct (is_tag m "Z") eqn:HZ.
  - rewrite (is_tag_disjoint m "Z" "n" HZ eq_refl), (is_tag_disjoint m "Z" "E" HZ eq_refl),
      (is_tag_disjoint m "Z" "S" HZ eq_refl). step_run. by apply idle_ready.
  - unfold repairPending. step_run. rewrite Hr1, bool_decide_false by (by intros []).
    destruct (is_tag m "n"); [|destruct (is_tag m "E") eqn:HEt; [|destruct (is_tag m "S") eqn:HSt;
      [|destruct (is_tag m "C")]]].
    + by apply idle_rowless.
    + apply idle_error; auto.
    + apply idle_status; auto.
    + by apply idle_complete.
    + by apply passOn_passed.
Qed.

(** C19: With nothing of the emulator's own under way the backend pump is a wire.
    Whatever sequence of messages the upstream sends, short of a conflict error
    or a report of the server's version, the client receives those messages
    unaltered, all of them and in order, and the upstream is sent nothing. *)
Theorem idle_backend_transparent ms s :
  idle s -> Forall uninteresting ms ->
  let s' := backend_run ms s in
  written (client s') = written (client s) ++ map Raw ms /\
  written (upstream s') = written (upstream s) /\ idle s'.
Proof.
  intros Hi Hms s'. subst s'. revert s Hi. induction Hms as [|m ms Hm _ IH]; intros s Hi; simpl.
  - by rewrite app_nil_r.
  - destruct (backend_idle m s Hi Hm) as (Hi' & Hcl & Hup). destruct (IH _ Hi') as (Hcl' & Hup' & Hi'').
    rewrite Hcl', Hup', Hcl, Hup, <- app_assoc. done.
Qed.

(** ** Up to the Sync *)

Definition frontend_run (ms : list Message) (s : session) : session :=
  fold_left (fun s m => exec (frontendMessage m) s) ms s.

Lemma frontend_dropped m s :
  skipSync s = true -> is_tag m "S" = false -> is_tag m "X" = false ->
  exec (frontendMessage m) s = received m s.
Proof.
  intros Hk HS HX. unfold exec, frontendMessage. step_run. rewrite HX, HS. step_run.
  change (skipSync (set_fromClient _ s)) with (skipSync s). rewrite Hk. by step_run.
Qed.

Lemma frontend_dropped_all ms : forall s,
  skipSync s = true -> Forall (fun m => is_tag m "S" = false /\ is_tag m "X" = false) ms ->
  frontend_run ms s = set_fromClient (fromClient (frontend_run ms s)) s.
Proof.
  induction ms as [|m ms IH]; intros s Hk Hms; [by destruct s|].
  inversion Hms as [|? ? [HS HX] Hrest]; subst. simpl. rewrite frontend_dropped by done.
  rewrite IH at 1 by done. by destruct s.
Qed.

(** What the Sync of a refused batch does. *)
Lemma batch_settles ms sync s :
  connected s -> skipSync s = true ->
  Forall (fun m => is_tag m "S" = false /\ is_tag m "X" = false) ms -> is_tag sync "S" = true ->
  let s' := frontend_run (ms ++ [sync]) s in
  written (client s') = written (client s) /\
  skipSync s' = false /\ pendingFailure s' = None /\ extendedBatchOpen s' = false /\
  connected s' /\ hidden s' = hidden s /\ tracker s' = tracker s /\
  written (upstream s') = written (upstream s) ++
    Raw sync :: match pendingFailure s with Some f => [statement f] | None => [] end /\
  match pendingFailure s with
  | Some f => failure s' = Some f /\ failureRFQs s' = 0 /\ txnAborted s' = Byte.eqb (status f) "E"
  | None => failure s' = failure s /\ txnAborted s' = txnAborted s
  end.
Proof.
  intros Hc Hk Hms HS s'. subst s'. unfold frontend_run. rewrite fold_left_app. fold (frontend_run ms s).
  rewrite (frontend_dropped_all ms s Hk Hms). generalize (fromClient (frontend_run ms s)). intros n.
  pose proof (is_tag_disjoint sync "S" "X" HS eq_refl) as HX. pose proof (is_tag_disjoint sync "S" "Q" HS eq_refl) as HQ.
  assert (Ht : Type_ sync = "S"%byte) by by apply Byte.byte_dec_bl.
  cbn [fold_left]. unfold exec, frontendMessage. step_run. rewrite HX, HS. step_run. unfold handleSync. step_run.
  rewrite run_forward by done. rewrite HS, orb_true_r. step_run.
  change (pendingFailure (set_fromClient _ _)) with (pendingFailure s).
  destruct (pendingFailure s) as [f|]; step_run.
  - rewrite run_beginFailure by done. step_run. unfold noteBatchState. rewrite Ht. cbn -[app].
    rewrite <- app_assoc. by destruct f.
  - unfold noteBatchState. rewrite Ht. cbn -[app]. done.
Qed.

End transparent.

(** ** Instances *)

Lemma idle_backend_transparent_witness :
  let ms := [complete "SELECT 1"; ready "I"] in
  idle session_started /\
  written (client (backend_run ms session_started)) = written (client session_started) ++ map Raw ms.
Proof.
  intros ms. assert (Hi : idle session_started) by (vm_compute; repeat split).
  split; [exact Hi|].
  apply (idle_backend_transparent ms session_started Hi).
  apply Forall_cons_2; [|apply Forall_cons_2; [|apply Forall_nil_2]];
    (split; intros H; vm_compute in H; discriminate H).
Defined.
