(* ===== verification/Batches.v ===== *)
(** * Extended-query batches

    A simple query written into an open batch would destroy the unnamed prepared
    statement the client is building.  While one is open, no message of the
    client's makes the session write anything but that message or its
    replacement. *)

From Stdlib Require Import Ascii String Strings.Byte.
From stdpp Require Import base numbers strings gmap list relations.
From S2P Require Import Prelude GoStd Kind Txn Proto Ruleset Occ Wire Rewrite Proc State Session System Samples Failing Conflicts.

Local Open Scope Z_scope.
Local Open Scope proc_scope.

Create HintDb untouching.

Section batches.
Context {PG : PgQuery} {PP : PgProto} {SC : StatementClassifier} {CF : Config}.

Section untouching.
Variable chunks : list bytes.

(** The batch is open and nothing more was written. *)
Definition untouched (s : session) : Prop :=
  written (upstream s) = chunks /\ extendedBatchOpen s = true.

Abbreviation untouching p := (safe untouched p (fun _ => True)) (only parsing).

Lemma untouching_frame (f : session -> session) :
  (forall s, upstream (f s) = upstream s /\ extendedBatchOpen (f s) = extendedBatchOpen s) -> untouching (modify f).
Proof. intros H. apply safe_modify. intros s [H1 H2]. destruct (H s) as [E1 E2]. split; congruence. Qed.

Lemma untouching_locked {X} (f : session -> X * session) :
  (forall s, upstream (f s).2 = upstream s /\ extendedBatchOpen (f s).2 = extendedBatchOpen s) -> untouching (locked f).
Proof.
  intros H. apply safe_locked. intros s [H1 H2]. destruct (H s) as [E1 E2]. split; [|done]. split; congruence.
Qed.

Lemma untouching_bind {A B} (p : proc session A) (q : A -> proc session B) :
  untouching p -> (forall a, untouching (q a)) -> untouching (bind p q).
Proof. intros Hp Hq. eapply safe_bind; [exact Hp | auto]. Qed.

Lemma untouching_writeClient b : untouching (writeClient b).
Proof. apply untouching_locked. intros s. by destruct (conn_write b (client s)). Qed.

Lemma untouching_get {X} (f : session -> X) : untouching (get f).
Proof. by apply safe_get. Qed.

Lemma untouching_admit kinds : untouching (admitBatch kinds).
Proof. apply untouching_locked. intros s. by destruct (Admit _ _ _). Qed.

Hint Resolve untouching_writeClient untouching_get untouching_admit : untouching.

Ltac follow_untouching :=
  repeat first
    [ exact Logic.I
    | solve [eauto 3 with untouching]
    | match goal with
      | |- safe _ (bind _ _) _ => apply untouching_bind; [|intros ?]
      | |- safe _ (when ?b _) _ => destruct b; cbn [when]
      | |- safe _ (modify _) _ => apply untouching_frame; intros ?; solve [repeat case_match; done]
      | |- safe _ (match ?x with _ => _ end) _ => destruct x eqn:?
      end ].

Lemma untouching_reject c m : untouching (reject c m true).
Proof. unfold reject, sendError, failTxn, deferFailure. follow_untouching. Qed.

Lemma untouching_rejectFailed : untouching (rejectFailed true).
Proof. unfold rejectFailed, sendError. follow_untouching. Qed.

Lemma untouching_endAborted : untouching endAborted.
Proof. unfold endAborted, resetOcc. follow_untouching. Qed.

Lemma untouching_commit_fails : untouching commit_fails.
Proof.
  unfold commit_fails, occCommitConflict. follow_untouching.
  apply untouching_locked. intros s. unfold commit_conflict. by destruct (inject_from _ _ _ _).
Qed.

(** The savepoint is not taken while a batch is open. *)
Lemma untouching_establishSavepoint : untouching establishSavepoint.
Proof.
  unfold establishSavepoint. eapply (safe_bind _ _ _ (fun known => known <> None)).
  - apply safe_locked. intros s [H1 H2]. unfold claim_savepoint. rewrite H2, orb_true_r.
    destruct (occSavepoint s); split; done.
  - intros [r|] Hk; [exact Logic.I | done].
Qed.

Hint Resolve untouching_reject untouching_rejectFailed untouching_endAborted untouching_commit_fails
  untouching_establishSavepoint : untouching.

Lemma untouching_armAdjudicator i bind : untouching (armAdjudicator i bind).
Proof. unfold armAdjudicator, setInFlight, savepointReady. follow_untouching. Qed.

Lemma untouching_afterAdmit kinds tables i bind : untouching (afterAdmit kinds tables i bind true).
Proof.
  unfold afterAdmit, addOccTables, countTxnStatement, resetOcc, occFailure, sendError, failTxn, deferFailure.
  pose proof untouching_armAdjudicator. unfold resetOcc. follow_untouching.
Qed.

Lemma untouching_rewriteSQL sql : untouching (rewriteSQL sql).
Proof. unfold rewriteSQL. follow_untouching. Qed.

Lemma untouching_drawJobID : untouching drawJobID.
Proof. by apply untouching_locked. Qed.

Lemma untouching_set_statement name info : untouching (set_statement name info).
Proof. by apply untouching_frame. Qed.

Lemma untouching_delete_statement name : untouching (delete_statement name).
Proof. by apply untouching_frame. Qed.

Hint Resolve untouching_afterAdmit untouching_rewriteSQL untouching_drawJobID untouching_set_statement
  untouching_delete_statement : untouching.

(** ** At most one write *)

(** Nothing is written, or one chunk [ok] allows. *)
Definition one_write (ok : bytes -> Prop) (s : session) : Prop :=
  written (upstream s) = chunks \/ exists b, ok b /\ written (upstream s) = chunks ++ [b].

Definition writes_one {A} (ok : bytes -> Prop) (p : proc session A) : Prop :=
  forall s, untouched s -> one_write ok (exec p s).

Lemma writes_one_untouching {A} ok (p : proc session A) : untouching p -> writes_one ok p.
Proof. intros Hp s Hs. left. by destruct (safe_run _ p _ s Hp Hs) as [[Hw _] _]. Qed.

Lemma writes_one_bind {A B} ok (p : proc session A) (q : A -> proc session B) :
  untouching p -> (forall a, writes_one ok (q a)) -> writes_one ok (bind p q).
Proof.
  intros Hp Hq s Hs. rewrite exec_bind. apply Hq. by destruct (safe_run _ p _ s Hp Hs).
Qed.

Lemma conn_write_one ok b c :
  written c = chunks -> ok b ->
  written (conn_write b c).2 = chunks \/ exists b', ok b' /\ written (conn_write b c).2 = chunks ++ [b'].
Proof. intros Hw Hb. unfold conn_write. destruct (closed_ c); [by left|]. right. exists b. simpl. by rewrite Hw. Qed.

Lemma writes_one_writeUpstream (ok : bytes -> Prop) b : ok b -> writes_one ok (do! writeUpstream b; skip).
Proof.
  intros Hb s [Hw _]. unfold exec. step_run. rewrite run_writeUpstream. step_run. simpl.
  by apply conn_write_one.
Qed.

Lemma writes_one_forward (ok : bytes -> Prop) msg : ok (Raw msg) -> writes_one ok (forward msg).
Proof.
  intros Hb s [Hw _]. unfold exec, forward, beginExchange.
  destruct (is_tag msg "Q" || is_tag msg "S"); cbn [when]; step_run; rewrite run_writeUpstream; step_run;
    destruct (negb _); cbn [when]; unfold close; step_run; simpl; by apply conn_write_one.
Qed.

Hint Resolve writes_one_untouching writes_one_forward writes_one_writeUpstream : untouching.

Ltac follow_one :=
  repeat first
    [ solve [eauto 4 with untouching]
    | solve [apply writes_one_untouching; follow_untouching]
    | match goal with
      | |- writes_one _ (bind _ _) => apply writes_one_bind; [solve [follow_untouching] | intros ?]
      | |- writes_one _ (when ?b _) => destruct b; cbn [when]
      | |- writes_one _ (match ?x with _ => _ end) => destruct x eqn:?
      end ].

(** A message, or what replaces it. *)
Definition itself (msg : Message) (b : bytes) : Prop :=
  b = Raw msg \/ exists name sql oids, b = (fe_encode (Parse name sql oids)).1.

Lemma one_sendAsyncJob msg name sql oids rewritten stmt kinds :
  writes_one (itself msg) (sendAsyncJob msg (Parse name sql oids) rewritten stmt kinds).
Proof.
  assert (Hraw : itself msg (Raw msg)) by by left. unfold sendAsyncJob. cbn [with_text is_query].
  apply writes_one_bind; [apply untouching_drawJobID|]. intros id.
  assert (Hp : itself msg (fe_encode (Parse name (jobMarker id +:+ rewritten) oids)).1) by (right; by eexists _, _, _).
  destruct (fe_encode _) as [encoded []]; simpl in Hp; follow_one.
Qed.

Lemma one_parseClassified msg name sql oids r :
  writes_one (itself msg) (parseClassified msg name sql oids r).
Proof.
  assert (Hraw : itself msg (Raw msg)) by by left. unfold parseClassified.
  destruct (Rejected (verdict r)); [follow_one|]. apply writes_one_bind; [apply untouching_rewriteSQL|].
  intros [text|]; [|unfold parseRemembered; follow_one].
  assert (Hp : itself msg (fe_encode (Parse name text oids)).1) by (right; by eexists _, _, _).
  destruct (fe_encode (Parse name text oids)) as [encoded []]; simpl in Hp; unfold parseRemembered; follow_one.
Qed.

Lemma untouching_panic : untouching panic.
Proof. by apply safe_modify. Qed.

Hint Resolve one_sendAsyncJob one_parseClassified untouching_panic : untouching.

Lemma one_forwardAsyncJob msg name sql oids rewritten stmt :
  writes_one (itself msg) (forwardAsyncJob msg (Parse name sql oids) rewritten stmt true).
Proof. unfold forwardAsyncJob, admitAsyncJob, aborted. follow_one. Qed.

Hint Resolve one_forwardAsyncJob : untouching.

Lemma one_handleParse msg : writes_one (itself msg) (handleParse msg).
Proof.
  assert (Hraw : itself msg (Raw msg)) by by left.
  unfold handleParse, parseAborted, aborted. follow_one.
Qed.

Lemma one_handleBind msg : writes_one (itself msg) (handleBind msg).
Proof.
  assert (Hraw : itself msg (Raw msg)) by by left.
  unfold handleBind, bindKnown, aborted, restoreJob. follow_one.
Qed.

Lemma one_handleClose msg : writes_one (itself msg) (handleClose msg).
Proof. assert (Hraw : itself msg (Raw msg)) by by left. unfold handleClose. follow_one. Qed.

End untouching.

Lemma one_write_frame chunks ok s s' :
  upstream s' = upstream s -> one_write chunks ok s -> one_write chunks ok s'.
Proof. unfold one_write. by intros ->. Qed.

(** C12: Nothing is injected into an extended-query batch.  While the client's
    batch is open, each message it sends that is not a Query or a Sync makes the
    session write at most one chunk to the upstream, and that chunk is the
    message itself or the Parse that replaces it: never a statement of the
    emulator's own. *)
Theorem no_injection_in_batch msg s :
  extendedBatchOpen s = true -> is_tag msg "Q" = false -> is_tag msg "S" = false ->
  let s' := exec (frontendMessage msg) s in
  written (upstream s') = written (upstream s) \/
  exists b, itself msg b /\ written (upstream s') = written (upstream s) ++ [b].
Proof.
  intros Hb HQ HS s'. subst s'. set (chunks := written (upstream s)).
  assert (Hs : untouched chunks (received msg s)) by done.
  assert (Hraw : itself msg (Raw msg)) by by left.
  fold (one_write chunks (itself msg) (exec (frontendMessage msg) s)).
  unfold exec, frontendMessage. step_run. fold (received msg s). rewrite HQ, HS.
  destruct (is_tag msg "X").
  - step_run. rewrite run_writeUpstream. step_run. cbn [snd]. unfold one_write. simpl.
    by apply conn_write_one.
  - step_run. destruct (skipSync (received msg s)); [by left|].
    assert (Hend : forall p : proc session unit, writes_one chunks (itself msg) p ->
              one_write chunks (itself msg) (run (do! p; do! noteBatchState (Type_ msg); Ret true) (received msg s)).2).
    { intros p Hp. rewrite run_bind. specialize (Hp _ Hs). unfold exec in Hp.
      destruct (run p (received msg s)) as [[] s1]. simpl in Hp. step_run. unfold noteBatchState.
      destruct (tag_in _ _); [by step_run|]. destruct (tag_in _ _); by step_run. }
    destruct (is_tag msg "P"); [apply Hend, one_handleParse|].
    destruct (is_tag msg "B"); [apply Hend, one_handleBind|].
    destruct (is_tag msg "C"); [apply Hend, one_handleClose|]. by apply Hend, writes_one_forward.
Qed.

End batches.

(** An update parsed inside a transaction, whose batch is then open. *)
Definition session_in_batch : session :=
  exec (frontendMessage (parse "UPDATE t SET a = 1")) session_in_txn.

Lemma no_injection_in_batch_witness :
  let s' := exec (frontendMessage bind_unnamed) session_in_batch in
  extendedBatchOpen session_in_batch = true /\
  (written (upstream s') = written (upstream session_in_batch) \/
   exists b, itself bind_unnamed b /\ written (upstream s') = written (upstream session_in_batch) ++ [b]).
Proof.
  intros s'. split; [vm_compute; reflexivity|].
  apply (no_injection_in_batch bind_unnamed session_in_batch); vm_compute; reflexivity.
Defined.
