(* ===== verification/Synchrony.v ===== *)
(** * One answer per request

    A client of the protocol counts ReadyForQuery messages: one ends each simple
    query and each extended-query batch.  What the emulator says on its own
    behalf, its savepoints, restores, shadows and injected failures, must leave
    that count alone.  Here the handlers are followed by a ledger, what the two
    pumps keep about requests outstanding. *)

From Stdlib Require Import Ascii String Strings.Byte.
From stdpp Require Import base numbers strings gmap list relations.
From S2P Require Import Prelude GoStd Kind Txn Proto Ruleset Occ Wire Rewrite Proc State Session System Samples Failing Conflicts Transparent.

Local Open Scope Z_scope.
Local Open Scope proc_scope.

(** A chunk written to the client that is a ReadyForQuery. *)
Definition is_ready (b : bytes) : bool :=
  match b with t :: _ => Byte.eqb t "Z" | [] => false end.

(** How many of them a client was told. *)
Definition readies (bs : list bytes) : nat := length (List.filter is_ready bs).

(** The codec puts the type of a message first, so a client can tell a
    ReadyForQuery from anything else. *)
Class TaggedCodec `{PgProto} : Prop := {
  ready_tagged : forall st, is_ready (be_encode (ReadyForQuery st)).1 = true;
  others_tagged : forall m, (forall st, m <> ReadyForQuery st) -> is_ready (be_encode m).1 = false;
}.

(** The scanner reports its tokens in order and inside the text. *)
Class OrderedScanner `{PgQuery} : Prop :=
  scanner_ordered : forall sql tokens,
    pg_scan sql = Some tokens -> ordered 0 (Z.of_nat (String.length sql)) tokens.

(** ** The ledger *)

(** What was answered; a failure under way, with the answers it swallows and
    those gone by; one deferred to the Sync; whether the batch is being dropped;
    the exchange under way; whether a repair waits; and what is outstanding. *)
Record ledger := mkLedger {
  answered : nat;
  underway : option (Z * Z);
  deferred : option Z;
  dropping : bool;
  own : option (option hiddenExchange);
  repairing : bool;
  outstanding : Z;
}.

Definition own_exchange (s : session) : option (option hiddenExchange) :=
  (fun p => exchanges s !! p) <$> hidden s.

Definition ledger_of (s : session) : ledger :=
  mkLedger (readies (written (client s)))
    ((fun f => (swallow f, failureRFQs s)) <$> failure s)
    (swallow <$> pendingFailure s) (skipSync s) (own_exchange s)
    (bool_decide (is_Some (occRepair s))) (pendingExchanges s).

(** Running [p] from a connected session with ledger [L] keeps it connected and
    ends as [Q] says. *)
Definition goes {A} (L : ledger) (p : proc session A) (Q : A -> ledger -> Prop) : Prop :=
  forall s, connected s -> ledger_of s = L ->
    connected (run p s).2 /\ Q (run p s).1 (ledger_of (run p s).2).

(** A handler that leaves the ledger alone. *)
Definition silent {A} (p : proc session A) : Prop := forall L, goes L p (fun _ L' => L' = L).

Section rules.
Context {A B : Type}.
Implicit Types (p : proc session A) (q : A -> proc session B).

Lemma goes_ret L (a : A) (Q : A -> ledger -> Prop) : Q a L -> goes L (Ret a) Q.
Proof. by intros HQ s Hc <-. Qed.

Lemma goes_bind L p q (Q : B -> ledger -> Prop) :
  goes L p (fun a L' => goes L' (q a) Q) -> goes L (bind p q) Q.
Proof.
  intros H s Hc HL. rewrite run_bind. destruct (H s Hc HL) as [Hc' H'].
  destruct (run p s) as [a s']. by apply H'.
Qed.

Lemma goes_weaken L p (Q Q' : A -> ledger -> Prop) :
  goes L p Q -> (forall a L', Q a L' -> Q' a L') -> goes L p Q'.
Proof. intros H HQ s Hc HL. destruct (H s Hc HL). split; [done | by apply HQ]. Qed.

Lemma goes_silent L p (Q : A -> ledger -> Prop) : silent p -> (forall a, Q a L) -> goes L p Q.
Proof. intros H HQ. eapply goes_weaken; [apply H|]. by intros a L' ->. Qed.

Lemma silent_bind p q : silent p -> (forall a, silent (q a)) -> silent (bind p q).
Proof. intros Hp Hq L. apply goes_bind, goes_silent; [done|]. intros a. apply Hq. Qed.

Lemma silent_ret (a : A) : silent (Ret a : proc session A).
Proof. intros L. by apply goes_ret. Qed.

Lemma silent_get (f : session -> A) : silent (get f).
Proof. by intros L s Hc <-. Qed.

Lemma silent_locked (f : session -> A * session) :
  (forall s, connected s -> connected (f s).2 /\ ledger_of (f s).2 = ledger_of s) -> silent (locked f).
Proof. intros H L s Hc <-. rewrite run_locked. by apply H. Qed.
End rules.

Lemma silent_modify (f : session -> session) :
  (forall s, connected s -> connected (f s) /\ ledger_of (f s) = ledger_of s) -> silent (modify f).
Proof. intros H L s Hc <-. rewrite run_modify. by apply H. Qed.

Lemma silent_when b p : silent p -> silent (when b p).
Proof. intros H. destruct b; [done | apply silent_ret]. Qed.

Lemma goes_modify L (f : session -> session) (Q : unit -> ledger -> Prop) :
  (forall s, connected s -> ledger_of s = L -> connected (f s) /\ Q tt (ledger_of (f s))) ->
  goes L (modify f) Q.
Proof. intros H s Hc HL. rewrite run_modify. by apply H. Qed.

Lemma goes_send L b (Q : bool -> ledger -> Prop) : Q true L -> goes L (writeUpstream b) Q.
Proof. intros HQ s Hc <-. by rewrite run_send. Qed.

Lemma readies_app a b : readies (a ++ b) = (readies a + readies b)%nat.
Proof. unfold readies. by rewrite List.filter_app, length_app. Qed.

Lemma ledger_told b s :
  ledger_of (told [b] s) =
    if is_ready b then mkLedger (S (answered (ledger_of s))) (underway (ledger_of s)) (deferred (ledger_of s))
      (dropping (ledger_of s)) (own (ledger_of s)) (repairing (ledger_of s)) (outstanding (ledger_of s))
    else ledger_of s.
Proof.
  unfold ledger_of. simpl. rewrite readies_app. unfold readies at 2. simpl.
  destruct (is_ready b); simpl; f_equal; lia.
Qed.

Lemma goes_tell L b (Q : bool -> ledger -> Prop) :
  is_ready b = false -> Q true L -> goes L (writeClient b) Q.
Proof. intros Hb HQ s Hc <-. rewrite run_tell by done. simpl. by rewrite ledger_told, Hb. Qed.

Lemma goes_tell_ready L b (Q : bool -> ledger -> Prop) :
  is_ready b = true ->
  Q true (mkLedger (S (answered L)) (underway L) (deferred L) (dropping L) (own L) (repairing L) (outstanding L)) ->
  goes L (writeClient b) Q.
Proof. intros Hb HQ s Hc <-. rewrite run_tell by done. simpl. by rewrite ledger_told, Hb. Qed.

Lemma silent_send b : silent (writeUpstream b).
Proof. intros L. by apply goes_send. Qed.

Lemma silent_tell b : is_ready b = false -> silent (writeClient b).
Proof. intros Hb L. by apply goes_tell. Qed.

(** Follow a handler that leaves the ledger alone, step by step. *)
Ltac silently :=
  repeat first
    [ assumption
    | match goal with
      | |- silent (bind _ _) => apply silent_bind; [|intros ?]
      | |- silent (when _ _) => apply silent_when
      | |- silent (Ret _) => apply silent_ret
      | |- silent skip => apply silent_ret
      | |- silent (get _) => apply silent_get
      | |- silent (writeUpstream _) => apply silent_send
      | |- silent (writeClient _) => apply silent_tell; solve [auto]
      | |- silent (modify _) => apply silent_modify; intros ? ?; solve [repeat case_match; done]
      | |- silent (match ?x with _ => _ end) => destruct x eqn:?
      | |- silent (if ?x then _ else _) => destruct x eqn:?
      end ].

Create HintDb ledger discriminated.

Section session.
Context {PG : PgQuery} {PP : PgProto} {SC : StatementClassifier} {CF : Config}.
Context {TC : TaggedCodec} {SO : OrderedScanner}.

(** ** What leaves the ledger alone *)

Lemma errors_tagged c m : is_ready (errorResponse c m) = false.
Proof. by apply others_tagged. Qed.
Lemma completes_tagged t : is_ready (encodeBackend (CommandComplete t)) = false.
Proof. by apply others_tagged. Qed.
Lemma jobs_tagged id : is_ready (jobIDDataRow id) = false.
Proof. by apply others_tagged. Qed.
Lemma fields_tagged : is_ready jobIDRowDescription = false.
Proof. by apply others_tagged. Qed.
Lemma readyForQuery_tagged st : is_ready (readyForQuery st) = true.
Proof. apply ready_tagged. Qed.
Hint Resolve errors_tagged completes_tagged jobs_tagged fields_tagged readyForQuery_tagged : core.

Lemma encoded_tagged m b e :
  be_encode m = (b, e) -> (forall st, m <> ReadyForQuery st) -> is_ready b = false.
Proof. intros He Hm. apply (f_equal fst) in He. simpl in He. subst b. by apply others_tagged. Qed.

Lemma sendError_silent c m : silent (sendError c m).
Proof. unfold sendError. silently. Qed.

Lemma addOccTables_silent ts : silent (addOccTables ts).
Proof. unfold addOccTables. silently. Qed.

Lemma countTxnStatement_silent ks : silent (countTxnStatement ks).
Proof. unfold countTxnStatement. silently. Qed.

Lemma admitBatch_silent ks : silent (admitBatch ks).
Proof. apply silent_locked. intros s Hc. by destruct (Admit ks (clock s) (tracker s)). Qed.

Lemma occCommitConflict_silent : silent occCommitConflict.
Proof.
  unfold occCommitConflict. silently. apply silent_locked. intros s Hc. unfold commit_conflict.
  by destruct (inject_from 0 (occTouched s) (Inject (rsOCC ruleset)) (occCommits s)).
Qed.

Lemma commit_fails_silent : silent commit_fails.
Proof. unfold commit_fails. silently. apply occCommitConflict_silent. Qed.

Lemma rewriteSQL_silent sql : silent (rewriteSQL sql).
Proof. unfold rewriteSQL. silently. Qed.

Lemma set_statement_silent n i : silent (set_statement n i).
Proof. unfold set_statement. silently. Qed.

Lemma delete_statement_silent n : silent (delete_statement n).
Proof. unfold delete_statement. silently. Qed.

Lemma restoreJob_silent id : silent (restoreJob id).
Proof. unfold restoreJob. silently. Qed.

Lemma setInFlight_silent i b : silent (setInFlight i b).
Proof. unfold setInFlight. silently. Qed.

Lemma drawJobID_silent : silent drawJobID.
Proof. by apply silent_locked. Qed.

Lemma noteBatchState_silent t : silent (noteBatchState t).
Proof. unfold noteBatchState. silently. Qed.

Lemma claimJob_silent : silent claimJob.
Proof. apply silent_locked. intros s Hc. unfold claim_job. by repeat case_match. Qed.

Lemma takeJob_silent : silent takeJob.
Proof. unfold takeJob. silently. Qed.

Lemma markJobDescribed_silent : silent markJobDescribed.
Proof. apply silent_locked. intros s Hc. by repeat case_match. Qed.

Lemma noteTxStatus_silent st : silent (noteTxStatus st).
Proof. unfold noteTxStatus. silently. Qed.

Lemma spliceJob_silent j : silent (spliceJob j).
Proof. unfold spliceJob, tellClient. silently. Qed.

Lemma rewriteCommandTag_silent msg : silent (rewriteCommandTag msg).
Proof.
  unfold rewriteCommandTag. apply silent_bind; [|intros tag; silently]. by apply silent_locked.
Qed.

Hint Resolve sendError_silent addOccTables_silent countTxnStatement_silent admitBatch_silent
  commit_fails_silent rewriteSQL_silent set_statement_silent delete_statement_silent
  restoreJob_silent setInFlight_silent drawJobID_silent noteBatchState_silent claimJob_silent
  takeJob_silent markJobDescribed_silent noteTxStatus_silent spliceJob_silent
  rewriteCommandTag_silent silent_get silent_send silent_tell : ledger.

Lemma rewriteParameterStatus_silent msg : silent (rewriteParameterStatus msg).
Proof.
  unfold rewriteParameterStatus. silently. apply silent_tell. by eapply encoded_tagged.
Qed.

Lemma rewriteConflictError_silent msg : silent (rewriteConflictError msg).
Proof.
  unfold rewriteConflictError. silently. apply silent_tell. by eapply encoded_tagged.
Qed.

(** ** The phases of a request *)

Inductive phase :=
| Idle
| Answering (repair : bool)
| FailingFor (gone togo : Z)
| Working (h : hiddenExchange)
| Saving (failed : bool) (after : phase).

Fixpoint ledger_at (n : nat) (ph : phase) : ledger :=
  match ph with
  | Idle => mkLedger n None None false None false 0
  | Answering r => mkLedger n None None false None r 1
  | FailingFor gone togo => mkLedger n (Some (gone + togo, gone)) None false None false togo
  | Working h => mkLedger n None None false (Some (Some h)) false 1
  | Saving b after =>
      let L := ledger_at n after in
      mkLedger n (underway L) None false (Some (Some (SavepointExchange b))) (repairing L)
        (outstanding L + 1)
  end.

Definition is_savepoint (h : hiddenExchange) : bool :=
  match h with SavepointExchange _ => true | _ => false end.

Definition phase_ok (ph : phase) : Prop :=
  match ph with
  | Idle | Answering _ => True
  | FailingFor gone togo => gone = 0 /\ (togo = 1 \/ togo = 2) \/ gone = 1 /\ togo = 1
  | Working h => is_savepoint h = false
  | Saving _ after => after = Answering false \/ after = FailingFor 0 2
  end.

(** A request of which [n] were answered before: it is answered too, or under way. *)
Definition engaged (n : nat) (L : ledger) : Prop :=
  exists ph, phase_ok ph /\ L = ledger_at (match ph with Idle => S n | _ => n end) ph.

(** A batch the client has not ended: nothing is outstanding but, perhaps, a
    savepoint; what it fails is deferred. *)
Definition opened (n : nat) (sp : option bool) (d : option Z) (k : bool) : ledger :=
  mkLedger n None d k ((fun b => Some (SavepointExchange b)) <$> sp) false
    (match sp with Some _ => 1 | None => 0 end).

Definition batch (n : nat) (L : ledger) : Prop :=
  exists sp d k, (d = None \/ d = Some 2) /\ L = opened n sp d k.

Lemma opened_batch n sp d k : d = None \/ d = Some 2 -> batch n (opened n sp d k).
Proof. intros Hd. by exists sp, d, k. Qed.
Hint Resolve opened_batch : core.

(** What a modification makes of a ledger that is known. *)
Ltac ledger :=
  intros s Hc HL; unfold ledger_of, own_exchange in HL; injection HL as H1 H2 H3 H4 H5 H6 H7;
  split; [exact Hc|]; unfold ledger_of, own_exchange, opened; simpl; try (f_equal; solve [assumption | done]).

Lemma goes_exchange L b (Q : bool -> ledger -> Prop) :
  Q true (mkLedger (answered L) (underway L) (deferred L) (dropping L) (own L) (repairing L)
            (int64 (outstanding L + 1))) ->
  goes L (writeUpstreamExchange b) Q.
Proof.
  intros HQ. unfold writeUpstreamExchange, beginExchange. apply goes_bind, goes_modify.
  intros s Hc <-. split; [done|]. by apply goes_send.
Qed.

Lemma forward_silent msg : is_tag msg "Q" = false -> is_tag msg "S" = false -> silent (forward msg).
Proof.
  intros HQ HS L. unfold forward. rewrite HQ, HS. cbn [orb when]. by apply goes_bind, goes_ret, goes_bind, goes_send, goes_ret.
Qed.

Lemma forward_request L msg (Q : unit -> ledger -> Prop) :
  is_tag msg "Q" || is_tag msg "S" = true ->
  Q tt (mkLedger (answered L) (underway L) (deferred L) (dropping L) (own L) (repairing L)
          (int64 (outstanding L + 1))) ->
  goes L (forward msg) Q.
Proof.
  intros Ht HQ. unfold forward, beginExchange. rewrite Ht. apply goes_bind, goes_modify.
  intros s Hc <-. split; [done|]. apply goes_bind, goes_send, goes_ret. exact HQ.
Qed.

Lemma goes_beginFailure L f (Q : unit -> ledger -> Prop) :
  Q tt (mkLedger (answered L) (Some (swallow f, 0)) (deferred L) (dropping L) (own L) (repairing L)
          (int64 (outstanding L + 1))) ->
  goes L (beginFailure f) Q.
Proof.
  intros HQ. unfold beginFailure. apply goes_bind, goes_modify. intros s Hc <-. split; [done|].
  apply goes_bind, goes_exchange, goes_ret. exact HQ.
Qed.

Lemma resetOcc_opened n sp d k : goes (opened n sp d k) resetOcc (fun _ L => L = opened n sp d k).
Proof. apply goes_modify. ledger. Qed.

Lemma endAborted_opened n sp d k : goes (opened n sp d k) endAborted (fun _ L => L = opened n sp d false).
Proof.
  unfold endAborted. apply goes_bind.
  eapply (goes_weaken _ _ (fun _ L => L = opened n sp d false)); [apply goes_modify; ledger|].
  intros _ L ->. apply goes_bind. eapply goes_weaken; [apply resetOcc_opened|].
  intros _ L ->. apply goes_bind, goes_silent; [auto with ledger|]. intros _. by apply goes_ret.
Qed.

(** ** Messages of a batch *)

(** A handler that takes a batch to a batch. *)
Definition batches {A} (p : proc session A) : Prop := forall n L, batch n L -> goes L p (fun _ => batch n).

Lemma batches_silent {A} (p : proc session A) : silent p -> batches p.
Proof. intros H n L HL. by apply goes_silent. Qed.

Lemma batches_bind {A B} (p : proc session A) (q : A -> proc session B) :
  batches p -> (forall a, batches (q a)) -> batches (bind p q).
Proof. intros Hp Hq n L HL. apply goes_bind. eapply goes_weaken; [by apply Hp|]. intros a L' H. by apply Hq. Qed.

Lemma batches_ret {A} (a : A) : batches (Ret a).
Proof. intros n L HL. by apply goes_ret. Qed.

Lemma batches_when b p : batches p -> batches (when b p).
Proof. intros H. destruct b; [done | apply batches_ret]. Qed.

Lemma batches_opened {A} (p : proc session A) :
  (forall n sp d k, d = None \/ d = Some 2 -> goes (opened n sp d k) p (fun _ => batch n)) -> batches p.
Proof. intros H n L (sp & d & k & Hd & ->). by apply H. Qed.

(** Follow a handler of a batch. *)
Ltac batched :=
  repeat first
    [ assumption
    | solve [apply batches_silent; solve [auto with ledger | silently; auto with ledger]]
    | match goal with
      | |- batches (bind _ _) => apply batches_bind; [|intros ?]
      | |- batches (when _ _) => apply batches_when
      | |- batches (Ret _) => apply batches_ret
      | |- batches skip => apply batches_ret
      | |- batches (match ?x with _ => _ end) => destruct x eqn:?
      | |- batches (if ?x then _ else _) => destruct x eqn:?
      end ].

Lemma deferFailure_batches f : swallow f = 2 -> batches (deferFailure f).
Proof.
  intros Hf. apply batches_opened. intros n sp d k Hd. apply goes_modify. ledger.
  exists sp, (Some 2), true. split; [by right|]. unfold opened. f_equal; try done. simpl. by rewrite Hf.
Qed.

Lemma dropping_batches : batches (modify (set_skipSync true)).
Proof.
  apply batches_opened. intros n sp d k Hd. apply goes_modify. ledger.
  exists sp, d, true. split; [done|]. unfold opened. by f_equal.
Qed.

Lemma reject_batches c m : batches (reject c m true).
Proof.
  unfold reject. batched; [by apply deferFailure_batches | apply dropping_batches].
Qed.

Lemma rejectFailed_batches : batches (rejectFailed true).
Proof. unfold rejectFailed. batched. apply dropping_batches. Qed.

Lemma resetOcc_batches : batches resetOcc.
Proof.
  apply batches_opened. intros n sp d k Hd. eapply goes_weaken; [apply resetOcc_opened|]. intros _ L ->. auto.
Qed.

Lemma endAborted_batches : batches endAborted.
Proof.
  apply batches_opened. intros n sp d k Hd. eapply goes_weaken; [apply endAborted_opened|]. intros _ L ->. auto.
Qed.

Lemma occFailure_batches : batches (occFailure true).
Proof.
  unfold occFailure. destruct (conflictError (rsOCC ruleset)) as [c m]. batched.
  - apply resetOcc_batches.
  - by apply deferFailure_batches.
Qed.

(** A savepoint is written where nothing is outstanding. *)
Lemma establishSavepoint_opened n sp d k :
  goes (opened n sp d k) establishSavepoint (fun _ L => exists sp', L = opened n sp' d k).
Proof.
  intros s Hc HL. unfold establishSavepoint. rewrite run_bind, run_locked. unfold claim_savepoint.
  destruct (occSavepoint s); [simpl; rewrite HL; split; [done | by exists sp]|].
  destruct ((0 <? pendingExchanges s) || extendedBatchOpen s) eqn:Ho;
    [simpl; rewrite HL; split; [done | by exists sp]|].
  apply orb_false_iff in Ho as [Ho _]. apply Z.ltb_ge in Ho.
  assert (sp = None) as ->.
  { apply (f_equal outstanding) in HL. simpl in HL. destruct sp; [lia | done]. }
  cut (goes (opened n None d k)
    (do! setHidden (SavepointExchange false); let! ok := writeUpstreamExchange savepointQuery in
     if ok then Ret true else do! close; Ret false) (fun _ L => exists sp', L = opened n sp' d k)).
  { intros H. apply (H (set_occSavepoint true s)); [done|]. rewrite <- HL. done. }
  clear. apply goes_bind. unfold setHidden.
  eapply (goes_weaken _ _ (fun _ L => L = mkLedger n None d k (Some (Some (SavepointExchange false))) false 0)).
  - apply goes_modify. ledger. f_equal; try done. simpl. by rewrite lookup_app_r, Nat.sub_diag by lia.
  - intros _ L ->. apply goes_bind, goes_exchange, goes_ret. by exists (Some false).
Qed.

Lemma establishSavepoint_batches : batches establishSavepoint.
Proof.
  apply batches_opened. intros n sp d k Hd. eapply goes_weaken; [apply establishSavepoint_opened|].
  intros _ L [sp' ->]. auto.
Qed.

Lemma armAdjudicator_opened n sp d k i b :
  goes (opened n sp d k) (armAdjudicator i b) (fun _ L => exists sp', L = opened n sp' d k).
Proof.
  unfold armAdjudicator. destruct i as [i|]; [|apply goes_silent; [auto with ledger|]; by exists sp].
  apply goes_bind. eapply (goes_weaken _ _ (fun _ L => exists sp', L = opened n sp' d k)).
  - unfold savepointReady. apply goes_bind, goes_silent; [auto with ledger|]. intros [];
      [apply goes_ret; by exists sp|].
    destruct (binds_unnamed b); [apply goes_ret; by exists sp | apply establishSavepoint_opened].
  - intros _ L [sp' ->]. apply goes_silent; [auto with ledger|]. by exists sp'.
Qed.

Lemma armAdjudicator_batches i b : batches (armAdjudicator i b).
Proof.
  apply batches_opened. intros n sp d k Hd. eapply goes_weaken; [apply armAdjudicator_opened|].
  intros _ L [sp' ->]. auto.
Qed.

Lemma afterAdmit_batches ks ts i b : batches (afterAdmit ks ts i b true).
Proof.
  unfold afterAdmit. batched; [apply occFailure_batches | apply resetOcc_batches | apply armAdjudicator_batches].
Qed.

(** A message forwarded in a batch. *)
Definition in_batch (msg : Message) : Prop :=
  tag_in (Type_ msg) ["P"%byte; "B"%byte; "D"%byte; "E"%byte; "C"%byte; "H"%byte] = true.

Lemma in_batch_tags msg :
  in_batch msg -> is_tag msg "Q" = false /\ is_tag msg "S" = false /\ is_tag msg "X" = false.
Proof. unfold in_batch, is_tag. intros H. split_and!; destruct (Type_ msg); done. Qed.

Lemma forward_batches msg : in_batch msg -> batches (forward msg).
Proof. intros H. destruct (in_batch_tags msg H) as (HQ & HS & _). by apply batches_silent, forward_silent. Qed.

Lemma stripAsync_total sql : stripAsync sql <> None.
Proof.
  unfold stripAsync. destruct (pg_scan sql) as [tokens|] eqn:E; [|done].
  apply scanner_ordered in E.
  destruct (find_cuts_ordered sql (statements [] tokens) 0 0 0) as (cuts & found & out & -> & Hout & _); [lia| |].
  { eapply ordered_sublist; [|exact E]. apply (statements_sublist [] tokens). }
  cbn [mbind option_bind]. destruct found; [by rewrite Hout | done].
Qed.

Lemma sendAsyncJob_batches msg f r k ks : is_query f = false -> in_batch msg -> batches (sendAsyncJob msg f r k ks).
Proof. intros Hf Hm. unfold sendAsyncJob. rewrite Hf. batched; by apply forward_batches. Qed.

Lemma forwardAsyncJob_batches msg f r k : is_query f = false -> in_batch msg -> batches (forwardAsyncJob msg f r k true).
Proof.
  intros Hf Hm. unfold forwardAsyncJob, aborted, admitAsyncJob.
  batched; first [apply rejectFailed_batches | apply reject_batches | by apply sendAsyncJob_batches].
Qed.

Lemma parseRemembered_batches msg n sql r : in_batch msg -> batches (parseRemembered msg n sql r).
Proof.
  intros Hm. unfold parseRemembered.
  batched; first [apply establishSavepoint_batches | by apply forward_batches].
Qed.

Lemma parseClassified_batches msg n sql oids r : in_batch msg -> batches (parseClassified msg n sql oids r).
Proof.
  intros Hm. unfold parseClassified. batched; first [apply reject_batches | by apply parseRemembered_batches].
Qed.

Lemma handleParse_batches msg : in_batch msg -> batches (handleParse msg).
Proof.
  intros Hm. unfold handleParse. destruct (DecodeFrontend (Type_ msg) (Body msg)) as [|fe|]; [by apply forward_batches| |by apply forward_batches]; destruct fe as [| | | | | |name sql oids| | | | | | |];
    try by apply forward_batches.
  destruct (stripAsync sql) as [[[rw k]|]|] eqn:E; [| |by apply stripAsync_total in E].
  - by apply forwardAsyncJob_batches.
  - unfold aborted, parseAborted.
    batched; first [apply rejectFailed_batches | by apply forward_batches | by apply parseClassified_batches].
Qed.

Lemma handleBind_batches msg : in_batch msg -> batches (handleBind msg).
Proof.
  intros Hm. unfold handleBind, bindKnown, aborted.
  batched; first [by apply forward_batches | apply endAborted_batches | apply rejectFailed_batches
                 | apply reject_batches | apply afterAdmit_batches].
Qed.

Lemma handleClose_batches msg : in_batch msg -> batches (handleClose msg).
Proof. intros Hm. unfold handleClose. batched; by apply forward_batches. Qed.

Lemma frontendMessage_batches msg : in_batch msg -> batches (frontendMessage msg).
Proof.
  intros Hm. destruct (in_batch_tags msg Hm) as (HQ & HS & HX). unfold frontendMessage.
  rewrite HX, HS, HQ.
  batched; first [by apply handleParse_batches | by apply handleBind_batches | by apply handleClose_batches
                 | by apply forward_batches].
Qed.

(** ** The Sync, and simple queries *)

Lemma engaged_after n sp :
  engaged n (mkLedger n None None false ((fun b => Some (SavepointExchange b)) <$> sp) false
               (match sp with Some _ => 2 | None => 1 end)).
Proof.
  destruct sp as [b|].
  - exists (Saving b (Answering false)). split; [by left | done].
  - by exists (Answering false).
Qed.

Lemma sync_engages n msg L : is_tag msg "S" = true -> batch n L -> goes L (frontendMessage msg) (fun _ => engaged n).
Proof.
  intros HS (sp & d & k & Hd & ->). pose proof (is_tag_disjoint msg "S" "X" HS eq_refl) as HX.
  unfold frontendMessage, handleSync. rewrite HX, HS.
  apply goes_bind, goes_silent; [silently|]. intros _. apply goes_bind, goes_bind.
  intros s Hc HL. rewrite run_locked. cbn [fst snd]. revert s Hc HL.
  cut (forall p : option txnFailure, d = swallow <$> p ->
         goes (opened n sp None false) (do! forward msg; match p with Some f => beginFailure f | None => skip end)
           (fun _ L' => goes L' (do! noteBatchState (Type_ msg); Ret true) (fun _ => engaged n))).
  { intros H s Hc HL. split; [done|].
    assert (ledger_of (set_skipSync false (set_pendingFailure None s)) = opened n sp None false) as ->.
    { unfold ledger_of, own_exchange in HL. injection HL as H1 H2 H3 H4 H5 H6 H7.
      unfold ledger_of, own_exchange, opened. simpl. by f_equal. }
    apply (H (pendingFailure s)). by apply (f_equal deferred) in HL. }
  intros p Hp. apply goes_bind, forward_request; [by rewrite HS, orb_true_r|].
  assert (forall L, engaged n L -> goes L (do! noteBatchState (Type_ msg); Ret true) (fun _ => engaged n)) as Hend.
  { intros L HL. apply goes_bind, goes_silent; [auto with ledger|]. intros _. by apply goes_ret. }
  destruct p as [f|]; simpl in Hp.
  - destruct Hd as [-> | ->]; [done|]. injection Hp as Hf. apply goes_beginFailure, Hend. rewrite <- Hf.
    destruct sp as [b|]; [exists (Saving b (FailingFor 0 2)) | exists (FailingFor 0 2)];
      (split; [simpl; tauto | done]).
  - apply goes_ret, Hend. unfold opened. simpl. destruct sp as [b|]; apply (engaged_after n (Some b)) || apply (engaged_after n None).
Qed.

(** A handler of a simple query outside a batch. *)
Definition engages {A} (p : proc session A) : Prop :=
  forall n, goes (opened n None None false) p (fun _ => engaged n).

Lemma engages_silent {A B} (p : proc session A) (q : A -> proc session B) :
  silent p -> (forall a, engages (q a)) -> engages (bind p q).
Proof. intros Hp Hq n. apply goes_bind, goes_silent; [done|]. intros a. apply Hq. Qed.

Lemma engages_opened {A B} (p : proc session A) (q : A -> proc session B) :
  (forall n, goes (opened n None None false) p (fun _ L => L = opened n None None false)) ->
  (forall a, engages (q a)) -> engages (bind p q).
Proof. intros Hp Hq n. apply goes_bind. eapply goes_weaken; [apply Hp|]. intros a L ->. apply Hq. Qed.

Lemma forward_engages msg sp n :
  is_tag msg "Q" = true -> goes (opened n sp None false) (forward msg) (fun _ => engaged n).
Proof.
  intros HQ. apply forward_request; [by rewrite HQ|]. destruct sp as [b|];
    [apply (engaged_after n (Some b)) | apply (engaged_after n None)].
Qed.

Lemma exchange_engages b n sp : goes (opened n sp None false) (writeUpstreamExchange b) (fun _ => engaged n).
Proof. apply goes_exchange. destruct sp as [a|]; [apply (engaged_after n (Some a)) | apply (engaged_after n None)]. Qed.

Lemma tell_engages st : engages (writeClient (readyForQuery st)).
Proof. intros n. apply goes_tell_ready; [auto|]. by exists Idle. Qed.

Lemma fail_engages stmt st : engages (failTxn stmt st false).
Proof. intros n. apply goes_beginFailure. exists (FailingFor 0 1). split; [by left; split; [|left] | done]. Qed.

Lemma engages_then {A} (p : proc session A) : engages p -> engages (do! p; skip).
Proof. intros H n. apply goes_bind. eapply goes_weaken; [apply H|]. intros ? L HL. by apply goes_ret. Qed.

(** Follow a handler of a simple query. *)
Ltac engaging :=
  repeat first
    [ assumption | apply tell_engages | apply fail_engages
    | match goal with
      | |- engages (bind (forward _) _) => idtac
      | |- engages (bind ?p (fun _ => skip)) => apply engages_then
      | |- engages (bind _ _) => apply engages_silent; [solve [auto with ledger | silently; auto with ledger] | intros ?]
      | |- engages (match ?x with _ => _ end) => destruct x eqn:?
      | |- engages (if ?x then _ else _) => destruct x eqn:?
      end ].

Lemma reject_engages c m : engages (reject c m false).
Proof. unfold reject. engaging. Qed.

Lemma rejectFailed_engages : engages (rejectFailed false).
Proof. unfold rejectFailed. engaging. Qed.

Lemma occFailure_engages : engages (occFailure false).
Proof.
  unfold occFailure. destruct (conflictError (rsOCC ruleset)) as [c m].
  apply engages_silent; [auto with ledger|]. intros _. apply engages_opened; [intros n; apply resetOcc_opened|].
  intros _. apply fail_engages.
Qed.

Lemma sendQuery_engages msg sql sp n :
  is_tag msg "Q" = true -> goes (opened n sp None false) (sendQuery msg sql) (fun _ => engaged n).
Proof.
  intros HQ. unfold sendQuery. apply goes_bind, goes_silent; [auto with ledger|]. intros [text|];
    [|by apply forward_engages].
  destruct (fe_encode (Query text)) as [encoded [|]]; [by apply forward_engages|].
  apply goes_bind. eapply goes_weaken; [apply exchange_engages|]. intros ? L HL. by apply goes_ret.
Qed.

Lemma queryClassified_engages msg sql r : is_tag msg "Q" = true -> engages (queryClassified msg sql r).
Proof.
  intros HQ. unfold queryClassified. engaging; [apply reject_engages | apply reject_engages|].
  intros n. apply goes_bind. unfold afterAdmit.
  eapply (goes_weaken _ _ (fun (go : bool) L => if go then exists sp, L = opened n sp None false else engaged n L)).
  - apply goes_bind, goes_silent; [auto with ledger|]. intros _. apply goes_bind, goes_silent; [auto with ledger|]. intros _.
    destruct (endsTransaction (Kinds r)).
    + apply goes_bind, goes_silent; [destruct (isCommit (Kinds r)); [auto with ledger | apply silent_ret]|]. intros [].
      * apply goes_bind. eapply goes_weaken; [apply occFailure_engages|]. intros ? L HL. by apply goes_ret.
      * apply goes_bind. eapply goes_weaken; [apply resetOcc_opened|]. intros _ L ->. apply goes_ret. by exists None.
    + apply goes_bind, goes_silent; [auto with ledger|]. intros inTxn. apply goes_bind.
      eapply (goes_weaken _ _ (fun _ L => exists sp, L = opened n sp None false)).
      * destruct inTxn; [apply armAdjudicator_opened | apply goes_ret; by exists None].
      * intros _ L [sp ->]. apply goes_ret. by exists sp.
  - intros [] L HL; [destruct HL as [sp ->]; by apply sendQuery_engages | by apply goes_ret].
Qed.

Lemma sendAsyncJob_engages msg f r k ks :
  is_query f = true -> is_tag msg "Q" = true -> engages (sendAsyncJob msg f r k ks).
Proof.
  intros Hf HQ. unfold sendAsyncJob. rewrite Hf. engaging; intros n;
    first [by apply forward_engages | apply exchange_engages].
Qed.

Lemma forwardAsyncJob_engages msg f r k :
  is_query f = true -> is_tag msg "Q" = true -> engages (forwardAsyncJob msg f r k false).
Proof.
  intros Hf HQ. unfold forwardAsyncJob, aborted, admitAsyncJob.
  engaging; first [apply rejectFailed_engages | apply reject_engages | by apply sendAsyncJob_engages].
Qed.

Lemma handleQuery_engages msg : is_tag msg "Q" = true -> engages (handleQuery msg).
Proof.
  intros HQ. unfold handleQuery. assert (engages (forward msg)) as Hfw by (intros n; by apply forward_engages).
  destruct (DecodeFrontend (Type_ msg) (Body msg)) as [|fe|]; [done| |done].
  destruct fe as [| | | | | | |sql| | | | | |]; try done.
  destruct (stripAsync sql) as [[[rw k]|]|] eqn:E; [| |by apply stripAsync_total in E].
  - by apply forwardAsyncJob_engages.
  - unfold aborted, queryAborted. engaging; [|apply rejectFailed_engages | by apply queryClassified_engages].
    apply engages_opened; [intros n; apply endAborted_opened | done].
Qed.

Lemma query_engages n msg :
  is_tag msg "Q" = true -> goes (opened n None None false) (frontendMessage msg) (fun _ => engaged n).
Proof.
  intros HQ. pose proof (is_tag_disjoint msg "Q" "S" HQ eq_refl) as HS.
  pose proof (is_tag_disjoint msg "Q" "X" HQ eq_refl) as HX. unfold frontendMessage. rewrite HX, HS, HQ.
  apply goes_bind, goes_silent; [silently|]. intros _. apply goes_bind.
  intros s Hc HL. rewrite run_get. assert (skipSync s = false) as -> by by apply (f_equal dropping) in HL.
  split; [done|]. cbn [fst snd]. rewrite HL. apply goes_bind. eapply goes_weaken; [by apply handleQuery_engages|].
  intros ? L Hn. apply goes_bind, goes_silent; [auto with ledger|]. intros _. by apply goes_ret.
Qed.

(** ** The upstream's answers *)

Lemma framed_tagged msg : framed msg -> is_ready (Raw msg) = is_tag msg "Z".
Proof. unfold framed. intros ->. done. Qed.

Lemma goes_get {A} L (f : session -> A) v (Q : A -> ledger -> Prop) :
  (forall s, ledger_of s = L -> f s = v) -> Q v L -> goes L (get f) Q.
Proof. intros Hf HQ s Hc HL. rewrite run_get, (Hf s HL). simpl. by rewrite HL. Qed.

(** How many more of the upstream's answers a request can take. *)
Fixpoint cost (ph : phase) : nat :=
  match ph with
  | Idle => 0
  | Answering _ => 4
  | FailingFor _ togo => Z.to_nat togo
  | Working (RestoreExchange _ _) => 3
  | Working _ => 2
  | Saving _ after => S (cost after)
  end%nat.

Definition is_idle (ph : phase) : bool := match ph with Idle => true | _ => false end.

(** [engaged] with at most [c] answers to come. *)
Definition engaged_in (c n : nat) (L : ledger) : Prop :=
  exists ph, phase_ok ph /\ (cost ph <= c)%nat /\ L = ledger_at (if is_idle ph then S n else n) ph.

Lemma engaged_cost n L : engaged n L -> engaged_in 5 n L.
Proof.
  intros (ph & Hok & ->). exists ph. split_and!; [done| |by destruct ph].
  destruct ph as [|r|g k|h|b a]; simpl in *; try lia.
  - destruct h; lia.
  - destruct Hok as [-> | ->]; simpl; lia.
Qed.

Definition engages_in {A} (c : nat) (p : proc session A) : Prop :=
  forall n, goes (opened n None None false) p (fun _ => engaged_in c n).

Lemma engages_in_silent {A B} c (p : proc session A) (q : A -> proc session B) :
  silent p -> (forall a, engages_in c (q a)) -> engages_in c (bind p q).
Proof. intros Hp Hq n. apply goes_bind, goes_silent; [done|]. intros a. apply Hq. Qed.

Lemma goes_setHidden L h (Q : unit -> ledger -> Prop) :
  Q tt (mkLedger (answered L) (underway L) (deferred L) (dropping L) (Some (Some h)) (repairing L) (outstanding L)) ->
  goes L (setHidden h) Q.
Proof.
  intros HQ. apply goes_modify. intros s Hc <-. split; [done|].
  match goal with |- Q tt ?L' => replace L' with (mkLedger (answered (ledger_of s)) (underway (ledger_of s))
    (deferred (ledger_of s)) (dropping (ledger_of s)) (Some (Some h)) (repairing (ledger_of s))
    (outstanding (ledger_of s))); [done|] end.
  unfold ledger_of, own_exchange. simpl. by rewrite lookup_app_r, Nat.sub_diag by lia.
Qed.

Lemma failRepair_engages c : (1 <= c)%nat -> engages_in c failRepair.
Proof.
  intros Hc. unfold failRepair. destruct (conflictError (rsOCC ruleset)) as [cd m].
  apply engages_in_silent; [silently|]. intros _. apply engages_in_silent; [auto with ledger|]. intros _ n.
  apply goes_beginFailure. exists (FailingFor 0 1). split_and!; [by left; split; [|left] | done | done].
Qed.

Lemma ready_engages c st : engages_in c (do! writeClient (readyForQuery st); skip).
Proof.
  intros n. apply goes_bind, goes_tell_ready; [auto|]. apply goes_ret. exists Idle. split_and!; [done | simpl; lia | done].
Qed.

Lemma completeRepair_engages c r k : engages_in c (completeRepair r k).
Proof. unfold completeRepair. apply engages_in_silent; [auto with ledger|]. intros _. apply ready_engages. Qed.

Lemma shadow_engages h b :
  (cost (Working h) <= 2)%nat -> is_savepoint h = false -> engages_in 2 (do! setHidden h; writeShadow b).
Proof.
  intros Hh Hsp n. apply goes_bind, goes_setHidden. unfold writeShadow. apply goes_bind, goes_exchange, goes_ret.
  by exists (Working h).
Qed.

Lemma runShadow_engages r : engages_in 2 (runShadow r).
Proof.
  unfold runShadow, runCountShadow, runRowsetShadow.
  destruct (String.eqb (Shadow (intent r)) ""); [apply completeRepair_engages|].
  destruct (Rowset (intent r)), (shadowParams r) as [[values fs]|];
    first [by apply shadow_engages | apply failRepair_engages; lia].
Qed.

(** What finishes an exchange. *)
Definition finish_of (h : hiddenExchange) : proc session unit :=
  match h with
  | SavepointExchange failed => when failed (modify (set_occSavepoint false))
  | RestoreExchange failed repair => if failed then failRepair else runShadow repair
  | CountExchange failed rows repair => if failed then failRepair else completeRepair repair rows
  | RowsetExchange failed repair => if failed then failRepair else do! writeClient (readyForQuery "T"); skip
  end.

Lemma run_finish p h s : exchanges s !! p = Some h -> run (finish p) s = run (finish_of h) s.
Proof. intros Hp. unfold finish. rewrite run_bind, run_get, Hp. by destruct h. Qed.

Lemma finish_engages h : is_savepoint h = false -> engages_in (pred (cost (Working h))) (finish_of h).
Proof.
  destruct h as [f|[] r|[] rows r|[] r]; intros H; [done|..]; simpl.
  - apply failRepair_engages. lia.
  - apply runShadow_engages.
  - apply failRepair_engages. lia.
  - apply completeRepair_engages.
  - apply failRepair_engages. lia.
  - apply ready_engages.
Qed.

Definition with_own (h : option (option hiddenExchange)) (L : ledger) : ledger :=
  mkLedger (answered L) (underway L) (deferred L) (dropping L) h (repairing L) (outstanding L).

Lemma set_exchange_ledger p h h' s :
  hidden s = Some p -> exchanges s !! p = Some h ->
  ledger_of (set_exchanges (<[p := h']> (exchanges s)) s) = with_own (Some (Some h')) (ledger_of s).
Proof.
  intros Hp He. unfold ledger_of, with_own, own_exchange. simpl. rewrite Hp. simpl.
  by rewrite list_lookup_insert_eq by (by eapply lookup_lt_Some).
Qed.

Lemma consume_over p h msg s :
  exchanges s !! p = Some h -> is_tag msg "Z" = true -> run (consume p msg) s = (true, s).
Proof.
  intros He Hz. pose proof (is_tag_disjoint msg "Z" "E" Hz eq_refl) as HE.
  pose proof (is_tag_disjoint msg "Z" "D" Hz eq_refl) as HD.
  unfold consume. step_run. rewrite He. destruct h; rewrite ?HE, ?HD, ?Hz, ?orb_false_r; cbn [when];
    unfold set_exchange; step_run; by rewrite ?(set_exchange_same p _ s He).
Qed.

Lemma consume_notes p h msg s :
  connected s -> framed msg -> hidden s = Some p -> exchanges s !! p = Some h -> is_tag msg "Z" = false ->
  let (over, s') := run (consume p msg) s in
  over = false /\ connected s' /\ ledger_of s' = with_own (Some (Some (noted msg h))) (ledger_of s).
Proof.
  intros Hc Hfr Hp He Hz.
  assert (Hset : forall h', let s' := set_exchanges (<[p := h']> (exchanges s)) s in
            connected s' /\ ledger_of s' = with_own (Some (Some h')) (ledger_of s)).
  { intros h'. split; [done | by eapply set_exchange_ledger]. }
  assert (Hsame : ledger_of s = with_own (Some (Some h)) (ledger_of s)).
  { rewrite <- (set_exchange_ledger p h h s Hp He). by rewrite set_exchange_same. }
  assert (Htold : ledger_of (told [Raw msg] s) = with_own (Some (Some h)) (ledger_of s)).
  { by rewrite ledger_told, framed_tagged, Hz. }
  destruct h as [f|f r|f rows r|f r].
  - rewrite (exec_consume p _ msg s He eq_refl), Hz. split; [done | apply Hset].
  - rewrite (exec_consume p _ msg s He eq_refl), Hz. split; [done | apply Hset].
  - rewrite (exec_consume p _ msg s He eq_refl), Hz. split; [done | apply Hset].
  - unfold consume. step_run. rewrite He, Hz. simpl noted. destruct (is_tag msg "E").
    { unfold set_exchange. step_run. rewrite orb_true_r. split; [done | apply Hset]. }
    rewrite orb_false_r. destruct (is_tag msg "D" || is_tag msg "C");
      [|destruct (is_tag msg "T" && negb (extended r))]; step_run;
      try (rewrite run_tell by done; step_run); by split_and!.
Qed.

(** The exchange under way takes the message. *)
Lemma consume_hidden L h msg (Q : bool -> ledger -> Prop) :
  framed msg -> own L = Some (Some h) ->
  (if is_tag msg "Z"
   then goes (with_own None L) (do! finish_of h; Ret true) Q
   else Q true (with_own (Some (Some (noted msg h))) L)) ->
  goes L (consumeHidden msg) Q.
Proof.
  intros Hfr Hown HQ s Hc HL. unfold consumeHidden. rewrite run_bind, run_get.
  assert (exists p, hidden s = Some p /\ exchanges s !! p = Some h) as (p & Hp & He).
  { rewrite <- HL in Hown. simpl in Hown. unfold own_exchange in Hown.
    destruct (hidden s) as [p|]; [|done]. exists p. by injection Hown. }
  rewrite Hp, run_bind. destruct (is_tag msg "Z") eqn:Hz.
  - rewrite (consume_over p h msg s He Hz). cbn [negb]. rewrite run_bind, run_modify, run_bind.
    rewrite (run_finish p h) by done. rewrite <- run_bind. apply HQ; [done|]. by rewrite <- HL.
  - pose proof (consume_notes p h msg s Hc Hfr Hp He Hz) as H. destruct (run (consume p msg) s) as [over s'].
    destruct H as (-> & Hc' & HL'). simpl. split; [done|]. by rewrite HL', HL.
Qed.

Lemma no_hidden L msg (Q : bool -> ledger -> Prop) :
  own L = None -> Q false L -> goes L (consumeHidden msg) Q.
Proof.
  intros Hown HQ. apply goes_bind, (goes_get _ _ None).
  - intros s HL. rewrite <- HL in Hown. simpl in Hown. unfold own_exchange in Hown. by destruct (hidden s).
  - by apply goes_ret.
Qed.

Lemma passOn_silent msg : framed msg -> is_tag msg "Z" = false -> silent (passOn msg).
Proof. intros Hfr Hz. apply silent_tell. by rewrite framed_tagged. Qed.

Lemma rewriteCommandTag_tagged L msg (Q : option bytes -> ledger -> Prop) :
  (forall o, (forall b, o = Some b -> is_ready b = false) -> Q o L) -> goes L (rewriteCommandTag msg) Q.
Proof.
  intros HQ. unfold rewriteCommandTag. apply goes_bind, goes_silent; [by apply silent_locked|]. intros tag.
  destruct (String.eqb tag ""); [apply goes_ret; by apply HQ|].
  destruct (complete_decode (Body msg)) as [t|]; [|apply goes_ret; by apply HQ].
  destruct (be_encode (CommandComplete tag)) as [encoded [|]] eqn:E; apply goes_ret, HQ; [done|].
  intros b [= <-]. by eapply encoded_tagged.
Qed.

Lemma backendComplete_silent msg : framed msg -> is_tag msg "Z" = false -> silent (backendComplete msg).
Proof.
  intros Hfr Hz L. apply goes_bind, rewriteCommandTag_tagged. intros [b|] Hb.
  - by apply goes_tell; [apply Hb|].
  - pose proof (passOn_silent msg Hfr Hz) as Hp.
    apply goes_bind, goes_silent; [auto with ledger|]. intros claimed. apply goes_bind, goes_silent.
    + destruct claimed; [auto with ledger | apply silent_ret].
    + intros _. apply Hp.
Qed.

(** What the backend pump makes of a message that is no ReadyForQuery. *)
Definition unready (msg : Message) : proc session bool :=
  if is_tag msg "n" then backendRowless msg
  else if is_tag msg "E" then backendError msg
  else if is_tag msg "S" then backendStatus msg
  else if is_tag msg "Z" then backendReady msg
  else if is_tag msg "C" then backendComplete msg
  else passOn msg.

Lemma backendError_answering msg n :
  framed msg -> is_tag msg "Z" = false ->
  goes (ledger_at n (Answering false)) (backendError msg)
    (fun _ L => exists r, L = ledger_at n (Answering r)).
Proof.
  intros Hfr Hz. pose proof (passOn_silent msg Hfr Hz) as Hp. unfold backendError.
  apply goes_bind, goes_silent; [auto with ledger|]. intros _. apply goes_bind.
  eapply (goes_weaken _ _ (fun _ L => exists r, L = ledger_at n (Answering r))).
  - unfold occIntercept. assert (forall b : bool, goes (ledger_at n (Answering false)) (Ret b)
      (fun _ L => exists r, L = ledger_at n (Answering r))) as Hret by (intros b; apply goes_ret; by exists false).
    destruct (error_decode (Body msg)) as [er|]; [|apply Hret]. destruct (negb (IsConflict (ErrCode er))); [apply Hret|].
    apply goes_bind, goes_silent; [auto with ledger|]. intros inTxn s Hc HL. rewrite run_locked. unfold take_over.
    destruct (_ && _ && _ && _) eqn:Htake; [|split; [done | by exists false]].
    split; [done|]. exists true. unfold ledger_of, own_exchange in *. simpl in *.
    injection HL as H1 H2 H3 H4 H5 H6 H7. f_equal; try done.
    rewrite !andb_true_iff in Htake. apply Htake.
  - intros [] L [r ->]; [apply goes_ret; by exists r|]. apply goes_bind, goes_silent; [apply rewriteConflictError_silent|].
    intros []; [apply goes_ret; by exists r | apply goes_silent; [done|]; by exists r].
Qed.

Lemma unready_answering msg n :
  framed msg -> is_tag msg "Z" = false ->
  goes (ledger_at n (Answering false)) (unready msg) (fun _ L => exists r, L = ledger_at n (Answering r)).
Proof.
  intros Hfr Hz. pose proof (passOn_silent msg Hfr Hz) as Hp. unfold unready. rewrite Hz.
  destruct (is_tag msg "n"); [|destruct (is_tag msg "E"); [by apply backendError_answering|
    destruct (is_tag msg "S"); [|destruct (is_tag msg "C")]]];
    (apply goes_silent; [|by exists false]).
  - unfold backendRowless, tellClient. apply silent_bind; [auto with ledger|]. intros []; silently.
  - unfold backendStatus. apply silent_bind; [apply rewriteParameterStatus_silent|]. intros []; silently.
  - by apply backendComplete_silent.
  - done.
Qed.

(** A failure under way swallows the message. *)
Lemma goes_failing L msg f g k (Q : bool -> ledger -> Prop) :
  underway L = Some (f, g) ->
  goes L (consumeFailureMessage msg) (fun _ L' => Q true L') ->
  goes L (let! failing := get (fun s => bool_decide (is_Some (failure s))) in
          if failing then do! consumeFailureMessage msg; Ret true else k) Q.
Proof.
  intros Hf HQ. apply goes_bind, (goes_get _ _ true).
  - intros s HL. apply bool_decide_true. rewrite <- HL in Hf. simpl in Hf. by destruct (failure s).
  - apply goes_bind. eapply goes_weaken; [exact HQ|]. intros ? L' H. by apply goes_ret.
Qed.

Lemma goes_unfailing L (p k : proc session bool) (Q : bool -> ledger -> Prop) :
  underway L = None -> goes L k Q ->
  goes L (let! failing := get (fun s => bool_decide (is_Some (failure s))) in if failing then p else k) Q.
Proof.
  intros Hf HQ. apply goes_bind, (goes_get _ _ false); [|done].
  intros s HL. apply bool_decide_false. rewrite <- HL in Hf. simpl in Hf. destruct (failure s); [done|]. by intros [].
Qed.

Lemma repairPending_known L (Q : bool -> ledger -> Prop) : Q (repairing L) L -> goes L repairPending Q.
Proof. intros HQ. apply (goes_get _ _ (repairing L)); [by intros s <- | done]. Qed.

(** Between ReadyForQuery messages a request stays where it is. *)
Definition same_request (n : nat) (ph : phase) (L : ledger) : Prop :=
  exists ph', phase_ok ph' /\ cost ph' = cost ph /\ is_idle ph' = is_idle ph /\ L = ledger_at n ph'.

Lemma noted_kind msg h :
  is_savepoint (noted msg h) = is_savepoint h /\ cost (Working (noted msg h)) = cost (Working h).
Proof. by destruct h. Qed.

Lemma message_stays n ph msg :
  phase_ok ph -> is_idle ph = false -> framed msg -> is_tag msg "Z" = false ->
  goes (ledger_at n ph) (backendMessage msg) (fun _ => same_request n ph).
Proof.
  intros Hok Hi Hfr Hz. unfold backendMessage. rewrite Hz. cbn [when].
  apply goes_bind, goes_silent; [silently|]. intros _. apply goes_bind, goes_ret, goes_bind.
  destruct ph as [|r|g k|h|b a]; [done|..].
  - apply no_hidden; [done|]. apply goes_unfailing; [done|]. apply goes_bind, repairPending_known. destruct r.
    + apply goes_ret. by exists (Answering true).
    + pose proof (unready_answering msg n Hfr Hz) as H. unfold unready in H. rewrite Hz in H.
      eapply goes_weaken; [exact H|]. intros ? L [r ->]. by exists (Answering r).
  - apply no_hidden; [done|]. eapply goes_failing; [done|]. unfold consumeFailureMessage. rewrite Hz.
    apply goes_ret. by exists (FailingFor g k).
  - apply (consume_hidden _ h); [done..|]. rewrite Hz. apply goes_ret. exists (Working (noted msg h)).
    destruct (noted_kind msg h) as [Hs Hcs]. split_and!; [simpl; by rewrite Hs | done | done | done].
  - apply (consume_hidden _ (SavepointExchange b)); [done..|]. rewrite Hz. apply goes_ret.
    by exists (Saving (b || is_tag msg "E") a).
Qed.

Definition less_outstanding (L : ledger) : ledger :=
  mkLedger (answered L) (underway L) (deferred L) (dropping L) (own L) (repairing L) (outstanding L - 1).

Lemma goes_endExchange L (Q : unit -> ledger -> Prop) :
  0 < outstanding L -> Q tt (less_outstanding L) -> goes L endExchange Q.
Proof.
  intros Ho HQ. apply goes_modify. intros s Hc <-. simpl in Ho.
  rewrite (proj2 (Z.ltb_lt _ _) Ho). by split.
Qed.

(** The repair a ReadyForQuery starts. *)
Lemma startRepair_starts n :
  goes (mkLedger n None None false None true 0) startRepair
    (fun b L => b = true /\ exists r, L = ledger_at n (Working (RestoreExchange false r))).
Proof.
  intros s Hc HL. unfold startRepair. rewrite run_bind, run_locked. unfold take_repair.
  assert (exists r, occRepair s = Some r) as [r Hr].
  { apply (f_equal repairing) in HL. simpl in HL. by apply bool_decide_eq_true in HL as [r Hr]; exists r. }
  rewrite Hr. cbn [fst snd].
  set (s1 := set_txStatus "T" _). assert (ledger_of s1 = opened n None None false) as HL1.
  { unfold ledger_of, own_exchange in HL. injection HL as H1 H2 H3 H4 H5 H6 H7. unfold s1, ledger_of, own_exchange.
    simpl. unfold opened. by f_equal. }
  assert (connected s1) as Hc1 by exact Hc. clearbody s1. clear Hc HL Hr s. revert s1 Hc1 HL1.
  change (forall s1 : session, _) with (goes (opened n None None false)
    (let! restore := locked restore_statement in
     do! setHidden (RestoreExchange false r);
     let! ok := writeUpstreamExchange restore in
     do! when (negb ok) close; Ret true)
    (fun b L => b = true /\ exists r, L = ledger_at n (Working (RestoreExchange false r)))).
  apply goes_bind, goes_silent.
  - apply silent_locked. intros s2 Hc2. unfold restore_statement. by destruct (occSavepoint s2).
  - intros restore. apply goes_bind, goes_setHidden, goes_bind, goes_exchange, goes_bind, goes_ret, goes_ret.
    split; [done|]. by exists r.
Qed.

Lemma backendReady_ends n r z st :
  framed z -> is_tag z "Z" = true -> rfq_decode (Body z) = Some st ->
  goes (mkLedger n None None false None r 0) (backendReady z) (fun _ => engaged_in 3 n).
Proof.
  intros Hfr Hz Hst. unfold backendReady. rewrite Hst. apply goes_bind, goes_silent; [auto with ledger|]. intros _.
  apply goes_bind. destruct r.
  - eapply goes_weaken; [apply startRepair_starts|]. intros b L (-> & rp & ->). apply goes_ret.
    by exists (Working (RestoreExchange false rp)).
  - unfold startRepair. apply goes_bind. intros s Hc HL. rewrite run_locked. unfold take_repair.
    assert (occRepair s = None) as ->.
    { apply (f_equal repairing) in HL. simpl in HL. apply bool_decide_eq_false in HL.
      destruct (occRepair s); [|done]. destruct HL. by eexists. }
    cbn [fst snd]. split; [done|]. rewrite HL. apply goes_ret.
    apply goes_bind, goes_silent; [silently|]. intros _. apply goes_bind, goes_silent; [auto with ledger|]. intros _.
    apply goes_tell_ready; [by rewrite framed_tagged|]. exists Idle. split_and!; [done | simpl; lia | done].
Qed.

Lemma ready_advances n ph z :
  phase_ok ph -> is_idle ph = false -> framed z -> is_tag z "Z" = true -> is_Some (rfq_decode (Body z)) ->
  goes (ledger_at n ph) (backendMessage z) (fun _ => engaged_in (pred (cost ph)) n).
Proof.
  intros Hok Hi Hfr Hz [st Hst]. unfold backendMessage. rewrite Hz. cbn [when].
  pose proof (is_tag_disjoint z "Z" "n" Hz eq_refl) as Hn. pose proof (is_tag_disjoint z "Z" "E" Hz eq_refl) as HE.
  pose proof (is_tag_disjoint z "Z" "S" Hz eq_refl) as HS.
  apply goes_bind, goes_silent; [silently|]. intros _. apply goes_bind, goes_endExchange.
  { destruct ph as [|r|g k|h|b a]; simpl in *; try lia. destruct Hok as [-> | ->]; simpl; lia. }
  apply goes_bind. destruct ph as [|r|g k|h|b a]; [done|..].
  - apply no_hidden; [done|]. apply goes_unfailing; [done|]. apply goes_bind, goes_ret. rewrite Hn, HE, HS.
    by apply (backendReady_ends n r z st).
  - apply no_hidden; [done|]. eapply goes_failing; [done|]. unfold consumeFailureMessage. rewrite Hz. cbn [negb].
    apply goes_bind. intros s Hc HL. rewrite run_locked. unfold less_outstanding in HL. simpl in HL.
    unfold ledger_of, own_exchange in HL. injection HL as H1 H2 H3 H4 H5 H6 H7.
    destruct (failure s) as [f|] eqn:Hf; [|done]. injection H2 as Hsw Hg.
    unfold count_failure. rewrite Hf, Hsw, Hg.
    assert (Hk : g = 0 /\ k = 1 \/ g = 0 /\ k = 2 \/ g = 1 /\ k = 1) by (simpl in Hok; tauto).
    assert (Hnew : forall v m, ledger_of (set_failureRFQs m (set_failure v s)) =
                mkLedger n ((fun f => (swallow f, m)) <$> v) None false None false (k - 1)).
    { intros v m. unfold ledger_of, own_exchange. simpl. by f_equal. }
    destruct Hk as [[-> ->]|[[-> ->]|[-> ->]]]; cbn [fst snd];
      [change (0 + 1 <=? int64 (0 + 1)) with true | change (0 + 2 <=? int64 (0 + 1)) with false
      |change (1 + 1 <=? int64 (1 + 1)) with true]; cbv iota; cbn [fst snd]; (split; [done|]).
    + rewrite Hnew. apply ready_engages.
    + replace (set_failureRFQs (int64 (0 + 1)) s) with (set_failureRFQs 1 (set_failure (Some f) s))
        by (rewrite <- Hf; by destruct s).
      rewrite Hnew. apply goes_ret. exists (FailingFor 1 1). split_and!; [simpl; lia | simpl; lia |].
      simpl. by rewrite Hsw.
    + rewrite Hnew. apply ready_engages.
  - apply (consume_hidden _ h); [done..|]. rewrite Hz. apply goes_bind.
    eapply goes_weaken; [by apply finish_engages|]. intros ? L HL. by apply goes_ret, goes_ret.
  - apply (consume_hidden _ (SavepointExchange b)); [done..|]. rewrite Hz. apply goes_bind, goes_silent.
    { apply silent_when, silent_modify. by intros s Hc. }
    intros _. apply goes_ret, goes_ret. exists a. destruct Hok as [-> | ->]; split_and!; first [done | simpl; lia].
Qed.

(** ** Requests and their answers *)

(** What the upstream answers one request of the emulator's or the client's with:
    any messages, and the ReadyForQuery behind them. *)
Definition answer_block : Type := list Message * Message.

Definition well_formed_block (b : answer_block) : Prop :=
  Forall (fun m => framed m /\ is_tag m "Z" = false) b.1 /\
  framed b.2 /\ is_tag b.2 "Z" = true /\ is_Some (rfq_decode (Body b.2)).

(** The upstream answers while it owes an answer. *)
Fixpoint answer (blocks : list answer_block) (s : session) : session :=
  match blocks with
  | [] => s
  | (ms, z) :: blocks =>
      if pendingExchanges s <=? 0 then s else answer blocks (backend_run (ms ++ [z]) s)
  end.

(** One request of the client's: a simple query, or the messages of a batch and
    their Sync. *)
Definition request (ms : list Message) : Prop :=
  (exists m, ms = [m] /\ is_tag m "Q" = true) \/
  (exists batch sync, ms = batch ++ [sync] /\ Forall in_batch batch /\ is_tag sync "S" = true).

(** A session that neither side waits for. *)
Definition quiescent (s : session) : Prop :=
  connected s /\ hidden s = None /\ failure s = None /\ pendingFailure s = None /\
  skipSync s = false /\ occRepair s = None /\ pendingExchanges s = 0.

Definition told_ready (s : session) : nat := readies (written (client s)).

Lemma quiescent_ledger s : quiescent s <-> connected s /\ ledger_of s = ledger_at (told_ready s) Idle.
Proof.
  unfold quiescent, ledger_of, own_exchange, told_ready. simpl. split.
  - intros (Hc & -> & -> & -> & -> & -> & ->). by split.
  - intros [Hc H]. injection H as H1 H2 H3 H4 H5 H6.
    split_and!; try done; [by destruct (hidden s) | by destruct (failure s) | by destruct (pendingFailure s)|].
    apply bool_decide_eq_false in H5. destruct (occRepair s); [|done]. destruct H5. by eexists.
Qed.

Lemma ledger_told_ready n ph s : ledger_of s = ledger_at n ph -> told_ready s = n.
Proof. intros H. apply (f_equal answered) in H. by destruct ph. Qed.

Lemma messages_stay ms n ph : forall s,
  phase_ok ph -> is_idle ph = false -> Forall (fun m => framed m /\ is_tag m "Z" = false) ms ->
  connected s -> ledger_of s = ledger_at n ph ->
  connected (backend_run ms s) /\ same_request n ph (ledger_of (backend_run ms s)).
Proof.
  revert ph. induction ms as [|m ms IH]; intros ph s Hok Hi Hms Hc HL; [by split; [|exists ph]|].
  inversion Hms as [|? ? [Hfr Hz] Hrest]; subst. simpl.
  destruct (message_stays n ph m Hok Hi Hfr Hz s Hc HL) as (Hc' & ph' & Hok' & Hcost & Hi' & HL').
  fold (exec (backendMessage m) s) in Hc', HL'.
  destruct (IH ph' (exec (backendMessage m) s)) as (Hc2 & ph2 & Hok2 & Hcost2 & Hi2 & HL2); [done| by rewrite Hi' |done..|].
  split; [done|]. exists ph2. split_and!; [done | by rewrite Hcost2 | by rewrite Hi2 | done].
Qed.

Lemma block_advances b n ph s :
  phase_ok ph -> is_idle ph = false -> well_formed_block b -> connected s -> ledger_of s = ledger_at n ph ->
  let s' := backend_run (b.1 ++ [b.2]) s in
  connected s' /\ engaged_in (pred (cost ph)) n (ledger_of s').
Proof.
  destruct b as [ms z]. intros Hok Hi (Hms & Hfr & Hz & Hrfq) Hc HL. simpl in *. rewrite backend_run_app.
  destruct (messages_stay ms n ph s Hok Hi Hms Hc HL) as (Hc1 & ph1 & Hok1 & Hcost1 & Hi1 & HL1).
  rewrite <- Hcost1. apply ready_advances; try done. by rewrite Hi1.
Qed.

(** Answered often enough, a request ends. *)
Lemma answer_ends blocks : forall c n s,
  Forall well_formed_block blocks -> (c <= length blocks)%nat ->
  connected s -> engaged_in c n (ledger_of s) ->
  let s' := answer blocks s in connected s' /\ ledger_of s' = ledger_at (S n) Idle.
Proof.
  induction blocks as [|[ms z] blocks IH]; intros c n s Hb Hlen Hc (ph & Hok & Hcost & HL).
  - destruct ph as [|r|g k|h|b a]; simpl in *; first [lia | done | destruct h; lia].
  - inversion Hb as [|? ? Hbl Hrest]; subst. simpl. destruct (is_idle ph) eqn:Hi.
    + destruct ph; try done. simpl in HL. assert (pendingExchanges s = 0) as -> by by apply (f_equal outstanding) in HL.
      done.
    + assert (0 < pendingExchanges s) as Hpos.
      { apply (f_equal outstanding) in HL. simpl in HL. rewrite HL.
        destruct ph as [|r|g k|h|b a]; simpl in *; try lia; try done. destruct Hok as [-> | ->]; simpl; lia. }
      rewrite (proj2 (Z.leb_gt _ _) Hpos).
      destruct (block_advances (ms, z) n ph s Hok Hi Hbl Hc HL) as [Hc' He].
      apply (IH (pred (cost ph)) n); [done| simpl in Hlen; lia | exact Hc' | exact He].
Qed.

Lemma batch_stays ms n : forall s,
  Forall in_batch ms -> connected s -> batch n (ledger_of s) ->
  connected (frontend_run ms s) /\ batch n (ledger_of (frontend_run ms s)).
Proof.
  induction ms as [|m ms IH]; intros s Hms Hc Hb; [done|]. inversion Hms as [|? ? Hm Hrest]; subst. simpl.
  destruct (frontendMessage_batches m Hm n _ Hb s Hc eq_refl) as [Hc' Hb']. by apply IH.
Qed.

Lemma request_engages ms s :
  request ms -> quiescent s ->
  connected (frontend_run ms s) /\ engaged (told_ready s) (ledger_of (frontend_run ms s)).
Proof.
  intros Hr [Hc HL]%quiescent_ledger. destruct Hr as [(m & -> & HQ)|(b & sync & -> & Hb & HS)].
  - exact (query_engages (told_ready s) m HQ s Hc HL).
  - unfold frontend_run. rewrite fold_left_app. fold (frontend_run b s).
    destruct (batch_stays b (told_ready s) s Hb Hc) as [Hc' Hb'].
    { rewrite HL. by exists None, None, false; split; [left|]. }
    exact (sync_engages (told_ready s) sync _ HS Hb' (frontend_run b s) Hc' eq_refl).
Qed.

Lemma request_answered ms blocks s :
  request ms -> Forall well_formed_block blocks -> (5 <= length blocks)%nat -> quiescent s ->
  let s' := answer blocks (frontend_run ms s) in quiescent s' /\ told_ready s' = S (told_ready s).
Proof.
  intros Hr Hb Hlen Hq. destruct (request_engages ms s Hr Hq) as [Hc He]. apply engaged_cost in He.
  destruct (answer_ends blocks 5 (told_ready s) _ Hb Hlen Hc He) as [Hc' HL'].
  pose proof (ledger_told_ready (S (told_ready s)) Idle _ HL') as Ht.
  split; [apply quiescent_ledger; split; [done | by rewrite Ht] | done].
Qed.

(** C2: The client and the emulator stay in step.  However many requests a client
    makes, whatever they are, and whatever the upstream answers, errors and
    conflicts included, each request is over once the upstream has answered at
    most five times what the emulator asked it, and has then been answered with
    exactly one ReadyForQuery; no exchange of the emulator's own shows. *)
Theorem one_ready_per_request (rounds : list (list Message * list answer_block)) s :
  quiescent s ->
  Forall (fun r => request r.1 /\ Forall well_formed_block r.2 /\ (5 <= length r.2)%nat) rounds ->
  let s' := fold_left (fun s r => answer r.2 (frontend_run r.1 s)) rounds s in
  quiescent s' /\ told_ready s' = (told_ready s + length rounds)%nat.
Proof.
  intros Hq Hr. revert s Hq. induction Hr as [|[ms bs] rounds (Hreq & Hb & Hlen) _ IH]; intros s Hq; simpl.
  - split; [done | lia].
  - destruct (request_answered ms bs s Hreq Hb Hlen Hq) as [Hq' Ht]. destruct (IH _ Hq') as [Hq2 Ht2].
    split; [done|]. rewrite Ht2, Ht. lia.
Qed.
End session.

(** ** An instance *)

#[export] Instance sample_codec : @TaggedCodec sample_proto.
Proof. split; [done|]. intros [] H; try done. by destruct (H TxStatus). Qed.

#[export] Instance sample_scanner : @OrderedScanner sample_pg.
Proof.
  intros sql tokens. simpl. unfold assoc. cbn.
  repeat (case_match; [intros [= <-]; match goal with E : String.eqb _ _ = true |- _ =>
                                        apply String.eqb_eq in E as -> end; cbn; lia|]).
  done.
Qed.

Definition answered_with (tag : string) (st : byte) : answer_block := ([complete tag], ready st).

(** An update refused a lock, repaired behind its savepoint, and its COMMIT. *)
Definition sample_rounds : list (list Message * list answer_block) :=
  [([query "BEGIN"], repeat (answered_with "BEGIN" "T") 5);
   ([query "UPDATE t SET a = 1"],
    [answered_with "SAVEPOINT" "T"; ([error "55P03"], ready "E"); answered_with "ROLLBACK" "T";
     ([message "D" (text_of "3")], ready "T"); answered_with "" "T"]);
   ([parse "SELECT 1"; bind_unnamed; sync], repeat (answered_with "SELECT 1" "T") 5);
   ([query "COMMIT"], repeat (answered_with "ROLLBACK" "I") 5)].

Lemma well_formed_answer ms st :
  Forall (fun m => framed m /\ is_tag m "Z" = false) ms -> well_formed_block (ms, ready st).
Proof. intros H. split_and!; try done. Qed.

Lemma one_ready_per_request_witness :
  let s' := fold_left (fun s r => answer r.2 (frontend_run r.1 s)) sample_rounds session_started in
  told_ready s' = 4%nat /\ pendingExchanges s' = 0.
Proof.
  destruct (one_ready_per_request sample_rounds session_started) as [Hq Ht].
  - vm_compute. by split_and!.
  - unfold sample_rounds.
    repeat (apply Forall_cons; split;
      [split_and!; [|repeat (apply Forall_cons; split; [apply well_formed_answer; repeat constructor|]);
                     apply Forall_nil; exact I | simpl; lia]|]); [..|apply Forall_nil; exact I].
    + left. by eexists.
    + left. by eexists.
    + right. exists [parse "SELECT 1"; bind_unnamed], sync. split_and!; [done | by repeat constructor | done].
    + left. by eexists.
  - intros s'. split; [exact Ht|]. apply Hq.
Defined.
