(* ===== verification/Repairs.v ===== *)
(** * The outcome of every repair

    A statement refused a lock is taken over by the adjudicator: its transaction
    is restored, and a shadow answers for it.  Either step can fail.  [repair_of]
    says what comes of it in each case, and the session does just that. *)

From Stdlib Require Import Ascii String Strings.Byte.
From stdpp Require Import base numbers strings gmap list relations.
From S2P Require Import Prelude GoStd Kind Txn Proto Ruleset Occ Wire Rewrite Proc State Session System Samples Failing Conflicts Transparent Synchrony.

Local Open Scope Z_scope.
Local Open Scope proc_scope.

Section repairs.
Context {PG : PgQuery} {PP : PgProto} {SC : StatementClassifier} {CF : Config}.

(** ** The outcome *)

(** What the client and the upstream are sent, and whether the transaction is
    doomed or failed. *)
Record outcome := mkOutcome {
  to_client : list bytes;
  to_upstream : list bytes;
  dooms : bool;
  fails_txn : bool;
}.

Definition has_error (ms : list Message) : bool := existsb (fun m => is_tag m "E") ms.

(** The conflict is reported where PostgreSQL raised it, and the transaction fails. *)
Definition gives_up (shown asked_ : list bytes) : outcome :=
  let (c, m) := conflictError (rsOCC ruleset) in
  mkOutcome (shown ++ [errorResponse c m; readyForQuery "E"]) (asked_ ++ [abortTransactionQuery]) false true.

(** The statement is answered, and the transaction fails at COMMIT. *)
Definition answers (shown asked_ : list bytes) : outcome :=
  mkOutcome (shown ++ [readyForQuery "T"]) asked_ true false.

(** A client of the extended protocol had its row description from its own
    Describe. *)
Definition passes (flight : inFlight) (m : Message) : bool :=
  is_tag m "D" || is_tag m "C" || is_tag m "T" && negb (extended flight).

Definition shown_rows (flight : inFlight) (ms : list Message) : list bytes :=
  map Raw (List.filter (passes flight) ms).

Definition rowset_bytes (flight : inFlight) (values : list (option bytes)) (fs : list Z) : bytes :=
  if extended flight
  then extendedQuery (Shadow (intent flight)) values fs (formats flight)
  else simpleQuery (Shadow (intent flight)).

Definition complete_of (flight : inFlight) (rows : Z) : bytes :=
  encodeBackend (CommandComplete (CommandTag (intent flight) rows)).

(** What a refused statement comes to, given what the upstream answered to the
    restore and to the shadow. *)
Definition repair_of (flight : inFlight) (restore shadow : list Message) : outcome :=
  if has_error restore then gives_up [] []
  else if String.eqb (Shadow (intent flight)) "" then answers [complete_of flight (Rows (intent flight))] []
  else match shadowParams flight with
       | None => gives_up [] []
       | Some (values, fs) =>
           if Rowset (intent flight) then
             (if has_error shadow then gives_up else answers)
               (shown_rows flight shadow) [rowset_bytes flight values fs]
           else if has_error shadow then gives_up [] [count_bytes flight values fs]
           else answers [complete_of flight (rows_of 0 shadow)] [count_bytes flight values fs]
       end.

(** ** Where a session is *)

(** An exchange is running, of whichever kind. *)
Definition working (p : nat) (h : hiddenExchange) (s : session) : Prop :=
  connected s /\ hidden s = Some p /\ exchanges s !! p = Some h /\ failure s = None.

Lemma noted_all ms h :
  foldl (fun h m => noted m h) h ms =
    match h with
    | SavepointExchange f => SavepointExchange (f || has_error ms)
    | RestoreExchange f r => RestoreExchange (f || has_error ms) r
    | CountExchange f rows r => CountExchange (f || has_error ms) (rows_of rows ms) r
    | RowsetExchange f r => RowsetExchange (f || has_error ms) r
    end.
Proof.
  revert h. induction ms as [|m ms IH]; intros h; simpl; [destruct h; by rewrite orb_false_r|].
  rewrite IH. destruct h; simpl; by rewrite orb_assoc.
Qed.

(** What an exchange shows the client of what it is answered. *)
Definition shows (h : hiddenExchange) (ms : list Message) : list bytes :=
  match h with RowsetExchange _ r => shown_rows r ms | _ => [] end.

Lemma passes_tag flight m : passes flight m = true -> is_tag m "E" = false /\ is_tag m "Z" = false.
Proof.
  unfold passes. rewrite !orb_true_iff, andb_true_iff. intros [[H|H]|[H _]];
    (split; by eapply is_tag_disjoint).
Qed.

Lemma exec_consume_rowset p f r msg s :
  connected s -> exchanges s !! p = Some (RowsetExchange f r) -> is_tag msg "Z" = false ->
  run (consume p msg) s =
    (false, told (shown_rows r [msg]) (set_exchanges (<[p := noted msg (RowsetExchange f r)]> (exchanges s)) s)).
Proof.
  intros Hc Hp Hz. unfold consume. step_run. rewrite Hp, Hz. simpl noted. unfold shown_rows. simpl List.filter.
  assert (Hnone : forall s, told [] s = s).
  { intros [[w c] ?]. unfold told. simpl. by rewrite app_nil_r. }
  destruct (is_tag msg "E") eqn:HE.
  - destruct (passes r msg) eqn:Hps; [by apply passes_tag in Hps as [? _]; congruence|].
    unfold set_exchange. step_run. by rewrite orb_true_r, Hnone.
  - rewrite orb_false_r, set_exchange_same by done. unfold passes.
    destruct (is_tag msg "D" || is_tag msg "C"); cbn [orb List.filter map]; [step_run; by rewrite run_tell|].
    destruct (is_tag msg "T" && negb (extended r)); cbn [List.filter map]; step_run;
      [by rewrite run_tell | by rewrite Hnone].
Qed.

Lemma working_message p h m s :
  working p h s -> is_tag m "Z" = false ->
  let s' := exec (backendMessage m) s in
  working p (noted m h) s' /\ view s' = view (told (shows h [m]) s).
Proof.
  intros (Hc & Hh & Hp & Hf) Hz s'. subst s'. destruct h as [f|f r|f rows r|f r].
  1-3: match goal with |- working ?p (noted ?m ?h) _ /\ _ =>
         destruct (hidden_message p h m s ltac:(split_and!; [done..|]; reflexivity) Hz) as [Hq (Hc' & Hh' & Hp' & _)] end;
       pose proof (quiet_view _ _ Hq) as Hv; (split; [split_and!; try done; injection Hv; congruence|]);
       rewrite Hv; unfold view; simpl; by destruct s as [[w c] ?]; rewrite app_nil_r.
  unfold exec. rewrite backendMessage_prefix, Hz. unfold consumeHidden. step_run.
  change (hidden (heard m s)) with (hidden s). rewrite Hh. step_run.
  rewrite (exec_consume_rowset p f r) by done. cbn [negb]. step_run. cbn [snd].
  split; [|done]. split_and!; try done. simpl. apply list_lookup_insert_eq. by eapply lookup_lt_Some.
Qed.

Lemma shows_app h h' m ms :
  h' = noted m h -> shows h [m] ++ shows h' ms = shows h (m :: ms).
Proof. intros ->. destruct h; try done. simpl. unfold shown_rows. simpl. by destruct (passes repair m). Qed.

Lemma told_nil s : told [] s = s.
Proof. destruct s as [[w c] ?]. unfold told. simpl. by rewrite app_nil_r. Qed.

Lemma working_messages ms : forall p h s,
  working p h s -> Forall (fun m => is_tag m "Z" = false) ms ->
  working p (foldl (fun h m => noted m h) h ms) (backend_run ms s) /\
  view (backend_run ms s) = view (told (shows h ms) s).
Proof.
  induction ms as [|m ms IH]; intros p h s Hw Hz.
  - split; [done|]. destruct h; simpl; unfold shown_rows; simpl; by rewrite told_nil.
  - inversion Hz as [|? ? Hm Hrest]; subst. destruct (working_message p h m s Hw Hm) as [Hw' Hv'].
    destruct (IH p (noted m h) _ Hw' Hrest) as [Hw2 Hv2]. split; [exact Hw2|].
    change (backend_run (m :: ms) s) with (backend_run ms (exec (backendMessage m) s)). rewrite Hv2.
    rewrite (view_told _ _ _ Hv'), told_told. f_equal. f_equal. by apply shows_app.
Qed.

(** Behind the ReadyForQuery of an exchange. *)
Definition over (z : Message) (s : session) : session := set_hidden None (exec endExchange (heard z s)).

Lemma view_over z s : view (over z s) = view s.
Proof. change (view s) with (view (heard z s)). by rewrite <- (ended_view (heard z s)). Qed.

Lemma working_over p h z s :
  working p h s -> is_tag z "Z" = true -> exec (backendMessage z) s = exec (finish_of h) (over z s).
Proof.
  intros (Hc & Hh & Hp & Hf) Hz. unfold exec at 1, over. rewrite backendMessage_prefix, Hz.
  destruct (ended_frame (heard z s)) as (He & _ & Hhid & _).
  set (s1 := exec endExchange (heard z s)) in *. clearbody s1. simpl in He, Hhid.
  unfold consumeHidden. step_run. rewrite Hhid, Hh. step_run.
  rewrite (consume_over p h) by (by rewrite ?He). cbn [negb]. step_run.
  rewrite (run_finish p h) by (by rewrite <- Hp, <- He). unfold exec.
  destruct (run (finish_of h) (set_hidden None s1)) as [[] s2]. by step_run.
Qed.

Lemma working_block p h b s :
  working p h s -> well_formed_block b ->
  exists s1, backend_run (b.1 ++ [b.2]) s = exec (finish_of (foldl (fun h m => noted m h) h b.1)) s1 /\
    view s1 = view (told (shows h b.1) s) /\ hidden s1 = None.
Proof.
  intros Hw (Hms & _ & Hz & _). rewrite backend_run_app.
  destruct (working_messages b.1 p h s Hw) as [Hw' Hv].
  { eapply Forall_impl; [exact Hms|]. by intros m []. }
  exists (over b.2 (backend_run b.1 s)). split; [exact (working_over _ _ _ _ Hw' Hz)|].
  by rewrite view_over.
Qed.

(** ** What finishes an exchange *)

(** The conflict was reported, and the upstream's transaction is being failed. *)
Definition giving_up (s s' : session) : Prop :=
  let (c, m) := conflictError (rsOCC ruleset) in
  injecting (mkFailure abortTransactionQuery "E" 1) 0 1 s' /\
  written (client s') = written (client s) ++ [errorResponse c m] /\
  written (upstream s') = written (upstream s) ++ [abortTransactionQuery] /\
  occDoomed s' = false /\ txnAborted s' = true /\ tracker s' = tracker s.

Lemma run_failRepair s : connected s -> hidden s = None -> giving_up s (exec failRepair s).
Proof.
  intros Hc Hh. unfold giving_up, failRepair, exec. destruct (conflictError (rsOCC ruleset)) as [c m].
  step_run. rewrite run_sendError by done. rewrite run_beginFailure by done. cbn [snd].
  split_and!; try done; apply Hc.
Qed.

(** The statement was answered. *)
Definition answered_by (shown : list bytes) (s s' : session) : Prop :=
  view s' = view (told (shown ++ [readyForQuery "T"]) s) /\ hidden s' = None.

Lemma run_answers (bs : list bytes) (p : proc session unit) s :
  run p s = (tt, told bs s) -> connected s -> hidden s = None ->
  answered_by bs s (exec (do! p; do! writeClient (readyForQuery "T"); skip) s).
Proof.
  intros Hp Hc Hh. unfold exec. rewrite run_bind, Hp. step_run. rewrite run_tell by by apply connected_told.
  rewrite told_told. step_run. by split.
Qed.

Lemma run_completeRepair flight rows s :
  connected s -> hidden s = None -> answered_by [complete_of flight rows] s (exec (completeRepair flight rows) s).
Proof.
  intros Hc Hh. apply (run_answers _ (do! writeClient (complete_of flight rows); skip)); [|done..].
  rewrite run_bind, run_tell by done. done.
Qed.

(** The shadow was sent up. *)
Definition shadowing (b : bytes) (h : hiddenExchange) (s s' : session) : Prop :=
  view s' = view (sent [b] s) /\ exists p, working p h s'.

Lemma run_shadow b h s :
  connected s -> failure s = None -> shadowing b h s (exec (do! setHidden h; writeShadow b) s).
Proof.
  intros Hc Hf. unfold exec, setHidden, writeShadow. step_run. rewrite run_writeUpstreamExchange by done. step_run.
  cbn [when negb snd]. split; [done|]. eexists. split_and!; [done | reflexivity | | done].
  simpl. by rewrite lookup_app_r, Nat.sub_diag by lia.
Qed.

(** ** In step with the ledger *)

Context {TC : TaggedCodec}.

Lemma answer_more b bs s :
  0 < pendingExchanges s -> answer (b :: bs) s = answer bs (backend_run (b.1 ++ [b.2]) s).
Proof. intros H. destruct b as [ms z]. simpl. by rewrite (proj2 (Z.leb_gt _ _) H). Qed.

Lemma answer_quiescent bs s : quiescent s -> answer bs s = s.
Proof. intros (_ & _ & _ & _ & _ & _ & H). destruct bs as [|[ms z] bs]; [done|]. simpl. by rewrite H. Qed.

Lemma engaged_pending n s :
  engaged n (ledger_of s) -> told_ready s = n -> 0 < pendingExchanges s.
Proof.
  intros (ph & Hok & HL) Ht. pose proof (f_equal outstanding HL) as Ho. simpl in Ho. rewrite Ho.
  pose proof (ledger_told_ready _ _ _ HL) as Ht'.
  destruct ph as [|r|g k|h|b a]; simpl in *; try lia. destruct Hok as [-> | ->]; simpl; lia.
Qed.

Lemma engaged_done n s : connected s -> engaged n (ledger_of s) -> told_ready s = S n -> quiescent s.
Proof.
  intros Hc (ph & Hok & HL) Ht. pose proof (ledger_told_ready _ _ _ HL) as Ht'.
  destruct ph; try lia. apply quiescent_ledger. by rewrite Ht.
Qed.

Lemma engaged_block n b s :
  connected s -> engaged n (ledger_of s) -> told_ready s = n -> well_formed_block b ->
  connected (backend_run (b.1 ++ [b.2]) s) /\ engaged n (ledger_of (backend_run (b.1 ++ [b.2]) s)).
Proof.
  intros Hc (ph & Hok & HL) Ht Hb. pose proof (ledger_told_ready _ _ _ HL) as Ht'.
  destruct (is_idle ph) eqn:Hi; [destruct ph; try done; simpl in Ht'; lia|].
  assert (HL' : ledger_of s = ledger_at n ph) by (rewrite HL; by destruct ph).
  destruct (block_advances b n ph s Hok Hi Hb Hc HL') as (Hc' & ph' & Hok' & _ & HL2).
  split; [done|]. exists ph'. split; [done|]. rewrite HL2. by destruct ph'.
Qed.

Lemma told_ready_told bs s : told_ready (told bs s) = (told_ready s + readies bs)%nat.
Proof. unfold told_ready. simpl. apply readies_app. Qed.

Lemma told_ready_view s s' : view s' = view s -> told_ready s' = told_ready s.
Proof. intros H. injection H as H _. unfold told_ready. by rewrite H. Qed.

(** A session came to what an outcome says. *)
Definition comes_to (o : outcome) (s s' : session) : Prop :=
  written (client s') = written (client s) ++ to_client o /\
  written (upstream s') = written (upstream s) ++ to_upstream o /\
  occDoomed s' = dooms o /\ txnAborted s' = fails_txn o /\ tracker s' = tracker s /\ quiescent s'.

Lemma readies_error c m : readies [errorResponse c m] = 0%nat.
Proof. unfold readies. simpl. by rewrite errors_tagged. Qed.

Lemma readies_complete flight rows : readies [complete_of flight rows] = 0%nat.
Proof. unfold readies, complete_of. simpl. by rewrite completes_tagged. Qed.

Lemma readies_ready st : readies [readyForQuery st] = 1%nat.
Proof. unfold readies. simpl. by rewrite readyForQuery_tagged. Qed.

Lemma count_ready_none ms : Forall (fun m => framed m /\ is_tag m "Z" = false) ms -> count_ready ms = 0.
Proof. induction 1 as [|x l [_ Hx] _ IH]; [done|]. rewrite count_ready_cons, Hx. lia. Qed.

(** The upstream's answer to the statement that fails its transaction. *)
Lemma gave_up b rest n s s' :
  giving_up s s' -> told_ready s = n -> engaged n (ledger_of s') -> well_formed_block b ->
  comes_to (gives_up [] []) s (answer (b :: rest) s').
Proof.
  unfold giving_up, gives_up. destruct (conflictError (rsOCC ruleset)) as [c m].
  intros (Hi & Hcl & Hup & Hd & Ha & Htr) Hn He Hb.
  assert (Ht' : told_ready s' = n).
  { unfold told_ready in *. rewrite Hcl, readies_app, readies_error. lia. }
  rewrite answer_more by by eapply engaged_pending.
  destruct (engaged_block n b s' (proj1 Hi) He Ht' Hb) as [Hc2 He2].
  destruct Hb as (Hms & _ & Hz & _).
  destruct (swallow_last _ 1 s' b.1 b.2 Hi) as (Hf & Hw & Hsame); [|done|].
  { by rewrite count_ready_none. }
  set (s2 := backend_run (b.1 ++ [b.2]) s') in *.
  destruct Hsame as (Hab & _ & Htr2 & _ & Hup2 & _ & _ & _ & Hd2).
  assert (Hq : quiescent s2).
  { apply (engaged_done n); [done..|]. unfold told_ready in *. rewrite Hw, readies_app, readies_ready. lia. }
  rewrite answer_quiescent by done. unfold comes_to. simpl.
  rewrite Hw, Hup2, Hup, Hd2, Hd, Hab, Ha, Htr2, Htr, Hcl, <- app_assoc. by split_and!.
Qed.

Lemma was_answered bs rest n s s' :
  answered_by bs s s' -> readies bs = 0%nat -> told_ready s = n -> connected s -> engaged n (ledger_of s') ->
  occDoomed s = true -> txnAborted s = false ->
  comes_to (answers bs []) s (answer rest s').
Proof.
  intros [Hv Hh] Hbs Hn Hc He Hd Ha.
  assert (Hq : quiescent s').
  { apply (engaged_done n); [|done|].
    - eapply (view_connected (told (bs ++ [readyForQuery "T"]) s)); [exact Hv | by apply connected_told].
    - rewrite (told_ready_view _ _ Hv), told_ready_told, readies_app, readies_ready. lia. }
  rewrite answer_quiescent by done. injection Hv as H1 H2 H3 H4 H5 H6 H7 H8. unfold comes_to. simpl.
  rewrite H1, H2, H3, H4, H6, app_nil_r. by split_and!.
Qed.

(** An outcome behind what was already sent. *)
Definition after (shown asked_ : list bytes) (o : outcome) : outcome :=
  mkOutcome (shown ++ to_client o) (asked_ ++ to_upstream o) (dooms o) (fails_txn o).

Lemma comes_to_after shown asked_ o s s0 s' :
  comes_to o s0 s' -> written (client s0) = written (client s) ++ shown ->
  written (upstream s0) = written (upstream s) ++ asked_ -> tracker s0 = tracker s ->
  comes_to (after shown asked_ o) s s'.
Proof.
  intros (H1 & H2 & H3 & H4 & H5 & H6) Hc Hu Ht. unfold comes_to. simpl.
  rewrite H1, H2, H3, H4, H5, Hc, Hu, Ht, !app_assoc. by split_and!.
Qed.

Lemma readies_shown flight ms :
  Forall (fun m => framed m /\ is_tag m "Z" = false) ms -> readies (shown_rows flight ms) = 0%nat.
Proof.
  induction 1 as [|m ms [Hf Hz] _ IH]; [done|]. unfold shown_rows in *. simpl. destruct (passes flight m); [|done].
  simpl. unfold readies in *. simpl. by rewrite framed_tagged, Hz.
Qed.

(** What a shadow is answered with when it did not fail. *)
Definition shadow_answer (h : hiddenExchange) (ms : list Message) : list bytes :=
  match h with CountExchange _ rows r => [complete_of r (rows_of rows ms)] | _ => [] end.

Definition is_shadow (h : hiddenExchange) : Prop :=
  match h with CountExchange f _ _ | RowsetExchange f _ => f = false | _ => False end.

Lemma shadow_finishes h ms s :
  is_shadow h -> connected s -> hidden s = None ->
  let s' := exec (finish_of (foldl (fun h m => noted m h) h ms)) s in
  if has_error ms then giving_up s s' else answered_by (shadow_answer h ms) s s'.
Proof.
  intros Hh Hc Hhid. rewrite noted_all. destruct h as [f|f r|f rows r|f r]; try done; simpl in Hh; subst f; simpl;
    destruct (has_error ms).
  - by apply run_failRepair.
  - by apply run_completeRepair.
  - by apply run_failRepair.
  - by apply (run_answers [] skip); [rewrite told_nil|..].
Qed.

Lemma shadow_outcome h b b3 b4 rest n s s' :
  shadowing b h s s' -> is_shadow h -> told_ready s = n -> connected s -> engaged n (ledger_of s') ->
  occDoomed s = true -> txnAborted s = false -> well_formed_block b3 -> well_formed_block b4 ->
  comes_to (after (shows h b3.1) [b] (if has_error b3.1 then gives_up [] [] else answers (shadow_answer h b3.1) []))
    s (answer (b3 :: b4 :: rest) s').
Proof.
  intros [Hv [p Hw]] Hh Hn Hc He Hd Ha Hb3 Hb4.
  assert (Ht : told_ready s' = n) by by rewrite (told_ready_view _ _ Hv).
  rewrite answer_more by by eapply engaged_pending.
  assert (Hc' : connected s') by apply Hw.
  destruct (engaged_block n b3 s' Hc' He Ht Hb3) as [_ He2].
  destruct (working_block p h b3 s' Hw Hb3) as (s1 & Hrun & Hv1 & Hh1). rewrite Hrun in He2 |- *.
  assert (Hv2 : view s1 = view (told (shows h b3.1) (sent [b] s))) by by rewrite Hv1; apply view_told.
  assert (Hc1 : connected s1) by by eapply (view_connected (told (shows h b3.1) (sent [b] s))).
  assert (Ht1 : told_ready s1 = n).
  { rewrite (told_ready_view _ _ Hv2), told_ready_told. change (told_ready (sent [b] s)) with (told_ready s).
    destruct h; simpl; rewrite ?Nat.add_0_r; try done. rewrite readies_shown by apply Hb3. lia. }
  pose proof (shadow_finishes h b3.1 s1 Hh Hc1 Hh1) as Hfin. cbv zeta in Hfin.
  injection Hv2 as H1 H2 H3 H4 H5 H6 H7 H8.
  apply (comes_to_after _ _ _ s s1); [|by rewrite H1 | by rewrite H2 | by rewrite H6].
  destruct (has_error b3.1).
  - by eapply gave_up.
  - eapply was_answered; try done; [|by rewrite H3 | by rewrite H4].
    destruct h; try done. apply readies_complete.
Qed.

(** The restored transaction runs the shadow, if the statement has one. *)
Lemma runShadow_outcome flight shadow n s b4 rest :
  let s' := exec (runShadow flight) s in
  connected s -> hidden s = None -> failure s = None -> told_ready s = n -> engaged n (ledger_of s') ->
  occDoomed s = true -> txnAborted s = false -> well_formed_block shadow -> well_formed_block b4 ->
  comes_to (repair_of flight [] shadow.1) s (answer (shadow :: b4 :: rest) s').
Proof.
  intros s' Hc Hh Hf Hn He Hd Ha Hb3 Hb4. subst s'. unfold repair_of. simpl (has_error []).
  unfold runShadow, runCountShadow, runRowsetShadow in *.
  destruct (String.eqb (Shadow (intent flight)) "") eqn:Hs.
  - eapply was_answered; [by apply run_completeRepair | apply readies_complete | done..].
  - destruct (Rowset (intent flight)), (shadowParams flight) as [[values fs]|].
    + pose proof (run_shadow (rowset_bytes flight values fs) (RowsetExchange false flight) s Hc Hf) as Hsh.
      pose proof (shadow_outcome _ _ shadow b4 rest n s _ Hsh eq_refl Hn Hc He Hd Ha Hb3 Hb4) as H.
      unfold comes_to in *. simpl in *. destruct (has_error shadow.1); [|exact H].
      unfold gives_up in *. by destruct (conflictError (rsOCC ruleset)).
    + eapply gave_up; [by apply run_failRepair|done..].
    + pose proof (run_shadow (count_bytes flight values fs) (CountExchange false 0 flight) s Hc Hf) as Hsh.
      pose proof (shadow_outcome _ _ shadow b4 rest n s _ Hsh eq_refl Hn Hc He Hd Ha Hb3 Hb4) as H.
      unfold comes_to in *. simpl in *. destruct (has_error shadow.1); [|exact H].
      unfold gives_up in *. by destruct (conflictError (rsOCC ruleset)).
    + eapply gave_up; [by apply run_failRepair|done..].
Qed.

Lemma refusable_engaged flight s :
  refusable flight s -> pendingFailure s = None -> engaged (told_ready s) (ledger_of s).
Proof.
  intros ((Hc & Hh & Hf & Hk & _) & _ & Hr & Hp & _) Hpf. exists (Answering false). split; [done|].
  unfold ledger_of, own_exchange. by rewrite Hh, Hf, Hk, Hr, Hp, Hpf.
Qed.

(** The refused statement's own answers are over: the transaction is doomed, its
    restore has been sent, and nothing was shown. *)
Lemma restore_starts flight s e ms z st :
  refusable flight s -> is_conflict e -> well_formed_block (ms, z) -> rfq_decode (Body z) = Some st ->
  let s' := backend_run ((e :: ms) ++ [z]) s in
  view s' = view (sent [restore_bytes s] (set_occDoomed true s)) /\
  exists p, working p (RestoreExchange false flight) s'.
Proof.
  intros Href He Hb Hst s'.
  assert (E : s' = exec (backendMessage z) (backend_run ms (exec (backendMessage e) s))).
  { unfold s'. rewrite <- app_comm_cons.
    change (backend_run (e :: ms ++ [z]) s) with (backend_run (ms ++ [z]) (exec (backendMessage e) s)).
    by rewrite backend_run_app. }
  clearbody s'. subst s'.
  destruct (refused_taken flight e s Href He) as (Ha0 & Hv0 & Hsp0).
  destruct (awaiting_drops_all flight ms _ Ha0) as (Ha1 & Hv1 & Hsp1); [apply count_ready_none, Hb|].
  destruct (repair_starts flight z st _ Ha1 (proj1 (proj2 (proj2 Hb))) Hst) as (Hv2 & p & Hr2).
  assert (Hrb : restore_bytes (backend_run ms (exec (backendMessage e) s)) = restore_bytes s).
  { unfold restore_bytes. by rewrite Hsp1, Hsp0. }
  assert (HvA : view (exec (backendMessage z) (backend_run ms (exec (backendMessage e) s))) =
                view (sent [restore_bytes s] (set_occDoomed true s))).
  { rewrite Hv2, Hrb. apply view_sent, view_doomed. by rewrite Hv1. }
  split; [done|]. exists p. destruct Hr2 as (H1 & H2 & H3 & _). split_and!; try done.
  injection HvA as _ _ _ _ -> _ _ _. apply Href.
Qed.

(** The restore has been answered: the shadow is run, or the repair given up. *)
Lemma restore_outcome flight n p b2 b3 b4 rest s :
  working p (RestoreExchange false flight) s -> connected s -> engaged n (ledger_of s) -> told_ready s = n ->
  occDoomed s = true -> txnAborted s = false -> Forall well_formed_block [b2; b3; b4] ->
  comes_to (repair_of flight b2.1 b3.1) s (answer (b2 :: b3 :: b4 :: rest) s).
Proof.
  intros Hw Hc He Ht Hd Hab Hbs. apply Forall_cons in Hbs as [Hb2 Hbs]. apply Forall_cons in Hbs as [Hb3 Hbs].
  apply Forall_cons in Hbs as [Hb4 _]. rewrite answer_more by by eapply engaged_pending.
  destruct (engaged_block n b2 s Hc He Ht Hb2) as [_ HeB].
  destruct (working_block p _ b2 s Hw Hb2) as (s1 & Hrun & Hvs & Hhs). rewrite Hrun in HeB |- *.
  simpl shows in Hvs. rewrite told_nil in Hvs. rewrite noted_all in HeB |- *. cbn [orb finish_of] in HeB |- *.
  assert (Hc1 : connected s1) by by eapply (view_connected s).
  assert (Ht1 : told_ready s1 = n) by by rewrite (told_ready_view _ _ Hvs).
  injection Hvs as K1 K2 K3 K4 K5 K6 _ _.
  cut (comes_to (after [] [] (repair_of flight b2.1 b3.1)) s
         (answer (b3 :: b4 :: rest) (exec (finish_of (RestoreExchange (has_error b2.1) flight)) s1))).
  { exact (fun H => H). }
  apply (comes_to_after _ _ _ s s1); [|by rewrite K1, app_nil_r | by rewrite K2, app_nil_r | done].
  cbn [finish_of]. unfold repair_of. destruct (has_error b2.1) eqn:Herr.
  - eapply gave_up; [by apply run_failRepair | done..].
  - apply (runShadow_outcome flight b3 n); try done; [by rewrite K5; apply Hw | by rewrite K3 | by rewrite K4].
Qed.

(** C4: What becomes of a statement refused a lock in a transaction, in every case.
    Nothing the upstream says of it is seen.  If the transaction cannot be
    restored, or the shadow's parameters are not there, or the shadow fails, the
    client is told of the conflict and its transaction is failed; otherwise it is
    answered with the rows of the shadow, with the count it gave, or with the count
    the statement stated, and its transaction stays open and doomed.  Either way
    the client gets one ReadyForQuery and the session is quiescent again. *)
Theorem repair_outcome flight s e ms z st b2 b3 b4 rest :
  refusable flight s -> pendingFailure s = None ->
  is_conflict e -> framed e -> well_formed_block (ms, z) -> rfq_decode (Body z) = Some st ->
  Forall well_formed_block [b2; b3; b4] ->
  comes_to (after [] [restore_bytes s] (repair_of flight b2.1 b3.1)) s
    (answer ((e :: ms, z) :: b2 :: b3 :: b4 :: rest) s).
Proof.
  intros Href Hpf He Hfe Hb1 Hst Hbs.
  pose proof (refusable_engaged flight s Href Hpf) as Heng. assert (Hc : connected s) by apply Href.
  assert (Hb1' : well_formed_block (e :: ms, z)).
  { destruct Hb1 as (H1 & H2). split; [|done]. constructor; [|done].
    split; [done | by eapply is_tag_disjoint; [apply He|]]. }
  destruct (restore_starts flight s e ms z st Href He Hb1 Hst) as (HvA & p & HwA).
  rewrite answer_more by by eapply engaged_pending.
  destruct (engaged_block _ _ s Hc Heng eq_refl Hb1') as [HcA HeA].
  simpl fst in *. simpl snd in *. set (sA := backend_run _ _) in *. clearbody sA.
  assert (HtA : told_ready sA = told_ready s) by by rewrite (told_ready_view _ _ HvA).
  injection HvA as Hcl Hup Hdm Hab _ Htr _ _.
  apply (comes_to_after _ _ _ s sA); [| by rewrite Hcl, app_nil_r | by rewrite Hup | by rewrite Htr].
  apply (restore_outcome flight (told_ready s) p); try done. rewrite Hab. apply Href.
Qed.
End repairs.

(** ** An instance: the update of [Conflicts.v], repaired and not *)

Definition sample_repair (restored : Message) : session :=
  answer [([error "55P03"], ready "E"); ([restored], ready "T"); ([message "D" (text_of "7")], ready "T");
          answered_with "" "T"] session_updating.

Lemma repair_outcome_witness :
  occDoomed (sample_repair (complete "ROLLBACK")) = true /\ quiescent (sample_repair (complete "ROLLBACK")) /\
  txnAborted (sample_repair (error "3B001")) = true.
Proof.
  assert (forall restored, Forall (fun m => framed m /\ is_tag m "Z" = false) [restored] ->
    comes_to (after [] [restore_bytes session_updating] (repair_of sample_flight [restored] [message "D" (text_of "7")]))
      session_updating (sample_repair restored)) as H.
  { intros restored Hr.
    apply (repair_outcome sample_flight session_updating (error "55P03") [] (ready "E") "E"
             ([restored], ready "T") ([message "D" (text_of "7")], ready "T") (answered_with "" "T") []).
    - vm_compute. repeat split.
    - reflexivity.
    - split; [reflexivity|]. eexists. split; reflexivity.
    - reflexivity.
    - by apply well_formed_answer.
    - reflexivity.
    - repeat (apply Forall_cons; split; [by apply well_formed_answer; first [done | repeat constructor]|]).
      by apply Forall_nil. }
  split_and!.
  - destruct (H (complete "ROLLBACK")) as (_ & _ & -> & _); [by repeat constructor | reflexivity].
  - destruct (H (complete "ROLLBACK")) as (_ & _ & _ & _ & _ & Hq); [by repeat constructor | exact Hq].
  - destruct (H (error "3B001")) as (_ & _ & _ & -> & _); [by repeat constructor | reflexivity].
Defined.
