(* ===== verification/Commit.v ===== *)
(** * COMMIT over the extended protocol

    A driver that prepares its statements sends its COMMIT as a Bind of a prepared
    one.  A transaction that was refused a lock fails there as it does for a simple
    query, with the rest of the batch dropped. *)

From Stdlib Require Import Ascii String Strings.Byte.
From stdpp Require Import base numbers strings gmap list relations.
From S2P Require Import Prelude GoStd Kind Txn Proto Ruleset Occ Wire Rewrite Proc State Session System Samples Failing Conflicts Transparent.

Local Open Scope Z_scope.
Local Open Scope proc_scope.

Section commit.
Context {PG : PgQuery} {PP : PgProto} {SC : StatementClassifier} {CF : Config}.

(** A Bind of a statement the session knows. *)
Definition binds (msg : Message) (name : string) (info : statementInfo) (s : session) : Prop :=
  is_tag msg "B" = true /\
  (exists pfs ps rfs portal, DecodeFrontend (Type_ msg) (Body msg) = Decoded (Bind name pfs ps rfs portal)) /\
  statements_ s !! name = Some info.

(** What a COMMIT failed at its Bind leaves: the error told, the rest of the batch
    to be dropped, the failure to follow the Sync. *)
Definition commit_refused (t : Tracker) (s s' : session) : Prop :=
  let (c, m) := conflictError (rsOCC ruleset) in
  connected s' /\ hidden s' = None /\ failure s' = None /\
  written (client s') = written (client s) ++ [errorResponse c m] /\
  written (upstream s') = written (upstream s) /\
  skipSync s' = true /\ pendingFailure s' = Some (mkFailure rollbackQuery "I" 2) /\ tracker s' = t.

Lemma bind_commit_refused msg name info t s :
  doomed s -> binds msg name info s -> isCommit (infoKinds info) = true ->
  Admit (infoKinds info) (clock s) (tracker s) = (None, t) ->
  commit_refused t s (exec (frontendMessage msg) s).
Proof.
  intros [(Hc & Hh & Hf & Hk & Ha) Hd] (HB & (pfs & ps & rfs & portal & Hdec) & Hst) Hcm Had.
  pose proof (is_tag_disjoint msg "B" "X" HB eq_refl) as HX. pose proof (is_tag_disjoint msg "B" "S" HB eq_refl) as HS.
  pose proof (is_tag_disjoint msg "B" "Q" HB eq_refl) as HQ. pose proof (is_tag_disjoint msg "B" "P" HB eq_refl) as HP.
  unfold exec, frontendMessage. step_run. rewrite HX, HS. step_run. fold (received msg s).
  change (skipSync (received msg s)) with (skipSync s). rewrite Hk, HQ, HP, HB.
  unfold handleBind. rewrite Hdec. step_run. change (statements_ (received msg s)) with (statements_ s). rewrite Hst.
  unfold bindKnown, aborted. step_run. change (txnAborted (received msg s)) with (txnAborted s). rewrite Ha.
  step_run. unfold admitBatch. step_run. change (clock (received msg s)) with (clock s).
  change (tracker (received msg s)) with (tracker s). rewrite Had. step_run.
  set (s0 := set_tracker t (received msg s)).
  unfold afterAdmit. step_run. rewrite (isCommit_ends _ Hcm), Hcm.
  destruct (run (addOccTables (infoTables info)) s0) as [[] s1] eqn:E1. step_run.
  destruct (run (countTxnStatement (infoKinds info)) s1) as [[] s2] eqn:E2. step_run.
  assert (Hs2 : connected s2 /\ client s2 = client s /\ upstream s2 = upstream s /\ hidden s2 = None /\
                failure s2 = None /\ tracker s2 = t /\ occDoomed s2 = true).
  { apply (f_equal snd) in E1, E2. cbn [snd] in E1, E2.  change (exec (addOccTables (infoTables info)) s0 = s1) in E1.
    change (exec (countTxnStatement (infoKinds info)) s1 = s2) in E2. subst s1 s2. unfold countTxnStatement, addOccTables.
    destruct (infoTables info), (existsb _ _); repeat split; try done; apply Hc. }
  clearbody s0. clear E1 E2. destruct Hs2 as (Hc2 & Hcl2 & Hup2 & Hh2 & Hf2 & Ht2 & Hd2).
  unfold commit_fails. step_run. rewrite Hd2. step_run.
  unfold commit_refused, occFailure. destruct (conflictError (rsOCC ruleset)) as [c m].
  step_run. rewrite run_sendError by done. step_run. unfold resetOcc, failTxn, deferFailure. step_run.
  cbn [when]. step_run. unfold noteBatchState.
  assert (HBt : Type_ msg = "B"%byte) by by apply Byte.byte_dec_bl. rewrite HBt. cbn -[app].
  rewrite Hcl2, Hup2. destruct Hc2 as [Hc3 Hc4]. unfold connected. cbn -[app]. rewrite <- Hcl2, <- Hup2. by split_and!.
Qed.

(** C8: A prepared COMMIT fails as a simple one does.  Bound in a transaction that
    was refused a lock, it never reaches the upstream, nor does anything of its
    batch but the Sync, behind which comes a ROLLBACK; the client is told the
    conflict and, once the upstream has answered both, one ReadyForQuery that
    reports no transaction. *)
Theorem doomed_prepared_commit_fails msg name info t s rest sync ms z :
  doomed s -> binds msg name info s -> isCommit (infoKinds info) = true ->
  Admit (infoKinds info) (clock s) (tracker s) = (None, t) ->
  Forall (fun m => is_tag m "S" = false /\ is_tag m "X" = false) rest -> is_tag sync "S" = true ->
  count_ready ms = 1 -> is_tag z "Z" = true ->
  let s' := backend_run (ms ++ [z]) (frontend_run (msg :: rest ++ [sync]) s) in
  let (c, m) := conflictError (rsOCC ruleset) in
  written (client s') = written (client s) ++ [errorResponse c m; readyForQuery "I"] /\
  written (upstream s') = written (upstream s) ++ [Raw sync; rollbackQuery] /\
  failure s' = None /\ pendingFailure s' = None /\ skipSync s' = false /\
  txnAborted s' = false /\ tracker s' = t.
Proof.
  intros Hd Hb Hcm Had Hrest HS Hms Hz. pose proof (bind_commit_refused msg name info t s Hd Hb Hcm Had) as H.
  change (frontend_run (msg :: rest ++ [sync]) s) with (frontend_run (rest ++ [sync]) (exec (frontendMessage msg) s)).
  set (s1 := exec (frontendMessage msg) s) in *. clearbody s1. unfold commit_refused in H.
  destruct (conflictError (rsOCC ruleset)) as [c m]. destruct H as (Hc & Hh & Hf & Hcl & Hup & Hk & Hp & Ht).
  pose proof (batch_settles rest sync s1 Hc Hk Hrest HS) as H. cbv zeta in H. rewrite Hp in H.
  set (s2 := frontend_run (rest ++ [sync]) s1) in *. clearbody s2.
  destruct H as (Hcl2 & Hk2 & Hp2 & _ & Hc2 & Hh2 & Ht2 & Hup2 & Hf2 & Hr2 & Ha2). cbn [statement status] in *.
  set (f := mkFailure rollbackQuery "I" 2) in *.
  assert (Hi : injecting f 0 2 s2) by (repeat split; first [done | apply Hc2 | by rewrite Hh2]).
  destruct (swallow_last f 2 s2 ms z Hi ltac:(lia) Hz) as (Hnone & Hw & Hsame).
  destruct Hsame as (Hab & Hsk & Htr & Hpf & Hu & _).
  rewrite Hw, Hu, Hab, Hsk, Htr, Hpf, Hcl2, Hcl, Hup2, Hup, Ht2, <- app_assoc. by split_and!.
Qed.
End commit.

(** The COMMIT of the update refused in [Conflicts.v], prepared and bound. *)
Definition session_prepared : session := exec (frontendMessage (parse "COMMIT")) session_deferred.

Definition sample_info : statementInfo :=
  default (mkInfo [] [] None EmptyString) (statements_ session_prepared !! EmptyString).

Lemma doomed_prepared_commit_fails_witness :
  let s' := backend_run ([complete "SYNC"; ready "T"; complete "ROLLBACK"] ++ [ready "I"])
              (frontend_run (bind_unnamed :: [message "E" []] ++ [sync]) session_prepared) in
  failure s' = None /\ txnAborted s' = false /\ trackerInTxn s' = false.
Proof.
  intros s'.
  pose proof (doomed_prepared_commit_fails bind_unnamed EmptyString sample_info
    (Admit (infoKinds sample_info) (clock session_prepared) (tracker session_prepared)).2
    session_prepared [message "E" []] sync [complete "SYNC"; ready "T"; complete "ROLLBACK"] (ready "I")) as H.
  destruct H as (_ & _ & Hf & _ & _ & Ha & Ht); [vm_compute; repeat split | | vm_compute; reflexivity
    | vm_compute; reflexivity | repeat constructor | reflexivity | vm_compute; reflexivity | reflexivity |].
  - split; [reflexivity|]. split; [by do 4 eexists; vm_compute | vm_compute; reflexivity].
  - split; [exact Hf|]. split; [exact Ha|]. unfold trackerInTxn, s'. rewrite Ht. vm_compute. reflexivity.
Defined.
