(* ===== verification/Prepared.v ===== *)
(** * Prepared statements

    A client prepares a statement once and executes it by a Bind that carries its
    name alone.  The session remembers, under that name, how the text was
    classified, so that every execution is checked as the text itself would be.
    Here: what is remembered, that it stays whatever else the two pumps do, and
    that a Bind moves the rules of the transaction as a query of the text does. *)

From Stdlib Require Import Ascii String Strings.Byte.
From stdpp Require Import base numbers strings gmap list relations.
From S2P Require Import Prelude GoStd Kind Txn Proto Ruleset Occ Wire Rewrite Proc State Session System Samples Failing Conflicts.

Local Open Scope Z_scope.
Local Open Scope proc_scope.

(** ** What a handler leaves alone *)

Section leaves.
Context {V : Type} (view : session -> V).

(** No action of [p] changes the view, from any state. *)
Fixpoint leaves {A} (p : proc session A) : Prop :=
  match p with
  | Ret _ => True
  | Act f k => forall s, view (f s).2 = view s /\ leaves (k (f s).1)
  end.

Lemma leaves_bind {A B} (p : proc session A) (q : A -> proc session B) :
  leaves p -> (forall a, leaves (q a)) -> leaves (bind p q).
Proof.
  induction p as [a|X f k IH]; simpl; intros Hp Hq; [apply Hq|].
  intros s. destruct (Hp s) as [Hv Hk]. split; [done | by apply IH].
Qed.

Lemma leaves_locked {X} (f : session -> X * session) : (forall s, view (f s).2 = view s) -> leaves (locked f).
Proof. by intros H s; simpl. Qed.

Lemma leaves_modify (f : session -> session) : (forall s, view (f s) = view s) -> leaves (modify f).
Proof. intros H. by apply leaves_locked. Qed.

Lemma leaves_get {X} (f : session -> X) : leaves (get f).
Proof. by apply leaves_locked. Qed.

Lemma leaves_when b p : leaves p -> leaves (when b p).
Proof. by destruct b. Qed.

Lemma leaves_exec {A} (p : proc session A) s : leaves p -> view (exec p s) = view s.
Proof.
  unfold exec. revert s. induction p as [a|X f k IH]; intros s Hp; simpl; [done|].
  destruct (Hp s) as [Hv Hk]. destruct (f s) as [x s']. by rewrite (IH x s' Hk).
Qed.
End leaves.

Create HintDb left_alone discriminated.

Section prepared.
Context {PG : PgQuery} {PP : PgProto} {SC : StatementClassifier} {CF : Config}.

(** What the rules of the open transaction are decided on. *)
Definition Rules : Type := Tracker * gset string * Z * gmap nat Z.

Definition rules (s : session) : Rules :=
  (tracker s, occTouched s, occTxnStatements s, occCommits s).

(** A view of the rules and of what is remembered, alone. *)
Class RuleView {V} (view : session -> V) : Prop :=
  rule_view s s' : rules s' = rules s -> statements_ s' = statements_ s -> view s' = view s.

Lemma leaves_beside {V} (view : session -> V) `{!RuleView view} {X} (f : session -> X * session) :
  (forall s, rules (f s).2 = rules s /\ statements_ (f s).2 = statements_ s) -> leaves view (locked f).
Proof. intros H. apply leaves_locked. intros s. by apply rule_view; apply H. Qed.

Lemma leaves_modify_beside {V} (view : session -> V) `{!RuleView view} (f : session -> session) :
  (forall s, rules (f s) = rules s /\ statements_ (f s) = statements_ s) -> leaves view (modify f).
Proof. intros H. by apply (leaves_beside view (fun s => (tt, f s))). Qed.

(** Follow a handler to its actions. *)
Ltac follow_leaves :=
  repeat first
    [ assumption
    | done
    | progress cbv beta iota
    | solve [auto 2 with left_alone]
    | match goal with
      | |- leaves _ (bind _ _) => apply leaves_bind; [|intros ?]
      | |- leaves _ (get _) => apply leaves_get
      | |- leaves _ (when _ _) => apply leaves_when
      | |- leaves _ (modify _) => apply leaves_modify_beside; [typeclasses eauto|]; intros ?; solve [repeat case_match; done]
      | |- leaves _ (locked _) =>
          apply leaves_beside; [typeclasses eauto|]; intros ?; solve [repeat case_match; simplify_eq/=; done]
      | |- leaves _ (match ?x with _ => _ end) => destruct x
      | |- leaves _ skip => exact Logic.I
      end ].

(** ** Handlers that touch neither *)

Section view.
Context {V : Type} (view : session -> V) `{!RuleView view}.

Lemma leaves_writeClient b : leaves view (writeClient b).
Proof. apply leaves_beside; [done|]. intros s. by destruct (conn_write b (client s)). Qed.

Lemma leaves_writeUpstream b : leaves view (writeUpstream b).
Proof. apply leaves_beside; [done|]. intros s. by destruct (conn_write b (upstream s)). Qed.

Hint Resolve leaves_writeClient leaves_writeUpstream : left_alone.

Lemma leaves_writeUpstreamExchange b : leaves view (writeUpstreamExchange b).
Proof. unfold writeUpstreamExchange, beginExchange. follow_leaves. Qed.

Hint Resolve leaves_writeUpstreamExchange : left_alone.

Lemma leaves_forward msg : leaves view (forward msg).
Proof. unfold forward, beginExchange, close. follow_leaves. Qed.

Lemma leaves_failTxn stmt st ext : leaves view (failTxn stmt st ext).
Proof. unfold failTxn, deferFailure, beginFailure. follow_leaves. Qed.

Hint Resolve leaves_forward leaves_failTxn : left_alone.

Lemma leaves_reject c m ext : leaves view (reject c m ext).
Proof. unfold reject, sendError. follow_leaves. Qed.

Lemma leaves_rejectFailed ext : leaves view (rejectFailed ext).
Proof. unfold rejectFailed, sendError. follow_leaves. Qed.

Lemma leaves_establishSavepoint : leaves view establishSavepoint.
Proof. unfold establishSavepoint, setHidden, claim_savepoint, close. follow_leaves. Qed.

Hint Resolve leaves_establishSavepoint : left_alone.

Lemma leaves_armAdjudicator i bind : leaves view (armAdjudicator i bind).
Proof. unfold armAdjudicator, savepointReady, setInFlight. follow_leaves. Qed.

Lemma leaves_sendQuery msg sql : leaves view (sendQuery msg sql).
Proof. unfold sendQuery, rewriteSQL. follow_leaves. Qed.

Lemma leaves_restoreJob id : leaves view (restoreJob id).
Proof. unfold restoreJob. follow_leaves. Qed.
End view.

Hint Resolve leaves_writeClient leaves_writeUpstream leaves_writeUpstreamExchange leaves_forward leaves_failTxn
  leaves_reject leaves_rejectFailed leaves_establishSavepoint leaves_armAdjudicator leaves_sendQuery
  leaves_restoreJob : left_alone.

(** ** What is remembered stays *)

Section noted.
Variable name : string.

(** What is known of the statement of that name. *)
Definition noted (s : session) : option statementInfo := statements_ s !! name.

#[local] Instance noted_view : RuleView noted.
Proof. intros s s' _ H. unfold noted. by rewrite H. Qed.

Hint Resolve noted_view : left_alone.

(** The rules move, and what is remembered stays. *)
Lemma leaves_noted_modify (f : session -> session) : (forall s, statements_ (f s) = statements_ s) -> leaves noted (modify f).
Proof. intros H. apply leaves_modify. intros s. unfold noted. by rewrite H. Qed.

Lemma leaves_admitBatch kinds : leaves noted (admitBatch kinds).
Proof. apply leaves_locked. intros s. by destruct (Admit _ _ _). Qed.

Lemma leaves_resetOcc : leaves noted resetOcc.
Proof. by apply leaves_noted_modify. Qed.

Lemma leaves_commit_conflict : leaves noted (locked commit_conflict).
Proof. apply leaves_locked. intros s. unfold commit_conflict. by destruct (inject_from _ _ _ _). Qed.

Hint Resolve leaves_admitBatch leaves_resetOcc leaves_commit_conflict : left_alone.

Lemma leaves_endAborted : leaves noted endAborted.
Proof. unfold endAborted. follow_leaves. Qed.

Lemma leaves_addOccTables tables : leaves noted (addOccTables tables).
Proof. unfold addOccTables. destruct tables; [done|]. by apply leaves_noted_modify. Qed.

Lemma leaves_countTxnStatement kinds : leaves noted (countTxnStatement kinds).
Proof. unfold countTxnStatement. case_match; by apply leaves_noted_modify. Qed.

Lemma leaves_occFailure ext : leaves noted (occFailure ext).
Proof. unfold occFailure, sendError. follow_leaves. Qed.

Hint Resolve leaves_endAborted leaves_addOccTables leaves_countTxnStatement leaves_occFailure : left_alone.

Lemma leaves_afterAdmit kinds tables i bind ext : leaves noted (afterAdmit kinds tables i bind ext).
Proof. unfold afterAdmit, commit_fails, occCommitConflict. follow_leaves. Qed.

Hint Resolve leaves_afterAdmit : left_alone.

Lemma leaves_statement other info :
  other <> name -> leaves noted (set_statement other info) /\ leaves noted (delete_statement other).
Proof.
  intros Hn. split; apply leaves_modify; intros s; unfold noted; simpl;
    [by apply lookup_insert_ne | by apply lookup_delete_ne].
Qed.

(** Whether a client message is about the statement of that name: another Parse
    or a Close. *)
Definition renames (msg : Message) : bool :=
  match DecodeFrontend (Type_ msg) (Body msg) with
  | Decoded (Parse n _ _) => String.eqb n name
  | Decoded (Close o n) => Byte.eqb o "S" && String.eqb n name
  | _ => false
  end.

Lemma leaves_sendAsyncJob msg m rewritten stmt kinds :
  match m with Parse n _ _ => n <> name | _ => True end ->
  leaves noted (sendAsyncJob msg m rewritten stmt kinds).
Proof.
  intros Hn. unfold sendAsyncJob, drawJobID.
  assert (forall id, leaves noted (match m with Parse n _ _ => set_statement n (mkInfo kinds [] None id) | _ => skip end)).
  { intros id. destruct m; try done. by apply leaves_statement. }
  follow_leaves.
Qed.

Lemma leaves_forwardAsyncJob msg m rewritten stmt ext :
  match m with Parse n _ _ => n <> name | _ => True end ->
  leaves noted (forwardAsyncJob msg m rewritten stmt ext).
Proof.
  intros Hn. pose proof (fun r k => leaves_sendAsyncJob msg m r stmt k Hn).
  unfold forwardAsyncJob, admitAsyncJob, aborted. follow_leaves.
Qed.

Lemma leaves_handleQuery msg : leaves noted (handleQuery msg).
Proof.
  pose proof (fun sql r k => leaves_forwardAsyncJob msg (Query sql) r k false Logic.I).
  unfold handleQuery, queryAborted, queryClassified, panic, aborted. follow_leaves.
Qed.

Lemma leaves_handleParse msg : renames msg = false -> leaves noted (handleParse msg).
Proof.
  unfold renames, handleParse. destruct (DecodeFrontend _ _) as [|m|]; [by intros; follow_leaves| |by intros; follow_leaves].
  destruct m as [| | | | | |n sql oids| | | | | | |]; try (by intros; follow_leaves).
  intros Hn%String.eqb_neq.
  destruct (leaves_statement n (mkInfo [] [] None EmptyString) Hn) as [_ Hd].
  pose proof (fun info => proj1 (leaves_statement n info Hn)).
  pose proof (fun r k => leaves_forwardAsyncJob msg (Parse n sql oids) r k true Hn).
  unfold parseAborted, parseClassified, parseRemembered, rewriteSQL, panic, aborted. follow_leaves.
Qed.

Lemma leaves_handleBind msg : leaves noted (handleBind msg).
Proof. unfold handleBind, bindKnown, aborted. follow_leaves. Qed.

Lemma leaves_handleClose msg : renames msg = false -> leaves noted (handleClose msg).
Proof.
  unfold renames, handleClose. destruct (DecodeFrontend _ _) as [|m|]; [by intros; follow_leaves| |by intros; follow_leaves].
  destruct m; try (by intros; follow_leaves).
  intros Hn. apply leaves_bind; [|intros; follow_leaves].
  destruct (Byte.eqb _ _); [|follow_leaves]. cbn [when].
  apply leaves_statement; [exact (mkInfo [] [] None EmptyString)|]. by apply String.eqb_neq.
Qed.

Lemma leaves_frontendMessage msg : renames msg = false -> leaves noted (frontendMessage msg).
Proof.
  intros Hn. pose proof (leaves_handleQuery msg). pose proof (leaves_handleParse msg Hn).
  pose proof (leaves_handleBind msg). pose proof (leaves_handleClose msg Hn).
  unfold frontendMessage, handleSync, noteBatchState, beginFailure. follow_leaves.
Qed.

(** The upstream's messages never touch it. *)
Lemma leaves_failRepair : leaves noted failRepair.
Proof. unfold failRepair, sendError, beginFailure. follow_leaves. Qed.

Lemma leaves_completeRepair repair rows : leaves noted (completeRepair repair rows).
Proof. unfold completeRepair. follow_leaves. Qed.

Hint Resolve leaves_failRepair leaves_completeRepair : left_alone.

Lemma leaves_runShadow repair : leaves noted (runShadow repair).
Proof. unfold runShadow, runRowsetShadow, runCountShadow, writeShadow, setHidden, close. follow_leaves. Qed.

Hint Resolve leaves_runShadow : left_alone.

Lemma leaves_consumeHidden msg : leaves noted (consumeHidden msg).
Proof. unfold consumeHidden, consume, finish, set_exchange. follow_leaves. Qed.

Lemma leaves_startRepair : leaves noted startRepair.
Proof. unfold startRepair, take_repair, restore_statement, setHidden, close. follow_leaves. Qed.

Hint Resolve leaves_consumeHidden leaves_startRepair : left_alone.

Lemma leaves_backendMessage msg : leaves noted (backendMessage msg).
Proof.
  unfold backendMessage, repairPending, consumeFailureMessage, endExchange, backendRowless, backendError, backendStatus,
    backendReady, backendComplete, passOn, markJobDescribed, occIntercept, takeJob, rewriteConflictError,
    rewriteParameterStatus, noteTxStatus, rewriteCommandTag, claimJob, spliceJob, tellClient, count_failure,
    take_over, claim_job, take_tag.
  follow_leaves.
Qed.

(** A pump that leaves it alone for the rest of its handler. *)
Definition pump_leaves (p : pump) : Prop := match p with Running p => leaves noted p | _ => True end.

Lemma step_backend_leaves y y' : step y y' -> pump_leaves (backend y) -> pump_leaves (backend y').
Proof.
  intros H Hb. destruct H; simpl in *; try done; [by apply leaves_backendMessage | by apply (Hb s)].
Qed.

(** Steps in which no message of the client's is about the statement. *)
Inductive step_beside : system -> system -> Prop :=
| reads_beside s be msg :
    framed msg -> renames msg = false ->
    step_beside (mkSystem s Waiting be) (mkSystem s (Running (frontendMessage msg)) be)
| other_step y y' :
    step y y' -> (frontend y = Waiting -> forall p, frontend y' <> Running p) -> step_beside y y'.

Lemma step_beside_step y y' : step_beside y y' -> step y y'.
Proof. destruct 1; [by constructor | done]. Qed.

Lemma step_beside_leaves y y' :
  step_beside y y' -> pump_leaves (frontend y) -> pump_leaves (backend y) ->
  noted (shared y') = noted (shared y) /\ pump_leaves (frontend y') /\ pump_leaves (backend y').
Proof.
  intros H Hf Hb. split_and!; [| |by eapply step_backend_leaves, Hb; apply step_beside_step].
  - destruct H as [|y y' H Hn]; [done|]. destruct H; simpl in *; try done;
      [by apply (Hf s) | by apply (Hb s) | by destruct H].
  - destruct H as [s be msg Hm Hr|y y' H Hn]; [by apply leaves_frontendMessage|].
    destruct H; simpl in *; try done; [by destruct (Hn eq_refl (frontendMessage msg)) | by apply (Hf s)].
Qed.

Lemma steps_beside_leave y y' :
  rtc step_beside y y' -> pump_leaves (frontend y) -> pump_leaves (backend y) ->
  noted (shared y') = noted (shared y).
Proof.
  induction 1 as [|y1 y2 y3 Hst _ IH]; [done|]. intros Hf Hb.
  destruct (step_beside_leaves _ _ Hst Hf Hb) as (<- & ? & ?). by apply IH.
Qed.

Lemma reachable_backend_leaves y : reachable y -> pump_leaves (backend y).
Proof.
  intros (y0 & (_ & _ & Hb) & Hr). assert (pump_leaves (backend y0)) as H by by rewrite Hb.
  clear Hb. induction Hr as [|y1 y2 y3 Hst _ IH]; [done|]. apply IH. by eapply step_backend_leaves.
Qed.
End noted.

(** ** What a Parse leaves remembered *)

(** A Parse of a text the classifier accepts, that is sent down as it is or
    rewritten for the server's version. *)
Definition prepares (msg : Message) (name sql : string) (r : Result) : Prop :=
  is_tag msg "P" = true /\ (exists oids, DecodeFrontend (Type_ msg) (Body msg) = Decoded (Parse name sql oids)) /\
  stripAsync sql = Some None /\ classify false sql = Some r /\ Rejected (verdict r) = false.

(** A round of the pump on a Parse, and on a Bind, outside a dropped batch. *)
Lemma exec_round (t : byte) msg s :
  (t = "P" \/ t = "B")%byte -> is_tag msg t = true -> skipSync s = false ->
  exec (frontendMessage msg) s =
    exec (noteBatchState (Type_ msg))
      (exec (if Byte.eqb t "P" then handleParse msg else handleBind msg) (received msg s)).
Proof.
  intros Ht Htag Hk.
  assert (is_tag msg "X" = false /\ is_tag msg "S" = false /\ is_tag msg "Q" = false /\
          is_tag msg "P" = Byte.eqb t "P" /\ (Byte.eqb t "P" = false -> is_tag msg "B" = true)) as (HX & HS & HQ & HP & HB).
  { assert (Type_ msg = t) as Hty by by apply Byte.byte_dec_bl. unfold is_tag. rewrite Hty. destruct Ht as [-> | ->]; by split_and!. }
  unfold exec, frontendMessage. step_run. rewrite HX, HS. step_run. fold (received msg s).
  change (skipSync (received msg s)) with (skipSync s). rewrite Hk, HQ, HP.
  destruct (Byte.eqb t "P"); [|rewrite HB by done]; step_run;
    [destruct (run (handleParse msg) (received msg s)) as [[] s1] | destruct (run (handleBind msg) (received msg s)) as [[] s1]];
    step_run; cbn [snd]; by destruct (run (noteBatchState _) s1).
Qed.

Lemma noted_round {V} (view : session -> V) `{!RuleView view} t s : view (exec (noteBatchState t) s) = view s.
Proof. apply leaves_exec. unfold noteBatchState. follow_leaves. Qed.

(** A handler after which the statement is remembered as it was classified. *)
Definition remembers (name : string) (r : Result) (p : proc session unit) : Prop :=
  forall s, exists i, noted name (exec p s) = Some (mkInfo (Kinds r) (Tables r) i EmptyString).

Lemma remembers_after {A} name r (p : proc session A) q :
  (forall a, remembers name r (q a)) -> remembers name r (bind p q).
Proof. intros Hq s. rewrite exec_bind. apply Hq. Qed.

Lemma remembers_here name r i q :
  leaves (noted name) q -> remembers name r (do! set_statement name (mkInfo (Kinds r) (Tables r) i EmptyString); q).
Proof.
  intros Hq s. exists i. rewrite exec_bind, (leaves_exec _ _ _ Hq). unfold noted. simpl. apply lookup_insert_eq.
Qed.

Lemma parse_remembers msg name sql r s :
  prepares msg name sql r -> skipSync s = false -> txnAborted s = false ->
  exists i, noted name (exec (frontendMessage msg) s) = Some (mkInfo (Kinds r) (Tables r) i EmptyString).
Proof.
  intros (HP & (oids & Hd) & Hs & Hc & Hr) Hk Ha. pose proof (noted_view name) as Hv.
  rewrite (exec_round "P") by auto. rewrite noted_round by done. change (Byte.eqb "P" "P") with true. cbv iota.
  unfold handleParse. rewrite Hd, Hs. cbv iota beta. rewrite exec_bind. unfold aborted. step_run. cbn [fst snd].
  change (txnAborted (received msg s)) with (txnAborted s). rewrite Ha, Hc.
  generalize (received msg s). change (remembers name r (parseClassified msg name sql oids r)).
  unfold parseClassified. rewrite Hr.
  assert (forall text, remembers name r (parseRemembered msg name text r)) as Hp.
  { intros text. unfold parseRemembered. apply remembers_after. intros _. apply remembers_here. follow_leaves. }
  apply remembers_after. intros [text|]; [|apply Hp].
  destruct (fe_encode (Parse name text oids)) as [encoded []]; [apply Hp|]. apply remembers_here. follow_leaves.
Qed.

(** ** A Bind is checked as its text *)

(** The rules once a batch was admitted: what it touched is added and its
    statements counted, a commit is offered to the injection rules unless it is
    doomed already, and the end of a transaction forgets what it touched. *)
Definition starts_over (kinds : list Kind) : bool :=
  existsb (fun k => bool_decide (k = KindBegin) || bool_decide (k = KindCommit) || bool_decide (k = KindRollback)) kinds.

Definition rules_admitted (kinds : list Kind) (tables : list string) (doomed : bool) (g : Rules) : Rules :=
  let '(t, touched, n, counts) := g in
  let touched := list_to_set tables ∪ touched in
  let n := if starts_over kinds then 0 else int64 (n + 1) in
  if endsTransaction kinds then
    (t, ∅, n, if isCommit kinds && negb doomed then (inject_from 0 touched (Inject (rsOCC ruleset)) counts).2 else counts)
  else (t, touched, n, counts).

Definition rules_after (kinds : list Kind) (tables : list string) (now : Z) (doomed : bool) (g : Rules) : Rules :=
  let '(t, touched, n, counts) := g in
  let (v, t) := Admit kinds now t in
  match v with
  | Some _ => (t, touched, n, counts)
  | None => rules_admitted kinds tables doomed (t, touched, n, counts)
  end.

#[local] Instance rules_view : RuleView rules.
Proof. by intros s s' H _. Qed.

Hint Resolve rules_view : left_alone.

Lemma rules_bind {A B} (p : proc session A) (q : A -> proc session B) s :
  (forall a, leaves rules (q a)) -> rules (exec (bind p q) s) = rules (exec p s).
Proof. intros Hq. rewrite exec_bind. apply (leaves_exec rules), Hq. Qed.

Definition forgotten (g : Rules) : Rules := let '(t, _, n, counts) := g in (t, ∅, n, counts).

Lemma rules_reset s : rules (exec resetOcc s) = forgotten (rules s).
Proof. done. Qed.

Lemma rules_occFailure ext s : rules (exec (occFailure ext) s) = forgotten (rules s).
Proof.
  unfold occFailure. destruct (conflictError _) as [c m]. rewrite exec_bind.
  rewrite rules_bind by (intros; follow_leaves). rewrite rules_reset. f_equal.
  apply (leaves_exec rules). unfold sendError. follow_leaves.
Qed.

Lemma rules_addOccTables tables s :
  exec (addOccTables tables) s = set_occTouched (list_to_set tables ∪ occTouched s) s.
Proof.
  destruct tables; [|done]. unfold addOccTables. cbn [list_to_set]. rewrite (union_empty_l_L (occTouched s)).
  by destruct s.
Qed.

Lemma rules_countTxnStatement kinds s :
  exec (countTxnStatement kinds) s =
    set_occTxnStatements (if starts_over kinds then 0 else int64 (occTxnStatements s + 1)) s.
Proof. unfold countTxnStatement, starts_over. by destruct (existsb _ kinds). Qed.

Lemma run_commit_fails s :
  rules (run commit_fails s).2 =
    let '(t, touched, n, counts) := rules s in
    (t, touched, n, if negb (occDoomed s) then (inject_from 0 touched (Inject (rsOCC ruleset)) counts).2 else counts).
Proof.
  unfold commit_fails. step_run. destruct (occDoomed s); [done|]. unfold occCommitConflict, commit_conflict.
  destruct (Inject (rsOCC ruleset)) as [|i l]; [done|]. step_run. unfold rules. cbn -[inject_from].
  by destruct (inject_from _ _ _ _).
Qed.

Lemma rules_afterAdmit kinds tables i bind ext s :
  rules (exec (afterAdmit kinds tables i bind ext) s) = rules_admitted kinds tables (occDoomed s) (rules s).
Proof.
  unfold afterAdmit. rewrite !exec_bind. cbn [fst snd].
  change ((run (addOccTables tables) s).2) with (exec (addOccTables tables) s). rewrite rules_addOccTables.
  set (s0 := set_occTouched _ s).
  change ((run (countTxnStatement kinds) s0).2) with (exec (countTxnStatement kinds) s0). rewrite rules_countTxnStatement.
  set (s1 := set_occTxnStatements _ s0).
  assert (rules s1 = (tracker s, list_to_set tables ∪ occTouched s,
            if starts_over kinds then 0 else int64 (occTxnStatements s + 1), occCommits s)) as H1 by done.
  assert (occDoomed s1 = occDoomed s) as H2 by done. clearbody s1. unfold rules_admitted. unfold rules at 2.
  destruct (endsTransaction kinds).
  - rewrite exec_bind. destruct (isCommit kinds); cbn [andb].
    + pose proof (run_commit_fails s1) as Hc. rewrite H1, H2 in Hc.
      destruct (run commit_fails s1) as [[] s2]; cbn [fst snd] in *;
        rewrite rules_bind by done; rewrite ?rules_occFailure, ?rules_reset, Hc; done.
    + cbn [run fst snd]. by rewrite rules_bind, rules_reset, H1.
  - rewrite exec_bind, rules_bind by done. rewrite <- H1. apply (leaves_exec rules). follow_leaves.
Qed.

Lemma run_admitBatch kinds s :
  run (admitBatch kinds) s = ((Admit kinds (clock s) (tracker s)).1, set_tracker (Admit kinds (clock s) (tracker s)).2 s).
Proof. unfold admitBatch. step_run. by destruct (Admit kinds (clock s) (tracker s)). Qed.

Lemma rules_bindKnown msg bind info s :
  txnAborted s = false ->
  rules (exec (bindKnown msg bind info) s) =
    rules_after (infoKinds info) (infoTables info) (clock s) (occDoomed s) (rules s).
Proof.
  intros Ha. unfold bindKnown, aborted, rules_after. rewrite exec_bind. step_run. cbn [fst snd]. rewrite Ha.
  rewrite exec_bind, run_admitBatch. cbn [fst snd]. unfold rules at 2. destruct (Admit _ _ _) as [[v|] t]; cbn [fst snd].
  - apply (leaves_exec rules). follow_leaves.
  - rewrite rules_bind by (intros; follow_leaves). apply rules_afterAdmit.
Qed.

Lemma rules_queryClassified msg sql r s :
  Rejected (verdict r) = false ->
  rules (exec (queryClassified msg sql r) s) = rules_after (Kinds r) (Tables r) (clock s) (occDoomed s) (rules s).
Proof.
  intros Hr. unfold queryClassified, rules_after. rewrite Hr, exec_bind, run_admitBatch. cbn [fst snd].
  unfold rules at 2. destruct (Admit _ _ _) as [[v|] t]; cbn [fst snd].
  - apply (leaves_exec rules). follow_leaves.
  - rewrite rules_bind by (intros; follow_leaves). apply rules_afterAdmit.
Qed.

(** A Bind of the statement. *)
Definition executes (msg : Message) (name : string) : Prop :=
  is_tag msg "B" = true /\
  exists pfs ps rfs portal, DecodeFrontend (Type_ msg) (Body msg) = Decoded (Bind name pfs ps rfs portal).

Lemma exec_bind_known msg name info s :
  executes msg name -> noted name s = Some info -> skipSync s = false ->
  exists bind, exec (frontendMessage msg) s =
    exec (noteBatchState (Type_ msg)) (exec (bindKnown msg bind info) (received msg s)).
Proof.
  intros (HB & pfs & ps & rfs & portal & Hd) Hn Hk. exists (Bind name pfs ps rfs portal).
  rewrite (exec_round "B") by auto. change (Byte.eqb "B" "P") with false. cbv iota.
  unfold handleBind. rewrite Hd. cbv iota. rewrite exec_bind. step_run. cbn [fst snd].
  change (statements_ (received msg s) !! name) with (noted name s). by rewrite Hn.
Qed.

Lemma exec_reject_extended c m s :
  connected s ->
  exec (reject c m true) s =
    set_skipSync true
      (let s' := told [errorResponse c m] s in
       if trackerInTxn s then set_pendingFailure (Some (mkFailure abortTransactionQuery "E" 2)) s' else s').
Proof.
  intros Hc. unfold exec, reject. rewrite run_bind, run_sendError by done. step_run.
  change (trackerInTxn (told _ s)) with (trackerInTxn s). unfold failTxn, deferFailure. by destruct (trackerInTxn s).
Qed.

(** A refused Bind tells the verdict, and drops the rest of its batch. *)
Lemma bind_refused msg bind info v t s :
  connected s -> txnAborted s = false -> Admit (infoKinds info) (clock s) (tracker s) = (Some v, t) ->
  let s' := exec (noteBatchState (Type_ msg)) (exec (bindKnown msg bind info) s) in
  written (client s') = written (client s) ++ [errorResponse (vCode v) (vMessage v)] /\
  written (upstream s') = written (upstream s) /\ skipSync s' = true.
Proof.
  intros Hc Ha Had s'. subst s'. unfold bindKnown, aborted. rewrite exec_bind. step_run. cbn [fst snd]. rewrite Ha.
  rewrite exec_bind, run_admitBatch, Had. cbn [fst snd]. rewrite exec_reject_extended by done.
  unfold noteBatchState.
  destruct (trackerInTxn _), (tag_in (Type_ msg) ["P"; "B"; "D"; "E"; "C"; "H"]%byte), (tag_in (Type_ msg) ["S"; "Q"]%byte); done.
Qed.

Lemma query_refused msg sql r v t s :
  connected s -> Rejected (verdict r) = false -> Admit (Kinds r) (clock s) (tracker s) = (Some v, t) ->
  exists rest, written (client (batch_closed (exec (queryClassified msg sql r) s))) =
    written (client s) ++ errorResponse (vCode v) (vMessage v) :: rest.
Proof.
  intros Hc Hr Had. unfold queryClassified. rewrite Hr, exec_bind, run_admitBatch, Had. cbn [fst snd].
  unfold exec. rewrite run_reject by done. unfold rejected. cbn [snd].
  destruct (trackerInTxn _); eexists; simpl; by rewrite <- ?app_assoc.
Qed.

(** C5: A prepared statement without the ASYNC keyword is checked, each time it is
    executed, as its text would be.  Once such a statement was prepared, and as long as the client neither
    prepares another under its name nor closes it, whatever else the client and the
    upstream say and however the two pumps interleave: a Bind of its name moves the
    tracker, the tables touched, the statements counted and the turns of the injection
    rules exactly as a query of its text does at that point; and when the rules
    of the transaction refuse it, the client is told the same error for both, and
    the Bind does not reach the upstream.  (With the keyword the two differ:
    [async_bind_counts_query_does_not].) *)
Theorem prepared_checked_as_text y y' prep bind ask name sql r :
  reachable y -> frontend y = Waiting -> skipSync (shared y) = false -> txnAborted (shared y) = false ->
  prepares prep name sql r ->
  rtc (step_beside name) (mkSystem (exec (frontendMessage prep) (shared y)) Waiting (backend y)) y' ->
  skipSync (shared y') = false -> txnAborted (shared y') = false ->
  executes bind name -> plain_query ask sql ->
  let s := shared y' in
  let bound := exec (frontendMessage bind) s in
  let asked := exec (frontendMessage ask) s in
  rules bound = rules asked /\
  forall v t, connected s -> Admit (Kinds r) (clock s) (tracker s) = (Some v, t) ->
    written (client bound) = written (client s) ++ [errorResponse (vCode v) (vMessage v)] /\
    written (upstream bound) = written (upstream s) /\ skipSync bound = true /\
    exists rest, written (client asked) = written (client s) ++ errorResponse (vCode v) (vMessage v) :: rest.
Proof.
  intros Hy _ Hk Ha Hp Hr Hk' Ha' Hb Hq s bound asked.
  destruct (parse_remembers _ _ _ _ _ Hp Hk Ha) as (i & Hi). destruct Hp as (_ & _ & _ & Hcl & Hrej).
  assert (noted name s = Some (mkInfo (Kinds r) (Tables r) i EmptyString)) as Hn.
  { subst s. rewrite (steps_beside_leave _ _ _ Hr); [exact Hi | done | exact (reachable_backend_leaves name y Hy)]. }
  destruct (exec_bind_known _ _ _ _ Hb Hn Hk') as (b & Hbound).
  pose proof (exec_query _ _ s Hq Hk') as Hasked. subst s bound asked. rewrite Ha', Hcl in Hasked.
  rewrite Hbound, Hasked. set (s := shared y') in *. clearbody s. split.
  - rewrite noted_round by apply rules_view. rewrite rules_bindKnown by done.
    symmetry. exact (rules_queryClassified ask sql r (received ask s) Hrej).
  - intros v t Hc Had.
    destruct (bind_refused bind b (mkInfo (Kinds r) (Tables r) i EmptyString) v t (received bind s) Hc Ha' Had) as (H1 & H2 & H3).
    split_and!; [exact H1 | exact H2 | exact H3|]. exact (query_refused ask sql r v t (received ask s) Hc Hrej Had).
Qed.

(** ** A refused Parse forgets the statement the upstream still has *)

(** A Parse of a text the classifier rejects. *)
Definition prepares_rejected (msg : Message) (name : string) : Prop :=
  is_tag msg "P" = true /\
  exists sql oids r, DecodeFrontend (Type_ msg) (Body msg) = Decoded (Parse name sql oids) /\
    stripAsync sql = Some None /\ classify false sql = Some r /\ Rejected (verdict r) = true.

(** It never reaches the upstream, whose statement of that name, if there is one,
    stays as it is; and a Bind of that name is then passed on unchecked. *)
Lemma rejected_parse_forgets msg name s :
  prepares_rejected msg name -> connected s -> skipSync s = false -> txnAborted s = false ->
  let s' := exec (frontendMessage msg) s in
  noted name s' = None /\ written (upstream s') = written (upstream s).
Proof.
  intros (HP & sql & oids & r & Hd & Hs & Hc & Hr) Hcon Hk Ha s'. subst s'.
  rewrite (exec_round "P") by auto. change (Byte.eqb "P" "P") with true. cbv iota.
  unfold handleParse. rewrite Hd, Hs. cbv iota beta. rewrite exec_bind. unfold aborted. step_run. cbn [fst snd].
  change (txnAborted (received msg s)) with (txnAborted s). rewrite Ha, Hc. unfold parseClassified. rewrite Hr.
  rewrite exec_bind. cbn [run delete_statement modify locked fst snd].
  set (s1 := set_statements_ (delete name (statements_ (received msg s))) (received msg s)).
  change (exec (reject ?c ?m true) (snd (tt, s1))) with (exec (reject c m true) s1).
  rewrite exec_reject_extended by exact Hcon. unfold noteBatchState, exec.
  assert (Type_ msg = "P"%byte) as -> by by apply Byte.byte_dec_bl.
  destruct (trackerInTxn s1); (split; [|reflexivity]); change (statements_ s1 !! name = None); apply lookup_delete_eq.
Qed.

Lemma forgotten_bind_unchecked msg name s :
  executes msg name -> noted name s = None -> skipSync s = false -> connected s ->
  let s' := exec (frontendMessage msg) s in
  rules s' = rules s /\ written (upstream s') = written (upstream s) ++ [Raw msg].
Proof.
  intros (HB & pfs & ps & rfs & portal & Hd) Hn Hk Hc s'. subst s'.
  rewrite (exec_round "B") by auto. change (Byte.eqb "B" "P") with false. cbv iota.
  unfold handleBind. rewrite Hd. cbv iota. rewrite exec_bind. step_run. cbn [fst snd].
  change (statements_ (received msg s) !! name) with (noted name s). rewrite Hn. unfold exec. rewrite run_forward by done.
  assert (Type_ msg = "B"%byte) as Ht by by apply Byte.byte_dec_bl. unfold is_tag. by rewrite Ht.
Qed.
End prepared.

(** ** Witness: an UPDATE prepared before the transaction it is executed in *)

Definition session_update_prepared : session := exec (frontendMessage (parse "UPDATE t SET a = 1")) session_started.

Definition session_index_made : session :=
  client_sends [sync; query "BEGIN"; query "CREATE INDEX ASYNC ON t (a)"] session_update_prepared.

Definition started_system : system := mkSystem session_started Waiting Waiting.
Definition index_made : system := mkSystem session_index_made Waiting Waiting.

Lemma beside_frontend name p s s' be :
  run p s = (true, s') -> rtc (step_beside name) (mkSystem s (Running p) be) (mkSystem s' Waiting be).
Proof.
  revert s. induction p as [b|X f k IH]; intros s Hr; simpl in Hr.
  - simplify_eq. by apply rtc_once, other_step; [apply frontend_loops|].
  - destruct (f s) as [x s1] eqn:E. eapply rtc_l; [by apply other_step; [apply frontend_acts|]|].
    rewrite E. by apply IH.
Qed.

Lemma index_made_beside :
  rtc (step_beside EmptyString)
    (mkSystem (exec (frontendMessage (parse "UPDATE t SET a = 1")) (shared started_system)) Waiting (backend started_system))
    index_made.
Proof.
  unfold started_system. cbn [shared backend]. fold session_update_prepared.
  eapply rtc_l; [by apply (reads_beside _ _ _ sync)|].
  etransitivity; [by apply beside_frontend; vm_compute|].
  eapply rtc_l; [by apply (reads_beside _ _ _ (query "BEGIN"))|].
  etransitivity; [by apply beside_frontend; vm_compute|].
  eapply rtc_l; [by apply (reads_beside _ _ _ (query "CREATE INDEX ASYNC ON t (a)"))|].
  by apply beside_frontend; vm_compute.
Qed.

Definition update_result : Result := mkResult zero_verdict [KindDML] ["t"].

Lemma update_prepares : prepares (parse "UPDATE t SET a = 1") EmptyString "UPDATE t SET a = 1" update_result.
Proof. split_and!; try (by vm_compute). eexists. by vm_compute. Qed.

Lemma unnamed_executes : executes bind_unnamed EmptyString.
Proof. split; [done|]. eexists _, _, _, _. by vm_compute. Qed.

Lemma update_query : plain_query (query "UPDATE t SET a = 1") "UPDATE t SET a = 1".
Proof. by split_and!; vm_compute. Qed.

Lemma update_refused :
  exists v t, Admit (Kinds update_result) (clock (shared index_made)) (tracker (shared index_made)) = (Some v, t) /\
    vMessage v = "ddl and dml are not supported in the same transaction".
Proof. vm_compute. by eexists _, _. Qed.

Lemma index_made_ready :
  skipSync (shared index_made) = false /\ txnAborted (shared index_made) = false /\ connected (shared index_made).
Proof. by vm_compute. Qed.

Lemma started_system_reachable : reachable started_system.
Proof.
  exists started_system. split; [|apply rtc_refl]. unfold initial, started_system. cbn [shared frontend backend].
  split; [exact session_started_started | by split].
Qed.

Lemma started_keeps : skipSync (shared started_system) = false.
Proof. by vm_compute. Qed.

Lemma started_open : txnAborted (shared started_system) = false.
Proof. by vm_compute. Qed.

(** The Bind is refused: the transaction it runs in holds a DDL statement. *)
Lemma prepared_checked_as_text_witness :
  skipSync (exec (frontendMessage bind_unnamed) (shared index_made)) = true.
Proof.
  destruct index_made_ready as (Hk & Ha & Hc). destruct update_refused as (v & t & Hv & _).
  destruct (prepared_checked_as_text started_system index_made (parse "UPDATE t SET a = 1") bind_unnamed
    (query "UPDATE t SET a = 1") EmptyString "UPDATE t SET a = 1" update_result) as [_ H];
    [|exact eq_refl|exact started_keeps|exact started_open|exact update_prepares|exact index_made_beside|exact Hk|exact Ha
    |exact unnamed_executes|exact update_query|].
  - exact started_system_reachable.
  - destruct (H v t Hc Hv) as (_ & _ & Hs & _). exact Hs.
Defined.

(** A Bind of an asynchronous statement is admitted as its text is, but counts as a
    statement of the transaction, which the text sent as a query does not. *)
Lemma async_bind_counts_query_does_not :
  let text := "CREATE INDEX ASYNC ON t (a)" in
  let s := client_sends [parse text] session_in_txn in
  let bound := exec (frontendMessage bind_unnamed) s in
  let asked := exec (frontendMessage (query text)) s in
  tracker bound = tracker asked /\ ddlCount (tracker bound) = 1 /\
  occTxnStatements bound = occTxnStatements s + 1 /\ occTxnStatements asked = occTxnStatements s.
Proof. by vm_compute. Qed.
