(* ===== verification/Refusals.v ===== *)
(** * Refusals in an extended-query batch

    A statement can be refused when it is prepared, because of its text, or when it
    is executed, because of the transaction it would run in.  Either way the
    client is told once, the rest of its batch is dropped up to the Sync, and a
    transaction that was open has failed. *)

From Stdlib Require Import Ascii String Strings.Byte.
From stdpp Require Import base numbers strings gmap list relations.
From S2P Require Import Prelude GoStd Kind Txn Proto Ruleset Occ Wire Rewrite Proc State Session System Samples Failing Conflicts Transparent Prepared.

Local Open Scope Z_scope.
Local Open Scope proc_scope.

Section refusals.
Context {PG : PgQuery} {PP : PgProto} {SC : StatementClassifier} {CF : Config}.

(** A message of a batch that is refused, with the error it is refused with and the
    tracker afterwards: a Parse by the classifier, a Bind by the tracker. *)
Inductive refused (s : session) (msg : Message) : string -> string -> Tracker -> Prop :=
| parse_refused name sql oids r :
    is_tag msg "P" = true -> DecodeFrontend (Type_ msg) (Body msg) = Decoded (Parse name sql oids) ->
    stripAsync sql = Some None -> classify false sql = Some r -> Rejected (verdict r) = true ->
    refused s msg (Code (verdict r)) (Kind.Message (verdict r)) (tracker s)
| execution_refused name info v t :
    executes msg name -> noted name s = Some info -> Admit (infoKinds info) (clock s) (tracker s) = (Some v, t) ->
    refused s msg (vCode v) (vMessage v) t.

(** What the refusal leaves before the rest of the batch. *)
Definition left_refused (c m : string) (t : Tracker) (s s' : session) : Prop :=
  connected s' /\ hidden s' = hidden s /\ failure s' = failure s /\ txnAborted s' = txnAborted s /\
  written (client s') = written (client s) ++ [errorResponse c m] /\
  written (upstream s') = written (upstream s) /\ skipSync s' = true /\ tracker s' = t /\
  pendingFailure s' =
    if InTxn (Tracker_Stats t) then Some (mkFailure abortTransactionQuery "E" 2) else pendingFailure s.

Lemma rejecting_leaves c m t (ty : byte) s s0 :
  connected s0 -> hidden s0 = hidden s -> failure s0 = failure s -> txnAborted s0 = txnAborted s ->
  client s0 = client s -> upstream s0 = upstream s -> tracker s0 = t -> pendingFailure s0 = pendingFailure s ->
  (ty = "P" \/ ty = "B")%byte ->
  left_refused c m t s (exec (noteBatchState ty) (exec (reject c m true) s0)).
Proof.
  intros Hc Hh Hf Ha Hcl Hup Ht Hp Hty. rewrite exec_reject_extended by done. unfold left_refused.
  rewrite <- Ht, <- Hh, <- Hf, <- Ha, <- Hcl, <- Hup, <- Hp.
  change (InTxn (Tracker_Stats (tracker s0))) with (trackerInTxn s0). destruct Hc as [Hc1 Hc2].
  destruct Hty as [-> | ->], (trackerInTxn s0); repeat split; done.
Qed.

Lemma refused_leaves s msg c m t :
  refused s msg c m t -> connected s -> skipSync s = false -> txnAborted s = false ->
  left_refused c m t s (exec (frontendMessage msg) s).
Proof.
  intros [name sql oids r HP Hd Hs Hc Hr|name info v t' Hx Hn Had] Hcon Hk Ha.
  - rewrite (exec_round "P") by auto. change (Byte.eqb "P" "P") with true. cbv iota.
    unfold handleParse. rewrite Hd, Hs. cbv iota beta. rewrite exec_bind. unfold aborted. step_run. cbn [fst snd].
    change (txnAborted (received msg s)) with (txnAborted s). rewrite Ha, Hc. unfold parseClassified. rewrite Hr.
    rewrite exec_bind. apply rejecting_leaves; try done. left. by apply Byte.byte_dec_bl.
  - destruct (exec_bind_known _ _ _ _ Hx Hn Hk) as (b & ->). unfold bindKnown, aborted. rewrite exec_bind. step_run.
    cbn [fst snd]. change (txnAborted (received msg s)) with (txnAborted s). rewrite Ha.
    rewrite exec_bind, run_admitBatch. change (clock (received msg s)) with (clock s).
    change (tracker (received msg s)) with (tracker s). rewrite Had. cbn [fst snd].
    apply rejecting_leaves; try done. right. by apply Byte.byte_dec_bl, Hx.
Qed.

(** C20: A statement refused in an extended-query batch is refused as a simple query
    is.  The client is told the error, and nothing of the rest of its batch
    reaches the upstream but the Sync.  In a transaction the statement that fails it
    follows the Sync, both answers are swallowed, and the client is told one
    ReadyForQuery that reports the failed transaction; outside one the session is
    as it was, and the upstream's answer to the Sync is the client's. *)
Theorem refused_in_batch msg c m t s rest sync ms z :
  settled s -> pendingFailure s = None -> refused s msg c m t ->
  Forall (fun m => is_tag m "S" = false /\ is_tag m "X" = false) rest -> is_tag sync "S" = true ->
  count_ready ms = 1 -> is_tag z "Z" = true ->
  let synced := frontend_run (msg :: rest ++ [sync]) s in
  let s' := backend_run (ms ++ [z]) synced in
  written (client synced) = written (client s) ++ [errorResponse c m] /\
  if InTxn (Tracker_Stats t) then
    written (client s') = written (client synced) ++ [readyForQuery "E"] /\
    written (upstream s') = written (upstream s) ++ [Raw sync; abortTransactionQuery] /\
    failure s' = None /\ pendingFailure s' = None /\ skipSync s' = false /\ txnAborted s' = true /\ tracker s' = t
  else
    written (upstream synced) = written (upstream s) ++ [Raw sync] /\ settled synced /\
    pendingFailure synced = None /\ tracker synced = t.
Proof.
  intros (Hc & Hh & Hf & Hk & Ha) Hp Hr Hrest HS Hms Hz.
  destruct (refused_leaves _ _ _ _ _ Hr Hc Hk Ha) as (Hc1 & Hh1 & Hf1 & Ha1 & Hcl1 & Hup1 & Hk1 & Ht1 & Hp1).
  change (frontend_run (msg :: rest ++ [sync]) s) with (frontend_run (rest ++ [sync]) (exec (frontendMessage msg) s)).
  set (s1 := exec (frontendMessage msg) s) in *. clearbody s1.
  pose proof (batch_settles rest sync s1 Hc1 Hk1 Hrest HS) as H. cbv zeta in H |- *. rewrite Hp1, Hp in H.
  set (s2 := frontend_run (rest ++ [sync]) s1) in *. clearbody s2.
  destruct (InTxn (Tracker_Stats t));
    destruct H as (Hcl2 & Hk2 & Hp2 & _ & Hc2 & Hh2 & Ht2 & Hup2 & H); cbn [statement status] in *; split;
    try congruence.
  - destruct H as (Hf2 & Hr2 & Ha2). set (f := mkFailure abortTransactionQuery "E" 2) in *.
    assert (Hi : injecting f 0 2 s2) by (repeat split; first [done | apply Hc2 | by rewrite Hh2, Hh1, Hh]).
    destruct (swallow_last f 2 s2 ms z Hi ltac:(lia) Hz) as (Hnone & Hw & Hab & Hsk & Htr & Hpf & Hu & _).
    rewrite Hw, Hu, Hab, Hsk, Htr, Hpf, Hup2, Hup1, Ht2. by split_and!.
  - destruct H as [Hf2 Ha2]. unfold settled. rewrite Hup2, Hup1, Hf2, Ha2, Hh2, Ht2, Hh1, Hf1, Ha1. by split_and!.
Qed.
End refusals.

(** ** Witness: a statement the dialect refuses, prepared in a transaction *)

Lemma truncate_refused :
  exists c m, refused session_in_txn (parse "TRUNCATE t") c m (tracker session_in_txn) /\ c = "0A000".
Proof.
  eexists _, _. split; [eapply (parse_refused _ _ EmptyString "TRUNCATE t"); vm_compute; reflexivity | vm_compute; reflexivity].
Qed.

Lemma in_txn_settled : settled session_in_txn /\ pendingFailure session_in_txn = None.
Proof. by vm_compute. Qed.

Lemma in_txn_inTxn : InTxn (Tracker_Stats (tracker session_in_txn)) = true.
Proof. by vm_compute. Qed.

Lemma refused_in_batch_witness :
  let s' := backend_run ([complete "SYNC"; ready "T"; error "22012"] ++ [ready "E"])
              (frontend_run (parse "TRUNCATE t" :: [bind_unnamed; message "E" []] ++ [sync]) session_in_txn) in
  failure s' = None /\ txnAborted s' = true.
Proof.
  destruct truncate_refused as (c & m & Hr & _). destruct in_txn_settled as [Hs Hp].
  pose proof (refused_in_batch (parse "TRUNCATE t") c m (tracker session_in_txn) session_in_txn
    [bind_unnamed; message "E" []] sync [complete "SYNC"; ready "T"; error "22012"] (ready "E") Hs Hp Hr) as H.
  destruct H as [_ H]; [repeat constructor | reflexivity | vm_compute; reflexivity | reflexivity |].
  rewrite in_txn_inTxn in H. destruct H as (_ & _ & Hf & _ & _ & Ha & _). split; [exact Hf | exact Ha].
Defined.
