(* ===== verification/Pipeline.v ===== *)
(** * Exchanges outstanding, under every interleaving

    A session counts the exchanges it has begun with the upstream and not seen
    end, and lets the adjudicator act only when there is none.  The two pumps
    share the count without a lock around what they count, so between counting a
    request and writing it, or between reading an answer and taking it off, the
    count is ahead.  Here each pump is given a credit for what it has counted and
    not yet done; the count is what the upstream owes and the credits of the two. *)

From Stdlib Require Import Ascii String Strings.Byte.
From stdpp Require Import base numbers strings gmap list relations.
From S2P Require Import Prelude GoStd Kind Txn Proto Ruleset Occ Wire Rewrite Proc State Session System Samples Failing.

Local Open Scope Z_scope.
Local Open Scope proc_scope.

(** ** Requests in what was written *)

(** The types of the messages in a chunk, read as the server reads them. *)
Fixpoint tags_in (fuel : nat) (s : bytes) : list byte :=
  match fuel, s with
  | S fuel, t :: b0 :: b1 :: b2 :: b3 :: rest =>
      t :: tags_in fuel (drop (Z.to_nat (uint32_be [b0; b1; b2; b3] - 4)) rest)
  | _, _ => []
  end.

Definition tags_of (b : bytes) : list byte := tags_in (length b) b.

(** A simple query or a Sync, which the server answers with a ReadyForQuery. *)
Definition is_request (t : byte) : bool := Byte.eqb t "Q" || Byte.eqb t "S".

Definition requests_in (b : bytes) : Z := Z.of_nat (length (List.filter is_request (tags_of b))).

Definition total (chunks : list bytes) : Z := foldr (fun b n => requests_in b + n) 0 chunks.

(** The requests sent since the startup message. *)
Definition requests (s : session) : Z := total (tail (written (upstream s))).

Definition short (body : bytes) : Prop := Z.of_nat (length body) + 4 < 2 ^ 32.

Lemma tags_in_fuel n s : (length s <= n)%nat -> tags_in n s = tags_of s.
Proof.
  unfold tags_of. intros Hn. remember (length s) as k eqn:Hk.
  assert (length s <= k)%nat as Hk' by lia. clear Hk. revert k s Hk' Hn.
  induction n as [|n IH]; intros k s Hk Hn.
  - destruct s; [|simpl in Hn, Hk; lia]. by destruct k.
  - destruct s as [|t [|b0 [|b1 [|b2 [|b3 s]]]]]; try (by destruct k).
    destruct k as [|k]; [simpl in Hk; lia|]. cbn [tags_in length] in *. f_equal. apply IH; rewrite ?length_drop; lia.
Qed.

Lemma tags_frame t body rest : short body -> tags_of (frame t body ++ rest) = t :: tags_of rest.
Proof.
  unfold short, frame. intros Hs. set (n := Z.of_nat (length body) + 4) in *.
  assert (uint32_be (put_uint32_be n) = n) as Hn by (apply uint32_be_put; lia).
  unfold put_uint32_be in *. rewrite <- (tags_in_fuel (S (length (body ++ rest) + 4))) by (simpl; lia).
  cbn [app tags_in]. rewrite Hn. f_equal.
  replace (Z.to_nat (n - 4)) with (length body) by lia. rewrite drop_app_length.
  apply tags_in_fuel. rewrite length_app. lia.
Qed.

Lemma requests_frame t body rest :
  short body ->
  requests_in (frame t body ++ rest) = (if is_request t then 1 else 0) + requests_in rest.
Proof. intros Hs. unfold requests_in. rewrite tags_frame by done. simpl. destruct (is_request t); simpl; lia. Qed.

Lemma requests_nil : requests_in [] = 0.
Proof. done. Qed.

Lemma requests_nonneg b : 0 <= requests_in b.
Proof. unfold requests_in. lia. Qed.

Lemma total_nonneg l : 0 <= total l.
Proof. induction l as [|b l IH]; simpl; [done|]. pose proof (requests_nonneg b). lia. Qed.

Lemma total_app l l' : total (l ++ l') = total l + total l'.
Proof. induction l as [|b l IH]; simpl; [done | lia]. Qed.

(** A message that was read is one request or none. *)
Lemma requests_raw m :
  framed m -> fits (Body m) -> requests_in (Raw m) = if is_request (Type_ m) then 1 else 0.
Proof.
  unfold framed, frame_of, fits, maxMessageLength. intros -> Hf.
  rewrite <- (app_nil_r (frame _ _)), requests_frame by (unfold short; lia). rewrite requests_nil. lia.
Qed.

(** The type of a message a client sends. *)
Definition fe_tag (m : FrontendMessage) : byte :=
  match m with
  | Bind _ _ _ _ _ => "B" | Close _ _ => "C" | Describe => "D" | Execute => "E" | FunctionCall => "F"
  | Flush => "H" | Parse _ _ _ => "P" | Query _ => "Q" | Sync => "S" | Terminate => "X"
  | CopyData => "d" | CopyDone => "c" | CopyFail => "f" | PasswordMessage => "p"
  end%byte.

(** The codec encodes a message as its frame, and one too large as nothing, with
    an error; a Sync always fits. *)
Class FramedCodec `{PgProto} : Prop := {
  encoded_frame : forall m,
    if (fe_encode m).2 then (fe_encode m).1 = []
    else exists body, short body /\ (fe_encode m).1 = frame (fe_tag m) body;
  sync_encodes : (fe_encode Sync).2 = false;
}.

Section pipeline.
Context {PG : PgQuery} {PP : PgProto} {SC : StatementClassifier} {CF : Config} {FC : FramedCodec}.

Lemma requests_encoded m rest :
  (fe_encode m).2 = false ->
  requests_in ((fe_encode m).1 ++ rest) = (if is_request (fe_tag m) then 1 else 0) + requests_in rest.
Proof. intros He. pose proof (encoded_frame m) as H. rewrite He in H. destruct H as (b & Hb & ->). by apply requests_frame. Qed.

Lemma encoded_plain m rest :
  is_request (fe_tag m) = false -> requests_in ((fe_encode m).1 ++ rest) = requests_in rest.
Proof.
  intros Ht. destruct ((fe_encode m).2) eqn:He.
  - pose proof (encoded_frame m) as H. rewrite He in H. by rewrite H.
  - by rewrite requests_encoded, Ht by done.
Qed.

(** One request, or nothing at all. *)
Definition one_request (b : bytes) : Prop := b = [] \/ requests_in b = 1.

Lemma simpleQuery_one sql : one_request (simpleQuery sql).
Proof.
  unfold simpleQuery. destruct ((fe_encode (Query sql)).2) eqn:He.
  - left. pose proof (encoded_frame (Query sql)) as H. by rewrite He in H.
  - right. rewrite <- (app_nil_r (fe_encode _).1), requests_encoded by done. by rewrite requests_nil.
Qed.

Lemma extendedQuery_one sql vs fs rs : one_request (extendedQuery sql vs fs rs).
Proof.
  right. unfold extendedQuery. rewrite !encoded_plain by done.
  rewrite <- (app_nil_r (fe_encode Sync).1), requests_encoded by apply sync_encodes. by rewrite requests_nil.
Qed.

(** ** Credits *)

(** A failure that waits for a Sync has one statement to run. *)
Definition deferred_ok (s : session) : Prop :=
  match pendingFailure s with Some f => one_request (statement f) | None => True end.

(** What was written stays, and a closed connection is closed for good. *)
Definition grows (s s' : session) : Prop :=
  written (upstream s) `prefix_of` written (upstream s') /\
  (closed_ (upstream s) = true -> closed_ (upstream s') = true).

(** A connection that broke, or a statement too large to be encoded: from then on
    the count says nothing. *)
Definition lost (s : session) : Prop := closed_ (upstream s) = true \/ [] ∈ written (upstream s).

(** The balance an action changes by the credit it takes or gives. *)
Definition balance (s : session) : Z := pendingExchanges s - requests s.

Definition in_range (c : nat) (s : session) : Prop :=
  written (upstream s) <> [] /\ Z.of_nat c <= pendingExchanges s < 2 ^ 62.

(** [p], begun with credit [c], ends with credit [d]: every action changes the
    balance by what it changes the credit. *)
Fixpoint acc {A} (c : nat) (p : proc session A) (d : nat) : Prop :=
  match p with
  | Ret _ => c = d
  | Act f k => forall s, deferred_ok s -> exists c', (c' <= 2)%nat /\ acc c' (k (f s).1) d /\
      grows s (f s).2 /\ deferred_ok (f s).2 /\
      (in_range c s -> lost (f s).2 \/ balance (f s).2 = balance s + Z.of_nat c' - Z.of_nat c)
  end.

Abbreviation keeps p := (acc 0 p 0) (only parsing).

Lemma acc_bind {A B} c d e (p : proc session A) (q : A -> proc session B) :
  acc c p d -> (forall a, acc d (q a) e) -> acc c (bind p q) e.
Proof.
  revert c. induction p as [a|X f k IH]; intros c Hp Hq; simpl in *; [by rewrite Hp|].
  intros s Hd. destruct (Hp s Hd) as (c' & Hc & Hk & Hg). exists c'. split_and!; [done | by apply IH | apply Hg..].
Qed.

Lemma acc_ret {A} c (a : A) : acc c (Ret a) c.
Proof. done. Qed.

Lemma grows_same s s' : upstream s' = upstream s -> grows s s'.
Proof. by intros H; unfold grows; rewrite H. Qed.

Lemma deferred_same s s' : pendingFailure s' = pendingFailure s -> deferred_ok s -> deferred_ok s'.
Proof. by unfold deferred_ok; intros ->. Qed.

(** An action on neither the count nor the upstream. *)
Lemma acc_frame {X} c (f : session -> X * session) :
  (c <= 2)%nat ->
  (forall s, deferred_ok s -> upstream (f s).2 = upstream s /\
     pendingExchanges (f s).2 = pendingExchanges s /\ deferred_ok (f s).2) ->
  acc c (locked f) c.
Proof.
  intros Hc H s Hd. exists c. destruct (H s Hd) as (Hu & Hp & Hd').
  split_and!; [done | done | by apply grows_same | done|].
  intros _. right. unfold balance, requests. rewrite Hu, Hp. lia.
Qed.

Lemma keeps_modify (f : session -> session) :
  (forall s, upstream (f s) = upstream s /\ pendingExchanges (f s) = pendingExchanges s /\
     pendingFailure (f s) = pendingFailure s) -> keeps (modify f).
Proof.
  intros H. apply acc_frame; [lia|]. intros s Hd. destruct (H s) as (H1 & H2 & H3).
  split_and!; [done | done | by eapply deferred_same].
Qed.

Lemma keeps_locked {X} (f : session -> X * session) :
  (forall s, upstream (f s).2 = upstream s /\ pendingExchanges (f s).2 = pendingExchanges s /\
     pendingFailure (f s).2 = pendingFailure s) -> keeps (locked f).
Proof.
  intros H. apply acc_frame; [lia|]. intros s Hd. destruct (H s) as (H1 & H2 & H3).
  split_and!; [done | done | by eapply deferred_same].
Qed.

(** A locked action of which the rest uses what it returned. *)
Lemma keeps_result {X B} (f : session -> X * session) (k : X -> proc session B) (Q : X -> Prop) :
  (forall s, upstream (f s).2 = upstream s /\ pendingExchanges (f s).2 = pendingExchanges s) ->
  (forall s, deferred_ok s -> deferred_ok (f s).2 /\ Q (f s).1) ->
  (forall x, Q x -> keeps (k x)) -> keeps (bind (locked f) k).
Proof.
  intros H HQ Hk s Hd. exists 0%nat. destruct (H s) as [Hu Hp]. destruct (HQ s Hd) as [Hd' Hr].
  split_and!; [lia | by apply (Hk (f s).1) | by apply grows_same | done|].
  intros _. right. unfold balance, requests. rewrite Hu, Hp. lia.
Qed.

Lemma keeps_get {X} (f : session -> X) : keeps (get f).
Proof. by apply keeps_locked. Qed.

Lemma keeps_when b p : keeps p -> keeps (when b p).
Proof. by destruct b. Qed.

Lemma keeps_writeClient b : keeps (writeClient b).
Proof. apply keeps_locked. intros s. by destruct (conn_write b (client s)). Qed.

Lemma acc_begin c : (c <= 1)%nat -> acc c beginExchange (S c).
Proof.
  intros Hc s Hd. exists (S c). split_and!; [lia | done | by apply grows_same | done|].
  intros [_ [Hl Hh]]. right. unfold balance, requests. simpl. rewrite int64_small by lia. lia.
Qed.

Lemma acc_end c : (c <= 1)%nat -> acc (S c) endExchange c.
Proof.
  intros Hc s Hd. exists c. simpl.
  destruct (Z.ltb_spec 0 (pendingExchanges s)); (split_and!; [lia | done | by apply grows_same | done|]).
  - intros _. right. unfold balance, requests. simpl. lia.
  - intros [_ ?]. lia.
Qed.

(** Closing the upstream loses the count. *)
Lemma keeps_shut (f : session -> session) :
  (forall s, upstream (f s) = conn_close (upstream s) /\ pendingFailure (f s) = pendingFailure s) ->
  keeps (modify f).
Proof.
  intros H s Hd. destruct (H s) as [Hu Hp]. exists 0%nat. split_and!; [lia | done | | by eapply deferred_same |].
  - split; simpl; rewrite Hu; [done | by intros].
  - intros _. left. left. simpl. by rewrite Hu.
Qed.

Lemma keeps_close : keeps close.
Proof.
  eapply acc_bind; [by apply keeps_modify|]. intros _. by apply keeps_shut.
Qed.

Lemma requests_sent b s :
  written (upstream s) <> [] -> requests (sent [b] s) = requests s + requests_in b.
Proof.
  unfold requests. simpl. destruct (written (upstream s)) as [|c l]; [done|]. intros _. simpl.
  rewrite total_app. simpl. lia.
Qed.

Lemma acc_write c d b :
  (d <= 2)%nat -> b = [] \/ Z.of_nat c - requests_in b = Z.of_nat d -> acc c (writeUpstream b) d.
Proof.
  intros Hd Hb s Hdef. exists d. unfold conn_write. destruct (closed_ (upstream s)) eqn:Hcl; simpl.
  - split_and!; [done | done | by apply grows_same | done|]. intros _. left. by left.
  - split_and!; [done | done | | done|].
    + split; [by eexists | by rewrite Hcl].
    + intros [Hne _]. destruct Hb as [->|Hb]; [left; right; simpl; set_solver|]. right. unfold balance.
      rewrite <- Hcl. fold (sent [b] s). rewrite requests_sent by done. simpl. lia.
Qed.

Lemma keeps_write b : requests_in b = 0 -> keeps (writeUpstream b).
Proof. intros H. apply acc_write; [lia|]. right. lia. Qed.

Lemma keeps_exchange b : one_request b -> keeps (writeUpstreamExchange b).
Proof.
  intros Hb. eapply acc_bind; [by apply (acc_begin 0); lia|]. intros _. apply acc_write; [lia|].
  destruct Hb as [Hb|Hb]; [by left | right; lia].
Qed.

Lemma keeps_forward m : framed m -> fits (Body m) -> keeps (forward m).
Proof.
  intros Hf Hs. unfold forward. pose proof (requests_raw m Hf Hs) as Hr.
  unfold is_tag, is_request in *. destruct (Byte.eqb (Type_ m) "Q" || Byte.eqb (Type_ m) "S"); cbn [when].
  - eapply (acc_bind 0 1 0); [by apply (acc_begin 0); lia|]. intros _.
    eapply (acc_bind 1 0 0); [apply acc_write; [lia | right; lia]|].
    intros []; [by apply acc_ret | apply keeps_close].
  - eapply (acc_bind 0 0 0); [by apply acc_ret|]. intros _.
    eapply (acc_bind 0 0 0); [apply acc_write; [lia | right; lia]|].
    intros []; [by apply acc_ret | apply keeps_close].
Qed.

Lemma savepoint_one : one_request savepointQuery.
Proof. apply simpleQuery_one. Qed.

Create HintDb exchange discriminated.

Hint Resolve simpleQuery_one extendedQuery_one savepoint_one keeps_writeClient keeps_get keeps_close : exchange.

Ltac accounted :=
  repeat first
    [ assumption
    | solve [eauto 3 with exchange]
    | match goal with
      | |- acc 0 (bind _ _) 0 => eapply (acc_bind 0 0 0); [|intros ?]
      | |- acc _ (Ret _) _ => apply acc_ret
      | |- acc _ skip _ => apply acc_ret
      | |- acc _ (when ?b _) _ => destruct b; cbn [when]
      | |- acc _ (writeUpstreamExchange _) _ => apply keeps_exchange; solve [auto with exchange]
      | |- acc _ (modify _) _ => apply keeps_modify; intros ?; solve [repeat case_match; done]
      | |- acc _ (match ?x with _ => _ end) _ => destruct x eqn:?
      end ].

(** ** The handlers *)

Lemma keeps_admitBatch kinds : keeps (admitBatch kinds).
Proof. apply keeps_locked. intros s. by destruct (Admit _ _ _). Qed.

Lemma keeps_sendError c m : keeps (sendError c m).
Proof. unfold sendError. accounted. Qed.

Hint Resolve keeps_admitBatch keeps_sendError : exchange.

Lemma keeps_beginFailure f : one_request (statement f) -> keeps (beginFailure f).
Proof. intros Hf. unfold beginFailure. accounted. Qed.

Lemma keeps_failTxn stmt st ext : one_request stmt -> keeps (failTxn stmt st ext).
Proof.
  intros Hs. unfold failTxn. destruct ext; [|by apply keeps_beginFailure].
  by apply acc_frame; [lia|].
Qed.

Lemma keeps_reject c m ext : keeps (reject c m ext).
Proof. unfold reject. accounted. apply keeps_failTxn, simpleQuery_one. Qed.

Lemma keeps_rejectFailed ext : keeps (rejectFailed ext).
Proof. unfold rejectFailed. accounted. Qed.

Lemma keeps_resetOcc : keeps resetOcc.
Proof. by apply keeps_modify. Qed.

Hint Resolve keeps_reject keeps_rejectFailed keeps_resetOcc : exchange.

Lemma keeps_endAborted : keeps endAborted.
Proof. unfold endAborted. accounted. Qed.

Lemma keeps_commit_fails : keeps commit_fails.
Proof.
  unfold commit_fails, occCommitConflict. accounted. apply keeps_locked. intros s. unfold commit_conflict.
  by destruct (inject_from _ _ _ _).
Qed.

Lemma keeps_occFailure ext : keeps (occFailure ext).
Proof. unfold occFailure. accounted. apply keeps_failTxn, simpleQuery_one. Qed.

Lemma keeps_establishSavepoint : keeps establishSavepoint.
Proof.
  unfold establishSavepoint, setHidden. accounted. apply keeps_locked. intros s. unfold claim_savepoint.
  by repeat case_match.
Qed.

Hint Resolve keeps_endAborted keeps_commit_fails keeps_occFailure keeps_establishSavepoint : exchange.

Lemma keeps_armAdjudicator i bind : keeps (armAdjudicator i bind).
Proof. unfold armAdjudicator, savepointReady, setInFlight. accounted. Qed.

Hint Resolve keeps_armAdjudicator : exchange.

Lemma keeps_afterAdmit kinds tables i bind ext : keeps (afterAdmit kinds tables i bind ext).
Proof. unfold afterAdmit, addOccTables, countTxnStatement. accounted. Qed.

Lemma keeps_rewriteSQL sql : keeps (rewriteSQL sql).
Proof. unfold rewriteSQL. accounted. Qed.

Lemma keeps_set_statement name info : keeps (set_statement name info).
Proof. by apply keeps_modify. Qed.

Lemma keeps_delete_statement name : keeps (delete_statement name).
Proof. by apply keeps_modify. Qed.

Lemma keeps_drawJobID : keeps drawJobID.
Proof. by apply keeps_locked. Qed.

Lemma keeps_restoreJob id : keeps (restoreJob id).
Proof. unfold restoreJob. accounted. Qed.

Hint Resolve keeps_afterAdmit keeps_rewriteSQL keeps_set_statement keeps_delete_statement keeps_drawJobID
  keeps_restoreJob : exchange.


Lemma keeps_sendQuery msg sql : framed msg -> fits (Body msg) -> keeps (sendQuery msg sql).
Proof.
  intros Hf Hs. pose proof (keeps_forward msg Hf Hs) as Hfw. unfold sendQuery. accounted.
  apply keeps_exchange. pose proof (simpleQuery_one s) as H. unfold simpleQuery in H.
  by match goal with E : fe_encode _ = _ |- _ => rewrite E in H end.
Qed.

Lemma with_text_tag m sql : fe_tag (with_text m sql) = fe_tag m.
Proof. by destruct m. Qed.

Lemma keeps_sendAsyncJob msg m rewritten stmt kinds :
  framed msg -> fits (Body msg) -> (exists sql, m = Query sql) \/ (exists n sql o, m = Parse n sql o) ->
  keeps (sendAsyncJob msg m rewritten stmt kinds).
Proof.
  intros Hf Hs Hm. pose proof (keeps_forward msg Hf Hs) as Hfw. unfold sendAsyncJob.
  destruct Hm as [(sql & ->)|(n & sql & o & ->)]; cbn [with_text is_query]; accounted.
  - apply keeps_exchange. pose proof (simpleQuery_one (jobMarker a +:+ rewritten)) as H. unfold simpleQuery in H.
    by match goal with E : fe_encode _ = _ |- _ => rewrite E in H end.
  - apply keeps_write. match goal with E : fe_encode ?m = _ |- _ => pose proof (encoded_plain m []) as H; rewrite E in H end.
    rewrite app_nil_r in H. by apply H.
Qed.

Lemma keeps_forwardAsyncJob msg m rewritten stmt ext :
  framed msg -> fits (Body msg) -> (exists sql, m = Query sql) \/ (exists n sql o, m = Parse n sql o) ->
  keeps (forwardAsyncJob msg m rewritten stmt ext).
Proof.
  intros Hf Hs Hm. pose proof (fun r k => keeps_sendAsyncJob msg m r stmt k Hf Hs Hm) as H.
  unfold forwardAsyncJob, admitAsyncJob, aborted. accounted; apply H.
Qed.

Lemma keeps_panic : keeps panic.
Proof. by apply keeps_shut. Qed.

Hint Resolve keeps_panic : exchange.

Section message.
Variable msg : Message.
Hypotheses (Hf : framed msg) (Hs : fits (Body msg)).

Lemma keeps_pass : keeps (forward msg).
Proof. by apply keeps_forward. Qed.

Lemma keeps_handleSync : keeps (handleSync msg).
Proof.
  apply (keeps_result _ _ (fun pending => match pending with Some f => one_request (statement f) | None => True end)).
  - done.
  - intros s Hd. by split.
  - intros pending Hp. eapply acc_bind; [apply keeps_pass|]. intros _.
    destruct pending; [by apply keeps_beginFailure | by apply acc_ret].
Qed.

Lemma keeps_handleQuery : keeps (handleQuery msg).
Proof.
  pose proof keeps_pass. pose proof (fun sql => keeps_sendQuery msg sql Hf Hs).
  unfold handleQuery, queryAborted, queryClassified, aborted. accounted.
  apply keeps_forwardAsyncJob; [done..|]. left. by eexists.
Qed.

Lemma keeps_parseRemembered name sql r : keeps (parseRemembered msg name sql r).
Proof. pose proof keeps_pass. unfold parseRemembered. accounted. Qed.

Lemma keeps_handleParse : keeps (handleParse msg).
Proof.
  pose proof keeps_pass. pose proof keeps_parseRemembered.
  unfold handleParse, parseAborted, parseClassified, aborted. accounted.
  - apply keeps_forwardAsyncJob; [done..|]. right. by eexists _, _, _.
  - apply keeps_write. match goal with E : fe_encode ?m = _ |- _ => pose proof (encoded_plain m []) as He; rewrite E in He end.
    rewrite app_nil_r in He. by apply He.
Qed.

Lemma keeps_handleBind : keeps (handleBind msg).
Proof. pose proof keeps_pass. unfold handleBind, bindKnown, aborted. accounted. Qed.

Lemma keeps_handleClose : keeps (handleClose msg).
Proof. pose proof keeps_pass. unfold handleClose. accounted. Qed.

Lemma keeps_frontendMessage : keeps (frontendMessage msg).
Proof.
  pose proof keeps_pass. pose proof keeps_handleSync. pose proof keeps_handleQuery.
  pose proof keeps_handleParse. pose proof keeps_handleBind. pose proof keeps_handleClose.
  unfold frontendMessage, noteBatchState. accounted.
  apply keeps_write. rewrite requests_raw by done. unfold is_tag, is_request in *.
  match goal with E : Byte.eqb _ "X" = true |- _ => apply Byte.byte_dec_bl in E; by rewrite E end.
Qed.
End message.

Lemma keeps_consumeFailureMessage msg : keeps (consumeFailureMessage msg).
Proof.
  unfold consumeFailureMessage. accounted. apply keeps_locked. intros s. unfold count_failure.
  by repeat case_match.
Qed.

Lemma keeps_tellClient b : keeps (tellClient b).
Proof. unfold tellClient. accounted. Qed.

Lemma keeps_failRepair : keeps failRepair.
Proof. unfold failRepair. accounted. apply keeps_beginFailure, simpleQuery_one. Qed.

Lemma keeps_set_exchange q h : keeps (set_exchange q h).
Proof. by apply keeps_modify. Qed.

Lemma keeps_setHidden h : keeps (setHidden h).
Proof. by apply keeps_modify. Qed.

Lemma keeps_completeRepair repair rows : keeps (completeRepair repair rows).
Proof. unfold completeRepair. accounted. Qed.

Hint Resolve keeps_consumeFailureMessage keeps_tellClient keeps_failRepair keeps_set_exchange keeps_setHidden
  keeps_completeRepair : exchange.

Lemma keeps_runShadow repair : keeps (runShadow repair).
Proof.
  unfold runShadow, runRowsetShadow, runCountShadow, writeShadow. accounted; apply keeps_exchange;
    repeat case_match; auto with exchange.
Qed.

Lemma keeps_finish q : keeps (finish q).
Proof. unfold finish. pose proof keeps_runShadow. accounted. Qed.

Lemma keeps_consume q msg : keeps (consume q msg).
Proof. unfold consume. accounted. Qed.

Lemma keeps_consumeHidden msg : keeps (consumeHidden msg).
Proof. unfold consumeHidden. pose proof keeps_finish. pose proof keeps_consume. accounted. Qed.

Lemma keeps_startRepair : keeps startRepair.
Proof.
  unfold startRepair. eapply (acc_bind 0 0 0).
  { apply keeps_locked. intros s. unfold take_repair. by repeat case_match. }
  intros [i|]; [|by apply acc_ret].
  apply (keeps_result _ _ one_request).
  - intros s. unfold restore_statement. by case_match.
  - intros s Hd. unfold restore_statement. split; case_match; try done; apply simpleQuery_one.
  - intros b Hb. accounted.
Qed.

Lemma keeps_backend_answers msg :
  keeps (backendRowless msg) /\ keeps (backendError msg) /\ keeps (backendStatus msg) /\
  keeps (backendReady msg) /\ keeps (backendComplete msg) /\ keeps (passOn msg).
Proof.
  pose proof keeps_startRepair.
  assert (keeps (passOn msg)) as Hp by (unfold passOn; accounted).
  split_and!; [| | | | |done].
  - unfold backendRowless, markJobDescribed. accounted. apply keeps_locked. intros s. by repeat case_match.
  - unfold backendError, occIntercept, takeJob, rewriteConflictError. accounted.
    apply keeps_locked. intros s. unfold take_over. by case_match.
  - unfold backendStatus, rewriteParameterStatus. accounted.
  - unfold backendReady, takeJob, noteTxStatus. accounted.
  - unfold backendComplete, rewriteCommandTag, claimJob, spliceJob. accounted;
      apply keeps_locked; intros s; unfold claim_job; by repeat case_match.
Qed.

(** A ReadyForQuery is read before it is taken off: the pump begins with a
    credit. *)
Lemma acc_backendMessage msg : acc (if is_tag msg "Z" then 1 else 0) (backendMessage msg) 0.
Proof.
  destruct (keeps_backend_answers msg) as (? & ? & ? & ? & ? & ?).
  pose proof (keeps_consumeHidden msg). unfold backendMessage, repairPending.
  eapply acc_bind; [apply acc_frame; [by destruct (is_tag msg "Z"); lia | done]|]. intros _.
  apply (acc_bind _ 0).
  - destruct (is_tag msg "Z"); cbn [when]; [by apply acc_end; lia | by apply acc_ret].
  - intros _. accounted.
Qed.

(** ** The system, with the answers of the upstream counted *)

(** A step that starts no handler. *)
Definition starts_nothing (y y' : system) : Prop :=
  (frontend y = Waiting -> forall p, frontend y' <> Running p) /\
  (backend y = Waiting -> forall p, backend y' <> Running p).

(** ** The startup

    The server ends its startup with a ReadyForQuery of its own, which the session
    never counted as an exchange it began.  Until the client has it, it sends
    nothing but answers to the authentication, as the protocol has it; then the
    session is quiet: it has nothing under way, and counts nothing. *)

Definition quiet (s : session) : Prop :=
  written (upstream s) <> [] /\ requests s = 0 /\ pendingExchanges s = 0 /\
  pendingFailure s = None /\ hidden s = None /\ failure s = None /\ occRepair s = None /\
  occInFlight s = None.

(** Every action of a handler takes and gives no credit, and keeps the session
    quiet. *)
Fixpoint calm {A} (p : proc session A) : Prop :=
  keeps p /\
  match p with
  | Ret _ => True
  | Act f k => forall s, quiet s -> quiet (f s).2 /\ calm (k (f s).1)
  end.

Lemma calm_keeps {A} (p : proc session A) : calm p -> keeps p.
Proof. destruct p; by intros []. Qed.

Lemma calm_ret {A} (a : A) : calm (Ret a).
Proof. done. Qed.

Lemma calm_bind {A B} (p : proc session A) (q : A -> proc session B) :
  calm p -> (forall a, calm (q a)) -> calm (bind p q).
Proof.
  intros Hp Hq. induction p as [a|X f k IH]; [apply Hq|].
  assert (keeps (bind (Act f k) q)) as Hk.
  { eapply acc_bind; [by apply calm_keeps|]. intros a. by apply calm_keeps. }
  split; [exact Hk|]. intros s Hs. destruct (proj2 Hp s Hs) as [Hs' Hc]. split; [done | by apply IH].
Qed.

Lemma calm_locked {X} (f : session -> X * session) :
  keeps (locked f) -> (forall s, quiet s -> quiet (f s).2) -> calm (locked f).
Proof. intros Hk Hq. split; [done|]. intros s Hs. split; [by apply Hq | done]. Qed.

Lemma calm_modify (f : session -> session) :
  keeps (modify f) -> (forall s, quiet s -> quiet (f s)) -> calm (modify f).
Proof. intros. by apply calm_locked. Qed.

Lemma quiet_close s : quiet s -> quiet (close_upstream s).
Proof. done. Qed.

Lemma calm_write b : requests_in b = 0 -> calm (writeUpstream b).
Proof.
  intros Hb. apply calm_locked; [by apply keeps_write|]. intros s. unfold conn_write.
  destruct (closed_ (upstream s)) eqn:Hcl; [done|]. simpl. rewrite <- Hcl. fold (sent [b] s).
  intros (Hne & Hr & Hq). split_and!;
    [simpl; by destruct (written (upstream s)) | rewrite requests_sent by done; lia | apply Hq..].
Qed.

Lemma calm_close : calm close.
Proof.
  apply calm_bind; [by apply calm_modify; [apply keeps_modify|]|]. intros _.
  by apply calm_modify; [apply keeps_shut|].
Qed.

(** An answer to the authentication, or the client's leave. *)
Definition startup_message (m : Message) : Prop := Type_ m = "p"%byte \/ Type_ m = "X"%byte.

Lemma calm_frontend msg :
  framed msg -> fits (Body msg) -> startup_message msg -> calm (frontendMessage msg).
Proof.
  intros Hf Hs Ht. pose proof (requests_raw msg Hf Hs) as Hr.
  assert (requests_in (Raw msg) = 0) as Hr0 by (rewrite Hr; by destruct Ht as [->| ->]).
  unfold frontendMessage. apply calm_bind; [by apply calm_modify; [apply keeps_modify|]|]. intros _.
  assert (Hno : forall t, Byte.eqb t (Type_ msg) = false -> is_tag msg t = false).
  { intros t H. unfold is_tag. destruct (Byte.eqb (Type_ msg) t) eqn:E; [|done].
    apply Byte.byte_dec_bl in E. by rewrite <- E, Byte.byte_dec_lb in H. }
  destruct Ht as [Ht|Ht].
  - rewrite !Hno by by rewrite Ht.
    apply (calm_bind (get skipSync)); [by apply calm_locked; [apply keeps_get|]|]. intros []; [done|].
    apply calm_bind; [|intros _; unfold noteBatchState; by rewrite Ht].
    unfold forward. rewrite !Hno by by rewrite Ht. cbn [orb when].
    apply (calm_bind skip); [done|]. intros _. apply (calm_bind (writeUpstream _)); [by apply calm_write|].
    intros []; [done | apply calm_close].
  - assert (is_tag msg "X" = true) as -> by (unfold is_tag; by rewrite Ht).
    apply (calm_bind (writeUpstream _)); [by apply calm_write | done].
Qed.

Ltac hush :=
  intros s Hs; unfold quiet, requests, conn_write in *; repeat case_match; simpl in *; tauto.

Lemma quiet_writeClient b : safe quiet (writeClient b) (fun _ => True).
Proof. hush. Qed.

Lemma quiet_passOn msg : safe quiet (passOn msg) (fun _ => True).
Proof. apply quiet_writeClient. Qed.

Lemma quiet_tellClient b : safe quiet (tellClient b) (fun _ => True).
Proof. eapply safe_bind; [apply quiet_writeClient | done]. Qed.

Ltac hushed :=
  repeat first
    [ apply safe_ret; exact Logic.I
    | apply quiet_writeClient | apply quiet_passOn | apply quiet_tellClient
    | match goal with
      | |- safe quiet (bind _ _) _ => eapply (safe_bind _ _ _ (fun _ => True)); [|intros ? _]
      | |- safe quiet skip _ => exact Logic.I
      | |- safe quiet (when ?b _) _ => destruct b; cbn [when]
      | |- safe quiet (modify _) _ => hush
      | |- safe quiet (locked _) _ => hush
      | |- safe quiet (match ?x with _ => _ end) _ => destruct x eqn:?
      end ].

Lemma quiet_backendError msg : safe quiet (backendError msg) (fun _ => True).
Proof.
  unfold backendError. eapply (safe_bind _ _ _ (fun _ => True)); [unfold takeJob; hushed|]. intros _ _.
  apply (safe_bind _ _ _ (fun taken => taken = false)).
  - unfold occIntercept. destruct (error_decode _); [|done]. destruct (negb _); [done|].
    eapply (safe_bind _ _ _ (fun _ => True)); [by intros s Hs|]. intros b _. apply safe_locked.
    intros s Hs. unfold take_over. rewrite (bool_decide_false (is_Some (occInFlight s))).
    + by rewrite andb_false_r.
    + destruct Hs as (_ & _ & _ & _ & _ & _ & _ & ->). by intros [].
  - intros taken ->. unfold rewriteConflictError. hushed.
Qed.

Lemma quiet_backendReady msg : safe quiet (backendReady msg) (fun _ => True).
Proof.
  unfold backendReady. eapply (safe_bind _ _ _ (fun _ => True)); [unfold takeJob; hushed|]. intros _ _.
  destruct (rfq_decode _) as [st|]; [|apply quiet_passOn].
  apply (safe_bind _ _ _ (fun repairing => repairing = false)).
  - unfold startRepair. apply (safe_bind _ _ _ (fun taken => taken = None)); [|by intros taken ->].
    apply safe_locked. intros s Hs. unfold take_repair.
    pose proof Hs as (_ & _ & _ & _ & _ & _ & -> & _). done.
  - intros repairing ->. unfold noteTxStatus, note_tx_status, reset_occ. hushed.
Qed.

Lemma quiet_backendMessage msg : safe quiet (backendMessage msg) (fun _ => True).
Proof.
  unfold backendMessage. eapply (safe_bind _ _ _ (fun _ => True)); [hushed|]. intros _ _.
  eapply (safe_bind _ _ _ (fun _ => True)).
  { unfold endExchange. destruct (is_tag msg "Z"); cbn [when]; [|done].
    apply safe_modify. intros s Hs. pose proof Hs as (_ & _ & -> & _). done. }
  intros _ _. apply (safe_bind _ _ _ (fun own => own = false)).
  { unfold consumeHidden. apply (safe_bind _ _ _ (fun h => h = None)); [|by intros h ->].
    apply safe_get. intros s Hs. apply Hs. }
  intros own ->. apply (safe_bind _ _ _ (fun failing => failing = false)).
  { apply safe_get. intros s (_ & _ & _ & _ & _ & -> & _). by apply bool_decide_false; intros []. }
  intros failing ->. apply (safe_bind _ _ _ (fun repairing => repairing = false)).
  { destruct (is_tag msg "Z"); [done|]. apply safe_get. intros s (_ & _ & _ & _ & _ & _ & -> & _).
    by apply bool_decide_false; intros []. }
  intros repairing ->.
  repeat match goal with |- safe quiet (if ?b then _ else _) _ => destruct b end.
  - unfold backendRowless, markJobDescribed. hushed.
  - apply quiet_backendError.
  - unfold backendStatus, rewriteParameterStatus. hushed.
  - apply quiet_backendReady.
  - unfold backendComplete, rewriteCommandTag, take_tag, claimJob, claim_job, spliceJob. hushed.
  - apply quiet_passOn.
Qed.

(** ** Executions *)

(** A pump that will do nothing more with the message it has, if it has one. *)
Definition settled (p : pump) : Prop :=
  match p with Running (Act _ _) => False | _ => True end.

(** An execution with the ReadyForQuery messages read so far, and whether the
    startup is over for the client.  The upstream sends one for its startup and one
    for each request; the client's own requests wait until it has been passed the
    startup's. *)
Inductive counted : system * Z * bool -> system * Z * bool -> Prop :=
| client_starts s be msg n :
    framed msg -> fits (Body msg) -> startup_message msg ->
    counted (mkSystem s Waiting be, n, false) (mkSystem s (Running (frontendMessage msg)) be, n, false)
| startup_over y n :
    1 <= n -> settled (backend y) -> counted (y, n, false) (y, n, true)
| client_speaks s be msg n :
    framed msg -> fits (Body msg) ->
    counted (mkSystem s Waiting be, n, true) (mkSystem s (Running (frontendMessage msg)) be, n, true)
| upstream_answers s fe msg n up :
    framed msg -> is_tag msg "Z" = true -> n < requests s + 1 ->
    counted (mkSystem s fe Waiting, n, up) (mkSystem s fe (Running (backendMessage msg)), n + 1, up)
| upstream_speaks s fe msg n up :
    framed msg -> is_tag msg "Z" = false ->
    counted (mkSystem s fe Waiting, n, up) (mkSystem s fe (Running (backendMessage msg)), n, up)
| otherwise y y' n up : step y y' -> starts_nothing y y' -> counted (y, n, up) (y', n, up).

Definition counted_reachable (y : system) (n : Z) (up : bool) : Prop :=
  exists y0, initial y0 /\ rtc counted (y0, 0, false) (y, n, up).

(** It is an execution of the system. *)
Lemma counted_step a b : counted a b -> step a.1.1 b.1.1 \/ b.1.1 = a.1.1.
Proof. destruct 1; simpl; first [by right | left; by first [constructor | assumption]]. Qed.

Definition pump_acc (p : pump) (c : nat) : Prop :=
  (c <= 2)%nat /\ match p with Running p => acc c p 0 | _ => c = 0%nat end.

(** The count is what is owed and the credits, unless it was lost. *)
Definition balanced (s : session) (n : Z) (cf cb : nat) : Prop :=
  written (upstream s) <> [] /\ deferred_ok s /\ 0 <= n /\
  (lost s \/ 2 ^ 61 <= requests s \/
   n <= requests s /\ pendingExchanges s = requests s - n + Z.of_nat cf + Z.of_nat cb).

Lemma lost_grows s s' : grows s s' -> lost s -> lost s'.
Proof.
  intros [Hw Hc] [Hl|Hl]; [left; by apply Hc | right]. destruct Hw as [k ->]. apply elem_of_app. by left.
Qed.

Lemma requests_grow s s' : written (upstream s) <> [] -> grows s s' -> requests s <= requests s'.
Proof.
  intros Hne [[k Hk] _]. unfold requests. rewrite Hk. destruct (written (upstream s)) as [|b l]; [done|].
  simpl. rewrite total_app. pose proof (total_nonneg k). lia.
Qed.

Lemma balanced_acts {X} (f : session -> X * session) k (c other : nat) s n :
  pump_acc (Running (Act f k)) c -> (other <= 2)%nat -> balanced s n c other ->
  exists c', pump_acc (Running (k (f s).1)) c' /\ balanced (f s).2 n c' other.
Proof.
  intros [Hc Hacc] Ho (Hne & Hd & Hn & Hb). destruct (Hacc s Hd) as (c' & Hc' & Hk & Hg & Hd' & Hbal).
  exists c'. split; [by split|]. pose proof (requests_grow _ _ Hne Hg) as Hr. split_and!; [|done|done|].
  { destruct Hg as [[j ->] _]. by destruct (written (upstream s)). }
  destruct Hb as [Hl|[Hh|[Hle Hp]]]; [left; by eapply lost_grows | right; left; lia|].
  destruct (Z_lt_le_dec (requests s) (2 ^ 61)) as [Hlt|]; [|right; left; lia].
  destruct Hbal as [Hl|Hbal]; [split; [done|lia] | by left|]. right; right. unfold balance in Hbal. lia.
Qed.

Lemma balanced_swap s n c d : balanced s n c d -> balanced s n d c.
Proof. intros (? & ? & ? & H). split_and!; try done. destruct H as [?|[?|[? ?]]]; [by left | by right; left|]. right; right. lia. Qed.

Lemma balanced_lost s s' n c d c' d' :
  upstream s' = conn_close (upstream s) -> pendingFailure s' = pendingFailure s ->
  balanced s n c d -> balanced s' n c' d'.
Proof.
  intros Hu Hp (Hne & Hd & Hn & _). split_and!; [by rewrite Hu | by eapply deferred_same | done|].
  left. left. by rewrite Hu.
Qed.

Lemma balanced_same s s' n c d :
  upstream s' = upstream s -> pendingFailure s' = pendingFailure s ->
  pendingExchanges s' = pendingExchanges s -> balanced s n c d -> balanced s' n c d.
Proof. intros Hu Hp He. unfold balanced, lost, requests, deferred_ok. by rewrite Hu, Hp, He. Qed.

(** After the startup, whose answer is [n]'s first, the count is what is owed; before
    it the session is quiet. *)
Definition running_ok (y : system) (n : Z) : Prop :=
  exists cf cb, pump_acc (frontend y) cf /\ pump_acc (backend y) cb /\ balanced (shared y) (n - 1) cf cb.

Definition starting_ok (y : system) (n : Z) : Prop :=
  quiet (shared y) /\ 0 <= n <= 1 /\
  match frontend y with Running p => calm p | _ => True end /\
  match backend y with Running p => safe quiet p (fun _ => True) | _ => True end.

Definition counted_ok (a : system * Z * bool) : Prop :=
  if a.2 then running_ok a.1.1 a.1.2 else starting_ok a.1.1 a.1.2.

Lemma running_ok_other y y' n : step y y' -> starts_nothing y y' -> running_ok y n -> running_ok y' n.
Proof.
  intros H [Hf0 Hb0] (cf & cb & Hf & Hb & Hbal). destruct H; simpl in *.
  - by destruct (Hf0 eq_refl (frontendMessage msg)).
  - destruct (balanced_acts f k cf cb s (n - 1) Hf (proj1 Hb) Hbal) as (c' & H1 & H2). by exists c', cb.
  - exists 0%nat, cb. destruct Hf as [_ Hf]. simpl in Hf. subst cf. split_and!; [by split; [lia|] | done..].
  - exists 0%nat, cb. split_and!; [by split; [lia|] | done|]. by eapply balanced_lost.
  - exists 0%nat, cb. split_and!; [by split; [lia|] | done|]. by eapply balanced_lost.
  - by destruct (Hb0 eq_refl (backendMessage msg)).
  - destruct (balanced_acts f k cb cf s (n - 1) Hb (proj1 Hf) (balanced_swap _ _ _ _ Hbal)) as (c' & H1 & H2).
    exists cf, c'. split_and!; [done..|]. by apply balanced_swap.
  - exists cf, 0%nat. destruct Hb as [_ Hb]. simpl in Hb. subst cb. split_and!; [done | by split; [lia|] | done].
  - exists cf, 0%nat. destruct Hb as [_ Hb]. simpl in Hb. subst cb. split_and!; [done | by split; [lia|] | done].
  - exists cf, 0%nat. destruct Hb as [_ Hb]. simpl in Hb. subst cb. split_and!; [done | by split; [lia|] | done].
  - exists cf, cb. split_and!; [done..|]. destruct H; [by eapply balanced_same | by eapply balanced_same|].
    by eapply balanced_lost.
Qed.

Lemma starting_ok_other y y' n : step y y' -> starts_nothing y y' -> starting_ok y n -> starting_ok y' n.
Proof.
  intros H [Hf0 Hb0] (Hq & Hn & Hf & Hb). unfold starting_ok. destruct H; simpl in *; try done.
  - by destruct (Hf0 eq_refl (frontendMessage msg)).
  - destruct (proj2 Hf s Hq) as [Hq' Hk]. done.
  - by destruct (Hb0 eq_refl (backendMessage msg)).
  - destruct (Hb s Hq) as [Hq' Hk]. done.
  - by destruct H.
Qed.

(** A quiet session starts with the count exact. *)
Lemma starting_running y n : starting_ok y n -> 1 <= n -> settled (backend y) -> running_ok y n.
Proof.
  intros (Hq & Hn & Hf & _) H1 Hb. exists 0%nat, 0%nat. split_and!.
  - split; [lia|]. destruct (frontend y); [done | by apply calm_keeps | done].
  - split; [lia|]. by destruct (backend y) as [|[]|].
  - destruct Hq as (Hne & Hr & Hp & Hd & _). split_and!; [done | by unfold deferred_ok; rewrite Hd | lia|].
    right; right. rewrite Hr, Hp. lia.
Qed.

Lemma answered_running s fe msg n :
  is_tag msg "Z" = true -> n < requests s + 1 -> running_ok (mkSystem s fe Waiting) n ->
  running_ok (mkSystem s fe (Running (backendMessage msg))) (n + 1).
Proof.
  intros Hz Hn (cf & cb & Hf & Hb & Hbal). exists cf, 1%nat. destruct Hb as [_ Hb]. simpl in *. subst cb.
  split_and!; [done| |].
  - split; [lia|]. pose proof (acc_backendMessage msg) as H. by rewrite Hz in H.
  - destruct Hbal as (? & ? & ? & H). split_and!; try done; [lia|].
    destruct H as [?|[?|[? ?]]]; [by left | by right; left|]. right; right. lia.
Qed.

Lemma spoken_running s fe msg n :
  is_tag msg "Z" = false -> running_ok (mkSystem s fe Waiting) n ->
  running_ok (mkSystem s fe (Running (backendMessage msg))) n.
Proof.
  intros Hz (cf & cb & Hf & Hb & Hbal). exists cf, 0%nat. destruct Hb as [_ Hb]. simpl in *. subst cb.
  split_and!; [done| |done]. split; [lia|]. pose proof (acc_backendMessage msg) as H. by rewrite Hz in H.
Qed.

Lemma counted_ok_step a b : counted a b -> counted_ok a -> counted_ok b.
Proof.
  intros H. destruct H as [s be msg n Hm Hs Ht|y n Hn Hb|s be msg n Hm Hs|s fe msg n up Hm Hz Hn
                          |s fe msg n up Hm Hz|y y' n up Hy Hst]; unfold counted_ok; simpl.
  - intros (Hq & Hn & _ & Hb). split; [done|]. split; [done|]. split; [by apply calm_frontend | done].
  - intros Hs. by apply starting_running.
  - intros (cf & cb & Hf & Hb & Hbal). exists 0%nat, cb. destruct Hf as [_ Hf]. simpl in *. subst cf.
    split_and!; [|done..]. split; [lia | by apply keeps_frontendMessage].
  - destruct up; [by apply answered_running|]. intros (Hq & Hn' & Hf & _).
    pose proof Hq as (_ & Hr & _). simpl in Hr, Hn'.
    split; [done|]. split; [simpl; lia|]. split; [done | apply quiet_backendMessage].
  - destruct up; [by apply spoken_running|]. intros (Hq & Hn' & Hf & _).
    split; [done|]. split; [done|]. split; [done | apply quiet_backendMessage].
  - destruct up; [by apply running_ok_other | by apply starting_ok_other].
Qed.

(** The startup exchange leaves the session quiet. *)
Definition unopened (s : session) : Prop :=
  written (upstream s) = [] /\ pendingExchanges s = 0 /\ pendingFailure s = None /\ hidden s = None /\
  failure s = None /\ occRepair s = None /\ occInFlight s = None.

Lemma handshakeStep_opens startup s r s' :
  unopened s -> run (handshakeStep startup) s = (r, s') ->
  (r = Again -> unopened s') /\ (r = Intercept -> quiet s').
Proof.
  intros (Hw & Hq). unfold handshakeStep, negotiateTLS. rewrite run_bind. cbn [run modify locked].
  destruct (suCode startup =? SSLRequestCode); [|destruct (suCode startup =? GSSENCRequest)].
  - destruct (negb tlsConfig); rewrite !run_bind, run_writeClient; cbn [run]; intros [= <- <-];
      (split; [done | by case_match]).
  - rewrite run_bind, run_writeClient. cbn [run]. intros [= <- <-]. split; [done | by case_match].
  - rewrite run_bind, run_writeUpstream. cbn [run]. unfold conn_write. simpl.
    destruct (closed_ (upstream s)); simpl; intros [= <- <-]; [done|].
    destruct (IsStartup (suCode startup)); [|done]. split; [done|]. intros _. unfold quiet, requests. simpl. by rewrite Hw.
Qed.

Lemma started_quiet s : started s -> quiet s.
Proof.
  intros (now & startups & H). assert (unopened (new_session now)) as Hu by done.
  revert Hu H. generalize (new_session now). induction startups as [|startup rest IH]; intros s0 Hs; [done|].
  cbn [handshake]. rewrite run_bind. destruct (run (handshakeStep startup) s0) as [r s1] eqn:E.
  destruct (handshakeStep_opens _ _ _ _ Hs E) as [Ha Hi].
  destruct r; cbn [run]; intros H; [by eapply IH, H; apply Ha|..]; simplify_eq. by apply Hi.
Qed.

Lemma counted_reachable_ok y n up : counted_reachable y n up -> counted_ok (y, n, up).
Proof.
  intros (y0 & (Hs & Hf & Hb) & Hr).
  assert (counted_ok (y0, 0, false)) as H0.
  { split_and!; simpl; [by apply started_quiet | lia | lia | by rewrite Hf | by rewrite Hb]. }
  revert H0 Hr. generalize (y0, 0, false). generalize (y, n, up). intros a b H0 Hr.
  induction Hr as [|a1 a2 a3 Hst _ IH]; [done|]. by apply IH; eapply counted_ok_step.
Qed.

(** The upstream is still there, and every statement could be encoded. *)
Definition intact (s : session) : Prop :=
  closed_ (upstream s) = false /\ ~ ([] ∈ written (upstream s)) /\ requests s < 2 ^ 61.

Definition at_rest (p : pump) : Prop := match p with Running _ => False | _ => True end.

(** C3: The session always knows what the upstream owes.  The upstream sends a
    ReadyForQuery at the end of its startup and one for each request it is sent; the
    client sends its first command once it has been passed the startup's.  From then
    on, whatever the client pipelines and however the steps of the two pumps
    interleave, the count of pending exchanges is never below the ReadyForQuery
    messages owed, and is exactly that when neither pump is in the middle of a
    message.  So a savepoint is claimed only when the upstream owes nothing, and a
    refused statement is taken over only when no other request is outstanding.
    Before that nothing is counted, the startup's own answer included. *)
Theorem exchanges_outstanding y n up :
  counted_reachable y n up -> intact (shared y) ->
  let owed := requests (shared y) + 1 - n in
  if up then
    0 <= owed <= pendingExchanges (shared y) /\
    (at_rest (frontend y) -> at_rest (backend y) -> pendingExchanges (shared y) = owed) /\
    ((claim_savepoint (shared y)).1 = None -> owed = 0) /\
    (forall inTxn, (take_over inTxn (shared y)).1 = true -> owed <= 1)
  else requests (shared y) = 0 /\ 0 <= owed <= 1 /\ pendingExchanges (shared y) = 0.
Proof.
  intros H%counted_reachable_ok (Hopen & Hfull & Hr) owed. destruct up; simpl in H.
  2: { destruct H as ((_ & Hq & Hp & _) & Hn & _). subst owed. simpl in *. split_and!; lia. }
  destruct H as (cf & cb & [_ Hf] & [_ Hb] & _ & _ & Hn & H). simpl in *.
  destruct H as [[Hl|Hl]|[Hl|[Hle Hp]]]; [congruence | done | lia|]. subst owed. split_and!.
  - lia.
  - lia.
  - intros Hfr Hbr. destruct (frontend y), (backend y); try done; lia.
  - unfold claim_savepoint. destruct (occSavepoint _); [done|].
    destruct (Z.ltb_spec 0 (pendingExchanges (shared y))); simpl; [done|]. lia.
  - intros inTxn. unfold take_over. destruct (Z.leb_spec (pendingExchanges (shared y)) 1); [lia|].
    by rewrite andb_false_r.
Qed.
End pipeline.

(** ** Witness: the startup, and two pipelined queries, one of them answered *)

Lemma sample_frame_framed t body :
  if (sample_frame t body).2 then (sample_frame t body).1 = []
  else exists b, short b /\ (sample_frame t body).1 = frame t b.
Proof.
  unfold sample_frame. destruct (Z.ltb_spec (Z.of_nat (length body) + 4) (2 ^ 32)); simpl; [|done].
  by exists body.
Qed.

#[export] Instance sample_framed : FramedCodec.
Proof.
  split; [|reflexivity]. intros m. destruct m; first [reflexivity | apply sample_frame_framed].
Qed.

Lemma counted_frontend p s s' be n up :
  run p s = (true, s') -> rtc counted (mkSystem s (Running p) be, n, up) (mkSystem s' Waiting be, n, up).
Proof.
  revert s. induction p as [b|X f k IH]; intros s Hr; simpl in Hr.
  - simplify_eq. apply rtc_once, otherwise; [apply frontend_loops|]. split; simpl; [done | by intros ->].
  - destruct (f s) as [x s1] eqn:E. eapply rtc_l.
    + apply otherwise; [apply frontend_acts|]. split; simpl; [done | by intros ->].
    + rewrite E. by apply IH.
Qed.

Lemma counted_backend p s s' fe n up :
  run p s = (true, s') -> rtc counted (mkSystem s fe (Running p), n, up) (mkSystem s' fe Waiting, n, up).
Proof.
  revert s. induction p as [b|X f k IH]; intros s Hr; simpl in Hr.
  - simplify_eq. apply rtc_once, otherwise; [apply backend_loops|]. split; simpl; [by intros -> | done].
  - destruct (f s) as [x s1] eqn:E. eapply rtc_l.
    + apply otherwise; [apply backend_acts|]. split; simpl; [by intros -> | done].
    + rewrite E. by apply IH.
Qed.

Definition password : Message := message "p" (text_of "secret").

(** The startup's end, told to the client. *)
Definition session_ready : session :=
  server_sends [message "R" []; ready "I"] (client_sends [password] session_started).

Definition session_piped : session := client_sends [query "SELECT 1"; query "SELECT 1"] session_ready.
Definition session_half : session := server_sends [ready "I"] session_piped.

Definition half : system := mkSystem session_half Waiting Waiting.

Lemma half_reachable : counted_reachable half 2 true.
Proof.
  exists (mkSystem session_started Waiting Waiting). split.
  { split; [apply session_started_started | done]. }
  eapply rtc_l; [apply (client_starts _ _ password); [done | vm_compute; discriminate | by left]|].
  etransitivity; [by apply counted_frontend; vm_compute|].
  eapply rtc_l; [by apply (upstream_speaks _ _ (message "R" []))|].
  etransitivity; [by apply counted_backend; vm_compute|].
  eapply rtc_l; [by apply (upstream_answers _ _ (ready "I")); vm_compute|].
  etransitivity; [by apply counted_backend; vm_compute|].
  eapply rtc_l; [by apply startup_over; [lia|]|].
  eapply rtc_l; [by apply (client_speaks _ _ (query "SELECT 1"))|].
  etransitivity; [by apply counted_frontend; vm_compute|].
  eapply rtc_l; [by apply (client_speaks _ _ (query "SELECT 1"))|].
  etransitivity; [by apply counted_frontend; vm_compute|].
  eapply rtc_l; [by apply (upstream_answers _ _ (ready "I")); vm_compute|].
  by apply counted_backend; vm_compute.
Qed.

Lemma half_intact : intact (shared half).
Proof.
  split; [vm_compute; reflexivity|]. split; [|vm_compute; reflexivity].
  intros H. vm_compute in H. repeat (apply elem_of_cons in H as [H|H]; [discriminate H|]). by apply elem_of_nil in H.
Qed.

Lemma half_requests : requests (shared half) + 1 - 2 = 1.
Proof. vm_compute. reflexivity. Qed.

Lemma exchanges_outstanding_witness : pendingExchanges (shared half) = 1.
Proof.
  destruct (exchanges_outstanding half 2 true half_reachable half_intact) as (_ & H & _).
  exact (eq_trans (H Logic.I Logic.I) half_requests).
Defined.

(** A client that does not wait for the startup's ReadyForQuery is miscounted: it
    ends the exchange of a query sent before it, so the session takes the upstream
    to owe nothing while that query is unanswered. *)
Lemma pipelined_behind_startup :
  let s := server_sends [ready "I"] (client_sends [query "SELECT 1"] session_started) in
  requests s + 1 - 1 = 1 /\ pendingExchanges s = 0.
Proof. by vm_compute. Qed.

(** ** What pipelining breaks *)

(** The tags of what a peer was sent between two states. *)
Definition sent_since (c c' : conn) : list byte :=
  tags_of (mjoin (drop (length (written c)) (written c'))).

Definition execute : Message := message "E" [].

(** Two batches of a pipeline are refused, with a rollback and a new transaction
    between them.  The second refusal is noted before the upstream has answered the
    first, and takes its place: the client asked for four ReadyForQuery messages
    and is sent five, and the second error precedes the answers of the batches
    before it. *)
Definition session_refused_twice : session :=
  server_sends [ready "T"; error "22012"; ready "E"; complete "ROLLBACK"; ready "I"; complete "BEGIN"; ready "T";
                ready "T"; error "22012"; ready "E"]
    (client_sends [parse "TRUNCATE t"; sync; parse "ROLLBACK"; bind_unnamed; execute; sync;
                   parse "BEGIN"; bind_unnamed; execute; sync; parse "TRUNCATE t"; sync] session_in_txn).

Lemma overlapping_failures_answer_twice :
  sent_since (upstream session_in_txn) (upstream session_refused_twice)
    = ["S"; "Q"; "P"; "B"; "E"; "S"; "P"; "B"; "E"; "S"; "S"; "Q"]%byte /\
  sent_since (client session_in_txn) (client session_refused_twice)
    = ["E"; "E"; "Z"; "C"; "Z"; "C"; "Z"; "Z"; "E"; "Z"]%byte.
Proof. by vm_compute. Qed.

(** A query refused outside a transaction is answered at once, so its answer
    precedes that of the query sent before it. *)
Lemma refusal_overtakes :
  let s := client_sends [query "SELECT 1"; query "TRUNCATE t"] session_started in
  pendingExchanges s = 1 /\ sent_since (client session_started) (client s) = ["E"; "Z"]%byte.
Proof. by vm_compute. Qed.
