(* ===== verification/Shadows.v ===== *)
(** * What a shadow asks

    A statement refused a lock is answered for by its shadow, a statement of the
    emulator's own that reads what the client's would have changed.  It is bound
    with values picked from the client's Bind and its parameters are renumbered,
    so it must be shown that each of its references still gets the value, in the
    format, that the client's reference had. *)

From Stdlib Require Import Ascii String Strings.Byte.
From stdpp Require Import base numbers strings gmap list relations.
From S2P Require Import Prelude GoStd Kind Txn Proto Ruleset Occ Wire Rewrite Proc State Session System Samples Failing Conflicts Transparent Synchrony Repairs.

Local Open Scope Z_scope.
Local Open Scope proc_scope.

(** ** Picking the values *)

(** A position the client's Bind does not have. *)
Definition out_of_range (ps : list (option bytes)) (pos : Z) : Prop := pos < 1 \/ Z.of_nat (length ps) < pos.

(** The value of a parameter, counted from 1 as a statement does; SQL NULL is a
    value of its own. *)
Definition value_at (ps : list (option bytes)) (pos : Z) : option (option bytes) := ps !! Z.to_nat (pos - 1).

Lemma pick_params_some positions ps codes values fs :
  pick_params positions ps codes = Some (values, fs) ->
  Forall (fun pos => ~ out_of_range ps pos) positions /\
  fs = map (bindFormat codes) positions /\
  map Some values = map (value_at ps) positions.
Proof.
  revert values fs. induction positions as [|pos rest IH]; intros values fs; simpl; [by intros [= <- <-]|].
  destruct (Z.ltb_spec pos 1); [done|]. rewrite Z.gtb_ltb.
  destruct (Z.ltb_spec (Z.of_nat (length ps)) pos); [done|]. simpl.
  destruct (pick_params rest ps codes) as [[vs gs]|]; [|done]. intros [= <- <-].
  destruct (IH vs gs eq_refl) as (Hr & -> & Hv). split_and!; [|done|].
  - constructor; [|done]. unfold out_of_range. lia.
  - simpl. rewrite Hv. f_equal. unfold value_at.
    destruct (lookup_lt_is_Some_2 ps (Z.to_nat (pos - 1))) as [v Hv']; [lia|]. by rewrite Hv'.
Qed.

Lemma pick_params_none positions ps codes :
  pick_params positions ps codes = None <-> Exists (out_of_range ps) positions.
Proof.
  induction positions as [|pos rest IH]; simpl; [by split; [|intros H; inversion H]|].
  rewrite Exists_cons, <- IH. unfold out_of_range. rewrite Z.gtb_ltb.
  destruct (Z.ltb_spec pos 1), (Z.ltb_spec (Z.of_nat (length ps)) pos); simpl;
    try (by split; [auto; lia | done]).
  destruct (pick_params rest ps codes) as [[vs gs]|]; split; auto; [done|]. intros [[?|?]|?]; [lia..|done].
Qed.

(** Formats of its own for each value mean what a Bind's do: a single one would
    stand for every value, and there is a single value. *)
Lemma bindFormat_each codes positions k pos :
  1 <= k -> positions !! Z.to_nat (k - 1) = Some pos ->
  bindFormat (map (bindFormat codes) positions) k = bindFormat codes pos.
Proof.
  intros Hk Hp. assert (map (bindFormat codes) positions !! Z.to_nat (k - 1) = Some (bindFormat codes pos)) as Hl.
  { by rewrite list_lookup_fmap, Hp. }
  set (fs := map (bindFormat codes) positions) in *. clearbody fs.
  pose proof (lookup_lt_Some _ _ _ Hl) as Hlt. unfold bindFormat at 1.
  destruct fs as [|c [|c' l]]; [done| |].
  - simpl in Hlt. assert (Z.to_nat (k - 1) = 0%nat) as E by lia. rewrite E in Hl. by injection Hl.
  - destruct (Z.ltb_spec (k - 1) (Z.of_nat (length (c :: c' :: l)))); [by rewrite Hl | lia].
Qed.

Section shadows.
Context {PG : PgQuery} {PP : PgProto} {SC : StatementClassifier} {CF : Config}.

(** The two references, the client's and the shadow's, are given the same value
    in the same format. *)
Definition same_value (f : inFlight) (values : list (option bytes)) (fs : list Z) (old new : Z) : Prop :=
  is_Some (value_at (params f) old) /\ value_at values new = value_at (params f) old /\
  bindFormat fs new = bindFormat (paramFormats f) old.

Lemma lined_up f values fs old new :
  shadowParams f = Some (values, fs) -> lines_up (Params (intent f)) old new -> same_value f values fs old new.
Proof.
  unfold shadowParams, lines_up. intros (Hr & -> & Hv)%pick_params_some [Hn Hl]. split_and!.
  - rewrite Forall_lookup in Hr. specialize (Hr _ _ Hl). unfold out_of_range in Hr. unfold value_at.
    apply lookup_lt_is_Some_2. lia.
  - assert (map Some values !! Z.to_nat (new - 1) = Some (value_at (params f) old)) as H.
    { by rewrite Hv, list_lookup_fmap, Hl. }
    rewrite list_lookup_fmap in H. unfold value_at at 1. destruct (values !! _); [|done]. by injection H.
  - apply bindFormat_each; [lia | done].
Qed.

(** What is written to run a shadow with the values picked for it. *)
Definition shadow_bytes (f : inFlight) (values : list (option bytes)) (fs : list Z) : bytes :=
  if Rowset (intent f) then rowset_bytes f values fs else count_bytes f values fs.

Lemma runShadow_writes f values fs s :
  Shadow (intent f) <> EmptyString -> shadowParams f = Some (values, fs) -> connected s -> failure s = None ->
  written (upstream (exec (runShadow f) s)) = written (upstream s) ++ [shadow_bytes f values fs] /\
  written (client (exec (runShadow f) s)) = written (client s).
Proof.
  intros Hs Hp Hc Hf. apply String.eqb_neq in Hs.
  assert (exists h, shadowing (shadow_bytes f values fs) h s (exec (runShadow f) s)) as (h & Hv & _).
  { unfold runShadow, runRowsetShadow, runCountShadow, shadow_bytes. rewrite Hs, Hp.
    destruct (Rowset (intent f)); eexists; by apply run_shadow. }
  injection Hv as H1 H2 _ _ _ _ _ _. by rewrite H1, H2.
Qed.

(** C6: A shadow asks with the client's own values.  The statement sent for one
    that was bound is the text of a tree whose references correspond one by one to
    those of the client's conditions, and to each the Bind gives the value the
    client bound to its own, in the format the client bound it in.  If the client's
    Bind lacks one of them the shadow is not run: the client is told of the
    conflict instead. *)
Theorem shadow_asks_with_client_values i before name pfs ps rfs portal f s :
  shadow_of before i -> Shadow i <> EmptyString ->
  flight_of (Some i) (Some (Bind name pfs ps rfs portal)) = Some f ->
  connected s -> failure s = None ->
  exists tree, pg_deparse tree = Some (Shadow i) /\
    ((Exists (out_of_range ps) (param_refs before) /\ exec (runShadow f) s = exec failRepair s) \/
     exists values fs,
       Forall2 (same_value f values fs) (param_refs before) (param_refs tree) /\
       written (upstream (exec (runShadow f) s)) = written (upstream s) ++ [shadow_bytes f values fs] /\
       written (client (exec (runShadow f) s)) = written (client s)).
Proof.
  intros (tree & Hr & Hd & _) Hs [= <-] Hc Hf. exists tree. split; [done|].
  set (f := mkInFlight i true rfs ps pfs).
  destruct (renumberParams_lines before (Params i) tree Hr) as [Hl Hin].
  destruct (shadowParams f) as [[values fs]|] eqn:Hp.
  - right. exists values, fs. split; [|by apply runShadow_writes].
    eapply Forall2_impl; [exact Hl|]. intros old new. exact (lined_up f values fs old new Hp).
  - left. split.
    + apply pick_params_none in Hp. rewrite Exists_exists in *. destruct Hp as (pos & Hpos & Ho).
      exists pos. split; [by apply Hin | done].
    + unfold runShadow, runRowsetShadow, runCountShadow. simpl. apply String.eqb_neq in Hs.
      rewrite Hs, Hp. by destruct (Rowset i).
Qed.
End shadows.

(** ** Witness: [$7] and [$3] of the client's are [$2] and [$1] of the shadow's *)

Definition before_shadow : msg :=
  node_of "select_stmt" (Msg "SelectStmt" [("where_clause", FMsg (sample_expr [7; 3; 7]))]).

Definition count_intent : Intent := mkIntent "UPDATE" (-1) "SELECT count(*) FROM t" false [3; 7].

Definition client_values : list (option bytes) :=
  map (fun s => Some (text_of s)) ["a"; "b"; "c"; "d"; "e"; "f"] ++ [None].

Definition bound_flight : inFlight := mkInFlight count_intent true [] client_values [1].

Lemma before_refs : param_refs before_shadow = [7; 3; 7].
Proof. vm_compute. reflexivity. Qed.

Lemma client_values_bound : ~ Exists (out_of_range client_values) (param_refs before_shadow).
Proof.
  rewrite before_refs, Exists_exists. intros (pos & Hin & Ho). unfold out_of_range in Ho.
  change (length client_values) with 7%nat in Ho.
  repeat (apply elem_of_cons in Hin as [->|Hin]; [lia|]). by apply elem_of_nil in Hin.
Qed.

Lemma shadow_asks_with_client_values_witness :
  exists values fs refs, Forall2 (same_value bound_flight values fs) [7; 3; 7] refs /\
    last (written (upstream (exec (runShadow bound_flight) session_in_txn))) =
      Some (shadow_bytes bound_flight values fs).
Proof.
  assert (shadow_of before_shadow count_intent) as Hsh.
  { eexists. split; [vm_compute; reflexivity|]. split; [reflexivity|]. vm_compute. by eexists. }
  destruct (shadow_asks_with_client_values count_intent before_shadow "s" [1] client_values [] ""
              bound_flight session_in_txn Hsh ltac:(discriminate) eq_refl
              (conj eq_refl eq_refl) eq_refl) as (tree & Hd & [[Hout _]|(values & fs & Hv & Hw & _)]).
  - by destruct client_values_bound.
  - exists values, fs, (param_refs tree). rewrite before_refs in Hv. split; [exact Hv|].
    rewrite Hw. apply last_snoc.
Defined.
