(* ===== verification/Relay.v ===== *)
(** * The raw relay: [internal/proxy/relay.go]

    A connection the emulator does not intercept is two pipes, one for each
    direction, that share two connections.  The network decides what a read
    returns and whether a write fails; a step is one call on a connection, so the
    pipes interleave at every call, and with the proxy when it closes the
    connections of a client it is serving.  What is assumed of a [net.Conn] is what its
    documentation says of one this side has closed. *)

From Stdlib Require Import Ascii String Strings.Byte.
From stdpp Require Import base numbers strings list functions relations.
From S2P Require Import Prelude GoStd Wire.

Local Open Scope Z_scope.

Definition relayBufferSize : Z := 32 * 1024.

Inductive direction := ToUpstream | ToClient.

#[export] Instance direction_eq_dec : EqDecision direction.
Proof. solve_decision. Defined.

Definition opposite (d : direction) : direction :=
  match d with ToUpstream => ToClient | ToClient => ToUpstream end.

(** A connection, by what this side did to it: what it wrote, and whether it
    shut the writing half or all of it. *)
Record netConn := mkNet { sent : bytes; writeShut : bool; shut : bool }.

Inductive readError := EOF | ReadFailed.

(** Where a pipe is: the call it makes next. *)
Inductive pipePC :=
| Reading
| Writing (data : bytes) (rerr : option readError)
| ClosingWrite
| ClosingSource
| ClosingDestination
| Returned.

(** A pipe is named by its direction, and a connection by the pipe that writes to
    it: [conns ToUpstream] is the upstream.  [got] is what a pipe has read so far,
    and [broken] says that a read failed or a write did, or that a connection was
    closed from outside. *)
Record relayState := mkRelay {
  conns : direction -> netConn;
  pipes : direction -> pipePC;
  counters : direction -> Z;
  got : direction -> bytes;
  broken : bool;
}.

Definition destination (d : direction) (r : relayState) : netConn := conns r d.
Definition source (d : direction) (r : relayState) : netConn := conns r (opposite d).

Definition set_pipe (d : direction) (p : pipePC) (r : relayState) : relayState :=
  mkRelay (conns r) (<[d := p]> (pipes r)) (counters r) (got r) (broken r).

Definition set_conn (d : direction) (c : netConn) (r : relayState) : relayState :=
  mkRelay (<[d := c]> (conns r)) (pipes r) (counters r) (got r) (broken r).

Definition breaks (b : bool) (r : relayState) : relayState :=
  mkRelay (conns r) (pipes r) (counters r) (got r) (broken r || b).

(** [n, rerr := src.Read(buf)] and the count of what it read. *)
Definition take_in (d : direction) (data : bytes) (r : relayState) : relayState :=
  mkRelay (conns r) (pipes r)
    (match data with
     | [] => counters r
     | _ => <[d := int64 (counters r d + Z.of_nat (length data))]> (counters r)
     end)
    (<[d := got r d ++ data]> (got r)) (broken r).

Definition net_write (data : bytes) (c : netConn) : netConn :=
  mkNet (sent c ++ data) (writeShut c) (shut c).

Definition net_close (c : netConn) : netConn := mkNet (sent c) (writeShut c) true.

Definition open (c : netConn) : bool := negb (shut c).
Definition writable (c : netConn) : bool := open c && negb (writeShut c).

Section relay.
(** Whether a connection has a [CloseWrite]. *)
Variable halfCloser : direction -> bool.

Definition closeWrite (d : direction) (c : netConn) : netConn :=
  if halfCloser d then mkNet (sent c) true (shut c) else net_close c.

(** Where the loop goes once the data of a read has been written. *)
Definition afterRead (rerr : option readError) : pipePC :=
  match rerr with
  | None => Reading
  | Some EOF => ClosingWrite
  | Some ReadFailed => ClosingSource
  end.

Definition onRead (data : bytes) (rerr : option readError) : pipePC :=
  match data with [] => afterRead rerr | _ => Writing data rerr end.

Definition read_failed (rerr : option readError) : bool :=
  match rerr with Some ReadFailed => true | _ => false end.

(** A read of a connection this side has closed returns no data and an error
    that is not EOF. *)
Definition read_possible (c : netConn) (data : bytes) (rerr : option readError) : Prop :=
  Z.of_nat (length data) <= relayBufferSize /\
  (open c = false -> data = [] /\ rerr = Some ReadFailed).

Inductive pipe_step : relayState -> relayState -> Prop :=
| pipe_reads d data rerr r :
    pipes r d = Reading -> read_possible (source d r) data rerr ->
    pipe_step r (set_pipe d (onRead data rerr) (breaks (read_failed rerr) (take_in d data r)))
| pipe_writes d data rerr r :
    pipes r d = Writing data rerr -> writable (destination d r) = true ->
    pipe_step r (set_pipe d (afterRead rerr) (set_conn d (net_write data (destination d r)) r))
| pipe_write_fails d data rerr k r :
    pipes r d = Writing data rerr ->
    (writable (destination d r) = false -> k = O) ->
    pipe_step r (set_pipe d ClosingSource
      (breaks true (set_conn d (net_write (take k data) (destination d r)) r)))
| pipe_closes_write d r :
    pipes r d = ClosingWrite ->
    pipe_step r (set_pipe d Returned (set_conn d (closeWrite d (destination d r)) r))
| pipe_closes_source d r :
    pipes r d = ClosingSource ->
    pipe_step r (set_pipe d ClosingDestination
      (set_conn (opposite d) (net_close (source d r)) r))
| pipe_closes_destination d r :
    pipes r d = ClosingDestination ->
    pipe_step r (set_pipe d Returned (set_conn d (net_close (destination d r)) r)).

(** A step of the relay is a call of one of its pipes, or [closeConns] closing a
    connection. *)
Inductive relay_step : relayState -> relayState -> Prop :=
| calls r r' : pipe_step r r' -> relay_step r r'
| closed_outside d r : relay_step r (breaks true (set_conn d (net_close (conns r d)) r)).

(** The two pipes on connections nothing was written to yet. *)
Definition relay_start (r : relayState) : Prop :=
  (forall d, pipes r d = Reading /\ conns r d = mkNet [] false false /\
             got r d = [] /\ counters r d = 0) /\ broken r = false.

Definition relay_reachable (r : relayState) : Prop := exists r0, relay_start r0 /\ rtc relay_step r0 r.

(** [relay] returns when both pipes have. *)
Definition relay_returned (r : relayState) : Prop := forall d, pipes r d = Returned.

(** ** What a direction has delivered *)

Definition pipe_ok (d : direction) (r : relayState) : Prop :=
  let out := sent (conns r d) in
  counters r d = int64 (Z.of_nat (length (got r d))) /\
  match pipes r d with
  | Reading | ClosingWrite => out = got r d
  | Writing data _ => out ++ data = got r d /\ Z.of_nat (length data) <= relayBufferSize
  | ClosingSource => out `prefix_of` got r d /\ broken r = true
  | ClosingDestination => out `prefix_of` got r d /\ broken r = true /\ open (source d r) = false
  | Returned =>
      (out = got r d /\ writable (conns r d) = false) \/
      (out `prefix_of` got r d /\ broken r = true /\ forall e, open (conns r e) = false)
  end.

Lemma int64_add a b : int64 (int64 a + b) = int64 (a + b).
Proof.
  unfold int64, wrap. f_equal.
  replace ((a + 2 ^ (64 - 1)) mod 2 ^ 64 - 2 ^ (64 - 1) + b + 2 ^ (64 - 1))
    with ((a + 2 ^ (64 - 1)) mod 2 ^ 64 + b) by lia.
  rewrite Z.add_mod_idemp_l by lia. f_equal. lia.
Qed.

Lemma opposite_ne d : opposite d <> d.
Proof. by destruct d. Qed.

Lemma direction_cases (d e : direction) : e = d \/ e = opposite d.
Proof. destruct d, e; auto. Qed.

(** Once the directions are known, an update is read by computation. *)
Ltac relay_simpl :=
  unfold set_pipe, set_conn, breaks, take_in, source, destination, insert, fn_insert in *;
  simpl in *.

(** What one step can change of a connection: only its own pipe writes to it, and
    what was shut stays shut. *)
Lemma conn_monotone r r' d :
  relay_step r r' ->
  (open (conns r d) = false -> open (conns r' d) = false) /\
  (writable (conns r d) = false -> writable (conns r' d) = false) /\
  (broken r = true -> broken r' = true).
Proof.
  intros [r1 r2 H|e r1]; [destruct H as [e ? ? r1|e ? ? r1 ? Hw|e ? ? k r1 ? Hk|e r1|e r1|e r1]|];
    destruct d, e; relay_simpl; split_and!; auto; try (intros ->; done);
    unfold closeWrite, net_write, net_close, writable, open in *; simpl;
    try match goal with |- context [halfCloser ?e] => destruct (halfCloser e); simpl end;
    auto; intros Hz; rewrite ?Hz, ?andb_false_r; done.
Qed.

Lemma all_shut_monotone r r' :
  relay_step r r' -> (forall e, open (conns r e) = false) -> forall e, open (conns r' e) = false.
Proof. intros H Hall e. by apply (conn_monotone _ _ e H). Qed.

(** A step of one pipe leaves what the other has done. *)
Definition same_pipe (d : direction) (r r' : relayState) : Prop :=
  pipes r' d = pipes r d /\ got r' d = got r d /\ counters r' d = counters r d /\
  sent (conns r' d) = sent (conns r d).

Lemma pipe_ok_same d r r' : relay_step r r' -> same_pipe d r r' -> pipe_ok d r -> pipe_ok d r'.
Proof.
  intros H (Hp & Hg & Hc & Hs) [Hcount Hok]. unfold pipe_ok. rewrite Hp, Hg, Hc, Hs.
  split; [done|].
  destruct (conn_monotone r r' d H) as (_ & Hw & Hb).
  destruct (conn_monotone r r' (opposite d) H) as (Ho & _ & _).
  pose proof (all_shut_monotone r r' H).
  destruct (pipes r d); unfold source in *; naive_solver.
Qed.

Lemma count_taken (g data : bytes) c :
  c = int64 (Z.of_nat (length g)) ->
  int64 (c + Z.of_nat (length data)) = int64 (Z.of_nat (length (g ++ data))).
Proof. intros ->. rewrite int64_add, length_app. f_equal. lia. Qed.

Lemma pipe_ok_read d data rerr r :
  pipes r d = Reading -> Z.of_nat (length data) <= relayBufferSize -> pipe_ok d r ->
  pipe_ok d (set_pipe d (onRead data rerr) (breaks (read_failed rerr) (take_in d data r))).
Proof.
  intros Hp Hlen [Hc Hok]. rewrite Hp in Hok. unfold pipe_ok.
  destruct data as [|b data].
  - destruct d; relay_simpl; rewrite app_nil_r; split; try done;
      destruct rerr as [[]|]; simpl; auto; by rewrite Hok, orb_true_r.
  - pose proof (count_taken (got r d) (b :: data) _ Hc).
    destruct d; relay_simpl; split; try done; by rewrite Hok.
Qed.

Lemma pipe_ok_write d data rerr r :
  pipes r d = Writing data rerr -> (rerr = Some ReadFailed -> broken r = true) -> pipe_ok d r ->
  pipe_ok d (set_pipe d (afterRead rerr) (set_conn d (net_write data (destination d r)) r)).
Proof.
  intros Hp Hb [Hc Hok]. rewrite Hp in Hok. destruct Hok as [Hok _]. unfold pipe_ok.
  destruct d; relay_simpl; (split; [done|]); destruct rerr as [[]|]; simpl; try done;
    rewrite Hok; by auto.
Qed.

Lemma pipe_ok_write_fails d data rerr k r :
  pipes r d = Writing data rerr -> pipe_ok d r ->
  pipe_ok d (set_pipe d ClosingSource
    (breaks true (set_conn d (net_write (take k data) (destination d r)) r))).
Proof.
  intros Hp [Hc Hok]. rewrite Hp in Hok. destruct Hok as [Hok _]. unfold pipe_ok.
  assert (sent (conns r d) ++ take k data `prefix_of` got r d).
  { rewrite <- Hok. by apply prefix_app, prefix_take. }
  destruct d; relay_simpl; split; try done; by rewrite orb_true_r.
Qed.

Lemma closeWrite_spec d c :
  sent (closeWrite d c) = sent c /\ writable (closeWrite d c) = false.
Proof.
  unfold closeWrite. destruct (halfCloser d); split; try done.
  unfold writable. by rewrite andb_false_r.
Qed.

Lemma pipe_ok_close d r r' :
  pipe_ok d r ->
  (pipes r d = ClosingWrite /\
   r' = set_pipe d Returned (set_conn d (closeWrite d (destination d r)) r)) \/
  (pipes r d = ClosingSource /\
   r' = set_pipe d ClosingDestination (set_conn (opposite d) (net_close (source d r)) r)) \/
  (pipes r d = ClosingDestination /\
   r' = set_pipe d Returned (set_conn d (net_close (destination d r)) r)) ->
  pipe_ok d r'.
Proof.
  intros [Hc Hok] [[Hp ->]|[[Hp ->]|[Hp ->]]]; rewrite Hp in Hok; unfold pipe_ok.
  - destruct (closeWrite_spec d (destination d r)).
    destruct d; relay_simpl; split; try done; left; split; congruence.
  - destruct d; relay_simpl; by destruct Hok.
  - destruct Hok as (? & ? & Ho).
    destruct d; relay_simpl; split; try done; right; split_and!; try done; by intros [].
Qed.

(** The error a pipe is about to act on is already accounted for. *)
Definition error_noted (r : relayState) : Prop :=
  forall d data, pipes r d = Writing data (Some ReadFailed) -> broken r = true.

Lemma pipe_ok_step d r r' : relay_step r r' -> error_noted r -> pipe_ok d r -> pipe_ok d r'.
Proof.
  intros H Hn Hok. pose proof H as H'.
  destruct H as [r r' H|e r];
    [|eapply pipe_ok_same; [exact H' | | exact Hok]; unfold same_pipe; by destruct d, e; relay_simpl].
  destruct H as
    [e data rerr r Hp Hr|e data rerr r Hp Hw|e data rerr k r Hp Hk|e r Hp|e r Hp|e r Hp];
    (destruct (direction_cases e d) as [-> | ->];
     [|eapply pipe_ok_same; [exact H' | | exact Hok];
       unfold same_pipe; destruct e; relay_simpl; split_and!; try done;
       by match goal with data : bytes |- _ => destruct data | _ => idtac end]).
  - apply pipe_ok_read; [done | apply Hr | done].
  - apply pipe_ok_write; [done | intros -> | done]. by apply (Hn e data).
  - by eapply pipe_ok_write_fails.
  - eapply pipe_ok_close; eauto.
  - eapply pipe_ok_close; eauto.
  - eapply pipe_ok_close; eauto 6.
Qed.

Lemma error_noted_step r r' : relay_step r r' -> error_noted r -> error_noted r'.
Proof.
  intros H Hn. destruct H as [r r' H|e r]; [|intros d x Hp; relay_simpl; by rewrite orb_true_r].
  destruct H as
    [e data rerr r Hp|e data rerr r Hp Hw|e data rerr k r Hp Hk|e r Hp|e r Hp|e r Hp];
    intros d x; destruct d, e; relay_simpl; try (by eauto);
    try (by destruct rerr as [[]|]); try (by intros; rewrite (Hn _ _ ltac:(eassumption)));
    destruct data as [|b data], rerr as [[]|]; simpl; intros; simplify_eq; auto using orb_true_r.
Qed.

Definition relay_ok (r : relayState) : Prop := error_noted r /\ forall d, pipe_ok d r.

Lemma relay_reachable_ok r : relay_reachable r -> relay_ok r.
Proof.
  intros (r0 & [Hs Hb] & Hr).
  assert (relay_ok r0) as H0.
  { split.
    - intros d data Hp. by rewrite (proj1 (Hs d)) in Hp.
    - intros d. destruct (Hs d) as (Hp & Hc & Hg & Hn). unfold pipe_ok.
      by rewrite Hp, Hc, Hg, Hn. }
  clear Hs Hb. induction Hr as [|r1 r2 r3 Hst _ IH]; [done|]. apply IH.
  destruct H0 as [Hn Hall]. split; [by eapply error_noted_step|].
  intros d. by eapply pipe_ok_step.
Qed.

(** ** The theorems *)

(** What a pipe has read and not yet written. *)
Definition held (p : pipePC) : bytes := match p with Writing data _ => data | _ => [] end.

Lemma pipe_ok_delivers d r :
  pipe_ok d r ->
  sent (conns r d) `prefix_of` got r d /\
  (broken r = false -> got r d = sent (conns r d) ++ held (pipes r d) /\
     Z.of_nat (length (held (pipes r d))) <= relayBufferSize).
Proof.
  intros [_ Hok].
  destruct (pipes r d); simpl in *; rewrite ?app_nil_r;
    try (by rewrite Hok; split; [|intros; split; [|unfold relayBufferSize; simpl; lia]]).
  - destruct Hok as [<- Hl]. split; [by eexists | done].
  - destruct Hok as [? ->]. by split.
  - destruct Hok as (? & -> & _). by split.
  - destruct Hok as [[-> _]|(? & -> & _)]; [|by split].
    split; [done|]. intros _. split; [done|]. unfold relayBufferSize; simpl; lia.
Qed.

(** C27: Whatever the network does, each side is sent the bytes the other one
    wrote, in order and from the first on, and each counter is the number of
    bytes read; while no call has failed and the proxy has closed nothing, nothing
    is lost, since what was read is what was sent and at most one buffer still
    held.  When the relay returns, either both directions delivered everything and
    were shut behind it, or it was broken off and both connections are closed. *)
Theorem relay_exact r :
  relay_reachable r ->
  (forall d, sent (conns r d) `prefix_of` got r d /\
     counters r d = int64 (Z.of_nat (length (got r d))) /\
     (broken r = false -> got r d = sent (conns r d) ++ held (pipes r d) /\
        Z.of_nat (length (held (pipes r d))) <= relayBufferSize)) /\
  (relay_returned r ->
     (forall d, sent (conns r d) = got r d /\ writable (conns r d) = false) \/
     (broken r = true /\ forall d, open (conns r d) = false)).
Proof.
  intros [_ Hall]%relay_reachable_ok. split.
  - intros d. destruct (pipe_ok_delivers d r (Hall d)) as [Hp Hh]. by destruct (Hall d).
  - intros Hret. pose proof (Hall ToUpstream) as [_ H1]. pose proof (Hall ToClient) as [_ H2].
    rewrite Hret in H1, H2. destruct H1 as [H1|]; [|naive_solver].
    destruct H2 as [H2|]; [|naive_solver]. left. by intros [].
Qed.

(** *** Half-closing *)

Definition half_closed_ok (r : relayState) : Prop :=
  broken r = false ->
  forall d, open (conns r d) = true /\
    pipes r d <> ClosingSource /\ pipes r d <> ClosingDestination /\
    (writeShut (conns r d) = true <-> pipes r d = Returned).

(** A pipe whose reads went well is not closing anything down. *)
Definition going_on (p : pipePC) : Prop :=
  p <> ClosingSource /\ p <> ClosingDestination /\ p <> Returned.

Lemma afterRead_going_on rerr : rerr <> Some ReadFailed -> going_on (afterRead rerr).
Proof. by destruct rerr as [[]|]. Qed.

Lemma onRead_going_on data rerr : rerr <> Some ReadFailed -> going_on (onRead data rerr).
Proof. intros. destruct data; [by apply afterRead_going_on | done]. Qed.

Lemma half_closed_step r r' :
  (forall d, halfCloser d = true) -> relay_step r r' -> error_noted r ->
  half_closed_ok r -> half_closed_ok r'.
Proof.
  intros Hhalf H Hn Hok Hb.
  assert (broken r = false) as Hb0.
  { destruct (broken r) eqn:E; [|done].
    by rewrite (proj2 (proj2 (conn_monotone r r' ToClient H)) E) in Hb. }
  specialize (Hok Hb0).
  destruct H as [r r' H|e r]; [|by relay_simpl; rewrite orb_true_r in Hb].
  destruct H as [e data rerr r Hp Hr|e data rerr r Hp Hw|e data rerr k r Hp Hk|e r Hp|e r Hp|e r Hp];
    pose proof (Hok e) as (Ho & Hs & Hd & Hr');
    try (by rewrite Hp in Hs; try done; rewrite Hp in Hd);
    rewrite Hp in Hr';
    try (by relay_simpl; rewrite orb_true_r in Hb).
  1: assert (going_on (onRead data rerr)) as (? & ? & ?).
  1: { apply onRead_going_on. intros ->. simpl in Hb. by rewrite orb_true_r in Hb. }
  2: assert (going_on (afterRead rerr)) as (? & ? & ?).
  2: { apply afterRead_going_on. intros ->. by rewrite (Hn e data Hp) in Hb0. }
  all: intros d; destruct (Hok d) as (Ho2 & Hs2 & Hd2 & Hr2);
    destruct d, e; relay_simpl; unfold closeWrite; rewrite ?Hhalf; simpl;
    split_and!; try done; split; intros; naive_solver.
Qed.

(** With connections that can be half-closed, as long as no read and no write
    has failed and the proxy has closed nothing, neither connection is closed, and a
    direction can be written to until its own pipe has returned: a client that shuts
    down its writing side still gets everything the server sends. *)
Theorem relay_half_close r :
  (forall d, halfCloser d = true) -> relay_reachable r -> broken r = false ->
  forall d, open (conns r d) = true /\ (writable (conns r d) = true <-> pipes r d <> Returned).
Proof.
  intros Hhalf (r0 & [Hs Hb0] & Hr) Hb d.
  assert (error_noted r0) as Hn.
  { intros e data Hp. by rewrite (proj1 (Hs e)) in Hp. }
  assert (half_closed_ok r0) as H0.
  { intros _ e. destruct (Hs e) as (-> & -> & _). by split_and!. }
  assert (half_closed_ok r) as Hok.
  { clear Hs Hb0 Hb. induction Hr as [|r1 r2 r3 Hst _ IH]; [done|].
    apply IH; [by eapply error_noted_step | by eapply half_closed_step]. }
  destruct (Hok Hb d) as (Ho & _ & _ & Hw). split; [done|].
  unfold writable. rewrite Ho. simpl. rewrite negb_true_iff, <- not_true_iff_false.
  by rewrite Hw.
Qed.

(** *** Unwinding *)

(** How many calls a pipe on closed connections has left. *)
Definition calls_left (p : pipePC) : nat :=
  match p with
  | Writing _ _ => 4
  | Reading => 3
  | ClosingSource => 2
  | ClosingDestination => 1
  | ClosingWrite => 1
  | Returned => 0
  end.

Definition relay_left (r : relayState) : nat :=
  calls_left (pipes r ToUpstream) + calls_left (pipes r ToClient).

Definition all_shut (r : relayState) : Prop := forall d, open (conns r d) = false.

Lemma unwinding_step r r' :
  all_shut r -> pipe_step r r' -> (relay_left r' < relay_left r)%nat.
Proof.
  intros Hall H. unfold relay_left.
  destruct H as [e data rerr r Hp [_ Hr]|e data rerr r Hp Hw|e data rerr k r Hp Hk|e r Hp|e r Hp|e r Hp].
  - destruct (Hr (Hall (opposite e))) as [-> ->]. destruct e; relay_simpl; rewrite Hp; simpl; lia.
  - unfold writable, destination in Hw. by rewrite Hall in Hw.
  - destruct e; relay_simpl; rewrite Hp; simpl; lia.
  - destruct e; relay_simpl; rewrite Hp; simpl; lia.
  - destruct e; relay_simpl; rewrite Hp; simpl; lia.
  - destruct e; relay_simpl; rewrite Hp; simpl; lia.
Qed.

(** A pipe that has not returned has a call to make, and the network an answer. *)
Lemma relay_progress r d :
  pipes r d <> Returned -> exists r', pipe_step r r'.
Proof.
  intros Hp. destruct (pipes r d) eqn:E; try done.
  - eexists. apply (pipe_reads d [] (Some ReadFailed)); [done|]. split; [|done].
    unfold relayBufferSize. simpl. lia.
  - eexists. by apply (pipe_write_fails d data rerr 0).
  - eexists. by apply (pipe_closes_write d).
  - eexists. by apply (pipe_closes_source d).
  - eexists. by apply (pipe_closes_destination d).
Qed.

(** C28: Once both connections are closed, by a pipe or by the proxy, the relay
    unwinds: however the pipes interleave it takes at most eight more calls, and it
    stops nowhere but where both pipes have returned. *)
Theorem relay_unwinds r n r' :
  all_shut r -> nsteps pipe_step n r r' ->
  (n <= 8)%nat /\ (relay_returned r' \/ exists r'', pipe_step r' r'').
Proof.
  intros Hall Hr. split.
  - assert (n <= relay_left r)%nat.
    { induction Hr as [r|n r1 r2 r3 Hst _ IH]; [lia|].
      pose proof (unwinding_step _ _ Hall Hst).
      pose proof (IH (all_shut_monotone _ _ (calls _ _ Hst) Hall)). lia. }
    assert (relay_left r <= 8)%nat; [|lia].
    unfold relay_left.
    destruct (pipes r ToUpstream), (pipes r ToClient); simpl; lia.
  - destruct (decide (calls_left (pipes r' ToUpstream) = 0)%nat) as [H1|H1];
      [destruct (decide (calls_left (pipes r' ToClient) = 0)%nat) as [H2|H2]|].
    + left. intros []; [by destruct (pipes r' ToUpstream) | by destruct (pipes r' ToClient)].
    + right. apply (relay_progress r' ToClient). intros E. by rewrite E in H2.
    + right. apply (relay_progress r' ToUpstream). intros E. by rewrite E in H1.
Qed.

End relay.

(** ** Witnesses: a byte relayed up, the client's end of file, and a reply *)

Definition idle_relay : relayState :=
  mkRelay (fun _ => mkNet [] false false) (fun _ => Reading) (fun _ => 0) (fun _ => []) false.

Lemma idle_relay_start : relay_start idle_relay.
Proof. done. Qed.

(** The client sends a byte and shuts its writing half down. *)
Definition relay_up : relayState :=
  set_pipe ToUpstream (onRead ["h"%byte] (Some EOF))
    (breaks false (take_in ToUpstream ["h"%byte] idle_relay)).

Definition relay_sent : relayState :=
  set_pipe ToUpstream ClosingWrite
    (set_conn ToUpstream (net_write ["h"%byte] (destination ToUpstream relay_up)) relay_up).

Definition relay_half : relayState :=
  set_pipe ToUpstream Returned
    (set_conn ToUpstream (closeWrite (fun _ => true) ToUpstream (destination ToUpstream relay_sent))
       relay_sent).

Lemma relay_half_reachable : relay_reachable (fun _ => true) relay_half.
Proof.
  exists idle_relay. split; [apply idle_relay_start|].
  eapply (rtc_l _ _ relay_up).
  { apply calls. by apply (pipe_reads _ ToUpstream ["h"%byte] (Some EOF)). }
  eapply (rtc_l _ _ relay_sent).
  { apply calls. by apply (pipe_writes _ ToUpstream ["h"%byte] (Some EOF) relay_up). }
  apply rtc_once, calls. by apply (pipe_closes_write _ ToUpstream relay_sent).
Qed.

Lemma relay_exact_witness :
  sent (conns relay_half ToUpstream) = ["h"%byte] /\
  sent (conns relay_half ToUpstream) `prefix_of` got relay_half ToUpstream.
Proof. split; [done | apply (relay_exact _ relay_half relay_half_reachable)]. Defined.

Lemma relay_half_close_witness :
  pipes relay_half ToUpstream = Returned /\ open (conns relay_half ToClient) = true.
Proof.
  split; [done|].
  apply (relay_half_close (fun _ => true) relay_half (fun _ => eq_refl) relay_half_reachable eq_refl).
Defined.

Definition shut_relay : relayState :=
  mkRelay (fun _ => mkNet [] false true) (fun _ => Reading) (fun _ => 0) (fun _ => []) true.

(** The pipe to the client finds out. *)
Definition unwinding_relay : relayState :=
  set_pipe ToClient ClosingSource (breaks true (take_in ToClient [] shut_relay)).

Lemma relay_unwinds_witness :
  nsteps (pipe_step (fun _ => true)) 1 shut_relay unwinding_relay /\
  exists r', pipe_step (fun _ => true) unwinding_relay r'.
Proof.
  assert (nsteps (pipe_step (fun _ => true)) 1 shut_relay unwinding_relay) as Hs.
  { apply nsteps_once. by apply (pipe_reads _ ToClient [] (Some ReadFailed)). }
  split; [exact Hs|].
  destruct (relay_unwinds (fun _ => true) shut_relay 1 unwinding_relay (fun _ => eq_refl) Hs)
    as [_ [H|H]]; [by pose proof (H ToClient) | exact H].
Defined.
