(* ===== verification/Proxy.v ===== *)
(** * The proxy: [internal/proxy/proxy.go]

    [New] completes a configuration.  [Run] listens, accepts clients and gives each
    one a goroutine, [serve], that dials an upstream of its own, registers both
    connections while it uses them and closes them when it is done; cancelling
    the context runs a hook that closes the listener and whatever is registered.  A
    step is one call of [Run], of the hook or of a goroutine, so they interleave
    freely.  What happens between the
    two connections is [Relay.v] or, for an intercepted session, [System.v]. *)

From Stdlib Require Import Ascii String Strings.Byte.
From stdpp Require Import base numbers strings list gmap relations.
From S2P Require Import Prelude GoStd Ruleset DefaultRules Wire Proc State Session.

Local Open Scope Z_scope.

(** ** Configuration *)

Definition DefaultServerVersion : string := "16.15".

(** [Config]; a classifier is the ruleset it was built on, and of the TLS
    configuration only whether there is one matters. *)
Record ProxyConfig := mkProxyConfig {
  Listen : string;
  Upstream : string;
  DialTimeout : Z;
  Classifier : option Ruleset;
  TLS : bool;
  ServerVersion : string;
}.

Definition or_default (s d : string) : string := if String.eqb s "" then d else s.

(** [New], with what [rules.Default] returns. *)
Definition New (default_rules : Ruleset + string) (cfg : ProxyConfig) : ProxyConfig + string :=
  if String.eqb (Upstream cfg) "" then inr "upstream address is required"
  else
    let complete rs :=
      mkProxyConfig (or_default (Listen cfg) "127.0.0.1:5432") (Upstream cfg)
        (if DialTimeout cfg <=? 0 then 10 * second else DialTimeout cfg)
        (Some rs) (TLS cfg) (or_default (ServerVersion cfg) DefaultServerVersion) in
    match Classifier cfg with
    | Some rs => inl (complete rs)
    | None =>
        match default_rules with
        | inl rs => inl (complete rs)
        | inr e => inr ("load default ruleset: " +:+ e)
        end
    end.

(** A configuration [New] has nothing to add to. *)
Definition config_complete (cfg : ProxyConfig) : Prop :=
  Listen cfg <> EmptyString /\ Upstream cfg <> EmptyString /\ 0 < DialTimeout cfg /\
  is_Some (Classifier cfg) /\ ServerVersion cfg <> EmptyString.

(** ** Connections *)

Inductive side := ClientSide | UpstreamSide.

#[export] Instance side_eq_dec : EqDecision side.
Proof. solve_decision. Defined.

#[export] Instance side_countable : Countable side.
Proof.
  refine (inj_countable' (fun s => match s with ClientSide => true | UpstreamSide => false end)
            (fun b : bool => if b then ClientSide else UpstreamSide) _).
  by intros [].
Defined.

(** A connection is named by the goroutine that owns it and its side. *)
Definition connID : Type := nat * side.

(** Where a [serve] is: the call it makes next. *)
Inductive servePC :=
| Dialing
| TrackingClient
| TrackingUpstream
| Serving
| UntrackingUpstream
| UntrackingClient
| ClosingUpstream
| ClosingClient (dialed : bool)
| Finished (dialed : bool).

(** What [Run] returns. *)
Inductive runResult := RunNil | ListenError | AcceptError.

#[export] Instance runResult_eq_dec : EqDecision runResult.
Proof. solve_decision. Defined.

(** Where [Run] is: it listens, it accepts, or it returns and unhooks. *)
Inductive runPC :=
| Starting
| Accepting
| Stopping (result : runResult)
| RunReturned (result : runResult).

(** The function [context.AfterFunc] was given: not yet registered, waiting for
    the context, at one of its two calls, done, or unhooked before it ran. *)
Inductive hookPC := Unregistered | Waiting | ClosingListener | ClosingConns | HookDone | Unhooked.

Record proxyState := mkProxyState {
  accepts : Z;
  serves : list servePC;
  conns : gset connID;
  shutdown : gset connID;
  listening : bool;
  cancelled : bool;
  runAt : runPC;
  hookAt : hookPC;
}.

Definition set_conns (f : gset connID -> gset connID) (p : proxyState) : proxyState :=
  mkProxyState (accepts p) (serves p) (f (conns p)) (shutdown p) (listening p) (cancelled p)
    (runAt p) (hookAt p).

Definition set_shutdown (f : gset connID -> gset connID) (p : proxyState) : proxyState :=
  mkProxyState (accepts p) (serves p) (conns p) (f (shutdown p)) (listening p) (cancelled p)
    (runAt p) (hookAt p).

Definition track (c : connID) (p : proxyState) : proxyState := set_conns (fun l => {[c]} ∪ l) p.

Definition untrack (c : connID) (p : proxyState) : proxyState := set_conns (fun l => l ∖ {[c]}) p.

Definition closeConn (c : connID) (p : proxyState) : proxyState := set_shutdown (fun l => {[c]} ∪ l) p.

Definition closeConns (p : proxyState) : proxyState := set_shutdown (fun l => conns p ∪ l) p.

Definition set_serves (l : list servePC) (p : proxyState) : proxyState :=
  mkProxyState (accepts p) l (conns p) (shutdown p) (listening p) (cancelled p) (runAt p) (hookAt p).

Definition set_serve (i : nat) (pc : servePC) (p : proxyState) : proxyState :=
  set_serves (<[i := pc]> (serves p)) p.

(** [p.accepts.Add(1); go p.serve(ctx, conn)]. *)
Definition accepted (p : proxyState) : proxyState :=
  mkProxyState (int64 (accepts p + 1)) (serves p ++ [Dialing]) (conns p) (shutdown p) (listening p)
    (cancelled p) (runAt p) (hookAt p).

(** Where [Run], its listener, its hook and the context are. *)
Definition set_run (l c : bool) (r : runPC) (h : hookPC) (p : proxyState) : proxyState :=
  mkProxyState (accepts p) (serves p) (conns p) (shutdown p) l c r h.

(** What the deferred [stop()] does to the hook. *)
Definition stop (h : hookPC) : hookPC := match h with Waiting => Unhooked | _ => h end.

(** The call a [serve] makes, and where it is then; a dial is the network's to
    decide.  A session closes either connection as it likes and ends when it
    ends. *)
Inductive serve_step (i : nat) (p : proxyState) : servePC -> servePC -> proxyState -> Prop :=
| dial_fails : serve_step i p Dialing (ClosingClient false) p
| dial_succeeds : serve_step i p Dialing TrackingClient p
| tracks_client : serve_step i p TrackingClient TrackingUpstream (track (i, ClientSide) p)
| tracks_upstream : serve_step i p TrackingUpstream Serving (track (i, UpstreamSide) p)
| session_closes s : serve_step i p Serving Serving (closeConn (i, s) p)
| session_ends : serve_step i p Serving UntrackingUpstream p
| untracks_upstream : serve_step i p UntrackingUpstream UntrackingClient (untrack (i, UpstreamSide) p)
| untracks_client : serve_step i p UntrackingClient ClosingUpstream (untrack (i, ClientSide) p)
| closes_upstream : serve_step i p ClosingUpstream (ClosingClient true) (closeConn (i, UpstreamSide) p)
| closes_client dialed :
    serve_step i p (ClosingClient dialed) (Finished dialed) (closeConn (i, ClientSide) p).

Inductive proxy_step : proxyState -> proxyState -> Prop :=
| listen_fails p :
    runAt p = Starting ->
    proxy_step p (set_run (listening p) (cancelled p) (RunReturned ListenError) (hookAt p) p)
| listens p :
    runAt p = Starting -> proxy_step p (set_run true (cancelled p) Accepting Waiting p)
| accepts_client p :
    runAt p = Accepting -> listening p = true -> proxy_step p (accepted p)
| accept_fails p :
    runAt p = Accepting ->
    proxy_step p (set_run (listening p) (cancelled p)
                    (Stopping (if cancelled p then RunNil else AcceptError)) (hookAt p) p)
| run_returns r p :
    runAt p = Stopping r ->
    proxy_step p (set_run (listening p) (cancelled p) (RunReturned r) (stop (hookAt p)) p)
| serve_acts i p pc pc' p' :
    serves p !! i = Some pc -> serve_step i p pc pc' p' ->
    proxy_step p (set_serve i pc' p')
| context_cancelled p :
    proxy_step p (set_run (listening p) true (runAt p) (hookAt p) p)
| hook_runs p :
    cancelled p = true -> hookAt p = Waiting ->
    proxy_step p (set_run (listening p) true (runAt p) ClosingListener p)
| listener_closed p :
    hookAt p = ClosingListener -> proxy_step p (set_run false (cancelled p) (runAt p) ClosingConns p)
| connections_closed p :
    hookAt p = ClosingConns ->
    proxy_step p (closeConns (set_run (listening p) (cancelled p) (runAt p) HookDone p)).

Definition proxy_start : proxyState := mkProxyState 0 [] ∅ ∅ false false Starting Unregistered.

Definition proxy_reachable (p : proxyState) : Prop := rtc proxy_step proxy_start p.

(** ** Which connections are registered *)

Definition registered (s : side) (pc : servePC) : bool :=
  match pc, s with
  | Serving, _ => true
  | UntrackingUpstream, _ => true
  | TrackingUpstream, ClientSide => true
  | UntrackingClient, ClientSide => true
  | _, _ => false
  end.

(** Which connections a goroutine has closed, and which it may have: a session
    closes them when it pleases. *)
Definition closed_by (s : side) (pc : servePC) : bool :=
  match pc, s with
  | ClosingClient dialed, UpstreamSide => dialed
  | Finished dialed, UpstreamSide => dialed
  | Finished _, ClientSide => true
  | _, _ => false
  end.

Definition may_have_closed (s : side) (pc : servePC) : bool :=
  match pc, s with
  | (Serving | UntrackingUpstream | UntrackingClient | ClosingUpstream), _ => true
  | ClosingClient dialed, _ => dialed
  | Finished dialed, UpstreamSide => dialed
  | Finished _, ClientSide => true
  | _, _ => false
  end.

Definition conns_ok (p : proxyState) : Prop :=
  (forall i s, (i, s) ∈ conns p <-> exists pc, serves p !! i = Some pc /\ registered s pc = true) /\
  (forall i s pc, serves p !! i = Some pc -> closed_by s pc = true -> (i, s) ∈ shutdown p) /\
  (cancelled p = false -> forall i s, (i, s) ∈ shutdown p ->
     exists pc, serves p !! i = Some pc /\ may_have_closed s pc = true).

(** How [Run], its listener, its hook and the context fit: the hook runs only when
    the context was cancelled, it closes the listener first, [Run] returns nil only
    when the context was cancelled, and once it has returned the hook does not
    wait. *)
Definition run_fits (listening cancelled : bool) (r : runPC) (h : hookPC) : bool :=
  match h with
  | ClosingListener => cancelled
  | ClosingConns | HookDone => cancelled && negb listening
  | _ => true
  end &&
  match r, h with
  | Starting, Unregistered => negb listening
  | Starting, _ => false
  | (Stopping RunNil | RunReturned RunNil), _ => cancelled
  | _, _ => true
  end &&
  match r, h with RunReturned _, Waiting => false | _, _ => true end.

Definition run_ok (p : proxyState) : Prop :=
  run_fits (listening p) (cancelled p) (runAt p) (hookAt p) = true.

Definition proxy_ok (p : proxyState) : Prop := conns_ok p /\ run_ok p.

(** What a goroutine's step does to the shared state, read off its position. *)
Lemma serve_step_conns i p pc pc' p' :
  serve_step i p pc pc' p' ->
  serves p' = serves p /\ cancelled p' = cancelled p /\
  (forall c, c.1 <> i -> (c ∈ conns p' <-> c ∈ conns p) /\ (c ∈ shutdown p' <-> c ∈ shutdown p)) /\
  (forall s, ((i, s) ∈ conns p <-> registered s pc = true) ->
     ((i, s) ∈ conns p' <-> registered s pc' = true)) /\
  (forall s, (closed_by s pc = true -> (i, s) ∈ shutdown p) ->
     closed_by s pc' = true -> (i, s) ∈ shutdown p') /\
  (forall s, ((i, s) ∈ shutdown p -> may_have_closed s pc = true) ->
     (i, s) ∈ shutdown p' -> may_have_closed s pc' = true).
Proof.
  intros H; destruct H; simpl; split_and!; try done;
    try (intros [j x] Hj; simpl in *;
         rewrite ?elem_of_union, ?elem_of_difference, ?elem_of_singleton; intuition congruence);
    intros []; simpl; rewrite ?elem_of_union, ?elem_of_difference, ?elem_of_singleton;
    intuition congruence.
Qed.

Lemma registered_with s pc :
  (exists q, Some pc = Some q /\ registered s q = true) <-> registered s pc = true.
Proof. split; [by intros (q & [= <-] & ?) | by exists pc]. Qed.

Lemma conns_ok_serve i p pc pc' p' :
  serves p !! i = Some pc -> serve_step i p pc pc' p' -> conns_ok p -> conns_ok (set_serve i pc' p').
Proof.
  intros Hi H (Hreg & Hcl & Hsh).
  destruct (serve_step_conns _ _ _ _ _ H) as (Hs & Hc & Hother & Hr & Hd & He).
  assert (i < length (serves p))%nat as Hlt by (by eapply lookup_lt_Some).
  unfold conns_ok, set_serve; simpl. rewrite Hs.
  split_and!.
  - intros j s. destruct (decide (j = i)) as [->|Hne].
    + rewrite list_lookup_insert_eq by done. rewrite registered_with.
      apply Hr. by rewrite Hreg, Hi, registered_with.
    + rewrite list_lookup_insert_ne by done. rewrite (proj1 (Hother (j, s) Hne)). apply Hreg.
  - intros j s q. destruct (decide (j = i)) as [->|Hne].
    + rewrite list_lookup_insert_eq by done. intros [= <-]. apply Hd. by apply Hcl.
    + rewrite list_lookup_insert_ne by done. rewrite (proj2 (Hother (j, s) Hne)). apply Hcl.
  - rewrite Hc. intros Hnc j s. specialize (Hsh Hnc j s). destruct (decide (j = i)) as [->|Hne].
    + rewrite list_lookup_insert_eq by done. intros Hin. exists pc'. split; [done|].
      apply (He s); [|done]. intros Hin'. destruct (Hsh Hin') as (q & Hq & ?). by simplify_eq.
    + rewrite list_lookup_insert_ne by done. rewrite (proj2 (Hother (j, s) Hne)). apply Hsh.
Qed.

Lemma conns_ok_accept p : conns_ok p -> conns_ok (accepted p).
Proof.
  intros (Hreg & Hcl & Hsh). unfold conns_ok; simpl.
  assert (forall i q, (serves p ++ [Dialing]) !! i = Some q ->
            serves p !! i = Some q \/ q = Dialing) as Hnew.
  { intros i q [Hq|[_ Hq]]%lookup_app_Some; [by left|right].
    apply list_lookup_singleton_Some in Hq. naive_solver. }
  split_and!.
  - intros i s. rewrite Hreg. split; intros (q & Hq & Hr).
    + exists q. by rewrite (lookup_app_l_Some _ _ _ _ Hq).
    + destruct (Hnew i q Hq) as [?| ->]; [by exists q | by destruct s].
  - intros i s q Hq Hc. destruct (Hnew i q Hq) as [?| ->]; [by eapply Hcl | by destruct s].
  - intros Hnc i s Hin. destruct (Hsh Hnc i s Hin) as (q & Hq & Hc).
    exists q. by rewrite (lookup_app_l_Some _ _ _ _ Hq).
Qed.

(** [Run] and its hook register nothing, and close nothing but by the hook. *)
Lemma conns_ok_run l c r h p :
  (c = false -> cancelled p = false) -> conns_ok p -> conns_ok (set_run l c r h p).
Proof. intros Hc (? & ? & Hsh). split_and!; simpl; auto. Qed.

Lemma conns_ok_step p p' : proxy_step p p' -> run_ok p -> conns_ok p -> conns_ok p'.
Proof.
  intros H Hran Hok. unfold run_ok, run_fits in Hran. destruct H; try (by apply conns_ok_run);
    [by apply conns_ok_accept | by eapply conns_ok_serve |].
  destruct Hok as (Hr & Hcl & _). split_and!; simpl; [done | set_solver|].
  intros Hc. by rewrite H, Hc in Hran.
Qed.

Lemma run_ok_serve i pc pc' p p' : serve_step i p pc pc' p' -> run_ok p -> run_ok (set_serve i pc' p').
Proof. by destruct 1. Qed.

Lemma run_ok_step p p' : proxy_step p p' -> run_ok p -> run_ok p'.
Proof.
  intros H Hok. destruct H as [p Hr|p Hr|p Hr Hl|p Hr|r p Hr|i p pc pc' p' Hi Hs|p|p Hc Hh|p Hh|p Hh];
    [| | | | |by eapply run_ok_serve|..]; revert Hok; unfold run_ok; destruct p; simpl in *; subst;
    unfold run_fits;
    repeat match goal with |- context [match ?x with _ => _ end] => is_var x; destruct x end;
    try done; repeat match goal with b : bool |- _ => destruct b end; done.
Qed.

Lemma proxy_reachable_ok p : proxy_reachable p -> proxy_ok p.
Proof.
  intros H. eapply rtc_ind_r; [| |exact H].
  - split; [|done]. split_and!; simpl; [|done|set_solver].
    intros i s. split; [set_solver | by intros (? & ? & _)].
  - intros p1 p2 _ Hst [Hc Hr]. split; [by eapply conns_ok_step | by eapply run_ok_step].
Qed.

(** C29: However clients come and go, the proxy's set holds a connection exactly
    while its goroutine is between registering and removing it.  A connection is
    closed when its goroutine is done with it and, until the context is cancelled,
    not before its session began; so when every goroutine has returned the set is
    empty and everything that was opened is closed. *)
Theorem conns_exact p :
  proxy_reachable p ->
  (forall i s, (i, s) ∈ conns p <-> exists pc, serves p !! i = Some pc /\ registered s pc = true) /\
  (forall i s pc, serves p !! i = Some pc ->
     (closed_by s pc = true -> (i, s) ∈ shutdown p) /\
     (cancelled p = false -> (i, s) ∈ shutdown p -> may_have_closed s pc = true)) /\
  ((forall pc, pc ∈ serves p -> exists dialed, pc = Finished dialed) ->
     conns p = ∅ /\
     forall i dialed, serves p !! i = Some (Finished dialed) ->
       (i, ClientSide) ∈ shutdown p /\ (dialed = true -> (i, UpstreamSide) ∈ shutdown p)).
Proof.
  intros [(Hreg & Hcl & Hsh) _]%proxy_reachable_ok. split_and!; [done|..].
  - intros i s pc Hpc. split; [by eapply Hcl|]. intros Hnc Hin.
    destruct (Hsh Hnc i s Hin) as (q & Hq & ?). by simplify_eq.
  - intros Hall. split.
    + apply set_eq. intros [i s]. rewrite Hreg. split; [|set_solver].
      intros (pc & Hpc & Hr). destruct (Hall pc) as [d ->]; [by eapply list_elem_of_lookup_2|].
      by destruct s.
    + intros i d Hi. split; [by eapply Hcl | intros ->; by eapply Hcl].
Qed.

(** Cancelling the context closes every connection that is registered when
    the connections are closed; one still open afterwards belongs to a goroutine
    that had not registered it yet or no longer had it registered. *)
Theorem cancelled_connections_closed p i s pc :
  proxy_reachable p -> serves p !! i = Some pc ->
  ((i, s) ∈ shutdown (closeConns p) <-> (i, s) ∈ shutdown p \/ registered s pc = true).
Proof.
  intros [(Hreg & _) _]%proxy_reachable_ok Hi. simpl. rewrite elem_of_union, Hreg, Hi,
    registered_with. tauto.
Qed.

(** [Run] returns without an error only when the context was cancelled, and by
    then the hook has run, is running or will never run. *)
Theorem Run_returns r p :
  proxy_reachable p -> runAt p = RunReturned r ->
  hookAt p <> Waiting /\ (r = RunNil -> cancelled p = true) /\
  (hookAt p = ClosingConns \/ hookAt p = HookDone -> cancelled p = true /\ listening p = false).
Proof.
  intros [_ Hok]%proxy_reachable_ok Hr. revert Hok. unfold run_ok, run_fits. rewrite Hr.
  destruct (hookAt p), r, (cancelled p), (listening p); naive_solver.
Qed.

(** [New] refuses a configuration without an upstream, or without a
    classifier when the embedded ruleset does not load; otherwise it returns a
    complete one that keeps every setting given, and completing a complete
    configuration changes nothing. *)
Theorem New_exact d cfg :
  (forall cfg', New d cfg = inl cfg' ->
     config_complete cfg' /\ Upstream cfg' = Upstream cfg /\ TLS cfg' = TLS cfg /\
     (Listen cfg <> EmptyString -> Listen cfg' = Listen cfg) /\
     (0 < DialTimeout cfg -> DialTimeout cfg' = DialTimeout cfg) /\
     (ServerVersion cfg <> EmptyString -> ServerVersion cfg' = ServerVersion cfg) /\
     (forall rs, Classifier cfg = Some rs -> Classifier cfg' = Some rs)) /\
  (config_complete cfg -> New d cfg = inl cfg) /\
  ((exists e, New d cfg = inr e) <->
     Upstream cfg = EmptyString \/ Classifier cfg = None /\ exists e, d = inr e).
Proof.
  unfold New, config_complete, or_default. destruct cfg as [l u t c b v]; simpl.
  split_and!.
  - intros cfg'. destruct (String.eqb_spec u ""); [done|].
    assert (0 < (if t <=? 0 then 10 * second else t)).
    { destruct (Z.leb_spec t 0); [done | lia]. }
    destruct c as [rs|]; [|destruct d as [rs|e]; [|done]]; intros [= <-]; simpl;
      destruct (String.eqb_spec l ""), (String.eqb_spec v ""), (Z.leb_spec t 0);
      subst; split_and!; try done; try lia; naive_solver.
  - intros (Hl & Hu & Ht & [rs ->] & Hv).
    apply String.eqb_neq in Hl, Hu, Hv. rewrite Hl, Hu, Hv.
    destruct (Z.leb_spec t 0); [lia | done].
  - destruct (String.eqb_spec u ""); [naive_solver|].
    destruct c as [rs|]; [naive_solver|]. destruct d; naive_solver.
Qed.

(** ** Witnesses: one client being served *)

Definition serving_one : proxyState :=
  mkProxyState 1 [Serving] ({[(0%nat, UpstreamSide)]} ∪ ({[(0%nat, ClientSide)]} ∪ ∅)) ∅ true false
    Accepting Waiting.

Lemma serving_one_reachable : proxy_reachable serving_one.
Proof.
  eapply rtc_l; [by apply listens|].
  eapply rtc_l; [by apply accepts_client|].
  eapply rtc_l; [eapply (serve_acts 0); [done | apply dial_succeeds]|].
  eapply rtc_l; [eapply (serve_acts 0); [done | apply tracks_client]|].
  eapply rtc_l; [eapply (serve_acts 0); [done | apply tracks_upstream]|].
  apply rtc_refl.
Qed.

Lemma conns_exact_witness : (0%nat, UpstreamSide) ∈ conns serving_one.
Proof.
  apply (conns_exact serving_one serving_one_reachable). by exists Serving.
Defined.

Lemma cancelled_connections_closed_witness :
  (0%nat, ClientSide) ∈ shutdown (closeConns serving_one).
Proof.
  apply (cancelled_connections_closed serving_one 0 ClientSide Serving serving_one_reachable eq_refl).
  by right.
Defined.

(** An accept that fails makes [Run] return and unhooks the hook: cancelling the
    context afterwards closes nothing, and the client is served on. *)
Definition accept_failed : proxyState := set_run true true (RunReturned AcceptError) Unhooked serving_one.

Lemma accept_error_keeps_serving :
  proxy_reachable accept_failed /\
  forall p', proxy_step accept_failed p' ->
    hookAt p' = Unhooked /\ exists s, (0%nat, s) ∈ conns p'.
Proof.
  split.
  - eapply (transitivity (y := serving_one)); [apply serving_one_reachable|].
    eapply rtc_l; [by apply accept_fails|]. eapply rtc_l; [by eapply run_returns|].
    apply rtc_once. apply (context_cancelled (set_run true false (RunReturned AcceptError) Unhooked serving_one)).
  - intros p' H. inversion H; subst; try done; [|by split; [done|]; exists ClientSide; set_solver].
    match goal with Hi : _ !! ?i = Some _ |- _ => destruct i; [simplify_eq/= | done] end.
    match goal with Hs : serve_step _ _ Serving _ _ |- _ => inversion Hs; subst end;
      (split; [done|]; exists ClientSide; simpl; set_solver).
Qed.
