(* ===== verification/Json.v ===== *)
(** * JSON as [encoding/json] writes it

    The encoder of strings and of composite values, as [json.Marshal] writes
    them, and that what it writes determines the value: two values with valid
    UTF-8 strings are written alike only if they are equal.  The recorded data has
    no numbers, so neither has this. *)

From Stdlib Require Import Ascii String.
From stdpp Require Import base numbers strings list.
From S2P Require Import Prelude GoStd.

Local Open Scope N_scope.

(** ** UTF-8 *)

Definition between (lo hi n : N) : bool := (lo <=? n) && (n <=? hi).
Definition cont (c : ascii) : bool := between 128 191 (code c).

(** How many bytes the multi-byte rune at the front of a string takes, and 0 when
    there is none or it is malformed: [utf8.DecodeRune]. *)
Definition rune_width (s : string) : nat :=
  match s with
  | String a (String b rest) =>
      let n := code a in
      if between 194 223 n then if cont b then 2%nat else 0%nat
      else match rest with
      | String c rest =>
          let low := if n =? 224 then 160 else if n =? 240 then 144 else 128 in
          let high := if n =? 237 then 159 else if n =? 244 then 143 else 191 in
          let second_ok := between low high (code b) in
          if between 224 239 n then if second_ok && cont c then 3%nat else 0%nat
          else match rest with
          | String d _ =>
              if between 240 244 n then if second_ok && cont c && cont d then 4%nat else 0%nat
              else 0%nat
          | EmptyString => 0%nat
          end
      | EmptyString => 0%nat
      end
  | _ => 0%nat
  end.

Arguments rune_width : simpl never.

Definition is_ascii (c : ascii) : bool := code c <? 128.

(** Whether a string is valid UTF-8; [skip] bytes of a rune are left. *)
Fixpoint valid_from (s : string) (skip : nat) : bool :=
  match s with
  | EmptyString => Nat.eqb skip 0
  | String c rest =>
      match skip with
      | S k => negb (is_ascii c) && valid_from rest k
      | O => if is_ascii c then valid_from rest 0
             else match rune_width s with O => false | S k => valid_from rest k end
      end
  end.

Definition valid_utf8 (s : string) : bool := valid_from s 0.

(** ** Strings *)

Definition quote : ascii := "034".
Definition backslash : ascii := "092".

Definition hex_digit (n : N) : ascii :=
  if n <? 10 then ascii_of_N (48 + n) else ascii_of_N (87 + n).

Definition short_escape (c : ascii) : option ascii :=
  let n := code c in
  if (n =? 34) || (n =? 92) then Some c
  else if n =? 8 then Some "b"%char
  else if n =? 12 then Some "f"%char
  else if n =? 10 then Some "n"%char
  else if n =? 13 then Some "r"%char
  else if n =? 9 then Some "t"%char
  else None.

(** Bytes that are written as they are: [htmlSafeSet]. *)
Definition html_safe (c : ascii) : bool :=
  let n := code c in
  (32 <=? n) && negb ((n =? 34) || (n =? 92) || (n =? 38) || (n =? 60) || (n =? 62)).

(** What an ASCII byte is written as. *)
Definition escape_ascii (c : ascii) (rest : string) : string :=
  if html_safe c then String c rest
  else match short_escape c with
       | Some e => String backslash (String e rest)
       | None => String backslash (String "u" (String "0" (String "0"
                   (String (hex_digit (N.shiftr (code c) 4))
                      (String (hex_digit (N.land (code c) 15)) rest)))))
       end.

Definition unicode_escape (w : string) (rest : string) : string :=
  String backslash (String "u" (w +:+ rest)).

(** The line and paragraph separators, which are escaped. *)
Definition separator (a b c : ascii) : bool :=
  (code a =? 226) && (code b =? 128) && ((code c =? 168) || (code c =? 169)).

(** The characters between the quotes: [appendString] with HTML escaping. *)
Fixpoint json_chars (s : string) (skip : nat) : string :=
  match s with
  | EmptyString => EmptyString
  | String a rest =>
      match skip with
      | S k => String a (json_chars rest k)
      | O =>
          if is_ascii a then escape_ascii a (json_chars rest 0)
          else match rune_width s with
          | O => unicode_escape "fffd" (json_chars rest 0)
          | S k =>
              match rest with
              | String b (String c rest') =>
                  if separator a b c
                  then unicode_escape "202" (String (hex_digit (N.land (code c) 15)) (json_chars rest' 0))
                  else String a (json_chars rest k)
              | _ => String a (json_chars rest k)
              end
          end
      end
  end.

Definition json_string (s : string) : string :=
  String quote (json_chars s 0 +:+ String quote EmptyString).

(** ** Values *)

Inductive json :=
| JNull
| JBool (b : bool)
| JString (s : string)
| JArray (l : list json)
| JObject (fields : list (string * json)).

Section json_print.
Variable print : json -> string.

(** Elements and fields, separated by commas, up to a closing bracket. *)
Fixpoint print_elements (l : list json) (rest : string) : string :=
  match l with
  | [] => rest
  | [j] => print j +:+ rest
  | j :: l => print j +:+ String "," (print_elements l rest)
  end.

Fixpoint print_fields (l : list (string * json)) (rest : string) : string :=
  match l with
  | [] => rest
  | [(k, j)] => json_string k +:+ String ":" (print j +:+ rest)
  | (k, j) :: l => json_string k +:+ String ":" (print j +:+ String "," (print_fields l rest))
  end.
End json_print.

(** [json.Marshal]. *)
Fixpoint json_print (j : json) : string :=
  match j with
  | JNull => "null"
  | JBool true => "true"
  | JBool false => "false"
  | JString s => json_string s
  | JArray l => String "[" (print_elements json_print l "]")
  | JObject l => String "{" (print_fields json_print l "}")
  end.

Example json_example :
  json_print (JArray [JArray [JString "a<b"; JNull]; JObject [("k", JBool true)]]) =
  String "[" (String "[" (json_string "a<b" +:+ ",null],{" +:+ json_string "k" +:+ ":true}]")).
Proof. reflexivity. Qed.

(** ** Reading a string back *)

Definition hex_value (c : ascii) : N := if code c <? 58 then code c - 48 else code c - 87.

(** The bytes of an escape of four hexadecimal digits, of those written above. *)
Definition escaped (h1 h2 h3 h4 : ascii) : string :=
  if code h1 =? 48
  then String (ascii_of_N (16 * hex_value h3 + hex_value h4)) EmptyString
  else String "226" (String "128" (String (ascii_of_N (160 + hex_value h4)) EmptyString)).

Definition simple_escape (e : ascii) : ascii :=
  if Ascii.eqb e "b" then "008"%char
  else if Ascii.eqb e "f" then "012"%char
  else if Ascii.eqb e "n" then "010"%char
  else if Ascii.eqb e "r" then "013"%char
  else if Ascii.eqb e "t" then "009"%char
  else e.

Definition push (w : string) (r : option (string * string)) : option (string * string) :=
  match r with Some (s, t) => Some (w +:+ s, t) | None => None end.

(** A string's characters up to its closing quote, and what follows. *)
Fixpoint unchars (s : string) : option (string * string) :=
  match s with
  | EmptyString => None
  | String c rest =>
      if Ascii.eqb c quote then Some (EmptyString, rest)
      else if Ascii.eqb c backslash then
        match rest with
        | String e rest =>
            if Ascii.eqb e "u" then
              match rest with
              | String h1 (String h2 (String h3 (String h4 rest))) =>
                  push (escaped h1 h2 h3 h4) (unchars rest)
              | _ => None
              end
            else push (String (simple_escape e) EmptyString) (unchars rest)
        | EmptyString => None
        end
      else push (String c EmptyString) (unchars rest)
  end.

Lemma escape_ascii_app c r t : escape_ascii c r +:+ t = escape_ascii c (r +:+ t).
Proof. unfold escape_ascii. by destruct (html_safe c), (short_escape c). Qed.

Lemma unchars_ascii c r :
  is_ascii c = true -> unchars (escape_ascii c r) = push (String c EmptyString) (unchars r).
Proof. destruct c as [[] [] [] [] [] [] [] []]; intros H; try discriminate H; reflexivity. Qed.

Lemma unchars_plain c r :
  is_ascii c = false -> unchars (String c r) = push (String c EmptyString) (unchars r).
Proof. destruct c as [[] [] [] [] [] [] [] []]; intros H; try discriminate H; reflexivity. Qed.

Lemma separator_bytes a b c :
  separator a b c = true ->
  a = "226"%char /\ b = "128"%char /\ (c = "168"%char \/ c = "169"%char).
Proof.
  unfold separator, code. intros H.
  apply andb_true_iff in H as [[Ha Hb]%andb_true_iff Hc].
  assert (forall x n, (N_of_ascii x =? n) = true -> x = ascii_of_N n) as He.
  { intros x n Hx%N.eqb_eq. rewrite <- Hx. symmetry. apply ascii_N_embedding. }
  apply He in Ha, Hb. subst. split_and!; [done..|].
  apply orb_true_iff in Hc as [Hc|Hc]; apply He in Hc; subst; auto.
Qed.

Lemma push_some w s t : push w (Some (s, t)) = Some (w +:+ s, t).
Proof. done. Qed.

Lemma unchars_copy a x y s t :
  is_ascii a = false -> unchars (x +:+ y) = Some (s, t) ->
  unchars (String a x +:+ y) = Some (String a s, t).
Proof.
  intros Ha Hx. change (String a x +:+ y) with (String a (x +:+ y)).
  by rewrite unchars_plain, Hx.
Qed.

Lemma unchars_chars n s skip t :
  (String.length s <= n)%nat -> valid_from s skip = true ->
  unchars (json_chars s skip +:+ String quote t) = Some (s, t).
Proof.
  revert s skip. induction n as [|n IH]; intros [|a rest] skip Hn Hv; simpl in Hn; try lia.
  1, 2: by destruct skip.
  simpl in Hv. destruct skip as [|k].
  - simpl. destruct (is_ascii a) eqn:Ha.
    + rewrite escape_ascii_app, unchars_ascii, IH by (lia || done). done.
    + assert (forall k, valid_from rest k = true ->
               unchars (String a (json_chars rest k) +:+ String quote t) = Some (String a rest, t)) as Hcopy.
      { intros k Hk. apply unchars_copy; [done|]. apply IH; [by apply le_S_n | done]. }
      destruct (rune_width (String a rest)) as [|k] eqn:Hw; [done|].
      destruct rest as [|b [|c rest']]; try (by apply Hcopy).
      destruct (separator a b c) eqn:Hs; [|by apply Hcopy].
      apply separator_bytes in Hs as (-> & -> & Hc).
      assert (rune_width (String "226" (String "128" (String c rest'))) = 3%nat) as Hw3
        by (by destruct Hc as [-> | ->]).
      rewrite Hw3 in Hw. injection Hw as <-. simpl in Hv.
      assert (unchars (json_chars rest' 0 +:+ String quote t) = Some (rest', t)) as Hr.
      { apply IH; [simpl in Hn; lia|]. by destruct Hc as [-> | ->]. }
      by destruct Hc as [-> | ->]; simpl; rewrite Hr.
  - apply andb_true_iff in Hv as [Ha%negb_true_iff Hv].
    apply unchars_copy; [done|]. apply IH; [by apply le_S_n | done].
Qed.

Lemma string_app_cons x (a b : string) : String x a +:+ b = String x (a +:+ b).
Proof. done. Qed.

(** A string is written so that its end can be told, whatever follows. *)
Lemma json_string_inj s1 s2 r1 r2 :
  valid_utf8 s1 = true -> valid_utf8 s2 = true ->
  json_string s1 +:+ r1 = json_string s2 +:+ r2 -> s1 = s2 /\ r1 = r2.
Proof.
  intros H1 H2. unfold json_string.
  rewrite !string_app_cons, !string_app_assoc, !string_app_cons. intros [= H].
  change (EmptyString +:+ ?r) with r in H.
  pose proof (unchars_chars _ s1 0 r1 (le_n _) H1) as E1.
  rewrite H, (unchars_chars _ s2 0 r2 (le_n _) H2) in E1. by injection E1.
Qed.

(** ** Values are told apart by what is written *)

Fixpoint valid_json (j : json) : bool :=
  match j with
  | JNull | JBool _ => true
  | JString s => valid_utf8 s
  | JArray l => forallb valid_json l
  | JObject l => forallb (fun f => valid_utf8 f.1 && valid_json f.2) l
  end.

Section json_ind.
Variable P : json -> Prop.
Hypothesis Hnull : P JNull.
Hypothesis Hbool : forall b, P (JBool b).
Hypothesis Hstring : forall s, P (JString s).
Hypothesis Harray : forall l, Forall P l -> P (JArray l).
Hypothesis Hobject : forall l, Forall (fun f => P f.2) l -> P (JObject l).

Fixpoint json_induction (j : json) : P j :=
  match j with
  | JNull => Hnull
  | JBool b => Hbool b
  | JString s => Hstring s
  | JArray l =>
      Harray l ((fix go l : Forall P l := match l with
                             | [] => @Forall_nil_2 _ P
                             | j :: l => @Forall_cons_2 _ P j l (json_induction j) (go l)
                             end) l)
  | JObject l =>
      Hobject l ((fix go l : Forall (fun f => P f.2) l := match l with
                              | [] => @Forall_nil_2 _ (fun f => P f.2)
                              | f :: l => @Forall_cons_2 _ (fun f => P f.2) f l (json_induction f.2) (go l)
                              end) l)
  end.
End json_ind.

Definition print_inj_at (j : json) : Prop :=
  forall j' r r', valid_json j = true -> valid_json j' = true ->
    json_print j +:+ r = json_print j' +:+ r' -> j = j' /\ r = r'.

(** The first character says what kind of value it is. *)
Definition first_char (s : string) : option ascii :=
  match s with String c _ => Some c | EmptyString => None end.

Lemma first_char_print j r :
  first_char (json_print j +:+ r) =
  Some (match j with
        | JNull => "n"%char
        | JBool true => "t"%char
        | JBool false => "f"%char
        | JString _ => quote
        | JArray _ => "["%char
        | JObject _ => "{"%char
        end).
Proof. by destruct j as [|[]| | |]. Qed.

(** A separator or a closing bracket begins no value. *)
Definition ends_list (c : ascii) : Prop := c = "]"%char \/ c = "}"%char.

Lemma print_elements_cons j l rest :
  print_elements json_print (j :: l) rest =
  json_print j +:+ match l with [] => rest | _ => String "," (print_elements json_print l rest) end.
Proof. by destruct l. Qed.

Lemma print_fields_cons k j l rest :
  print_fields json_print ((k, j) :: l) rest =
  json_string k +:+ String ":" (json_print j +:+
    match l with [] => rest | _ => String "," (print_fields json_print l rest) end).
Proof. by destruct l. Qed.

Lemma print_not_bracket j r r' : json_print j +:+ r <> String "]" r'.
Proof.
  intros H. apply (f_equal first_char) in H. rewrite first_char_print in H.
  by destruct j as [|[]| | |].
Qed.

Lemma print_elements_inj l :
  Forall print_inj_at l -> forall l' r r',
  forallb valid_json l = true -> forallb valid_json l' = true ->
  print_elements json_print l (String "]" r) = print_elements json_print l' (String "]" r') ->
  l = l' /\ r = r'.
Proof.
  induction 1 as [|j l Hj _ IH]; intros [|j' l'] r r' Hv Hv' He;
    rewrite ?print_elements_cons in He.
  - by injection He.
  - symmetry in He. by apply print_not_bracket in He.
  - by apply print_not_bracket in He.
  - apply andb_true_iff in Hv as [Hv1 Hv2], Hv' as [Hv1' Hv2'].
    destruct (Hj _ _ _ Hv1 Hv1' He) as [<- Hr].
    destruct l as [|x l], l' as [|x' l']; try discriminate Hr.
    + by injection Hr as <-.
    + injection Hr as Hr. by destruct (IH (x' :: l') r r' Hv2 Hv2' Hr) as [-> ->].
Qed.

Lemma print_fields_inj l :
  Forall (fun f => print_inj_at f.2) l -> forall l' r r',
  forallb (fun f => valid_utf8 f.1 && valid_json f.2) l = true ->
  forallb (fun f => valid_utf8 f.1 && valid_json f.2) l' = true ->
  print_fields json_print l (String "}" r) = print_fields json_print l' (String "}" r') ->
  l = l' /\ r = r'.
Proof.
  induction 1 as [|[k j] l Hj _ IH]; intros [|[k' j'] l'] r r' Hv Hv' He;
    rewrite ?print_fields_cons in He.
  - by injection He.
  - discriminate He.
  - discriminate He.
  - apply andb_true_iff in Hv as [[Hk Hv1]%andb_true_iff Hv2], Hv' as [[Hk' Hv1']%andb_true_iff Hv2'].
    simpl in Hk, Hk', Hv1, Hv1', Hj.
    destruct (json_string_inj k k' _ _ Hk Hk' He) as [<- Hr]. injection Hr as Hr.
    destruct (Hj _ _ _ Hv1 Hv1' Hr) as [<- Hr'].
    destruct l as [|x l], l' as [|x' l']; try discriminate Hr'.
    + by injection Hr' as <-.
    + injection Hr' as Hr'. by destruct (IH (x' :: l') r r' Hv2 Hv2' Hr') as [-> ->].
Qed.

Lemma print_elements_app l a b :
  print_elements json_print l a +:+ b = print_elements json_print l (a +:+ b).
Proof.
  induction l as [|j [|j' l] IH]; [done | by rewrite !print_elements_cons, string_app_assoc |].
  rewrite !(print_elements_cons j), string_app_assoc, string_app_cons. by rewrite IH.
Qed.

Lemma print_fields_app l a b :
  print_fields json_print l a +:+ b = print_fields json_print l (a +:+ b).
Proof.
  induction l as [|[k j] [|f l] IH]; [done | |].
  - by rewrite !print_fields_cons, string_app_assoc, string_app_cons, string_app_assoc.
  - rewrite !(print_fields_cons k), string_app_assoc, string_app_cons, string_app_assoc,
      string_app_cons. by rewrite IH.
Qed.

Lemma print_array_app l r :
  json_print (JArray l) +:+ r = String "[" (print_elements json_print l (String "]" r)).
Proof. exact (f_equal (String "[") (print_elements_app l "]" r)). Qed.

Lemma print_object_app l r :
  json_print (JObject l) +:+ r = String "{" (print_fields json_print l (String "}" r)).
Proof. exact (f_equal (String "{") (print_fields_app l "}" r)). Qed.

Lemma print_prefix_free j : print_inj_at j.
Proof.
  induction j as [|b|s|l IH|l IH] using json_induction; intros j' r r' Hv Hv' He;
    pose proof (f_equal first_char He) as Hf; rewrite !first_char_print in Hf.
  - destruct j' as [|[]| | |]; try discriminate Hf. split; [done|]. by injection He.
  - destruct b, j' as [|[]| | |]; try discriminate Hf; (split; [done|]); by injection He.
  - destruct j' as [|[]|s'| |]; try discriminate Hf.
    by destruct (json_string_inj s s' r r' Hv Hv' He) as [-> ->].
  - destruct j' as [|[]| |l'|]; try discriminate Hf. rewrite !print_array_app in He.
    injection He as He. by destruct (print_elements_inj l IH l' r r' Hv Hv' He) as [-> ->].
  - destruct j' as [|[]| | |l']; try discriminate Hf. rewrite !print_object_app in He.
    injection He as He. by destruct (print_fields_inj l IH l' r r' Hv Hv' He) as [-> ->].
Qed.

Lemma json_print_inj j j' :
  valid_json j = true -> valid_json j' = true -> json_print j = json_print j' -> j = j'.
Proof.
  intros Hv Hv' He. apply (print_prefix_free j j' EmptyString EmptyString Hv Hv').
  by rewrite !string_app_nil.
Qed.
