(* ===== verification/Compare.v ===== *)
(** * Comparing a replay with the record: [internal/conformance/compare.go]

    The data of a recorded case ([suite.go], [record.go]) and the comparison of
    the emulator's replay with it.  A Go slice whose nil and empty values can be
    told apart, because JSON writes them differently, is an optional list. *)

From Stdlib Require Import Ascii String.
From stdpp Require Import base numbers strings list gmap sorting.
From S2P Require Import Prelude GoStd Json.

Local Open Scope Z_scope.

Abbreviation slice A := (option (list A)).

Definition elems {A} (s : slice A) : list A := default [] s.

(** ** Cases and observations *)

(** [Case] in [suite.go]. *)
Record Case := mkCase {
  Name : string;
  Group : string;
  Note : string;
  Steps : slice string;
  IgnoreRows : bool;
  KnownGap : string;
  Sessions : list (list string);
  RecordOnly : bool;
  SimpleProtocol : bool;
  ConflictRace : bool;
}.

(** What one statement answered: [Result] in [record.go]. *)
Record Answer := mkAnswer {
  CommandTag : string;
  Columns : slice string;
  Rows : slice (slice string);
}.

(** [Observation]; the fields it has in common with a result are [Own]. *)
Record Observation := mkObs {
  Outcome : string;
  SQLState : string;
  Message : string;
  Own : Answer;
  Results : list Answer;
}.

Record RecordedCase := mkRecorded {
  RCase : Case;
  Observations : list Observation;
  SessionResults : list (slice Observation);
}.

(** [Golden]; an instant is counted from the zero time. *)
Record Record_ := mkRecord {
  RecordedAt : Z;
  Target : string;
  ServerVersion : string;
  SuiteName : string;
  Cases : list RecordedCase;
}.

Record Difference := mkDiff {
  DCase : string;
  DSession : nat;
  DSteps : list string;
  DStep : nat;
  Field : string;
  Golden : string;
  Emulator : string;
  Advisory : bool;
  DKnownGap : string;
}.

(** ** Comparing one step *)

(** [isRowCountTag]. *)
Definition isRowCountTag (tag : string) : bool :=
  match cut_prefix tag "SELECT " with
  | None | Some EmptyString => false
  | Some rest => bool_decide (is_Some (atoi rest))
  end.

Definition strings_json (l : slice string) : json :=
  match l with None => JNull | Some l => JArray (map JString l) end.

Definition rows_json (r : slice (slice string)) : json :=
  match r with None => JNull | Some l => JArray (map strings_json l) end.

Definition rows (r : slice (slice string)) : string := json_print (rows_json r).
Definition join_json (s : slice string) : string := json_print (strings_json s).

(** [equalStrings]: the same length and the same element at every index. *)
Fixpoint equal_elements (a b : list string) : bool :=
  match a, b with
  | [], [] => true
  | x :: a, y :: b => String.eqb x y && equal_elements a b
  | _, _ => false
  end.

Definition equalStrings (a b : slice string) : bool := equal_elements (elems a) (elems b).

Definition is_error (o : Observation) : bool := String.eqb (Outcome o) "error".

Definition brief (o : Observation) : string :=
  if is_error o then "error " +:+ SQLState o +:+ " " +:+ Message o
  else "ok " +:+ CommandTag (Own o).

(** A difference before it is placed: field, the two values, and whether it is
    advisory. *)
Definition finding : Type := string * string * string * bool.

Section step.
Variable ignoreRows : bool.

(** A SELECT tag carries the row count, so when the rows are ignored the tag that
    counts them is too. *)
Definition tag_differs (w g : string) : bool :=
  negb (String.eqb w g) && negb (ignoreRows && isRowCountTag w).

Definition compareAnswer (field : string -> string) (w g : Answer) : list finding :=
  (if tag_differs (CommandTag w) (CommandTag g)
   then [(field "command_tag", CommandTag w, CommandTag g, false)] else []) ++
  (if equalStrings (Columns w) (Columns g) then []
   else [(field "columns", join_json (Columns w), join_json (Columns g), false)]) ++
  (if negb ignoreRows && negb (String.eqb (rows (Rows w)) (rows (Rows g)))
   then [(field "rows", rows (Rows w), rows (Rows g), false)] else []).

Definition result_field (n : nat) (name : string) : string :=
  "result " +:+ itoa (Z.of_nat n) +:+ " " +:+ name.

Definition compareStep (w g : Observation) : list finding :=
  if negb (String.eqb (Outcome w) (Outcome g)) then
    [("outcome", Outcome w, Outcome g, false); ("detail", brief w, brief g, true)]
  else if is_error w then
    (if negb (String.eqb (SQLState w) "") && negb (String.eqb (SQLState w) (SQLState g))
     then [("sqlstate", SQLState w, SQLState g, false)] else []) ++
    (if String.eqb (Message w) (Message g) then []
     else [("message", Message w, Message g, true)])
  else
    compareAnswer (fun name => name) (Own w) (Own g) ++
    if negb (Nat.eqb (length (Results w)) (length (Results g))) then
      [("result_count", itoa (Z.of_nat (length (Results w))),
        itoa (Z.of_nat (length (Results g))), false)]
    else concat (imap (fun n p => compareAnswer (result_field n) p.1 p.2)
                   (zip (Results w) (Results g))).
End step.

(** ** Comparing a case *)

Section compare.
Variables golden emulated : RecordedCase.

Definition place (session : nat) (steps : list string) (i : nat) (f : finding) : Difference :=
  let '(field, w, g, advisory) := f in
  mkDiff (Name (RCase golden)) session steps i field w g advisory (KnownGap (RCase emulated)).

Definition compareObservations (session : nat) (steps : list string)
    (want got : list Observation) : list Difference :=
  if negb (Nat.eqb (length want) (length got)) then
    [place session steps 0 ("step_count", itoa (Z.of_nat (length want)),
                            itoa (Z.of_nat (length got)), false)]
  else concat (imap (fun i p =>
         map (place session steps i) (compareStep (IgnoreRows (RCase emulated)) p.1 p.2))
         (zip want got)).

Definition session_steps (i : nat) : list string := default [] (Sessions (RCase emulated) !! i).

Definition session_pairs : list (list Observation * list Observation) :=
  zip (map elems (SessionResults golden)) (map elems (SessionResults emulated)).

Definition without_last {A} (l : list A) : list A := take (length l - 1) l.

(** The sessions of a race up to their last steps. *)
Definition race_session (i : nat) (p : list Observation * list Observation) : list Difference :=
  let '(want, got) := p in
  if negb (Nat.eqb (length want) (length got)) || Nat.eqb (length want) 0
  then compareObservations i (session_steps i) want got
  else compareObservations i (session_steps i) (without_last want) (without_last got).

(** The last steps that failed, of the sessions that answered every step. *)
Definition lost (side : list Observation * list Observation -> list Observation)
    (p : list Observation * list Observation) : list Observation :=
  let '(want, got) := p in
  if negb (Nat.eqb (length want) (length got)) || Nat.eqb (length want) 0 then []
  else match last (side p) with
       | Some o => if is_error o then [o] else []
       | None => []
       end.

Definition goldenLost : list Observation := concat (map (lost fst) session_pairs).
Definition emulatedLost : list Observation := concat (map (lost snd) session_pairs).

Definition race_difference (field w g : string) : Difference :=
  mkDiff (Name (RCase golden)) 0 [] 0 field w g false (KnownGap (RCase emulated)).

Definition compareConflictRace : list Difference :=
  concat (imap race_session session_pairs) ++
  if negb (Nat.eqb (length goldenLost) (length emulatedLost)) then
    [race_difference "conflict_losers" (itoa (Z.of_nat (length goldenLost)))
       (itoa (Z.of_nat (length emulatedLost)))]
  else concat (map (fun p => if String.eqb (SQLState p.1) (SQLState p.2) then []
                             else [race_difference "sqlstate" (SQLState p.1) (SQLState p.2)])
                 (zip goldenLost emulatedLost)).

Definition session_count_differs : bool :=
  negb (Nat.eqb (length (SessionResults golden)) (length (SessionResults emulated))).

Definition compareSessions : list Difference :=
  if session_count_differs then
    [mkDiff (Name (RCase golden)) 0 [] 0 "session_count"
       (itoa (Z.of_nat (length (SessionResults golden))))
       (itoa (Z.of_nat (length (SessionResults emulated)))) false EmptyString]
  else if ConflictRace (RCase emulated) || ConflictRace (RCase golden) then compareConflictRace
  else concat (imap (fun i p => compareObservations i (session_steps i) p.1 p.2) session_pairs).

Definition has_sessions : bool :=
  Nat.ltb 0 (length (SessionResults golden)) || Nat.ltb 0 (length (SessionResults emulated)).

Definition Compare : list Difference :=
  if has_sessions then compareSessions
  else compareObservations 0 (elems (Steps (RCase emulated))) (Observations golden)
         (Observations emulated).

End compare.

(** ** Comparing suites *)

(** The case an index by name finds: of several the last, as when each is stored
    over the one before. *)
Definition index_cases (cases : list RecordedCase) : gmap string RecordedCase :=
  foldl (fun m c => <[Name (RCase c) := c]> m) ∅ cases.

Definition compare_want (index : gmap string RecordedCase) (want : RecordedCase) : list Difference :=
  match index !! Name (RCase want) with
  | None => if RecordOnly (RCase want) then []
            else [mkDiff (Name (RCase want)) 0 [] 0 "missing" "present" "absent" false EmptyString]
  | Some got => Compare want got
  end.

Definition CompareSuites (golden emulated : Record_) : list Difference :=
  concat (map (compare_want (index_cases (Cases emulated))) (Cases golden)).

(** [sort.Strings]. *)
Definition sort_strings : list string -> list string := merge_sort String.le.

Definition Unrecorded (golden emulated : Record_) : list string :=
  let recorded : gset string := list_to_set (map (fun c => Name (RCase c)) (Cases golden)) in
  sort_strings (List.filter (fun n => negb (bool_decide (n ∈ recorded)))
                  (map (fun c => Name (RCase c)) (Cases emulated))).

Definition fails (d : Difference) : bool := negb (Advisory d) && String.eqb (DKnownGap d) "".

Definition Failures (diffs : list Difference) : list Difference := List.filter fails diffs.

(** ** What agreement is *)

(** A tag that only counts rows: SELECT and a number. *)
Definition counts_only (tag : string) : Prop :=
  exists rest n, tag = "SELECT " +:+ rest /\ atoi rest = Some n.

(** An answer agrees when its tag, its columns and its rows do; under
    [IgnoreRows] the rows do not count, nor a tag that only counts them. *)
Definition answer_agrees (ignoreRows : bool) (w g : Answer) : Prop :=
  (CommandTag w = CommandTag g \/ ignoreRows = true /\ counts_only (CommandTag w)) /\
  elems (Columns w) = elems (Columns g) /\
  (ignoreRows = true \/ rows (Rows w) = rows (Rows g)).

(** A step agrees when the outcome does and, of an error, the SQLSTATE if one was
    recorded; of a success, its answers, one by one. *)
Definition step_agrees (ignoreRows : bool) (w g : Observation) : Prop :=
  Outcome w = Outcome g /\
  if decide (Outcome w = "error") then SQLState w = EmptyString \/ SQLState w = SQLState g
  else answer_agrees ignoreRows (Own w) (Own g) /\
       Forall2 (answer_agrees ignoreRows) (Results w) (Results g).

Definition steps_agree (ignoreRows : bool) : list Observation -> list Observation -> Prop :=
  Forall2 (step_agrees ignoreRows).

(** A session of a race agrees up to its last step. *)
Definition race_session_agrees (ignoreRows : bool) (w g : list Observation) : Prop :=
  length w = length g /\ steps_agree ignoreRows (removelast w) (removelast g).

(** The SQLSTATE a session lost with: its last step failed. *)
Definition lost_with (session : list Observation) : option string :=
  match last session with
  | Some o => if decide (Outcome o = "error") then Some (SQLState o) else None
  | None => None
  end.

Definition race_agrees (ignoreRows : bool) (w g : list (list Observation)) : Prop :=
  Forall2 (race_session_agrees ignoreRows) w g /\ omap lost_with w = omap lost_with g.

Definition sessions_of (c : RecordedCase) : list (list Observation) := map elems (SessionResults c).

Definition case_agrees (golden emulated : RecordedCase) : Prop :=
  let ig := IgnoreRows (RCase emulated) in
  match sessions_of golden, sessions_of emulated with
  | [], [] => steps_agree ig (Observations golden) (Observations emulated)
  | w, g =>
      if ConflictRace (RCase golden) || ConflictRace (RCase emulated)
      then race_agrees ig w g else Forall2 (steps_agree ig) w g
  end.

(** ** Lemmas *)

Lemma Forall_concat_imap {A B} (P : B -> Prop) (f : nat -> A -> list B) (l : list A) :
  Forall P (concat (imap f l)) <-> forall i x, l !! i = Some x -> Forall P (f i x).
Proof.
  revert f. induction l as [|a l IH]; intros f; simpl.
  - split; [intros _ i x Hx; by rewrite lookup_nil in Hx | by constructor].
  - rewrite Forall_app, (IH (f ∘ S)). split.
    + intros [H0 HS] [|i] x Hx; simpl in Hx; [by simplify_eq | by apply HS].
    + intros H. split; [by apply (H 0%nat) | intros i x Hx; by apply (H (S i))].
Qed.

Lemma Forall_concat_map {A B} (P : B -> Prop) (f : A -> list B) (l : list A) :
  Forall P (concat (map f l)) <-> Forall (fun x => Forall P (f x)) l.
Proof.
  induction l as [|a l IH]; simpl; [by split; constructor|].
  by rewrite Forall_app, Forall_cons, IH.
Qed.

Lemma Forall2_zip {A B} (P : A -> B -> Prop) (l : list A) (k : list B) :
  length l = length k ->
  (Forall2 P l k <-> forall i p, zip l k !! i = Some p -> P p.1 p.2).
Proof.
  revert k. induction l as [|a l IH]; intros [|b k] Hlen; try discriminate Hlen; simpl.
  - split; [intros _ i p Hp; by rewrite lookup_nil in Hp | by constructor].
  - rewrite Forall2_cons, IH by (by injection Hlen). split.
    + intros [H0 HS] [|i] p Hp; simpl in Hp; [by simplify_eq | by eapply HS].
    + intros H. split; [by apply (H 0%nat (a, b)) | intros i p Hp; by apply (H (S i))].
Qed.

Lemma Failures_nil d : Failures d = [] <-> Forall (fun x => fails x = false) d.
Proof.
  unfold Failures. induction d as [|x d IH]; simpl; [by split; constructor|].
  rewrite Forall_cons, <- IH. destruct (fails x); split; naive_solver.
Qed.

Lemma prefix_app p : forall s, String.prefix p s = true ->
  s = p +:+ String.substring (String.length p) (String.length s - String.length p) s.
Proof.
  induction p as [|c p IH]; intros s H.
  - change (s = String.substring 0 (String.length s - 0) s). rewrite Nat.sub_0_r. clear H.
    induction s as [|c s IH]; [done|]. simpl. by rewrite <- IH.
  - destruct s as [|c' s]; [discriminate H|]. simpl in H. destruct (ascii_dec c c') as [->|]; [|discriminate H].
    exact (f_equal (String c') (IH s H)).
Qed.

Lemma cut_prefix_spec s p rest : cut_prefix s p = Some rest <-> s = p +:+ rest.
Proof.
  unfold cut_prefix. split.
  - destruct (String.prefix p s) eqn:E; [|done]. intros [= <-]. by apply prefix_app.
  - intros ->. assert (String.prefix p (p +:+ rest) = true) as E.
    { induction p as [|c p IH]; [by destruct rest|]. simpl. by destruct (ascii_dec c c). }
    rewrite E. f_equal. apply prefix_app in E. by apply (inj (String.append p)) in E.
Qed.

Lemma isRowCountTag_spec tag : isRowCountTag tag = true <-> counts_only tag.
Proof.
  unfold isRowCountTag, counts_only. destruct (cut_prefix tag "SELECT ") as [rest|] eqn:E.
  - apply cut_prefix_spec in E as ->. split.
    + destruct rest as [|c rest]; [done|]. intros [n Hn]%bool_decide_eq_true. by eexists _, n.
    + intros (rest' & n & H & Hn). apply (inj (String.append "SELECT ")) in H as <-.
      destruct rest; [done|]. apply bool_decide_eq_true. by exists n.
  - split; [done|]. intros (rest & n & H & _). apply cut_prefix_spec in H. congruence.
Qed.

Lemma is_error_spec o : is_error o = bool_decide (Outcome o = "error").
Proof. unfold is_error. case_bool_decide as H; [by apply String.eqb_eq | by apply String.eqb_neq]. Qed.

Lemma if_error {A} o (a b : A) :
  (if is_error o then a else b) = if decide (Outcome o = "error") then a else b.
Proof. rewrite is_error_spec. by rewrite decide_bool_decide. Qed.

Lemma without_last_removelast {A} (l : list A) : without_last l = removelast l.
Proof.
  unfold without_last. induction l as [|x l IH]; [done|]. destruct l as [|y l]; [done|].
  change (x :: take (length l) (y :: l) = x :: removelast (y :: l)). rewrite <- IH.
  simpl. by rewrite Nat.sub_0_r.
Qed.

(** Findings none of which is enforced. *)
Definition quiet (fs : list finding) : Prop := Forall (fun f => f.2 = true) fs.

Lemma equal_elements_true a b : equal_elements a b = true <-> a = b.
Proof.
  revert b. induction a as [|x a IH]; intros [|y b]; simpl; try (by split).
  rewrite andb_true_iff, String.eqb_eq, IH. naive_solver.
Qed.

Lemma equalStrings_true a b : equalStrings a b = true <-> elems a = elems b.
Proof. apply equal_elements_true. Qed.

(** A finding that is there exactly when a test fails. *)
Lemma quiet_if (b : bool) (f : finding) :
  f.2 = false -> (quiet (if b then [f] else []) <-> b = false).
Proof.
  intros Hf. unfold quiet. destruct b; [|by split; [|constructor]].
  rewrite Forall_singleton, Hf. by split.
Qed.

Lemma quiet_if_not (b : bool) (f : finding) :
  f.2 = false -> (quiet (if b then [] else [f]) <-> b = true).
Proof.
  intros Hf. unfold quiet. destruct b; [by split; [|constructor]|].
  rewrite Forall_singleton, Hf. by split.
Qed.

Lemma quiet_app a b : quiet (a ++ b) <-> quiet a /\ quiet b.
Proof. apply Forall_app. Qed.

Lemma compareAnswer_quiet ig field w g :
  quiet (compareAnswer ig field w g) <-> answer_agrees ig w g.
Proof.
  unfold compareAnswer, answer_agrees, tag_differs.
  rewrite !quiet_app, !quiet_if, quiet_if_not, equalStrings_true by done.
  rewrite !andb_false_iff, !negb_false_iff, andb_true_iff, !String.eqb_eq, isRowCountTag_spec. tauto.
Qed.

Lemma compareStep_quiet ig w g : quiet (compareStep ig w g) <-> step_agrees ig w g.
Proof.
  unfold compareStep, step_agrees. rewrite <- (if_error w).
  destruct (String.eqb_spec (Outcome w) (Outcome g)) as [He|Hne]; simpl.
  2: { unfold quiet. rewrite !Forall_cons. simpl. naive_solver. }
  destruct (is_error w).
  - rewrite quiet_app, quiet_if by done.
    rewrite andb_false_iff, !negb_false_iff, !String.eqb_eq.
    destruct (String.eqb (Message w) (Message g)); unfold quiet;
      rewrite ?Forall_singleton, ?Forall_nil; naive_solver.
  - rewrite quiet_app, compareAnswer_quiet.
    destruct (Nat.eqb_spec (length (Results w)) (length (Results g))) as [Hlen|Hlen]; simpl.
    + unfold quiet at 1. rewrite Forall_concat_imap, Forall2_zip by done.
      split; [intros [H1 H2] | intros (_ & H1 & H2)]; split_and!; try done; intros n p Hp;
        apply (compareAnswer_quiet ig (result_field n)); by apply (H2 n p).
    + split; [intros [_ H] | intros (_ & _ & H%Forall2_length); done].
      unfold quiet in H. by rewrite Forall_singleton in H.
Qed.

Section case_lemmas.
Variables golden emulated : RecordedCase.
Abbreviation ig := (IgnoreRows (RCase emulated)).

Lemma fails_place session steps i f :
  KnownGap (RCase emulated) = EmptyString ->
  fails (place golden emulated session steps i f) = negb f.2.
Proof. intros Hk. destruct f as [[[? ?] ?] ?]. unfold fails. simpl. by rewrite Hk, andb_true_r. Qed.

Lemma compareObservations_exact session steps want got :
  KnownGap (RCase emulated) = EmptyString ->
  Failures (compareObservations golden emulated session steps want got) = [] <->
  steps_agree ig want got.
Proof.
  intros Hk. rewrite Failures_nil. unfold compareObservations, steps_agree.
  destruct (Nat.eqb_spec (length want) (length got)) as [Hlen|Hlen]; simpl.
  - rewrite Forall_concat_imap, Forall2_zip by done.
    assert (forall i p, Forall (fun d => fails d = false)
              (map (place golden emulated session steps i) (compareStep ig p.1 p.2)) <->
            step_agrees ig p.1 p.2) as Hstep.
    { intros i p. rewrite <- compareStep_quiet. unfold quiet. rewrite Forall_map.
      apply Forall_iff. intros f. simpl. rewrite fails_place by done. apply negb_false_iff. }
    by setoid_rewrite Hstep.
  - rewrite Forall_singleton. split; [|intros H%Forall2_length; done].
    unfold fails. simpl. by rewrite Hk.
Qed.

Lemma race_session_exact i p :
  KnownGap (RCase emulated) = EmptyString ->
  Failures (race_session golden emulated i p) = [] <-> race_session_agrees ig p.1 p.2.
Proof.
  intros Hk. destruct p as [want got]. unfold race_session, race_session_agrees. simpl.
  rewrite <- !without_last_removelast.
  destruct (Nat.eqb_spec (length want) (length got)) as [Hlen|Hlen]; simpl.
  - destruct (Nat.eqb_spec (length want) 0) as [H0|H0]; rewrite compareObservations_exact by done.
    + destruct want, got; try discriminate; simpl. unfold steps_agree. naive_solver.
    + tauto.
  - rewrite compareObservations_exact by done. split; [|tauto]. by intros H%Forall2_length.
Qed.

Lemma lost_differences_exact a b :
  KnownGap (RCase emulated) = EmptyString -> length a = length b ->
  Forall (fun d => fails d = false)
    (concat (map (fun p => if String.eqb (SQLState p.1) (SQLState p.2) then []
                           else [race_difference golden emulated "sqlstate" (SQLState p.1) (SQLState p.2)])
               (zip a b))) <->
  map SQLState a = map SQLState b.
Proof.
  intros Hk. revert b. induction a as [|x a IH]; intros [|y b] Hlen; try discriminate Hlen; simpl;
    [by split|].
  rewrite Forall_app, IH by (by injection Hlen).
  destruct (String.eqb_spec (SQLState x) (SQLState y)) as [->|Hne].
  - split; [by intros [_ ->] | intros [= ->]; by split].
  - rewrite Forall_singleton. unfold fails. simpl. rewrite Hk. split; [by intros [] | by intros [= ? ?]].
Qed.

(** What the code collects of a session is the SQLSTATE it lost with. *)
Lemma lost_state (side : list Observation * list Observation -> list Observation) p :
  length p.1 = length p.2 -> side p = p.1 \/ side p = p.2 ->
  map SQLState (lost side p) = match lost_with (side p) with Some st => [st] | None => [] end.
Proof.
  destruct p as [want got]. unfold lost, lost_with. simpl. intros Hlen Hside.
  rewrite Hlen, Nat.eqb_refl. simpl. destruct (Nat.eqb_spec (length got) 0) as [H0|H0].
  - assert (side (want, got) = []) as ->; [|done].
    destruct want, got; try discriminate; by destruct Hside.
  - destruct (last (side (want, got))) as [o|]; [|done]. rewrite if_error. by case_decide.
Qed.

Lemma lost_states (w g : list (list Observation)) :
  Forall2 (fun a b => length a = length b) w g ->
  map SQLState (concat (map (lost fst) (zip w g))) = omap lost_with w /\
  map SQLState (concat (map (lost snd) (zip w g))) = omap lost_with g.
Proof.
  induction 1 as [|a b w g Hab _ [IH1 IH2]]; [done|]. cbn -[lost lost_with]. rewrite !map_app, IH1, IH2.
  rewrite (lost_state fst (a, b)), (lost_state snd (a, b)) by auto. simpl.
  by destruct (lost_with a), (lost_with b).
Qed.

Lemma compareConflictRace_exact :
  KnownGap (RCase emulated) = EmptyString ->
  length (SessionResults golden) = length (SessionResults emulated) ->
  Failures (compareConflictRace golden emulated) = [] <->
  race_agrees ig (sessions_of golden) (sessions_of emulated).
Proof.
  intros Hk Hlen. rewrite Failures_nil. unfold compareConflictRace.
  rewrite Forall_app, Forall_concat_imap. setoid_rewrite <- Failures_nil.
  setoid_rewrite race_session_exact; [|done].
  unfold race_agrees. rewrite (Forall2_zip (race_session_agrees ig)) by (unfold sessions_of; by rewrite !length_map).
  assert (forall P Q R : Prop, (P -> Q <-> R) -> P /\ Q <-> P /\ R) as Hand by tauto.
  apply Hand. clear Hand. intros Hs.
  destruct (lost_states (sessions_of golden) (sessions_of emulated)) as [<- <-].
  { apply Forall2_zip; [unfold sessions_of; by rewrite !length_map|].
    intros i p Hp. by destruct (Hs i p Hp). }
  unfold sessions_of. fold (session_pairs golden emulated).
  fold (goldenLost golden emulated). fold (emulatedLost golden emulated).
  destruct (Nat.eqb_spec (length (goldenLost golden emulated)) (length (emulatedLost golden emulated)))
    as [Hl|Hl]; simpl.
  - by rewrite Failures_nil, lost_differences_exact.
  - unfold fails. simpl. rewrite Hk. simpl. split; [done|].
    intros H%(f_equal length). by rewrite !length_map in H.
Qed.

Lemma session_count_equal :
  session_count_differs golden emulated = false <->
  length (SessionResults golden) = length (SessionResults emulated).
Proof. unfold session_count_differs. by rewrite negb_false_iff, Nat.eqb_eq. Qed.

(** Without sessions on either side the steps are compared; otherwise the numbers
    of sessions must agree. *)
Lemma sessions_cases (P R : Prop) (Q : list (list Observation) -> list (list Observation) -> Prop) :
  (sessions_of golden = [] /\ sessions_of emulated = [] -> R <-> P) ->
  (has_sessions golden emulated = true -> R <-> Q (sessions_of golden) (sessions_of emulated)) ->
  R <-> match sessions_of golden, sessions_of emulated with [], [] => P | w, g => Q w g end.
Proof.
  unfold has_sessions, sessions_of. intros H0 H1.
  destruct (SessionResults golden) as [|s l] eqn:E1, (SessionResults emulated) as [|s' l'] eqn:E2; simpl in *;
    auto; apply H1; by rewrite ?orb_true_r.
Qed.

Lemma Compare_agrees :
  KnownGap (RCase emulated) = EmptyString ->
  Failures (Compare golden emulated) = [] <-> case_agrees golden emulated.
Proof.
  intros Hk. unfold case_agrees.
  apply (sessions_cases _ _ (fun w g => if ConflictRace (RCase golden) || ConflictRace (RCase emulated)
                                        then race_agrees ig w g else Forall2 (steps_agree ig) w g)).
  - intros [H1%map_eq_nil H2%map_eq_nil]. unfold Compare, has_sessions. rewrite H1, H2. simpl.
    by apply compareObservations_exact.
  - intros Hs. unfold Compare. rewrite Hs. unfold compareSessions.
    destruct (session_count_differs golden emulated) eqn:Hd.
    + assert (length (sessions_of golden) <> length (sessions_of emulated)) as Hne.
      { unfold sessions_of. rewrite !length_map. intros H%session_count_equal. congruence. }
      split; [done|]. destruct (ConflictRace _ || ConflictRace _).
      * by intros [H%Forall2_length _].
      * by intros H%Forall2_length.
    + apply session_count_equal in Hd. rewrite orb_comm.
      destruct (ConflictRace (RCase golden) || ConflictRace (RCase emulated)).
      * by apply compareConflictRace_exact.
      * rewrite Failures_nil, Forall_concat_imap.
        rewrite Forall2_zip by (unfold sessions_of; by rewrite !length_map).
        setoid_rewrite <- Failures_nil. setoid_rewrite compareObservations_exact; [|done]. done.
Qed.

(** Nothing is enforced of a known gap but the number of its sessions. *)
Lemma known_gap_quiet f session steps i :
  KnownGap (RCase emulated) <> EmptyString ->
  fails (place golden emulated session steps i f) = false.
Proof.
  intros Hk%String.eqb_neq. destruct f as [[[? ?] ?] ?]. unfold fails. simpl.
  by rewrite Hk, andb_false_r.
Qed.

Lemma known_gap_observations session steps want got :
  KnownGap (RCase emulated) <> EmptyString ->
  Failures (compareObservations golden emulated session steps want got) = [].
Proof.
  intros Hk. apply Failures_nil. unfold compareObservations.
  destruct (negb _); [by repeat constructor; apply known_gap_quiet|].
  apply Forall_concat_imap. intros i p _. apply Forall_map, Forall_true.
  intros f. by apply known_gap_quiet.
Qed.

Lemma race_difference_quiet field w g :
  KnownGap (RCase emulated) <> EmptyString ->
  fails (race_difference golden emulated field w g) = false.
Proof. intros Hk%String.eqb_neq. unfold fails. simpl. by rewrite Hk. Qed.

Lemma Compare_known_gap :
  KnownGap (RCase emulated) <> EmptyString ->
  Failures (Compare golden emulated) = [] <->
  length (SessionResults golden) = length (SessionResults emulated).
Proof.
  intros Hk. rewrite <- session_count_equal. unfold Compare, compareSessions.
  destruct (has_sessions golden emulated) eqn:Hs.
  - destruct (session_count_differs golden emulated); [by split|]. split; [done | intros _].
    destruct (ConflictRace _ || ConflictRace _).
    + apply Failures_nil. unfold compareConflictRace. apply Forall_app. split.
      * apply Forall_concat_imap. intros i p _. apply Failures_nil.
        unfold race_session. destruct p. destruct (_ || _); by apply known_gap_observations.
      * destruct (negb _); [by repeat constructor; apply race_difference_quiet|].
        apply Forall_concat_map, Forall_true. intros p.
        destruct (String.eqb _ _); repeat constructor. by apply race_difference_quiet.
    + apply Failures_nil, Forall_concat_imap. intros i p _. apply Failures_nil.
      by apply known_gap_observations.
  - rewrite known_gap_observations by done. split; [intros _|done].
    apply session_count_equal. unfold has_sessions in Hs.
    apply orb_false_iff in Hs as [H1%Nat.ltb_ge H2%Nat.ltb_ge]. lia.
Qed.

End case_lemmas.

(** ** The theorems *)

(** Whether a case passes. *)
Definition case_passes (golden emulated : RecordedCase) : Prop :=
  if String.eqb (KnownGap (RCase emulated)) ""
  then case_agrees golden emulated
  else length (SessionResults golden) = length (SessionResults emulated).

Lemma Compare_passes golden emulated :
  Failures (Compare golden emulated) = [] <-> case_passes golden emulated.
Proof.
  unfold case_passes. destruct (String.eqb_spec (KnownGap (RCase emulated)) "").
  - by apply Compare_agrees.
  - by apply Compare_known_gap.
Qed.

(** C35: A case fails exactly when the replay disagrees with the record: the
    outcomes, the SQLSTATE of an error where one was recorded, the tag, columns
    and rows of every answer of a success, waiving under [IgnoreRows] the rows and
    a tag that only counts them; of a race, every step but each session's last,
    and that the sessions that lost, those whose last step failed, lost with the
    same SQLSTATEs in the order of the sessions.  Of a known gap the code enforces
    the number of its sessions and nothing else (the comments in suite.go and at
    [Failures] say it enforces nothing). *)
Theorem Compare_exact golden emulated :
  Failures (Compare golden emulated) = [] <-> case_passes golden emulated.
Proof. apply Compare_passes. Qed.

(** *** The text of rows *)

Definition valid_strings (l : slice string) : Prop := Forall (fun s => valid_utf8 s = true) (elems l).
Definition valid_rows (r : slice (slice string)) : Prop := Forall valid_strings (elems r).

Lemma valid_map {A} (f : A -> json) l :
  Forall (fun x => valid_json (f x) = true) l -> forallb valid_json (map f l) = true.
Proof. induction 1 as [|x l Hx _ IH]; simpl; [done | by rewrite Hx, IH]. Qed.

Lemma valid_strings_json l : valid_strings l -> valid_json (strings_json l) = true.
Proof. destruct l as [l|]; [|done]. intros H. by apply (valid_map JString). Qed.

Lemma valid_rows_json r : valid_rows r -> valid_json (rows_json r) = true.
Proof.
  destruct r as [l|]; [|done]. intros H. apply (valid_map strings_json).
  eapply Forall_impl; [exact H|]. apply valid_strings_json.
Qed.

Lemma strings_json_inj a b : strings_json a = strings_json b -> a = b.
Proof.
  destruct a as [a|], b as [b|]; intros H; simplify_eq/=; try done.
  f_equal. revert b H. induction a as [|x a IH]; intros [|y b] H; simplify_eq/=; [done|].
  f_equal. by apply IH.
Qed.

Lemma rows_json_inj a b : rows_json a = rows_json b -> a = b.
Proof.
  destruct a as [a|], b as [b|]; intros H; simplify_eq/=; try done.
  f_equal. revert b H. induction a as [|x a IH]; intros [|y b] H; simplify_eq/=; [done|].
  f_equal; [by apply strings_json_inj | by apply IH].
Qed.

(** Rows are compared as the JSON they are written as, and for text in UTF-8
    that is comparing the rows, a nil row set being told from an empty one. *)
Theorem rows_exact a b :
  valid_rows a -> valid_rows b -> (rows a = rows b <-> a = b).
Proof.
  intros Ha Hb. split; [|by intros ->]. intros He.
  apply rows_json_inj, json_print_inj; auto using valid_rows_json.
Qed.

(** *** Suites *)

Definition names (r : Record_) : list string := map (fun c => Name (RCase c)) (Cases r).

Lemma index_cases_lookup cases (m : gmap string RecordedCase) n c :
  NoDup (map (fun c => Name (RCase c)) cases) ->
  ((foldl (fun m c => <[Name (RCase c) := c]> m) m cases) !! n = Some c <->
   (c ∈ cases /\ Name (RCase c) = n) \/
   (~ (n ∈ map (fun c => Name (RCase c)) cases) /\ m !! n = Some c)).
Proof.
  revert m. induction cases as [|x cases IH]; intros m Hnd; simpl in *.
  - split; [intros H; right; split; [by apply not_elem_of_nil | done]|].
    intros [[H _]|[_ H]]; [by apply not_elem_of_nil in H | done].
  - apply NoDup_cons in Hnd as [Hx Hnd]. rewrite IH by done.
    rewrite lookup_insert_Some, !elem_of_cons.
    split.
    + intros [[? ?]|[Hn [[<- ->]|[Hne Hm]]]]; [left; auto | left; auto |].
      right. split; [|done]. by intros [?|?].
    + intros [[[->|Hc] <-]|[Hn Hm]]; [right; auto | left; auto |].
      right. split; [by intros ?; apply Hn; right|]. right. split; [|done].
      intros Heq. apply Hn. by left.
Qed.

Lemma Unrecorded_permutation golden emulated :
  Unrecorded golden emulated ≡ₚ
  List.filter (fun n => negb (bool_decide (n ∈ (list_to_set (names golden) : gset string)))) (names emulated).
Proof. apply merge_sort_Permutation. Qed.

Lemma index_lookup (r : Record_) n c :
  NoDup (names r) ->
  index_cases (Cases r) !! n = Some c <-> c ∈ Cases r /\ Name (RCase c) = n.
Proof.
  intros Hnd. unfold index_cases. rewrite index_cases_lookup by done.
  rewrite lookup_empty. naive_solver.
Qed.

Lemma compare_want_exact emulated want :
  NoDup (names emulated) ->
  Failures (compare_want (index_cases (Cases emulated)) want) = [] <->
  (exists got, got ∈ Cases emulated /\ Name (RCase got) = Name (RCase want) /\ case_passes want got) \/
  (~ (Name (RCase want) ∈ names emulated) /\ RecordOnly (RCase want) = true).
Proof.
  intros Hnd. unfold compare_want.
  destruct (index_cases (Cases emulated) !! Name (RCase want)) as [got|] eqn:E.
  - rewrite Compare_passes. pose proof E as E'. apply index_lookup in E' as [Hin Hn]; [|done].
    split; [left; by exists got|]. intros [(got' & Hin' & Hn' & Hp)|[Hnot _]].
    + pose proof (proj2 (index_lookup emulated _ got' Hnd) (conj Hin' Hn')). congruence.
    + destruct Hnot. rewrite <- Hn. by apply (list_elem_of_fmap_2 (fun c => Name (RCase c))).
  - assert (forall got, got ∈ Cases emulated -> Name (RCase got) <> Name (RCase want)) as Hno.
    { intros got Hin Hn. pose proof (proj2 (index_lookup emulated _ got Hnd) (conj Hin Hn)).
      congruence. }
    transitivity (RecordOnly (RCase want) = true); [by destruct (RecordOnly (RCase want))|].
    split.
    + right. split; [|done]. intros (got & Hn & Hin)%list_elem_of_fmap. by apply (Hno got).
    + intros [(got & Hin & Hn & _)|[_ ?]]; [by destruct (Hno got) | done].
Qed.

Lemma elem_of_filter_bool {A} (f : A -> bool) l x : x ∈ List.filter f l <-> f x = true /\ x ∈ l.
Proof. rewrite !list_elem_of_In, filter_In. tauto. Qed.

(** A replay has no failures exactly when every recorded case passes or is
    record-only and was not replayed; and what is reported as unrecorded is, in
    order, the names replayed that the record does not have. *)
Theorem CompareSuites_exact golden emulated :
  NoDup (names emulated) ->
  (Failures (CompareSuites golden emulated) = [] <->
   forall want, want ∈ Cases golden ->
     (exists got, got ∈ Cases emulated /\ Name (RCase got) = Name (RCase want) /\ case_passes want got) \/
     (~ (Name (RCase want) ∈ names emulated) /\ RecordOnly (RCase want) = true)) /\
  Sorted String.le (Unrecorded golden emulated) /\
  (forall n, n ∈ Unrecorded golden emulated <-> n ∈ names emulated /\ ~ (n ∈ names golden)).
Proof.
  intros Hnd. split_and!.
  - rewrite Failures_nil. unfold CompareSuites. rewrite Forall_concat_map, Forall_forall.
    setoid_rewrite <- Failures_nil. by setoid_rewrite compare_want_exact.
  - apply (Sorted_merge_sort String.le).
  - intros n. rewrite (Unrecorded_permutation golden emulated), elem_of_filter_bool.
    rewrite negb_true_iff, bool_decide_eq_false, elem_of_list_to_set. tauto.
Qed.

(** ** Witnesses *)

Definition sample_case (name : string) : Case :=
  mkCase name "supported" "" (Some ["SELECT 1"]) false "" [] false false false.

Definition sample_answer : Answer := mkAnswer "SELECT 1" (Some ["?column?"]) (Some [Some ["1"]]).

Definition sample_recorded (message : string) : RecordedCase :=
  mkRecorded (sample_case "select_one")
    [mkObs "ok" "" "" sample_answer []; mkObs "error" "42601" message (mkAnswer "" None None) []] [].

Definition sample_record (message : string) : Record_ :=
  mkRecord 0 "cluster" "16" "baseline" [sample_recorded message].

Lemma rows_exact_witness :
  rows (Some [Some ["a<b"; "NULL"]]) = rows (Some [Some ["a<b"; "NULL"]]) /\
  rows (Some []) <> rows None.
Proof.
  split.
  - apply rows_exact; [repeat constructor..|reflexivity].
  - intros H. apply rows_exact in H; [discriminate H | constructor | constructor].
Defined.

(** A message is advisory: the two replies differ in nothing that is enforced. *)
Lemma CompareSuites_exact_witness :
  Failures (CompareSuites (sample_record "syntax error") (sample_record "a syntax error")) = [] /\
  CompareSuites (sample_record "syntax error") (sample_record "a syntax error") <> [].
Proof.
  split; [|discriminate].
  apply (CompareSuites_exact (sample_record "syntax error") (sample_record "a syntax error")).
  - apply NoDup_singleton.
  - intros want Hw. apply list_elem_of_singleton in Hw as ->. left.
    exists (sample_recorded "a syntax error"). split; [apply list_elem_of_here|].
    split; [reflexivity|].
    constructor; [|constructor; [|constructor]]; (split; [reflexivity|]).
    + split; [split_and!; [by left | reflexivity | by right] | constructor].
    + by right.
Defined.
