(* ===== verification/Record.v ===== *)
(** * Keeping the record: [internal/conformance/record.go]

    What of a record is enforced, and when a record on disk counts as changed, in
    what it enforces and in anything at all.  Saving and reading it is
    [Fixtures.v], running the suite [Run.v]. *)

From Stdlib Require Import Ascii String.
From stdpp Require Import base numbers strings list gmap sorting.
From S2P Require Import Prelude GoStd Json Compare.

Local Open Scope Z_scope.

(** ** What is enforced of a case *)

Definition drop_count_tag (tag : string) : string :=
  if isRowCountTag tag then EmptyString else tag.

Definition answer_without_rows (a : Answer) : Answer :=
  mkAnswer (drop_count_tag (CommandTag a)) (Columns a) None.

(** [withoutRows], on one observation and on a list. *)
Definition obs_without_rows (o : Observation) : Observation :=
  mkObs (Outcome o) (SQLState o) (Message o) (answer_without_rows (Own o))
    (map answer_without_rows (Results o)).

Definition withoutRows (obs : list Observation) : list Observation := map obs_without_rows obs.

(** The zero byte between the parts of a key. *)
Definition nul : string := String "000" EmptyString.

Definition finalKey (o : Observation) : string :=
  join nul [Outcome o; SQLState o; CommandTag (Own o); Message o].

(** [sort.Slice] by key, as the insertion it is up to a dozen elements: an element
    goes behind those it does not come before. *)
Fixpoint insert_final (o : Observation) (l : list Observation) : list Observation :=
  match l with
  | [] => [o]
  | x :: l => if String.ltb (finalKey o) (finalKey x) then o :: x :: l else x :: insert_final o l
  end.

Definition sort_finals (l : list Observation) : list Observation :=
  foldl (fun sorted o => insert_final o sorted) [] l.

Definition final_of (s : slice Observation) : list Observation :=
  match last (elems s) with Some o => [o] | None => [] end.

(** A session without its last step; an empty one is left as it is. *)
Definition before_final (s : slice Observation) : slice Observation :=
  match elems s with [] => s | l => Some (without_last l) end.

(** The pool of last steps: a nil slice when there is none. *)
Definition pool (sessions : list (slice Observation)) : slice Observation :=
  match concat (map final_of sessions) with [] => None | l => Some (sort_finals l) end.

Definition withConflictFinalsPooled (sessions : list (slice Observation)) : list (slice Observation) :=
  map before_final sessions ++ [pool sessions].

Definition with_results (c : RecordedCase) (obs : list Observation)
    (sessions : list (slice Observation)) : RecordedCase :=
  mkRecorded (RCase c) obs sessions.

Definition without_case_rows (c : RecordedCase) : RecordedCase :=
  if IgnoreRows (RCase c)
  then with_results c (withoutRows (Observations c))
         (map (fun s => Some (withoutRows (elems s))) (SessionResults c))
  else c.

Definition pooled_race (c : RecordedCase) : RecordedCase :=
  if ConflictRace (RCase c)
  then with_results c (Observations c) (withConflictFinalsPooled (SessionResults c))
  else c.

Definition enforcedCase (c : RecordedCase) : RecordedCase := pooled_race (without_case_rows c).

(** ** A record as JSON *)

Definition fields : Type := list (string * json).

(** A field, left out by [omitempty] when it is empty. *)
Definition opt_field (k : string) (present : bool) (j : json) : fields :=
  if present then [(k, j)] else [].

Definition nonempty (s : string) : bool := negb (String.eqb s "").
Definition nonnil {A} (l : list A) : bool := match l with [] => false | _ => true end.

Definition string_field (k s : string) : fields := opt_field k (nonempty s) (JString s).
Definition bool_field (k : string) (b : bool) : fields := opt_field k b (JBool true).

Definition answer_fields (a : Answer) : fields :=
  string_field "command_tag" (CommandTag a) ++
  opt_field "columns" (nonnil (elems (Columns a))) (strings_json (Columns a)) ++
  opt_field "rows" (nonnil (elems (Rows a))) (rows_json (Rows a)).

Definition answer_json (a : Answer) : json := JObject (answer_fields a).

Definition obs_json (o : Observation) : json :=
  JObject ([("outcome", JString (Outcome o))] ++
           string_field "sqlstate" (SQLState o) ++
           string_field "message" (Message o) ++
           answer_fields (Own o) ++
           opt_field "results" (nonnil (Results o)) (JArray (map answer_json (Results o)))).

Definition obs_list_json (s : slice Observation) : json :=
  match s with None => JNull | Some l => JArray (map obs_json l) end.

(** A recorded case; the results of its sessions take the name its steps per
    session would have, which are therefore not written. *)
Definition case_json (c : RecordedCase) : json :=
  let k := RCase c in
  JObject ([("name", JString (Name k)); ("group", JString (Group k))] ++
           string_field "note" (Note k) ++
           [("steps", strings_json (Steps k))] ++
           bool_field "ignore_rows" (IgnoreRows k) ++
           string_field "known_gap" (KnownGap k) ++
           bool_field "record_only" (RecordOnly k) ++
           bool_field "simple_protocol" (SimpleProtocol k) ++
           bool_field "conflict_race" (ConflictRace k) ++
           opt_field "observations" (nonnil (Observations c)) (JArray (map obs_json (Observations c))) ++
           opt_field "sessions" (nonnil (SessionResults c))
             (JArray (map obs_list_json (SessionResults c)))).

Definition zero_time : string := "0001-01-01T00:00:00Z".

Definition header_fields (r : Record_) : fields :=
  [("recorded_at", JString zero_time); ("target", JString (Target r))] ++
  string_field "server_version" (ServerVersion r) ++ [("suite", JString (SuiteName r))].

Definition cases_json (cases : list RecordedCase) : json :=
  JArray (map (fun c => case_json (enforcedCase c)) cases).

Definition record_json (r : Record_) : json :=
  JObject (header_fields r ++ [("cases", cases_json (Cases r))]).

(** [contentBytes]: the time it was recorded at is zeroed, every case reduced to
    what is enforced. *)
Definition contentBytes (r : Record_) : string := json_print (record_json r).

(** ** What is read back of a file *)

Definition written_slice {A} (s : slice A) : slice A :=
  match elems s with [] => None | l => Some l end.

Definition written_answer (a : Answer) : Answer :=
  mkAnswer (CommandTag a) (written_slice (Columns a)) (written_slice (Rows a)).

Definition written_obs (o : Observation) : Observation :=
  mkObs (Outcome o) (SQLState o) (Message o) (written_answer (Own o)) (map written_answer (Results o)).

Definition written_session (s : slice Observation) : slice Observation :=
  match s with None => None | Some l => Some (map written_obs l) end.

Definition written_case_data (k : Case) : Case :=
  mkCase (Name k) (Group k) (Note k) (Steps k) (IgnoreRows k) (KnownGap k) [] (RecordOnly k)
    (SimpleProtocol k) (ConflictRace k).

(** A case as [Load] reads what [Save] wrote of it, for text in UTF-8: fields that
    were left out are nil, and the steps per session are gone. *)
Definition written_case (c : RecordedCase) : RecordedCase :=
  mkRecorded (written_case_data (RCase c)) (map written_obs (Observations c))
    (map written_session (SessionResults c)).

Definition written_record (r : Record_) : Record_ :=
  mkRecord (RecordedAt r) (Target r) (ServerVersion r) (SuiteName r) (map written_case (Cases r)).

(** What decides whether a record has changed. *)
Definition content (r : Record_) : Record_ :=
  mkRecord 0 (Target r) (ServerVersion r) (SuiteName r)
    (map (fun c => written_case (enforcedCase c)) (Cases r)).

(** ** A record's JSON determines what is enforced of it *)

Fixpoint field_of (k : string) (l : fields) : option json :=
  match l with
  | [] => None
  | (k', j) :: l => if String.eqb k k' then Some j else field_of k l
  end.

Lemma field_of_app k a b :
  field_of k (a ++ b) = match field_of k a with Some j => Some j | None => field_of k b end.
Proof.
  induction a as [|[k' j] a IH]; simpl; [done|]. destruct (String.eqb k k'); [done | apply IH].
Qed.

Lemma field_of_opt k k' p j :
  field_of k (opt_field k' p j) = if String.eqb k k' && p then Some j else None.
Proof. destruct p; simpl; by rewrite ?andb_true_r, ?andb_false_r. Qed.

Lemma option_match_id {A} (o : option A) : match o with Some j => Some j | None => None end = o.
Proof. by destruct o. Qed.

(** What one field of two equal objects says. *)
Ltac object_field H k :=
  let F := fresh "F" in
  pose proof (f_equal (field_of k) H) as F;
  unfold answer_fields, string_field, bool_field in F;
  repeat (progress (rewrite ?field_of_app, ?field_of_opt in F; simpl in F));
  rewrite ?option_match_id in F.

Lemma string_field_inj s s' :
  (if nonempty s then Some (JString s) else None) = (if nonempty s' then Some (JString s') else None) ->
  s = s'.
Proof.
  unfold nonempty. destruct (String.eqb_spec s ""), (String.eqb_spec s' ""); simpl; naive_solver.
Qed.

Lemma bool_field_inj (b b' : bool) :
  (if b then Some (JBool true) else None) = (if b' then Some (JBool true) else None) -> b = b'.
Proof. by destruct b, b'. Qed.

Lemma map_json_inj {A B} (f : A -> json) (g : A -> B) (l l' : list A) :
  (forall x x', f x = f x' -> g x = g x') -> map f l = map f l' -> map g l = map g l'.
Proof.
  intros Hf. revert l'. induction l as [|x l IH]; intros [|x' l'] Hm; simplify_eq/=; [done|].
  f_equal; [by apply Hf | by apply IH].
Qed.

Lemma array_field_inj {A B} (f : A -> json) (g : A -> B) (l l' : list A) :
  (forall x x', f x = f x' -> g x = g x') ->
  (if nonnil l then Some (JArray (map f l)) else None) =
  (if nonnil l' then Some (JArray (map f l')) else None) ->
  map g l = map g l'.
Proof.
  intros Hf H.
  assert (map f l = map f l') as Hm by (destruct l, l'; simplify_eq/=; congruence).
  by eapply map_json_inj.
Qed.

Lemma strings_field_inj (s s' : slice string) :
  (if nonnil (elems s) then Some (strings_json s) else None) =
  (if nonnil (elems s') then Some (strings_json s') else None) ->
  written_slice s = written_slice s'.
Proof.
  destruct s as [[|x s]|], s' as [[|x' s']|]; simpl; try done.
  intros [= -> H]. unfold written_slice. simpl. do 2 f_equal.
  revert s' H. induction s as [|y s IH]; intros [|y' s'] H; simplify_eq/=; [done|].
  f_equal. by apply IH.
Qed.

Lemma rows_field_inj (s s' : slice (slice string)) :
  (if nonnil (elems s) then Some (rows_json s) else None) =
  (if nonnil (elems s') then Some (rows_json s') else None) ->
  written_slice s = written_slice s'.
Proof.
  destruct s as [[|x s]|], s' as [[|x' s']|]; try done.
  cbn -[rows_json]. intros H%(inj Some). apply rows_json_inj in H. by rewrite H.
Qed.

Lemma answer_fields_inj a a' :
  answer_fields a = answer_fields a' -> written_answer a = written_answer a'.
Proof.
  intros H. unfold written_answer.
  object_field H "command_tag". object_field H "columns". object_field H "rows".
  f_equal; [by apply string_field_inj | by apply strings_field_inj | by apply rows_field_inj].
Qed.

Lemma answer_json_inj a a' : answer_json a = answer_json a' -> written_answer a = written_answer a'.
Proof. intros [= H]. by apply answer_fields_inj. Qed.

Lemma obs_json_inj o o' : obs_json o = obs_json o' -> written_obs o = written_obs o'.
Proof.
  intros [= Ho H]. unfold written_obs, written_answer.
  object_field H "sqlstate". object_field H "message".
  object_field H "command_tag". object_field H "columns". object_field H "rows".
  object_field H "results".
  f_equal; [done | by apply string_field_inj | by apply string_field_inj | f_equal |].
  - by apply string_field_inj.
  - by apply strings_field_inj.
  - by apply rows_field_inj.
  - eapply array_field_inj; [exact answer_json_inj | done].
Qed.

Lemma obs_list_json_inj s s' : obs_list_json s = obs_list_json s' -> written_session s = written_session s'.
Proof.
  destruct s as [l|], s' as [l'|]; intros H; simplify_eq/=; [|done].
  f_equal. eapply map_json_inj; [exact obs_json_inj | done].
Qed.

Lemma case_json_inj c c' : case_json c = case_json c' -> written_case c = written_case c'.
Proof.
  intros [= Hn Hg H]. unfold written_case, written_case_data.
  object_field H "note". object_field H "steps". object_field H "ignore_rows".
  object_field H "known_gap". object_field H "record_only". object_field H "simple_protocol".
  object_field H "conflict_race". object_field H "observations". object_field H "sessions".
  f_equal; [f_equal | |]; try done.
  - by apply string_field_inj.
  - injection F0 as F0. by apply strings_json_inj.
  - by apply bool_field_inj.
  - by apply string_field_inj.
  - by apply bool_field_inj.
  - by apply bool_field_inj.
  - by apply bool_field_inj.
  - eapply array_field_inj; [exact obs_json_inj | done].
  - eapply (array_field_inj obs_list_json written_session); [exact obs_list_json_inj | done].
Qed.

Lemma record_json_inj r r' : record_json r = record_json r' -> content r = content r'.
Proof.
  unfold record_json, header_fields, cases_json. intros [= Ht H]. unfold content.
  object_field H "server_version". object_field H "suite". object_field H "cases".
  injection F0 as F0. injection F1 as F1.
  f_equal; [done | by apply string_field_inj | done |].
  eapply (map_json_inj (fun c => case_json (enforcedCase c))
            (fun c => written_case (enforcedCase c))); [|done].
  intros c c'. apply case_json_inj.
Qed.

(** *** And is determined by it *)

Lemma elems_written {A} (s : slice A) : elems (written_slice s) = elems s.
Proof. by destruct s as [[|x l]|]. Qed.

Lemma answer_fields_written a : answer_fields (written_answer a) = answer_fields a.
Proof. destruct a as [t [[|]|] [[|]|]]; done. Qed.

Lemma answer_json_written a : answer_json (written_answer a) = answer_json a.
Proof. unfold answer_json. by rewrite answer_fields_written. Qed.

Lemma map_written {A} (f : A -> json) (g : A -> A) l :
  (forall x, f (g x) = f x) -> map f (map g l) = map f l.
Proof. intros H. rewrite map_map. by apply map_ext. Qed.

Lemma nonnil_map {A B} (f : A -> B) l : nonnil (map f l) = nonnil l.
Proof. by destruct l. Qed.

Lemma obs_json_written o : obs_json (written_obs o) = obs_json o.
Proof.
  unfold obs_json, written_obs. cbn [Outcome SQLState Message Own Results].
  by rewrite answer_fields_written, nonnil_map, (map_written _ _ _ answer_json_written).
Qed.

Lemma obs_list_json_written s : obs_list_json (written_session s) = obs_list_json s.
Proof. destruct s as [l|]; [|done]. simpl. by rewrite (map_written _ _ _ obs_json_written). Qed.

Lemma case_json_written c : case_json (written_case c) = case_json c.
Proof.
  unfold case_json, written_case. cbn -[opt_field string_field bool_field].
  by rewrite !nonnil_map, (map_written _ _ _ obs_json_written),
    (map_written _ written_session _ obs_list_json_written).
Qed.

Lemma record_json_content r r' : content r = content r' -> record_json r = record_json r'.
Proof.
  unfold content, record_json, header_fields, cases_json. intros [= -> -> -> H]. do 5 f_equal.
  assert (forall l, map (fun c => case_json (enforcedCase c)) l =
            map case_json (map (fun c => written_case (enforcedCase c)) l)) as Hl.
  { intros l. rewrite map_map. apply map_ext. intros c. symmetry. apply case_json_written. }
  by rewrite !Hl, H.
Qed.

(** ** Unchanged content passes the comparison *)

(** What an observation is reduced to, and what is kept of it. *)
Definition reduce (ig : bool) (o : Observation) : Observation :=
  if ig then obs_without_rows o else o.

Definition obs_content (ig : bool) (o : Observation) : Observation := written_obs (reduce ig o).

(** An answer as the driver reports it: a tag, and nil rows rather than an empty
    row set. *)
Definition answer_whole (a : Answer) : Prop := CommandTag a <> EmptyString /\ Rows a <> Some [].

(** An observation as it is recorded: of a step with several statements, each
    answer is under [Results] and its own fields are empty. *)
Definition obs_whole (o : Observation) : Prop :=
  Rows (Own o) <> Some [] /\
  (is_error o = false ->
     (Results o = [] -> answer_whole (Own o)) /\
     (Results o <> [] -> CommandTag (Own o) = EmptyString) /\
     Forall answer_whole (Results o)).

Lemma written_rows (r r' : slice (slice string)) :
  r <> Some [] -> r' <> Some [] -> written_slice r = written_slice r' -> r = r'.
Proof. destruct r as [[|]|], r' as [[|]|]; by intros. Qed.

Lemma count_tag_agrees w g :
  (w = EmptyString -> isRowCountTag g = false) ->
  drop_count_tag w = drop_count_tag g -> w = g \/ counts_only w.
Proof.
  rewrite <- isRowCountTag_spec. unfold drop_count_tag. intros Hg. destruct (isRowCountTag w); [by right|].
  destruct (isRowCountTag g); [|by left]. intros ->. by discriminate Hg.
Qed.

Lemma answer_content_agrees ig w g :
  (ig = true -> CommandTag w = EmptyString -> isRowCountTag (CommandTag g) = false) ->
  Rows w <> Some [] -> Rows g <> Some [] ->
  written_answer (if ig then answer_without_rows w else w) =
  written_answer (if ig then answer_without_rows g else g) ->
  answer_agrees ig w g.
Proof.
  intros Ht Hw Hg. unfold written_answer, answer_agrees. destruct ig; simpl.
  - intros [= H1 H2]. apply (f_equal elems) in H2. rewrite !elems_written in H2.
    apply count_tag_agrees in H1; [|by apply Ht]. naive_solver.
  - intros [= H1 H2 H3]. apply (f_equal elems) in H2. rewrite !elems_written in H2.
    apply written_rows in H3 as ->; [|done..]. auto.
Qed.

Lemma reduce_own ig o : Own (reduce ig o) = if ig then answer_without_rows (Own o) else Own o.
Proof. by destruct ig. Qed.

Lemma reduce_results ig o :
  Results (reduce ig o) = map (fun a => if ig then answer_without_rows a else a) (Results o).
Proof. destruct ig; [done|]. symmetry. apply map_id. Qed.

Lemma reduce_error ig o : Outcome (reduce ig o) = Outcome o /\ SQLState (reduce ig o) = SQLState o.
Proof. by destruct ig. Qed.

Lemma answers_agree (ig : bool) l l' :
  Forall answer_whole l -> Forall answer_whole l' ->
  map (fun a => written_answer (if ig then answer_without_rows a else a)) l =
  map (fun a => written_answer (if ig then answer_without_rows a else a)) l' ->
  Forall2 (answer_agrees ig) l l'.
Proof.
  intros Hl. revert l'. induction Hl as [|a l [Ht Hr] _ IH]; intros [|a' l'] Hl' H;
    try discriminate H; [constructor|].
  apply Forall_cons in Hl' as [[Ht' Hr'] Hl'].
  apply (inj2 cons) in H as [Ha H]. constructor; [|by apply IH].
  apply answer_content_agrees; [|done..]. by intros _ ?.
Qed.

Lemma obs_content_agrees ig o o' :
  obs_whole o -> obs_whole o' -> obs_content ig o = obs_content ig o' -> step_agrees ig o o'.
Proof.
  intros [Hr Hw] [Hr' Hw'] H. unfold obs_content, written_obs in H.
  rewrite !reduce_own, !reduce_results, !map_map in H.
  destruct (reduce_error ig o) as [E1 E2], (reduce_error ig o') as [E1' E2'].
  rewrite E1, E2, E1', E2' in H.
  pose proof (f_equal Outcome H) as Ho. pose proof (f_equal SQLState H) as Hs.
  pose proof (f_equal Own H) as Hown. pose proof (f_equal Results H) as Hres.
  cbn [Outcome SQLState Own Results] in Ho, Hs, Hown, Hres.
  assert (is_error o' = is_error o) as He by (unfold is_error; by rewrite Ho).
  split; [done|]. rewrite <- (if_error o). destruct (is_error o); [by right|].
  destruct (Hw eq_refl) as (Hw1 & Hw2 & Hw3), (Hw' He) as (Hw1' & Hw2' & Hw3').
  split; [|by apply answers_agree].
  apply answer_content_agrees; [|done..]. intros _ Ht.
  destruct (Results o) as [|a l]; [by destruct (Hw1 eq_refl)|].
  destruct (Results o') as [|a' l']; [done|]. by rewrite Hw2'.
Qed.

Lemma steps_content_agree ig l l' :
  Forall obs_whole l -> Forall obs_whole l' ->
  map (obs_content ig) l = map (obs_content ig) l' -> steps_agree ig l l'.
Proof.
  intros Hl. revert l'. induction Hl as [|o l Ho _ IH]; intros [|o' l'] Hl' H;
    try discriminate H; [constructor|].
  apply Forall_cons in Hl' as [Ho' Hl']. apply (inj2 cons) in H as [Ho2 H].
  constructor; [by apply obs_content_agrees | by apply IH].
Qed.

(** *** Races *)

Lemma insert_final_perm o l : insert_final o l ≡ₚ o :: l.
Proof.
  induction l as [|x l IH]; simpl; [done|]. destruct (String.ltb _ _); [done|].
  rewrite IH. apply Permutation_swap.
Qed.

Lemma sort_finals_perm l : sort_finals l ≡ₚ l.
Proof.
  unfold sort_finals.
  assert (forall acc, foldl (fun sorted o => insert_final o sorted) acc l ≡ₚ l ++ acc) as H.
  { induction l as [|x l IH]; intros acc; simpl; [done|].
    rewrite IH, insert_final_perm. symmetry. apply Permutation_middle. }
  rewrite H. by rewrite app_nil_r.
Qed.

Lemma elems_pool d : elems (pool d) = sort_finals (concat (map final_of d)).
Proof. unfold pool. by destruct (concat (map final_of d)). Qed.

Lemma elems_before_final s : elems (before_final s) = without_last (elems s).
Proof. unfold before_final. destruct s as [[|]|]; done. Qed.

Lemma elems_written_session s : elems (written_session s) = map written_obs (elems s).
Proof. by destruct s. Qed.

Lemma map_without_last {A B} (f : A -> B) l : map f (without_last l) = without_last (map f l).
Proof. unfold without_last. by rewrite firstn_map, length_map. Qed.

Definition dropped (ig : bool) (s : slice Observation) : slice Observation :=
  if ig then Some (withoutRows (elems s)) else s.

Lemma elems_dropped ig s : elems (dropped ig s) = map (reduce ig) (elems s).
Proof. destruct ig; [done|]. symmetry. apply map_id. Qed.

Lemma session_content ig s :
  elems (written_session (dropped ig s)) = map (obs_content ig) (elems s).
Proof. by rewrite elems_written_session, elems_dropped, map_map. Qed.

Lemma race_session_content ig s :
  elems (written_session (before_final (dropped ig s))) = map (obs_content ig) (without_last (elems s)).
Proof.
  rewrite elems_written_session, elems_before_final, elems_dropped, <- map_without_last.
  by rewrite map_map.
Qed.

(** How a last step ended. *)
Definition ending (o : Observation) : bool * string := (is_error o, SQLState o).

Definition finals (s : list (slice Observation)) : list Observation := concat (map final_of s).

Lemma final_of_dropped ig s : final_of (dropped ig s) = map (reduce ig) (final_of s).
Proof.
  unfold final_of. rewrite elems_dropped. change (map (reduce ig)) with (fmap (M := list) (reduce ig)).
  rewrite fmap_last. by destruct (last (elems s)).
Qed.

Lemma finals_dropped ig s : finals (map (dropped ig) s) = map (reduce ig) (finals s).
Proof.
  unfold finals. rewrite concat_map, !map_map. f_equal. apply map_ext. apply final_of_dropped.
Qed.

Lemma ending_content ig l : map ending (map written_obs (map (reduce ig) l)) = map ending l.
Proof. rewrite !map_map. apply map_ext. intros o. by destruct ig. Qed.

Lemma pool_endings ig s s' :
  written_session (pool (map (dropped ig) s)) = written_session (pool (map (dropped ig) s')) ->
  map ending (finals s) ≡ₚ map ending (finals s').
Proof.
  intros H. apply (f_equal elems) in H. rewrite !elems_written_session, !elems_pool in H.
  rewrite <- (ending_content ig (finals s)), <- (ending_content ig (finals s')).
  apply (Permutation_map ending). rewrite <- !finals_dropped.
  rewrite <- (sort_finals_perm (finals (map (dropped ig) s))).
  rewrite <- (sort_finals_perm (finals (map (dropped ig) s'))).
  unfold finals. by rewrite H.
Qed.

Definition losers (s : list (slice Observation)) : list Observation := List.filter is_error (finals s).

Lemma losers_states s :
  map SQLState (losers s) = map snd (List.filter fst (map ending (finals s))).
Proof.
  unfold losers. induction (finals s) as [|o l IH]; simpl; [done|].
  destruct (is_error o); simpl; by rewrite IH.
Qed.

Lemma constant_permutation {A} (a : A) l l' :
  Forall (eq a) l -> l ≡ₚ l' -> l = l'.
Proof.
  intros Hl Hp. assert (Forall (eq a) l') as Hl' by (by rewrite <- Hp).
  apply Permutation_length in Hp. revert l' Hl' Hp.
  induction Hl as [|x l <- _ IH]; intros [|y l'] Hl' Hp; try discriminate Hp; [done|].
  apply Forall_cons in Hl' as [<- Hl']. f_equal. apply IH; [done | by injection Hp].
Qed.

(** The sessions that lost did so with one SQLSTATE. *)
Definition one_losing_state (s : list (slice Observation)) : Prop :=
  exists st, Forall (fun o => SQLState o = st) (losers s).

Lemma losers_agree ig s s' :
  one_losing_state s ->
  written_session (pool (map (dropped ig) s)) = written_session (pool (map (dropped ig) s')) ->
  map SQLState (losers s) = map SQLState (losers s').
Proof.
  intros [st Hst] H%pool_endings. apply (constant_permutation st).
  - apply Forall_map. eapply Forall_impl; [exact Hst|]. by intros o <-.
  - rewrite !losers_states. apply Permutation_map. by apply filter_bool_perm.
Qed.

(** The losers of the comparison are these. *)
Lemma lost_losers s : omap lost_with (map elems s) = map SQLState (losers s).
Proof.
  unfold losers, finals. induction s as [|x s IH]; [done|]. cbn [map concat].
  rewrite List.filter_app, map_app, <- IH. cbn [omap list_omap]. unfold final_of, lost_with at 1.
  destruct (last (elems x)) as [o|]; [|done]. simpl. rewrite is_error_spec.
  case_decide as Ho; [by rewrite bool_decide_true | by rewrite bool_decide_false].
Qed.

(** *** Cases *)

Definition case_whole (c : RecordedCase) : Prop :=
  Forall obs_whole (Observations c) /\
  Forall (fun s => Forall obs_whole (elems s)) (SessionResults c) /\
  (ConflictRace (RCase c) = true -> Forall (fun s => elems s <> []) (SessionResults c)).

Lemma without_case_rows_sessions c :
  SessionResults (without_case_rows c) = map (dropped (IgnoreRows (RCase c))) (SessionResults c).
Proof.
  unfold without_case_rows, dropped. destruct (IgnoreRows (RCase c)); [done|].
  symmetry. apply map_id.
Qed.

Lemma enforced_observations c :
  Observations (enforcedCase c) = map (reduce (IgnoreRows (RCase c))) (Observations c).
Proof.
  unfold enforcedCase, pooled_race, without_case_rows.
  destruct (IgnoreRows (RCase c)); simpl; destruct (ConflictRace (RCase c)); try done;
    symmetry; apply map_id.
Qed.

Lemma enforced_case_data c : RCase (enforcedCase c) = RCase c.
Proof.
  unfold enforcedCase, pooled_race, without_case_rows.
  destruct (IgnoreRows (RCase c)); simpl; by destruct (ConflictRace (RCase c)).
Qed.

Lemma enforced_sessions c :
  let d := map (dropped (IgnoreRows (RCase c))) (SessionResults c) in
  SessionResults (enforcedCase c) =
  if ConflictRace (RCase c) then map before_final d ++ [pool d] else d.
Proof.
  simpl. rewrite <- without_case_rows_sessions. unfold enforcedCase, pooled_race.
  assert (RCase (without_case_rows c) = RCase c) as -> by (unfold without_case_rows; by destruct (IgnoreRows _)).
  by destruct (ConflictRace (RCase c)).
Qed.

Lemma Forall2_of_maps {A B} (f : A -> B) (P : A -> Prop) (R : A -> A -> Prop) (l l' : list A) :
  (forall x y, P x -> P y -> f x = f y -> R x y) ->
  Forall P l -> Forall P l' -> map f l = map f l' -> Forall2 R l l'.
Proof.
  intros HR Hl. revert l'. induction Hl as [|x l Hx _ IH]; intros [|y l'] Hl' H;
    try discriminate H; [constructor|].
  apply Forall_cons in Hl' as [Hy Hl']. apply (inj2 cons) in H as [Hxy H].
  constructor; [by apply HR | by apply IH].
Qed.

Lemma Forall_without_last {A} (P : A -> Prop) l : Forall P l -> Forall P (without_last l).
Proof. apply Forall_take. Qed.

Lemma session_agrees ig s s' :
  Forall obs_whole (elems s) -> Forall obs_whole (elems s') ->
  written_session (dropped ig s) = written_session (dropped ig s') ->
  steps_agree ig (elems s) (elems s').
Proof.
  intros Hs Hs' H%(f_equal elems). rewrite !session_content in H. by apply steps_content_agree.
Qed.

Lemma race_session_agrees_content ig s s' :
  Forall obs_whole (elems s) /\ elems s <> [] -> Forall obs_whole (elems s') /\ elems s' <> [] ->
  written_session (before_final (dropped ig s)) = written_session (before_final (dropped ig s')) ->
  race_session_agrees ig (elems s) (elems s').
Proof.
  intros [Hs Hn] [Hs' Hn'] H%(f_equal elems). rewrite !race_session_content in H.
  unfold race_session_agrees. rewrite <- !without_last_removelast. split.
  - apply (f_equal length) in H. rewrite !length_map in H. unfold without_last in H.
    rewrite !length_take in H. destruct (elems s), (elems s'); simpl in *; (done || lia).
  - apply steps_content_agree; auto using Forall_without_last.
Qed.

(** The sessions of two cases whose enforced content is the same. *)
Lemma sessions_agree c c' :
  let ig := IgnoreRows (RCase c) in
  case_whole c -> case_whole c' -> ig = IgnoreRows (RCase c') ->
  ConflictRace (RCase c) = ConflictRace (RCase c') ->
  (ConflictRace (RCase c) = true -> one_losing_state (SessionResults c)) ->
  map written_session (SessionResults (enforcedCase c)) =
  map written_session (SessionResults (enforcedCase c')) ->
  if ConflictRace (RCase c) then race_agrees ig (sessions_of c) (sessions_of c')
  else Forall2 (steps_agree ig) (sessions_of c) (sessions_of c').
Proof.
  simpl. intros (_ & Hs & Hn) (_ & Hs' & Hn') Hig Hrace Hone H. unfold sessions_of.
  rewrite !enforced_sessions, <- Hig, <- Hrace in H.
  destruct (ConflictRace (RCase c)).
  - rewrite !map_app in H. apply app_inj_tail in H as [H Hpool]. rewrite !map_map in H. split.
    + apply Forall2_fmap. eapply (Forall2_of_maps _ (fun s => Forall obs_whole (elems s) /\ elems s <> []));
        [|by apply Forall_and; auto | apply Forall_and; rewrite <- Hrace in Hn'; by auto | exact H].
      apply race_session_agrees_content.
    + rewrite !lost_losers. eapply losers_agree; [by apply Hone | exact Hpool].
  - rewrite !map_map in H. apply Forall2_fmap.
    eapply (Forall2_of_maps _ (fun s => Forall obs_whole (elems s))); [|done..|exact H].
    apply session_agrees.
Qed.

Lemma unchanged_case_passes c c' :
  case_whole c -> case_whole c' ->
  (ConflictRace (RCase c) = true -> one_losing_state (SessionResults c)) ->
  written_case (enforcedCase c) = written_case (enforcedCase c') -> case_passes c c'.
Proof.
  intros Hc Hc' Hone H.
  pose proof (f_equal RCase H) as Hk. unfold written_case in Hk. simpl in Hk.
  rewrite !enforced_case_data in Hk.
  pose proof (f_equal IgnoreRows Hk) as Hig. pose proof (f_equal ConflictRace Hk) as Hrace.
  simpl in Hig, Hrace.
  pose proof (f_equal Observations H) as Hobs. simpl in Hobs.
  rewrite !enforced_observations, <- Hig, !map_map in Hobs.
  pose proof (f_equal SessionResults H) as Hsess.
  pose proof (sessions_agree c c' Hc Hc' Hig Hrace Hone Hsess) as Hs.
  unfold case_passes, case_agrees. rewrite <- Hig, <- Hrace, orb_diag.
  destruct (String.eqb _ _).
  - assert (steps_agree (IgnoreRows (RCase c)) (Observations c) (Observations c'))
      by (apply steps_content_agree; [apply Hc | apply Hc' | exact Hobs]).
    by destruct (sessions_of c), (sessions_of c').
  - assert (length (sessions_of c) = length (sessions_of c')) as Hl.
    { destruct (ConflictRace _); [destruct Hs as [Hs _] |]; by eapply Forall2_length. }
    unfold sessions_of in Hl. by rewrite !length_map in Hl.
Qed.

(** ** Content is what is read back *)

Lemma written_slice_idem {A} (s : slice A) : written_slice (written_slice s) = written_slice s.
Proof. by destruct s as [[|]|]. Qed.

Lemma written_answer_idem a : written_answer (written_answer a) = written_answer a.
Proof. unfold written_answer. simpl. by rewrite !written_slice_idem. Qed.

Lemma map_absorb {A B} (f : A -> B) (g : A -> A) l : (forall x, f (g x) = f x) -> map f (map g l) = map f l.
Proof. intros H. rewrite map_map. by apply map_ext. Qed.

Lemma obs_content_written ig o : obs_content ig (written_obs o) = obs_content ig o.
Proof.
  destruct ig; unfold obs_content, written_obs; simpl.
  - unfold written_answer. simpl. rewrite written_slice_idem. f_equal. rewrite !map_map.
    apply map_ext. intros a. unfold written_answer. simpl. by rewrite written_slice_idem.
  - by rewrite written_answer_idem, (map_absorb _ _ _ written_answer_idem).
Qed.

Lemma dropped_written ig s :
  written_session (dropped ig (written_session s)) = written_session (dropped ig s).
Proof.
  destruct ig; simpl.
  - f_equal. rewrite elems_written_session. unfold withoutRows. rewrite !map_map.
    apply map_ext, (obs_content_written true).
  - destruct s as [l|]; [|done]. simpl. f_equal. apply (map_absorb _ _ _ (obs_content_written false)).
Qed.

Lemma before_final_written s : written_session (before_final s) = before_final (written_session s).
Proof.
  destruct s as [[|o l]|]; [done| |done]. unfold before_final. cbn [elems written_session default map].
  simpl. f_equal. apply (map_without_last written_obs (o :: l)).
Qed.

Lemma insert_final_map f o l :
  (forall x, finalKey (f x) = finalKey x) ->
  insert_final (f o) (map f l) = map f (insert_final o l).
Proof.
  intros Hf. induction l as [|x l IH]; simpl; [done|]. rewrite !Hf, IH.
  by destruct (String.ltb _ _).
Qed.

Lemma sort_finals_map f l :
  (forall x, finalKey (f x) = finalKey x) -> sort_finals (map f l) = map f (sort_finals l).
Proof.
  intros Hf. unfold sort_finals.
  assert (forall acc, foldl (fun sorted o => insert_final o sorted) (map f acc) (map f l) =
            map f (foldl (fun sorted o => insert_final o sorted) acc l)) as H; [|apply (H [])].
  induction l as [|x l IH]; intros acc; simpl; [done|]. by rewrite insert_final_map, IH.
Qed.

Lemma finals_written s : finals (map written_session s) = map written_obs (finals s).
Proof.
  unfold finals. rewrite concat_map, !map_map. f_equal. apply map_ext. intros x.
  unfold final_of. rewrite elems_written_session.
  change (map written_obs) with (fmap (M := list) written_obs).
  rewrite fmap_last. by destruct (last (elems x)).
Qed.

Lemma pool_written d : written_session (pool d) = pool (map written_session d).
Proof.
  unfold pool. pose proof (finals_written d) as H. unfold finals in H. rewrite H.
  destruct (concat (map final_of d)) as [|o l]; [done|].
  cbn [map written_session]. f_equal. symmetry. apply (sort_finals_map written_obs (o :: l)). done.
Qed.

Lemma enforced_written c : written_case (enforcedCase (written_case c)) = written_case (enforcedCase c).
Proof.
  assert (forall a b, RCase a = RCase b -> Observations a = Observations b ->
            SessionResults a = SessionResults b -> a = b) as Heq.
  { intros [] [] ? ? ?. simpl in *. congruence. }
  apply Heq; clear Heq.
  - unfold written_case. simpl. by rewrite !enforced_case_data.
  - unfold written_case at 1 3. simpl. rewrite !enforced_observations. simpl.
    rewrite !map_map. apply map_ext. apply obs_content_written.
  - unfold written_case at 1 3. cbn [SessionResults]. rewrite !enforced_sessions. simpl. set (ig := IgnoreRows (RCase c)).
    assert (map written_session (map (dropped ig) (map written_session (SessionResults c))) =
            map written_session (map (dropped ig) (SessionResults c))) as Hd.
    { rewrite !map_map. apply map_ext, dropped_written. }
    destruct (ConflictRace (RCase c)); [|exact Hd].
    rewrite !map_app. cbn [map]. rewrite !pool_written, Hd. f_equal.
    rewrite !(map_map before_final), !(map_ext _ _ before_final_written).
    rewrite <- !(map_map written_session before_final). by rewrite Hd.
Qed.

Lemma content_written r : content (written_record r) = content r.
Proof.
  unfold content. simpl. f_equal. rewrite map_map. apply map_ext, enforced_written.
Qed.

Lemma contentBytes_written r : contentBytes (written_record r) = contentBytes r.
Proof. unfold contentBytes. by rewrite (record_json_content _ _ (content_written r)). Qed.

(** ** What content is

    The same content, said of the records themselves: what must agree of two
    records for their bytes to be the same. *)

(** Under [IgnoreRows] a tag that only counts rows is as good as none. *)
Definition same_tag (ig : bool) (t t' : string) : Prop :=
  t = t' \/ ig = true /\ (counts_only t \/ t = EmptyString) /\ (counts_only t' \/ t' = EmptyString).

Definition same_answer (ig : bool) (a a' : Answer) : Prop :=
  same_tag ig (CommandTag a) (CommandTag a') /\ elems (Columns a) = elems (Columns a') /\
  (ig = true \/ elems (Rows a) = elems (Rows a')).

(** An error's message counts, although the comparison only notes it. *)
Definition same_observation (ig : bool) (o o' : Observation) : Prop :=
  Outcome o = Outcome o' /\ SQLState o = SQLState o' /\ Message o = Message o' /\
  same_answer ig (Own o) (Own o') /\ Forall2 (same_answer ig) (Results o) (Results o').

(** A nil session is written apart from an empty one. *)
Definition same_nil {A} (s s' : slice A) : Prop := s = None <-> s' = None.

Definition same_session (ig : bool) (s s' : slice Observation) : Prop :=
  (ig = true \/ same_nil s s') /\ Forall2 (same_observation ig) (elems s) (elems s').

(** A session of a race counts up to its last step. *)
Definition same_race_session (ig : bool) (s s' : slice Observation) : Prop :=
  (ig = true \/ same_nil s s') /\
  Forall2 (same_observation ig) (removelast (elems s)) (removelast (elems s')).

(** The last steps of a race: those with one outcome, SQLSTATE, tag and message are
    the same, in the order of the sessions, whichever sessions they ended. *)
Definition last_steps (s : list (slice Observation)) : list Observation := omap last (map elems s).

Definition final_key (ig : bool) (o : Observation) : string :=
  let tag := CommandTag (Own o) in
  join nul [Outcome o; SQLState o; if ig && isRowCountTag tag then EmptyString else tag; Message o].

Definition same_finals (ig : bool) (s s' : list (slice Observation)) : Prop :=
  forall key, Forall2 (same_observation ig)
    (filter (fun o => final_key ig o = key) (last_steps s))
    (filter (fun o => final_key ig o = key) (last_steps s')).

Definition same_case_data (k k' : Case) : Prop :=
  Name k = Name k' /\ Group k = Group k' /\ Note k = Note k' /\ Steps k = Steps k' /\
  IgnoreRows k = IgnoreRows k' /\ KnownGap k = KnownGap k' /\ RecordOnly k = RecordOnly k' /\
  SimpleProtocol k = SimpleProtocol k' /\ ConflictRace k = ConflictRace k'.

Definition same_case (c c' : RecordedCase) : Prop :=
  let ig := IgnoreRows (RCase c) in
  let s := SessionResults c in
  let s' := SessionResults c' in
  same_case_data (RCase c) (RCase c') /\
  Forall2 (same_observation ig) (Observations c) (Observations c') /\
  if ConflictRace (RCase c) then Forall2 (same_race_session ig) s s' /\ same_finals ig s s'
  else Forall2 (same_session ig) s s'.

Definition same_record (r r' : Record_) : Prop :=
  Target r = Target r' /\ ServerVersion r = ServerVersion r' /\ SuiteName r = SuiteName r' /\
  Forall2 same_case (Cases r) (Cases r').

(** *** Observations *)

Lemma map_same {A B} (f : A -> B) (R : A -> A -> Prop) :
  (forall x y, f x = f y <-> R x y) -> forall l l', map f l = map f l' <-> Forall2 R l l'.
Proof.
  intros HR. induction l as [|x l IH]; intros [|y l']; simpl; try (by split; [|intros H; inversion H]).
  rewrite Forall2_cons, <- IH, <- HR. split; [by intros [= ? ?] | by intros [-> ->]].
Qed.

Lemma written_slice_eq {A} (s s' : slice A) : written_slice s = written_slice s' <-> elems s = elems s'.
Proof. unfold written_slice. destruct (elems s), (elems s'); naive_solver. Qed.

Lemma drop_tag_same t t' : drop_count_tag t = drop_count_tag t' <-> same_tag true t t'.
Proof.
  unfold same_tag, drop_count_tag. rewrite <- !isRowCountTag_spec.
  assert (isRowCountTag "" = false) as He by done.
  destruct (isRowCountTag t) eqn:E, (isRowCountTag t') eqn:E'; naive_solver congruence.
Qed.

Lemma answer_content_same (ig : bool) a a' :
  written_answer (if ig then answer_without_rows a else a) =
  written_answer (if ig then answer_without_rows a' else a') <-> same_answer ig a a'.
Proof.
  assert (forall x y, written_answer x = written_answer y <->
            CommandTag x = CommandTag y /\ elems (Columns x) = elems (Columns y) /\ elems (Rows x) = elems (Rows y)) as H.
  { intros x y. rewrite <- !written_slice_eq. unfold written_answer. naive_solver congruence. }
  rewrite H. unfold same_answer. destruct ig; simpl.
  - rewrite drop_tag_same. naive_solver.
  - unfold same_tag. naive_solver.
Qed.

Lemma obs_content_same ig o o' : obs_content ig o = obs_content ig o' <-> same_observation ig o o'.
Proof.
  unfold obs_content, same_observation.
  rewrite <- (map_same _ _ (answer_content_same ig)), <- answer_content_same.
  unfold written_obs. rewrite !reduce_own, !reduce_results, !map_map.
  destruct (reduce_error ig o) as [-> ->], (reduce_error ig o') as [-> ->].
  assert (Message (reduce ig o) = Message o /\ Message (reduce ig o') = Message o') as [-> ->] by by destruct ig.
  split.
  { intros H. split_and!; [exact (f_equal Outcome H) | exact (f_equal SQLState H) | exact (f_equal Message H)
      | exact (f_equal Own H) | exact (f_equal Results H)]. }
  intros (-> & -> & -> & -> & ->). done.
Qed.

(** *** Last steps, sorted *)

Definition key_le (x y : Observation) : Prop := String.le (finalKey x) (finalKey y).

Lemma ltb_spec a b : if String.ltb a b then String.le a b /\ a <> b else String.le b a.
Proof.
  unfold String.le, String.leb, String.ltb. rewrite (String.compare_antisym b a).
  destruct (String.compare a b) eqn:E; simpl; try done.
  split; [done|]. intros ->. pose proof (String.compare_antisym b b) as H. by rewrite E in H.
Qed.

Abbreviation keyed k := (fun o => finalKey o = k).

Lemma insert_sorted o l : StronglySorted key_le l -> StronglySorted key_le (insert_final o l).
Proof.
  induction 1 as [|x l Hs IH Hx]; simpl; [by repeat constructor|].
  pose proof (ltb_spec (finalKey o) (finalKey x)) as Hlt. destruct (String.ltb _ _).
  - constructor; [by constructor|]. constructor; [apply Hlt|].
    eapply Forall_impl; [exact Hx|]. intros y Hy. unfold key_le in *. etrans; [apply Hlt | exact Hy].
  - constructor; [done|]. rewrite insert_final_perm. by constructor.
Qed.

Lemma keyed_above k x l : Forall (key_le x) l -> String.le k (finalKey x) -> k <> finalKey x -> filter (keyed k) l = [].
Proof.
  intros Hl Hk Hne. induction Hl as [|y l Hy _ IH]; [done|]. rewrite filter_cons_False; [done|].
  intros <-. apply Hne. by apply (anti_symm String.le).
Qed.

Lemma insert_keyed k o l :
  StronglySorted key_le l -> filter (keyed k) (insert_final o l) = filter (keyed k) l ++ filter (keyed k) [o].
Proof.
  induction 1 as [|x l Hs IH Hx]; simpl; [done|].
  pose proof (ltb_spec (finalKey o) (finalKey x)) as Hlt. destruct (String.ltb _ _).
  - rewrite (filter_cons _ o (x :: l)), (filter_cons _ o []), filter_nil. case_decide as Ho; [|by rewrite app_nil_r].
    subst k. assert (filter (keyed (finalKey o)) (x :: l) = []) as ->; [|done].
    rewrite filter_cons_False by (intros E; by apply Hlt). by apply (keyed_above _ x); [|apply Hlt..].
  - rewrite !(filter_cons _ x). rewrite IH. by case_decide.
Qed.

Lemma foldl_keyed k l : forall acc,
  StronglySorted key_le acc ->
  StronglySorted key_le (foldl (fun sorted o => insert_final o sorted) acc l) /\
  filter (keyed k) (foldl (fun sorted o => insert_final o sorted) acc l) = filter (keyed k) acc ++ filter (keyed k) l.
Proof.
  induction l as [|x l IH]; intros acc Hs; simpl; [by rewrite filter_nil, app_nil_r|].
  destruct (IH (insert_final x acc)) as [H1 ->]; [by apply insert_sorted|]. split; [done|].
  rewrite insert_keyed by done. change (x :: l) with ([x] ++ l). by rewrite filter_app, app_assoc.
Qed.

Lemma sorted_by_key l l' :
  StronglySorted key_le l -> StronglySorted key_le l' ->
  (forall k, filter (keyed k) l = filter (keyed k) l') -> l = l'.
Proof.
  intros Hl. revert l'. induction Hl as [|x l Hs IH Hx]; intros l' Hl' H.
  - destruct l' as [|y l']; [done|]. specialize (H (finalKey y)). by rewrite filter_cons_True in H.
  - destruct Hl' as [|y l' Hs' Hy]; [specialize (H (finalKey x)); by rewrite filter_cons_True in H|].
    assert (finalKey x = finalKey y) as He.
    { destruct (decide (finalKey x = finalKey y)) as [|Hne]; [done|].
      destruct (total String.le (finalKey x) (finalKey y)) as [Hle|Hle].
      - specialize (H (finalKey x)). rewrite filter_cons_True, filter_cons_False in H by done.
        rewrite (keyed_above (finalKey x) y l') in H; [discriminate H | done..].
      - specialize (H (finalKey y)). rewrite filter_cons_False, filter_cons_True in H by done.
        rewrite (keyed_above (finalKey y) x l) in H; [discriminate H | done | done | congruence]. }
    assert (x = y) as ->.
    { specialize (H (finalKey x)). rewrite !filter_cons_True in H by done. by injection H. }
    f_equal. apply IH; [done|]. intros k. specialize (H k). rewrite !filter_cons in H.
    case_decide; [by injection H | done].
Qed.

Lemma sort_finals_eq l l' :
  sort_finals l = sort_finals l' <-> forall k, filter (keyed k) l = filter (keyed k) l'.
Proof.
  assert (forall k l, StronglySorted key_le (sort_finals l) /\ filter (keyed k) (sort_finals l) = filter (keyed k) l) as H.
  { intros k j. apply (foldl_keyed k j []). constructor. }
  split.
  - intros He k. by rewrite <- (proj2 (H k l)), <- (proj2 (H k l')), He.
  - intros Hk. apply sorted_by_key; [apply (H EmptyString) | apply (H EmptyString)|].
    intros k. rewrite (proj2 (H k l)), (proj2 (H k l')). apply Hk.
Qed.

(** *** Sessions and cases *)

Lemma written_session_eq x y :
  written_session x = written_session y <-> same_nil x y /\ map written_obs (elems x) = map written_obs (elems y).
Proof.
  unfold same_nil. destruct x as [l|], y as [l'|]; simpl; split; try done.
  - intros [= ->]. done.
  - by intros [_ ->].
  - intros [[_ H] _]. discriminate (H eq_refl).
  - intros [[H _] _]. discriminate (H eq_refl).
Qed.

Lemma map_content_same ig l l' :
  map (obs_content ig) l = map (obs_content ig) l' <-> Forall2 (same_observation ig) l l'.
Proof. apply map_same, obs_content_same. Qed.

Lemma dropped_nil ig s s' :
  same_nil (dropped ig s) (dropped ig s') <-> ig = true \/ same_nil s s'.
Proof. unfold same_nil. destruct ig; simpl; naive_solver. Qed.

Lemma before_final_nil s : before_final s = None <-> s = None.
Proof. by destruct s as [[|]|]. Qed.

Lemma session_same ig s s' :
  written_session (dropped ig s) = written_session (dropped ig s') <-> same_session ig s s'.
Proof.
  rewrite written_session_eq, dropped_nil, !elems_dropped, !map_map.
  unfold same_session. by rewrite <- map_content_same.
Qed.

Lemma race_session_same ig s s' :
  written_session (before_final (dropped ig s)) = written_session (before_final (dropped ig s')) <->
  same_race_session ig s s'.
Proof.
  rewrite written_session_eq. unfold same_nil at 1. rewrite !before_final_nil.
  fold (same_nil (dropped ig s) (dropped ig s')). rewrite dropped_nil, !elems_before_final, !elems_dropped.
  rewrite <- !map_without_last, !map_map, !without_last_removelast.
  unfold same_race_session. by rewrite <- map_content_same.
Qed.

Lemma last_steps_finals s : last_steps s = finals s.
Proof.
  unfold last_steps, finals. induction s as [|x s IH]; [done|]. cbn [map concat omap list_omap].
  unfold final_of at 1. rewrite <- IH. by destruct (last (elems x)).
Qed.

Lemma key_content ig o : finalKey (obs_content ig o) = final_key ig o.
Proof. by destruct ig. Qed.

Lemma filter_keyed ig k l :
  filter (keyed k) (map (obs_content ig) l) = map (obs_content ig) (filter (fun o => final_key ig o = k) l).
Proof.
  induction l as [|o l IH]; [done|]. simpl. rewrite !filter_cons, IH. rewrite key_content. by case_decide.
Qed.

Lemma finals_same ig s s' :
  written_session (pool (map (dropped ig) s)) = written_session (pool (map (dropped ig) s')) <->
  same_finals ig s s'.
Proof.
  assert (forall d, finals (map written_session (map (dropped ig) d)) = map (obs_content ig) (finals d)) as Hf.
  { intros d. by rewrite finals_written, finals_dropped, map_map. }
  rewrite !pool_written. transitivity (sort_finals (map (obs_content ig) (finals s)) =
                                       sort_finals (map (obs_content ig) (finals s'))).
  - pose proof (Hf s) as H1. pose proof (Hf s') as H2. unfold finals at 1 in H1. unfold finals at 1 in H2.
    unfold pool. rewrite H1, H2.
    assert (forall l, sort_finals l = [] -> l = []) as H0.
    { intros l Hl. apply Permutation_nil. rewrite <- Hl. apply sort_finals_perm. }
    destruct (map (obs_content ig) (finals s)) as [|o l] eqn:E, (map (obs_content ig) (finals s')) as [|o' l'] eqn:E'.
    + done.
    + split; [done|]. intros H%eq_sym%H0. done.
    + split; [done|]. intros H%H0. done.
    + by split; [intros [= ->] | intros ->].
  - rewrite sort_finals_eq. unfold same_finals. setoid_rewrite filter_keyed.
    setoid_rewrite map_content_same. by rewrite !last_steps_finals.
Qed.

Lemma case_data_same k k' : written_case_data k = written_case_data k' <-> same_case_data k k'.
Proof.
  unfold written_case_data, same_case_data. split.
  - intros H. split_and!; [exact (f_equal Name H) | exact (f_equal Group H) | exact (f_equal Note H)
      | exact (f_equal Steps H) | exact (f_equal IgnoreRows H) | exact (f_equal KnownGap H)
      | exact (f_equal RecordOnly H) | exact (f_equal SimpleProtocol H) | exact (f_equal ConflictRace H)].
  - by intros (-> & -> & -> & -> & -> & -> & -> & -> & ->).
Qed.

Lemma case_same c c' :
  written_case (enforcedCase c) = written_case (enforcedCase c') <-> same_case c c'.
Proof.
  assert (forall x y, written_case x = written_case y <->
            written_case_data (RCase x) = written_case_data (RCase y) /\
            map written_obs (Observations x) = map written_obs (Observations y) /\
            map written_session (SessionResults x) = map written_session (SessionResults y)) as H.
  { intros x y. unfold written_case. split.
    - intros He. split_and!; [exact (f_equal RCase He) | exact (f_equal Observations He) | exact (f_equal SessionResults He)].
    - by intros (-> & -> & ->). }
  rewrite H, !enforced_case_data, case_data_same, !enforced_observations, !enforced_sessions, !map_map.
  unfold same_case. assert (forall P Q R : Prop, (P -> Q <-> R) -> P /\ Q <-> P /\ R) as Hand by tauto.
  apply Hand. intros (_ & _ & _ & _ & <- & _ & _ & _ & <-). rewrite <- map_content_same.
  apply Hand. intros _. destruct (ConflictRace (RCase c)).
  - rewrite !map_app, <- (map_same _ _ (race_session_same _)), <- finals_same, !map_map. simpl. split.
    + intros [? [= ?]]%app_inj_tail. done.
    + by intros [-> ->].
  - rewrite !map_map. apply map_same, session_same.
Qed.

Lemma content_same r r' : content r = content r' <-> same_record r r'.
Proof.
  unfold same_record. rewrite <- (map_same _ _ case_same). unfold content. split.
  - intros H. split_and!; [exact (f_equal Target H) | exact (f_equal ServerVersion H)
      | exact (f_equal SuiteName H) | exact (f_equal Cases H)].
  - by intros (-> & -> & -> & ->).
Qed.

(** ** The theorems *)

(** Every text the record writes is UTF-8. *)
Definition record_utf8 (r : Record_) : Prop := valid_json (record_json r) = true.

Lemma same_bytes r r' :
  record_utf8 r -> record_utf8 r' -> (contentBytes r = contentBytes r' <-> content r = content r').
Proof.
  intros Hv Hv'. unfold contentBytes. split.
  - intros H. by apply record_json_inj, json_print_inj.
  - intros H. by rewrite (record_json_content _ _ H).
Qed.

(** C36: Whether a record has changed is decided on its bytes.  For text in UTF-8
    two records have the same bytes exactly when target, version and suite are the
    same and case by case the same data, the time of recording and the steps per
    session apart, and the same observations: outcome, SQLSTATE, message, tag,
    columns and rows of every step, but under [IgnoreRows] neither rows nor a tag
    that only counts them, and of a race the last steps taken together, whichever
    sessions they ended.  An error's message counts, which the comparison of a
    replay only notes. *)
Theorem contentBytes_exact r r' :
  record_utf8 r -> record_utf8 r' -> (contentBytes r = contentBytes r' <-> same_record r r').
Proof. intros Hr Hr'. rewrite <- content_same. by apply same_bytes. Qed.

(** C37: A record that is left on disk because its content is unchanged is one
    the new run passes against: provided the observations are as a run records
    them and the losers of each race lost with one SQLSTATE, every case of the one
    passes when compared with its case of the other.  Losers of two states that
    changed places are the same content but fail: [swapped_states_fail]. *)
Theorem unchanged_record_passes r r' :
  record_utf8 r -> record_utf8 r' ->
  Forall case_whole (Cases r) -> Forall case_whole (Cases r') ->
  Forall (fun c => ConflictRace (RCase c) = true -> one_losing_state (SessionResults c)) (Cases r) ->
  contentBytes r = contentBytes r' ->
  Forall2 (fun c c' => Name (RCase c) = Name (RCase c') /\ Failures (Compare c c') = [])
    (Cases r) (Cases r').
Proof.
  intros Hv Hv' Hr Hr' Hone Hb.
  apply same_bytes in Hb; [|done..]. apply (f_equal Cases) in Hb. simpl in Hb.
  revert Hr' Hb. generalize (Cases r') as l'.
  assert (Forall (fun c => case_whole c /\
            (ConflictRace (RCase c) = true -> one_losing_state (SessionResults c))) (Cases r)) as Hall
    by (by apply Forall_and).
  clear Hr Hone. induction Hall as [|c l [Hc Hone] _ IH]; intros [|c' l'] Hr' Hb;
    try discriminate Hb; [constructor|].
  apply Forall_cons in Hr' as [Hc' Hr']. apply (inj2 cons) in Hb as [Hcc Hb].
  constructor; [|by apply IH]. split.
  - apply (f_equal (fun c => Name (RCase c))) in Hcc. simpl in Hcc.
    by rewrite !enforced_case_data in Hcc.
  - apply Compare_passes. by apply unchanged_case_passes.
Qed.

(** ** Witnesses *)

Definition race_case : Case :=
  mkCase "write_write" "occ_conflict" "" None true "" [] false false true.

Definition ok_obs (tag : string) : Observation := mkObs "ok" "" "" (mkAnswer tag None None) [].
Definition lost_obs : Observation :=
  mkObs "error" "40001" "change conflicts" (mkAnswer "" None None) [].

(** Two runs of a race that different sessions lost. *)
Definition race_record (at_ : Z) (first_loses : bool) : Record_ :=
  let won := Some [ok_obs "BEGIN"; ok_obs "COMMIT"] in
  let lost := Some [ok_obs "BEGIN"; lost_obs] in
  mkRecord at_ "cluster" "16" "baseline"
    [mkRecorded race_case [] (if first_loses then [lost; won] else [won; lost])].

Lemma contentBytes_exact_witness :
  contentBytes (race_record 1 true) = contentBytes (race_record 2 false) /\
  same_record (race_record 1 true) (race_record 2 false).
Proof.
  assert (contentBytes (race_record 1 true) = contentBytes (race_record 2 false)) as H by (vm_compute; reflexivity).
  split; [exact H|]. apply contentBytes_exact; [reflexivity | reflexivity | exact H].
Defined.

Lemma race_whole at_ b : Forall case_whole (Cases (race_record at_ b)).
Proof. destruct b; repeat constructor; try discriminate; try (by intros); naive_solver. Qed.

Lemma unchanged_record_passes_witness :
  Forall2 (fun c c' => Name (RCase c) = Name (RCase c') /\ Failures (Compare c c') = [])
    (Cases (race_record 1 true)) (Cases (race_record 2 false)).
Proof.
  apply unchanged_record_passes; try apply race_whole; try reflexivity.
  constructor; [|constructor]. intros _. exists "40001". repeat constructor.
Defined.

(** Two runs of a race both lost, in which the SQLSTATEs changed places. *)
Definition states_record (first second : string) : Record_ :=
  let lost st := Some [ok_obs "BEGIN"; mkObs "error" st "change conflicts" (mkAnswer "" None None) []] in
  mkRecord 1 "cluster" "16" "baseline" [mkRecorded race_case [] [lost first; lost second]].

(** The pool makes them one content; the comparison takes the losers in the order
    of the sessions, and fails. *)
Lemma swapped_states_fail :
  contentBytes (states_record "40001" "OC000") = contentBytes (states_record "OC000" "40001") /\
  map Field (Failures (CompareSuites (states_record "40001" "OC000") (states_record "OC000" "40001"))) =
    ["sqlstate"; "sqlstate"].
Proof. vm_compute. done. Qed.
