(* ===== verification/Fixtures.v ===== *)
(** * Fixtures on disk: [Save], [SaveDir], [Load] and [LoadDir] of
      [internal/conformance/record.go]

    The directory of golden fixtures is a map from file names to what [Load]
    reads of each file; a group without a slash is the name of a file in it.  Which
    operations on it fail is not known, and a write that fails may leave its file
    damaged. *)

From Stdlib Require Import Ascii String.
From stdpp Require Import base numbers strings list gmap sorting.
From S2P Require Import Prelude GoStd Json Compare Record.

Local Open Scope Z_scope.

Inductive file := Fixture (r : Record_) | Damaged.

Abbreviation disk := (gmap string file).

Definition Load (f : option file) : option Record_ :=
  match f with Some (Fixture r) => Some r | _ => None end.

Inductive op := MkdirAll | WriteFile (name : string) (r : Record_) | Remove (name : string).

Definition perform (o : op) (d : disk) : disk :=
  match o with
  | MkdirAll => d
  | WriteFile n r => <[n := Fixture (written_record r)]> d
  | Remove n => delete n d
  end.

Definition damage (o : op) (d : disk) : disk :=
  match o with WriteFile n _ => <[n := Damaged]> d | _ => d end.

Definition sameContent (existing : option file) (golden : Record_) : bool :=
  match Load existing with
  | Some was => String.eqb (contentBytes was) (contentBytes golden)
  | None => false
  end.

Section save.
(** Which operations fail. *)
Variable fails : op -> bool.

Definition attempt (o : op) (d : disk) : bool * disk :=
  if fails o then (false, damage o d) else (true, perform o d).

(** [Save]: nothing when it failed, or else whether it wrote. *)
Definition Save (name : string) (golden : Record_) (d : disk) : option bool * disk :=
  match attempt MkdirAll d with
  | (false, d) => (None, d)
  | (true, d) =>
      if sameContent (d !! name) golden then (Some false, d)
      else match attempt (WriteFile name golden) d with
           | (true, d) => (Some true, d)
           | (false, d) => (None, d)
           end
  end.

(** The groups in order of appearance, and the cases of one. *)
Definition groups (cases : list RecordedCase) : list string :=
  foldl (fun seen c => if bool_decide (Group (RCase c) ∈ seen) then seen
                       else seen ++ [Group (RCase c)]) [] cases.

Definition part (golden : Record_) (g : string) : Record_ :=
  mkRecord (RecordedAt golden) (Target golden) (ServerVersion golden) (SuiteName golden)
    (List.filter (fun c => String.eqb (Group (RCase c)) g) (Cases golden)).

Definition fixture_name (group : string) : string := group +:+ ".json".

Fixpoint has_slash (s : string) : bool :=
  match s with EmptyString => false | String c s => Ascii.eqb c "/" || has_slash s end.

(** The names [filepath.Glob] finds, which it sorts: the star of a pattern stops at
    a slash. *)
Definition is_fixture (name : string) : bool :=
  String.prefix (string_rev ".json") (string_rev name) && negb (has_slash name).

Definition glob (d : disk) : list string :=
  sort_strings (List.filter is_fixture (map fst (map_to_list d))).

Definition stale (gs : list string) (d : disk) : list string :=
  List.filter (fun n => negb (bool_decide (n ∈ map fixture_name gs))) (glob d).

(** Saving the groups one after the other, with those that changed. *)
Fixpoint save_groups (golden : Record_) (gs : list string) (d : disk) : option (list string) * disk :=
  match gs with
  | [] => (Some [], d)
  | g :: gs =>
      match Save (fixture_name g) (part golden g) d with
      | (None, d) => (None, d)
      | (Some wrote, d) =>
          match save_groups golden gs d with
          | (Some changed, d) => (Some (if wrote then g :: changed else changed), d)
          | (None, d) => (None, d)
          end
      end
  end.

Fixpoint remove_all (names : list string) (d : disk) : option (list string) * disk :=
  match names with
  | [] => (Some [], d)
  | n :: names =>
      match attempt (Remove n) d with
      | (false, d) => (None, d)
      | (true, d) =>
          match remove_all names d with
          | (Some changed, d) => (Some (trim_suffix n ".json" :: changed), d)
          | (None, d) => (None, d)
          end
      end
  end.

(** [SaveDir]: the groups that changed, or nothing when it failed, and the
    directory it leaves. *)
Definition SaveDir (golden : option Record_) (d : disk) : option (list string) * disk :=
  match golden with
  | None => (None, d)
  | Some golden =>
      if negb (nonnil (Cases golden)) || existsb (fun c => String.eqb (Group (RCase c)) "") (Cases golden)
      then (None, d)
      else
        match attempt MkdirAll d with
        | (false, d) => (None, d)
        | (true, d) =>
            let gs := groups (Cases golden) in
            match save_groups golden gs d with
            | (None, d) => (None, d)
            | (Some changed, d) =>
                match remove_all (stale gs d) d with
                | (None, d) => (None, d)
                | (Some removed, d) => (Some (sort_strings (changed ++ removed)), d)
                end
            end
        end
  end.
End save.

(** ** Reading a directory *)

(** The cases of one fixture, each under a name not seen before. *)
Fixpoint add_cases (cases : list RecordedCase) (seen : gset string) (acc : list RecordedCase) :
    option (gset string * list RecordedCase) :=
  match cases with
  | [] => Some (seen, acc)
  | c :: cases =>
      if bool_decide (Name (RCase c) ∈ seen) then None
      else add_cases cases ({[Name (RCase c)]} ∪ seen) (acc ++ [c])
  end.

Fixpoint merge_parts (parts : list (option Record_)) (merged : Record_) (seen : gset string) :
    option Record_ :=
  match parts with
  | [] => Some merged
  | None :: _ => None
  | Some p :: parts =>
      if negb (String.eqb (SuiteName merged) "") && negb (String.eqb (SuiteName p) (SuiteName merged))
      then None
      else
        match add_cases (Cases p) seen (Cases merged) with
        | None => None
        | Some (seen, cases) =>
            let m := if String.eqb (SuiteName merged) "" then p else merged in
            merge_parts parts
              (mkRecord (RecordedAt m) (Target m) (ServerVersion m) (SuiteName m) cases) seen
        end
  end.

Definition name_le (a b : RecordedCase) : Prop := String.le (Name (RCase a)) (Name (RCase b)).

#[export] Instance name_le_dec : RelDecision name_le.
Proof. intros a b. apply (decide_rel String.le). Defined.
#[export] Instance name_le_trans : Transitive name_le.
Proof. intros a b c. apply (transitivity (R := String.le)). Qed.
#[export] Instance name_le_total : Total name_le.
Proof. intros a b. apply (total String.le). Qed.

Definition sorted_record (r : Record_) : Record_ :=
  mkRecord (RecordedAt r) (Target r) (ServerVersion r) (SuiteName r) (merge_sort name_le (Cases r)).

Definition no_record : Record_ := mkRecord 0 "" "" "" [].

Definition LoadDir (d : disk) : option Record_ :=
  match glob d with
  | [] => None
  | names => sorted_record <$> merge_parts (map (fun n => Load (d !! n)) names) no_record ∅
  end.

(** ** What saving leaves on disk *)

Lemma string_length_app (a b : string) :
  String.length (a +:+ b) = (String.length a + String.length b)%nat.
Proof. induction a as [|x a IH]; [done | exact (f_equal S IH)]. Qed.

Lemma string_app_inj_r (a b c : string) : a +:+ c = b +:+ c -> a = b.
Proof.
  intros H. apply (f_equal String.length) in H as Hl.
  rewrite !string_length_app in Hl. assert (String.length a = String.length b) as Hlen by lia.
  clear Hl. revert b H Hlen. induction a as [|x a IH]; intros [|y b] H Hlen; try discriminate Hlen; [done|].
  injection H as -> H. injection Hlen as Hlen. f_equal. by apply IH.
Qed.

#[export] Instance fixture_name_inj : Inj (=) (=) fixture_name.
Proof. intros a b. apply string_app_inj_r. Qed.

Section saved.
Variable fails : op -> bool.

Lemma Save_spec name r d res d' :
  Save fails name r d = (res, d') ->
  (forall n, n <> name -> d' !! n = d !! n) /\
  (is_Some (d !! name) -> is_Some (d' !! name)) /\
  (forall wrote, res = Some wrote ->
     sameContent (d' !! name) r = true /\ wrote = negb (sameContent (d !! name) r) /\
     (if wrote then d' !! name = Some (Fixture (written_record r)) else d' = d)).
Proof.
  unfold Save, attempt. destruct (fails MkdirAll); [by intros [= <- <-]|]. simpl.
  destruct (sameContent (d !! name) r) eqn:Hs; [intros [= <- <-]; naive_solver|].
  destruct (fails (WriteFile name r)); intros [= <- <-]; simpl; split_and!; try done.
  - intros n Hn. by rewrite lookup_insert_ne.
  - by rewrite lookup_insert_eq.
  - intros n Hn. by rewrite lookup_insert_ne.
  - by rewrite lookup_insert_eq.
  - intros wrote [= <-]. split_and!; [|done|apply lookup_insert_eq]. rewrite lookup_insert_eq. unfold sameContent. cbn [Load].
    by rewrite contentBytes_written, String.eqb_refl.
Qed.

Lemma save_groups_spec golden gs d res d' :
  NoDup gs -> save_groups fails golden gs d = (res, d') ->
  (forall n, n ∉ map fixture_name gs -> d' !! n = d !! n) /\
  (forall n, is_Some (d !! n) -> is_Some (d' !! n)) /\
  (forall changed, res = Some changed ->
     (forall g, g ∈ gs -> sameContent (d' !! fixture_name g) (part golden g) = true) /\
     (forall g, g ∈ gs -> sameContent (d !! fixture_name g) (part golden g) = true ->
        d' !! fixture_name g = d !! fixture_name g) /\
     (forall g, g ∈ gs -> sameContent (d !! fixture_name g) (part golden g) = false ->
        d' !! fixture_name g = Some (Fixture (written_record (part golden g)))) /\
     (forall g, g ∈ changed <-> g ∈ gs /\ sameContent (d !! fixture_name g) (part golden g) = false)).
Proof.
  revert d res d'. induction gs as [|g gs IH]; intros d res d' Hnd H; simpl in H.
  - injection H as <- <-. split_and!; [done..|]. intros ? [= <-]. set_solver.
  - apply NoDup_cons in Hnd as [Hg Hnd].
    destruct (Save fails (fixture_name g) (part golden g) d) as [[wrote|] d1] eqn:Hsave;
      apply Save_spec in Hsave as (Hother & Hkeep & Hdone).
    2: { injection H as <- <-. split_and!; [|intros n Hn|done].
      - intros n Hn. apply Hother. set_solver.
      - destruct (decide (n = fixture_name g)) as [->|]; [by apply Hkeep | by rewrite Hother]. }
    destruct (save_groups fails golden gs d1) as [res' d2] eqn:Hrest.
    destruct (IH _ _ _ Hnd Hrest) as (Hother' & Hkeep' & Hdone').
    assert (fixture_name g ∉ map fixture_name gs) as Hfresh.
    { intros (g' & Hg' & ?)%list_elem_of_fmap. by apply (inj fixture_name) in Hg' as <-. }
    assert (forall n, n ∉ map fixture_name (g :: gs) -> d2 !! n = d !! n) as Ho.
    { intros n Hn. simpl in Hn. apply not_elem_of_cons in Hn as [Hn1 Hn2]. by rewrite Hother', Hother. }
    assert (forall n, is_Some (d !! n) -> is_Some (d2 !! n)) as Hk.
    { intros n Hn. apply Hkeep'.
      destruct (decide (n = fixture_name g)) as [->|]; [by apply Hkeep | by rewrite Hother]. }
    destruct (Hdone wrote eq_refl) as (Hsame & Hwrote & Hleft).
    destruct res' as [changed|]; injection H as <- <-; split_and!; try done.
    intros ch [= <-]. destruct (Hdone' changed eq_refl) as (Hall & Hun & Hnew & Hch).
    assert (forall g', g' ∈ gs -> d1 !! fixture_name g' = d !! fixture_name g') as Hd1.
    { intros g' Hg'. apply Hother. intros ->%(inj fixture_name). done. }
    split_and!.
    + intros g' [->|Hg']%elem_of_cons; [by rewrite Hother' | by apply Hall].
    + intros g' [->|Hg']%elem_of_cons Hs; [rewrite Hother' by done|].
      * rewrite Hs in Hwrote. simpl in Hwrote. rewrite Hwrote in Hleft. by rewrite Hleft.
      * rewrite <- (Hd1 g' Hg') in Hs. by rewrite (Hun g' Hg' Hs), Hd1.
    + intros g' [->|Hg']%elem_of_cons Hs; [rewrite Hother' by done|].
      * rewrite Hs in Hwrote. simpl in Hwrote. by rewrite Hwrote in Hleft.
      * rewrite <- (Hd1 g' Hg') in Hs. by apply Hnew.
    + intros g'. rewrite elem_of_cons.
      assert (g' ∈ changed <-> g' ∈ gs /\ sameContent (d !! fixture_name g') (part golden g') = false) as Hch'.
      { rewrite Hch. split; intros [Hin Hs]; (split; [done|]); by rewrite (Hd1 g' Hin) in *. }
      destruct wrote; rewrite ?elem_of_cons, Hch'.
      * symmetry in Hwrote. apply negb_true_iff in Hwrote. naive_solver.
      * symmetry in Hwrote. apply negb_false_iff in Hwrote. split; [naive_solver|].
        intros [[->|Hin] Hs]; [congruence | done].
Qed.

Lemma remove_all_spec names d res d' :
  remove_all fails names d = (res, d') ->
  (forall n, n ∉ names -> d' !! n = d !! n) /\
  (forall n, d' !! n = d !! n \/ d' !! n = None) /\
  (forall changed, res = Some changed ->
     (forall n, n ∈ names -> d' !! n = None) /\ changed = map (fun n => trim_suffix n ".json") names).
Proof.
  revert d res d'. induction names as [|n names IH]; intros d res d' H; simpl in H.
  - injection H as <- <-. split_and!; [done | by left |]. intros ? [= <-]. split; [set_solver | done].
  - unfold attempt in H. destruct (fails (Remove n)); simpl in H.
    { injection H as <- <-. split_and!; [done | by left | done]. }
    destruct (remove_all fails names (delete n d)) as [res' d2] eqn:Hrest.
    destruct (IH _ _ _ Hrest) as (Hother & Hsome & Hdone).
    assert (forall m, m ∉ n :: names -> d2 !! m = d !! m) as Ho.
    { intros m [Hm1 Hm2]%not_elem_of_cons. rewrite Hother by done. by apply lookup_delete_ne. }
    assert (forall m, d2 !! m = d !! m \/ d2 !! m = None) as Hs.
    { intros m. destruct (Hsome m) as [->| ->]; [|by right].
      destruct (decide (m = n)) as [->|]; [right; apply lookup_delete_eq|].
      left. by apply lookup_delete_ne. }
    destruct res' as [changed|]; injection H as <- <-; split_and!; try done.
    intros ch [= <-]. destruct (Hdone changed eq_refl) as [Hnone ->]. split; [|done].
    intros m [->|Hm]%elem_of_cons; [|by apply Hnone].
    destruct (Hsome n) as [->|?]; [apply lookup_delete_eq | done].
Qed.

Lemma groups_spec cases :
  NoDup (groups cases) /\ forall g, g ∈ groups cases <-> g ∈ map (fun c => Group (RCase c)) cases.
Proof.
  unfold groups.
  assert (forall seen, NoDup seen ->
    let r := foldl (fun seen c => if bool_decide (Group (RCase c) ∈ seen) then seen
                                  else seen ++ [Group (RCase c)]) seen cases in
    NoDup r /\ forall g, g ∈ r <-> g ∈ seen \/ g ∈ map (fun c => Group (RCase c)) cases) as H.
  { induction cases as [|c cases IH]; intros seen Hnd; simpl; [set_solver|].
    case_bool_decide as Hin.
    - destruct (IH seen Hnd) as [H1 H2]. split; [done|]. intros g. rewrite H2. set_solver.
    - destruct (IH (seen ++ [Group (RCase c)])) as [H1 H2].
      + apply NoDup_app. split_and!; [done | set_solver | apply NoDup_singleton].
      + split; [done|]. intros g. rewrite H2. set_solver. }
  destruct (H [] (NoDup_nil_2)) as [H1 H2]. split; [done|]. intros g. rewrite H2. set_solver.
Qed.
End saved.

(** ** Names *)

Lemma string_rev_app_spec s acc : string_rev_app s acc = string_rev s +:+ acc.
Proof.
  unfold string_rev. revert acc. induction s as [|c s IH]; intros acc; simpl; [done|].
  rewrite (IH (String c acc)), (IH (String c EmptyString)), string_app_assoc. done.
Qed.

Lemma string_rev_append a b : string_rev (a +:+ b) = string_rev b +:+ string_rev a.
Proof.
  induction a as [|c a IH]; [by rewrite string_app_nil|].
  change (string_rev_app (a +:+ b) (String c EmptyString) =
          string_rev b +:+ string_rev_app a (String c EmptyString)).
  rewrite !string_rev_app_spec, IH. apply string_app_assoc.
Qed.

Lemma prefix_append p s : String.prefix p (p +:+ s) = true.
Proof.
  induction p as [|c p IH]; [by destruct s|]. change (String c p +:+ s) with (String c (p +:+ s)).
  simpl. destruct (ascii_dec c c); [done | congruence].
Qed.

Lemma has_slash_app a b : has_slash (a +:+ b) = has_slash a || has_slash b.
Proof.
  induction a as [|c a IH]; [done|]. change (String c a +:+ b) with (String c (a +:+ b)). simpl.
  by rewrite IH, orb_assoc.
Qed.

Lemma is_fixture_name g : has_slash g = false -> is_fixture (fixture_name g) = true.
Proof.
  intros Hg. unfold is_fixture, fixture_name. rewrite string_rev_append, has_slash_app, Hg.
  simpl has_slash. rewrite andb_true_r. apply prefix_append.
Qed.

(** Every group names a file of the directory itself. *)
Definition plain_groups (cases : list RecordedCase) : Prop :=
  forall c, c ∈ cases -> has_slash (Group (RCase c)) = false.

Lemma plain_group g cases : plain_groups cases -> g ∈ groups cases -> has_slash g = false.
Proof. intros Hp Hg. apply groups_spec, list_elem_of_fmap in Hg as (c & -> & Hc). by apply Hp. Qed.

Lemma elem_of_glob n (d : disk) : n ∈ glob d <-> is_fixture n = true /\ is_Some (d !! n).
Proof.
  unfold glob, sort_strings. rewrite merge_sort_Permutation, elem_of_filter_bool.
  split; intros [Hf Hn]; (split; [done|]).
  - apply list_elem_of_fmap in Hn as ([m f] & -> & Hin). apply elem_of_map_to_list in Hin. by exists f.
  - destruct Hn as [f Hf']. apply (list_elem_of_fmap_2 fst _ (n, f)). by apply elem_of_map_to_list.
Qed.

Lemma NoDup_filter_bool {A} (f : A -> bool) l : NoDup l -> NoDup (List.filter f l).
Proof. rewrite !NoDup_ListNoDup. apply List.NoDup_filter. Qed.

Lemma NoDup_glob (d : disk) : NoDup (glob d).
Proof.
  unfold glob, sort_strings. rewrite merge_sort_Permutation. apply NoDup_filter_bool.
  apply NoDup_fst_map_to_list.
Qed.

(** ** A save that fails *)

(** Whether a record can be saved at all. *)
Definition saveable (golden : option Record_) : bool :=
  match golden with
  | Some r => nonnil (Cases r) && forallb (fun c => nonempty (Group (RCase c))) (Cases r)
  | None => false
  end.

Lemma existsb_forallb {A} (p q : A -> bool) l :
  (forall x, p x = negb (q x)) -> existsb p l = negb (forallb q l).
Proof. intros H. induction l as [|x l IH]; simpl; [done|]. by rewrite H, IH, negb_andb. Qed.

Lemma SaveDir_saveable fails golden r d :
  golden = Some r -> saveable golden = true ->
  SaveDir fails golden d =
  match attempt fails MkdirAll d with
  | (false, d) => (None, d)
  | (true, d) =>
      let gs := groups (Cases r) in
      match save_groups fails r gs d with
      | (None, d) => (None, d)
      | (Some changed, d) =>
          match remove_all fails (stale gs d) d with
          | (None, d) => (None, d)
          | (Some removed, d) => (Some (sort_strings (changed ++ removed)), d)
          end
      end
  end.
Proof.
  intros -> H. simpl in H. apply andb_true_iff in H as [H1 H2]. unfold SaveDir.
  rewrite H1, (existsb_forallb _ (fun c => nonempty (Group (RCase c)))), H2; [done|].
  intros c. unfold nonempty. by rewrite negb_involutive.
Qed.

Lemma SaveDir_refused fails golden d : saveable golden = false -> SaveDir fails golden d = (None, d).
Proof.
  destruct golden as [r|]; [|done]. simpl. intros H. apply andb_false_iff in H as [H|H].
  - by rewrite H.
  - rewrite (existsb_forallb _ (fun c => nonempty (Group (RCase c)))), H, orb_true_r; [done|].
    intros c. unfold nonempty. by rewrite negb_involutive.
Qed.

(** Nothing else stands in the way of a save. *)
Lemma SaveDir_succeeds fails r d :
  (forall o, fails o = false) -> saveable (Some r) = true ->
  exists changed d', SaveDir fails (Some r) d = (Some changed, d').
Proof.
  intros Hf Hs. rewrite (SaveDir_saveable _ _ r) by done. unfold attempt. rewrite Hf. cbn zeta beta iota.
  assert (forall gs d, exists changed d', save_groups fails r gs d = (Some changed, d')) as Hg.
  { intros gs. induction gs as [|g gs IH]; intros d0; simpl; [by eexists _, _|].
    unfold Save, attempt. rewrite !Hf.
    destruct (sameContent (perform MkdirAll d0 !! fixture_name g) (part r g)); cbv iota beta;
      (match goal with |- context [save_groups _ _ _ ?x] => destruct (IH x) as (ch & d' & ->) end;
       by eexists _, _). }
  assert (forall ns d, exists changed d', remove_all fails ns d = (Some changed, d')) as Hr.
  { intros ns. induction ns as [|n ns IH]; intros d0; simpl; [by eexists _, _|].
    unfold attempt. rewrite Hf. destruct (IH (perform (Remove n) d0)) as (ch & d' & ->). by eexists _, _. }
  destruct (Hg (groups (Cases r)) (perform MkdirAll d)) as (ch & d1 & ->).
  destruct (Hr (stale (groups (Cases r)) d1) d1) as (rm & d2 & ->). by eexists _, _.
Qed.

(** C38: The groups of the record naming files of the directory itself, whatever
    fails on the way, a fixture that was in the directory is gone only when every group of the new record is on disk with the content it should
    have; a file that is no fixture stays as it is; and a record without cases, or
    with a case without a group, changes nothing. *)
Theorem SaveDir_keeps fails golden d res d' :
  (forall r, golden = Some r -> plain_groups (Cases r)) -> SaveDir fails golden d = (res, d') ->
  (forall n, is_Some (d !! n) -> d' !! n = None ->
     is_fixture n = true /\
     exists r, golden = Some r /\ forall c, c ∈ Cases r ->
       sameContent (d' !! fixture_name (Group (RCase c))) (part r (Group (RCase c))) = true) /\
  (forall n, is_fixture n = false -> d' !! n = d !! n) /\
  (saveable golden = false -> res = None /\ d' = d).
Proof.
  intros Hplain_groups H. destruct (saveable golden) eqn:Hs.
  2: { rewrite SaveDir_refused in H by done. injection H as <- <-. split_and!; [|done..].
       intros n [f Hf] Hn. congruence. }
  destruct golden as [r|]; [|done].
  rewrite (SaveDir_saveable _ _ r) in H by done. unfold attempt in H.
  destruct (fails MkdirAll).
  { injection H as <- <-. split_and!; [|done..]. intros n [f Hf] Hn. simpl in Hn. congruence. }
  cbn zeta beta iota in H. simpl perform in H.
  destruct (groups_spec (Cases r)) as [Hnd Hgs].
  destruct (save_groups fails r (groups (Cases r)) d) as [res1 d1] eqn:Hsave.
  destruct (save_groups_spec fails _ _ _ _ _ Hnd Hsave) as (Hother & Hkeep & Hdone).
  assert (forall n, is_fixture n = false -> d1 !! n = d !! n) as Hplain.
  { intros n Hn. apply Hother. intros (g & -> & Hg)%list_elem_of_fmap.
    by rewrite (is_fixture_name g (plain_group g _ (Hplain_groups r eq_refl) Hg)) in Hn. }
  destruct res1 as [changed|].
  2: { injection H as <- <-. split_and!; [|done..]. intros n Hn Hnone.
       destruct (Hkeep n Hn) as [f Hf]. congruence. }
  destruct (Hdone changed eq_refl) as (Hall & _).
  destruct (remove_all fails (stale (groups (Cases r)) d1) d1) as [res2 d2] eqn:Hrm.
  destruct (remove_all_spec fails _ _ _ _ Hrm) as (Hother2 & _ & _).
  assert (d' = d2) as -> by (destruct res2; by injection H).
  assert (forall g, g ∈ groups (Cases r) -> d2 !! fixture_name g = d1 !! fixture_name g) as Hg.
  { intros g Hg. apply Hother2. unfold stale. rewrite elem_of_filter_bool.
    intros [Hn _]. apply negb_true_iff, bool_decide_eq_false in Hn. apply Hn.
    by apply (list_elem_of_fmap_2 fixture_name). }
  assert (forall n, is_fixture n = false -> d2 !! n = d1 !! n) as Hplain2.
  { intros n Hn. apply Hother2. unfold stale. rewrite elem_of_filter_bool, elem_of_glob.
    intros (_ & Hf & _). congruence. }
  split_and!; [|intros n Hn; by rewrite Hplain2, Hplain | done].
  intros n Hn Hnone. split.
  - apply not_false_iff_true. intros Hf. destruct Hn as [f Hf'].
    rewrite Hplain2, Hplain in Hnone by done. congruence.
  - exists r. split; [done|]. intros c Hc.
    assert (Group (RCase c) ∈ groups (Cases r)) as Hin.
    { apply Hgs. by apply (list_elem_of_fmap_2 (fun c => Group (RCase c))). }
    rewrite (Hg _ Hin). by apply Hall.
Qed.

(** ** Merging fixtures *)

Definition meta (r : Record_) : string * string * string := (Target r, ServerVersion r, SuiteName r).

Lemma add_cases_fresh cases seen acc :
  NoDup (map (fun c => Name (RCase c)) cases) ->
  (forall c, c ∈ cases -> Name (RCase c) ∉ seen) ->
  exists seen', add_cases cases seen acc = Some (seen', acc ++ cases) /\
    forall n, n ∈ seen' <-> n ∈ seen \/ n ∈ map (fun c => Name (RCase c)) cases.
Proof.
  revert seen acc. induction cases as [|c cases IH]; intros seen acc Hnd Hfresh; simpl.
  - exists seen. rewrite app_nil_r. split; [done | set_solver].
  - simpl in Hnd. apply NoDup_cons in Hnd as [Hc Hnd].
    rewrite bool_decide_eq_false_2 by (apply Hfresh; by left).
    destruct (IH ({[Name (RCase c)]} ∪ seen) (acc ++ [c]) Hnd) as (seen' & -> & Hs).
    + intros c' Hc' [Heq%elem_of_singleton|Hin]%elem_of_union.
      * apply Hc. rewrite <- Heq. by apply (list_elem_of_fmap_2 (fun c => Name (RCase c))).
      * by apply (Hfresh c'); [right|].
    + exists seen'. rewrite <- app_assoc. split; [done|]. intros n. rewrite Hs. set_solver.
Qed.

Lemma merge_parts_fresh T V S ps merged seen :
  S <> EmptyString -> Forall (fun p => meta p = (T, V, S)) ps ->
  meta merged = (T, V, S) \/ SuiteName merged = EmptyString /\ ps <> [] ->
  NoDup (concat (map names ps)) ->
  (forall n, n ∈ concat (map names ps) -> n ∉ seen) ->
  exists m, merge_parts (map Some ps) merged seen = Some m /\ meta m = (T, V, S) /\
    Cases m = Cases merged ++ concat (map Cases ps).
Proof.
  intros HS Hps. revert merged seen. induction Hps as [|p ps Hp Hps IH]; intros merged seen Hm Hnd Hfresh; simpl.
  - exists merged. rewrite app_nil_r. destruct Hm as [?|[_ ?]]; done.
  - simpl in Hnd. apply NoDup_app in Hnd as (Hnd1 & Hdis & Hnd2). injection Hp as HT HV HSp.
    assert (negb (String.eqb (SuiteName merged) "") &&
            negb (String.eqb (SuiteName p) (SuiteName merged)) = false) as ->.
    { destruct Hm as [[= _ _ ->]|[-> _]]; [|done]. by rewrite HSp, String.eqb_refl, andb_false_r. }
    destruct (add_cases_fresh (Cases p) seen (Cases merged) Hnd1) as (seen' & -> & Hseen).
    { intros c Hc. apply Hfresh. simpl. apply elem_of_app. left.
      by apply (list_elem_of_fmap_2 (fun c => Name (RCase c))). }
    match goal with |- context [merge_parts _ ?m' _] => set (next := m') end.
    assert (meta next = (T, V, S)) as Hmeta.
    { unfold next, meta. simpl. destruct Hm as [[= H1 H2 H3]|[H3 _]]; rewrite H3.
      - apply String.eqb_neq in HS as ->. by rewrite H1, H2, H3.
      - simpl. by rewrite HT, HV, HSp. }
    destruct (IH next seen') as (m & -> & Hmm & Hcases); [by left | done | |].
    + intros n Hn. rewrite Hseen. intros [H|H].
      * apply (Hfresh n); [|done]. simpl. apply elem_of_app. by right.
      * by apply (Hdis n).
    + exists m. split_and!; [done..|]. rewrite Hcases. simpl. by rewrite app_assoc.
Qed.

Lemma group_partition (cases : list RecordedCase) gs :
  NoDup gs -> (forall c, c ∈ cases -> Group (RCase c) ∈ gs) ->
  concat (map (fun g => List.filter (fun c => String.eqb (Group (RCase c)) g) cases) gs) ≡ₚ cases.
Proof.
  intros Hnd. induction cases as [|c cases IH]; intros Hin.
  - clear. by induction gs.
  - assert (Group (RCase c) ∈ gs) as Hc by (apply Hin; by left).
    etransitivity; [|apply Permutation_skip, IH; intros; apply Hin; by right]. clear IH Hin.
    induction gs as [|g gs IH]; [by apply not_elem_of_nil in Hc|].
    apply NoDup_cons in Hnd as [Hg Hnd]. simpl.
    destruct (String.eqb_spec (Group (RCase c)) g) as [<-|Hne].
    + simpl. f_equiv. f_equiv.
      assert (forall gs', Group (RCase c) ∉ gs' ->
        map (fun g => List.filter (fun c => String.eqb (Group (RCase c)) g) (c :: cases)) gs' =
        map (fun g => List.filter (fun c => String.eqb (Group (RCase c)) g) cases) gs') as Hmap.
      { intros gs' Hn. apply map_ext_in. intros g' Hg'%list_elem_of_In. simpl.
        destruct (String.eqb_spec (Group (RCase c)) g') as [<-|]; done. }
      simpl in Hmap. by rewrite (Hmap gs Hg).
    + apply elem_of_cons in Hc as [|Hc]; [done|]. rewrite (IH Hnd Hc). symmetry. apply Permutation_middle.
Qed.

Lemma NoDup_map_inj {A B} (f : A -> B) l x y :
  NoDup (map f l) -> x ∈ l -> y ∈ l -> f x = f y -> x = y.
Proof.
  induction l as [|a l IH]; simpl; intros Hnd Hx Hy Hf; [by apply not_elem_of_nil in Hx|].
  apply NoDup_cons in Hnd as [Ha Hnd].
  apply elem_of_cons in Hx as [->|Hx], Hy as [->|Hy]; [done| | |by apply IH].
  - destruct Ha. rewrite Hf. by apply (list_elem_of_fmap_2 f).
  - destruct Ha. rewrite <- Hf. by apply (list_elem_of_fmap_2 f).
Qed.

(** What is enforced of a case, as it is read back. *)
Definition kept (c : RecordedCase) : RecordedCase := written_case (enforcedCase c).

Lemma kept_name c : Name (RCase (kept c)) = Name (RCase c).
Proof. unfold kept, written_case. simpl. by rewrite enforced_case_data. Qed.

Lemma kept_names l : map (fun c => Name (RCase c)) (map kept l) = map (fun c => Name (RCase c)) l.
Proof. rewrite map_map. apply map_ext, kept_name. Qed.

Lemma sorted_kept l : Sorted name_le l -> Sorted name_le (map kept l).
Proof.
  intros H. apply (Sorted_fmap kept name_le name_le); [|done].
  intros x y. unfold name_le. by rewrite !kept_name.
Qed.

Lemma sorted_kept_unique l l' :
  NoDup (map (fun c => Name (RCase c)) l') -> map kept l ≡ₚ map kept l' ->
  map kept (merge_sort name_le l) = map kept (merge_sort name_le l').
Proof.
  intros Hnd Hp.
  assert (map kept (merge_sort name_le l) ≡ₚ map kept l) as H1
    by apply Permutation_map, merge_sort_Permutation.
  assert (map kept (merge_sort name_le l') ≡ₚ map kept l') as H2
    by apply Permutation_map, merge_sort_Permutation.
  apply (Sorted_unique_strong name_le); try (apply sorted_kept, Sorted_merge_sort; apply _).
  - intros x y Hx Hy Hxy Hyx. rewrite H1, Hp in Hx. rewrite H2 in Hy.
    apply (NoDup_map_inj (fun c => Name (RCase c)) (map kept l')); [by rewrite kept_names | done..|].
    by apply (anti_symm String.le).
  - by rewrite H1, H2.
Qed.

(** ** A save that succeeds *)

Lemma record_utf8_content r r' : content r = content r' -> record_utf8 r -> record_utf8 r'.
Proof. unfold record_utf8. by intros ->%record_json_content. Qed.

Definition valid_field_of (f : string * json) : bool := valid_utf8 f.1 && valid_json f.2.

Lemma valid_object l : valid_json (JObject l) = forallb valid_field_of l.
Proof. done. Qed.

Lemma valid_field k j : valid_utf8 k = true -> forallb valid_field_of [(k, j)] = valid_json j.
Proof. intros H. cbn [forallb]. unfold valid_field_of. cbn [fst snd]. by rewrite H, andb_true_r. Qed.

Lemma valid_cases cases :
  valid_json (cases_json cases) = forallb (fun c => valid_json (case_json (enforcedCase c))) cases.
Proof.
  unfold cases_json. cbn [valid_json]. induction cases as [|c cases IH]; [done|].
  cbn [map forallb]. by rewrite IH.
Qed.

Lemma part_utf8 r g : record_utf8 r -> record_utf8 (part r g).
Proof.
  unfold record_utf8, record_json. rewrite !valid_object, !forallb_app, !andb_true_iff.
  intros [Hh Hc]. split; [exact Hh|]. rewrite valid_field, valid_cases in * by done.
  rewrite forallb_forall in *. intros c Hin. apply Hc. by apply filter_In in Hin as [? _].
Qed.

Lemma LoadDir_names (d : disk) ns :
  glob d = ns -> ns <> [] ->
  LoadDir d = sorted_record <$> merge_parts (map (fun n => Load (d !! n)) ns) no_record ∅.
Proof. unfold LoadDir. intros ->. by destruct ns. Qed.

Section success.
Variables (fails : op -> bool) (r : Record_) (d : disk) (changed : list string) (d' : disk).
Hypothesis plain : plain_groups (Cases r).
Hypothesis saved : SaveDir fails (Some r) d = (Some changed, d').

Definition dir_changed (n : string) : Prop :=
  (n ∈ groups (Cases r) /\ sameContent (d !! fixture_name n) (part r n) = false) \/
  (exists f, is_fixture f = true /\ is_Some (d !! f) /\ ~ (f ∈ map fixture_name (groups (Cases r))) /\
             n = trim_suffix f ".json").

Lemma SaveDir_done :
  (forall g, g ∈ groups (Cases r) ->
     sameContent (d' !! fixture_name g) (part r g) = true /\
     d' !! fixture_name g =
       if sameContent (d !! fixture_name g) (part r g) then d !! fixture_name g
       else Some (Fixture (written_record (part r g)))) /\
  (forall f, is_fixture f = true -> f ∉ map fixture_name (groups (Cases r)) -> d' !! f = None) /\
  (forall n, n ∈ changed <-> dir_changed n).
Proof.
  assert (saveable (Some r) = true) as Hs.
  { apply not_false_iff_true. intros H. by rewrite SaveDir_refused in saved. }
  pose proof saved as H. rewrite (SaveDir_saveable _ _ r) in H by done. unfold attempt in H.
  destruct (fails MkdirAll); [done|]. cbn zeta beta iota in H. simpl perform in H.
  destruct (groups_spec (Cases r)) as [Hnd _].
  destruct (save_groups fails r (groups (Cases r)) d) as [[ch|] d1] eqn:Hsave; [|done].
  destruct (save_groups_spec fails _ _ _ _ _ Hnd Hsave) as (Hother & _ & Hdone).
  destruct (Hdone ch eq_refl) as (Hall & Hun & Hnew & Hch).
  destruct (remove_all fails (stale (groups (Cases r)) d1) d1) as [[rm|] d2] eqn:Hrm; [|done].
  injection H as <- <-.
  destruct (remove_all_spec fails _ _ _ _ Hrm) as (Hother2 & _ & Hdone2).
  destruct (Hdone2 rm eq_refl) as [Hgone ->].
  assert (forall f, f ∈ stale (groups (Cases r)) d1 <->
            is_fixture f = true /\ is_Some (d !! f) /\ ~ (f ∈ map fixture_name (groups (Cases r)))) as Hst.
  { intros f. unfold stale. rewrite elem_of_filter_bool, elem_of_glob, negb_true_iff, bool_decide_eq_false.
    split; intros H; [destruct H as (Hf & ? & Hd1) | destruct H as (? & Hd1 & Hf)];
      split_and!; try done; by rewrite (Hother f Hf) in *. }
  split_and!.
  - intros g Hg.
    assert (d2 !! fixture_name g = d1 !! fixture_name g) as E.
    { apply Hother2. rewrite Hst. intros (_ & _ & Hn). apply Hn.
      by apply (list_elem_of_fmap_2 fixture_name). }
    rewrite E. split; [by apply Hall|].
    destruct (sameContent (d !! fixture_name g) (part r g)) eqn:Hsame; [by apply Hun | by apply Hnew].
  - intros f Hf Hn. destruct (d !! f) eqn:Hd.
    + apply Hgone, Hst. split_and!; [done | by eexists | done].
    + rewrite Hother2; [by rewrite Hother|]. rewrite Hst. intros (_ & [? ?] & _). congruence.
  - intros n. unfold sort_strings. rewrite merge_sort_Permutation, elem_of_app, Hch.
    unfold dir_changed. rewrite list_elem_of_fmap. setoid_rewrite Hst.
    split; (intros [?|[f Hf]]; [by left | right; exists f; tauto]).
Qed.

Lemma glob_saved : glob d' ≡ₚ map fixture_name (groups (Cases r)).
Proof.
  destruct SaveDir_done as (Hall & Hgone & _). apply NoDup_Permutation.
  - apply NoDup_glob.
  - apply (NoDup_fmap_2 fixture_name). apply groups_spec.
  - intros f. rewrite elem_of_glob. split.
    + intros [Hf Hs]. destruct (decide (f ∈ map fixture_name (groups (Cases r)))) as [?|Hn]; [done|].
      rewrite (Hgone f Hf Hn) in Hs. by destruct Hs.
    + intros (g & -> & Hg)%list_elem_of_fmap. split; [by eapply is_fixture_name, plain_group|].
      destruct (Hall g Hg) as [Hs _]. unfold sameContent, Load in Hs.
      by destruct (d' !! fixture_name g).
Qed.

(** What a group's fixture holds. *)
Definition fixture_of (g : string) : Record_ := default no_record (Load (d' !! fixture_name g)).

Hypothesis r_utf8 : record_utf8 r.
Hypothesis d_utf8 : forall n e, d !! n = Some (Fixture e) -> record_utf8 e.

Lemma fixture_of_content g :
  g ∈ groups (Cases r) ->
  Load (d' !! fixture_name g) = Some (fixture_of g) /\ content (fixture_of g) = content (part r g).
Proof.
  intros Hg. destruct SaveDir_done as (Hall & _). destruct (Hall g Hg) as [Hs Hd].
  unfold fixture_of. unfold sameContent in Hs.
  destruct (Load (d' !! fixture_name g)) as [e|] eqn:He; [|done]. split; [done|]. simpl.
  apply String.eqb_eq in Hs. apply same_bytes; [|by apply part_utf8 | done].
  rewrite Hd in He. destruct (sameContent (d !! fixture_name g) (part r g)).
  - apply (d_utf8 (fixture_name g)). destruct (d !! fixture_name g) as [[]|]; simpl in He; congruence.
  - injection He as <-. apply (record_utf8_content (part r g)); [|by apply part_utf8].
    symmetry. apply content_written.
Qed.

Lemma fixture_cases gs :
  (forall g, g ∈ gs -> g ∈ groups (Cases r)) ->
  map kept (concat (map Cases (map fixture_of gs))) =
  map kept (concat (map (fun g => Cases (part r g)) gs)).
Proof.
  intros Hin. rewrite !concat_map, !map_map. f_equal. apply map_ext_in.
  intros g Hg%list_elem_of_In. destruct (fixture_of_content g (Hin g Hg)) as [_ Hc].
  by apply (f_equal Cases) in Hc.
Qed.

Lemma LoadDir_saved :
  SuiteName r <> EmptyString -> NoDup (names r) ->
  exists r', LoadDir d' = Some r' /\ content r' = content (sorted_record r).
Proof.
  intros Hsuite Hnames.
  destruct (Permutation_map_inv _ _ glob_saved) as (gs & Hglob & Hgs).
  assert (forall g, g ∈ gs -> g ∈ groups (Cases r)) as Hin by (intros g; by rewrite Hgs).
  assert (Cases r <> []) as Hne.
  { intros E. assert (saveable (Some r) = false) as Hs by (simpl; by rewrite E).
    by rewrite (SaveDir_refused _ _ _ Hs) in saved. }
  assert (concat (map (fun g => Cases (part r g)) gs) ≡ₚ Cases r) as Hpart.
  { apply group_partition; [rewrite <- Hgs; apply groups_spec|].
    intros c Hc. rewrite <- Hgs. apply groups_spec.
    by apply (list_elem_of_fmap_2 (fun c => Group (RCase c))). }
  pose proof (fixture_cases gs Hin) as Hcases.
  assert (map kept (concat (map Cases (map fixture_of gs))) ≡ₚ map kept (Cases r)) as Hkept.
  { rewrite Hcases. by apply Permutation_map. }
  assert (concat (map names (map fixture_of gs)) ≡ₚ names r) as Hn.
  { unfold names. rewrite <- (map_map Cases (map (fun c => Name (RCase c)))), <- concat_map.
    rewrite <- kept_names, Hkept, kept_names. done. }
  destruct gs as [|g0 gs'] eqn:Egs.
  { destruct (Cases r) as [|c l]; [done|]. by apply Permutation_nil in Hpart. }
  rewrite <- Egs in *.
  destruct (merge_parts_fresh (Target r) (ServerVersion r) (SuiteName r) (map fixture_of gs) no_record ∅)
    as (m & Hm & Hmeta & Hmc).
  - done.
  - apply Forall_map, Forall_forall. intros g Hg.
    destruct (fixture_of_content g (Hin g Hg)) as [_ Hc]. unfold content in Hc.
    injection Hc as H1 H2 H3 _. unfold meta. by rewrite H1, H2, H3.
  - right. split; [done|]. by rewrite Egs.
  - by rewrite Hn.
  - intros n _. apply not_elem_of_empty.
  - exists (sorted_record m).
    rewrite (LoadDir_names _ _ Hglob) by (by rewrite Egs).
    assert (map (fun n => Load (d' !! n)) (map fixture_name gs) = map Some (map fixture_of gs)) as HL.
    { rewrite !map_map. apply map_ext_in. intros g Hg%list_elem_of_In. by apply fixture_of_content, Hin. }
    rewrite HL, Hm. split; [done|].
    injection Hmeta as H1 H2 H3. unfold content, sorted_record. simpl.
    rewrite H1, H2, H3, Hmc. simpl. f_equal. apply (sorted_kept_unique _ _ Hnames Hkept).
Qed.

End success.

(** C39: A save that succeeds, of groups that name files of the directory, leaves one fixture per group and no other: those whose
    content was already right are left as they were, the others written, stale
    ones removed, and the names returned are the groups written and the fixtures
    removed.  Reading the directory back then gives the record again: the same
    target, version and suite, and in order of their names its cases, as far as
    they are enforced. *)
Theorem SaveDir_LoadDir fails r d changed d' :
  plain_groups (Cases r) -> SaveDir fails (Some r) d = (Some changed, d') ->
  (forall g, g ∈ groups (Cases r) ->
     d' !! fixture_name g = if sameContent (d !! fixture_name g) (part r g) then d !! fixture_name g
                            else Some (Fixture (written_record (part r g)))) /\
  glob d' ≡ₚ map fixture_name (groups (Cases r)) /\
  (forall n, n ∈ changed <-> dir_changed r d n) /\
  (record_utf8 r -> (forall n e, d !! n = Some (Fixture e) -> record_utf8 e) ->
   SuiteName r <> EmptyString -> NoDup (names r) ->
   exists r', LoadDir d' = Some r' /\ content r' = content (sorted_record r)).
Proof.
  intros Hp H. destruct (SaveDir_done _ _ _ _ _ H) as (Hall & _ & Hch). split_and!.
  - intros g Hg. by apply Hall.
  - by eapply glob_saved.
  - done.
  - intros. by eapply LoadDir_saved.
Qed.

(** ** Witnesses: a stale fixture beside the one a save writes *)

Definition sample_disk : disk := {["old.json" := Damaged]}.

Lemma sample_plain : plain_groups (Cases (sample_record "e")).
Proof. by intros c [->|[]%elem_of_nil]%elem_of_cons. Qed.

Lemma SaveDir_LoadDir_witness :
  exists changed d' r',
    SaveDir (fun _ => false) (Some (sample_record "e")) sample_disk = (Some changed, d') /\
    changed = ["old"; "supported"] /\
    LoadDir d' = Some r' /\ content r' = content (sorted_record (sample_record "e")).
Proof.
  destruct (SaveDir (fun _ => false) (Some (sample_record "e")) sample_disk) as [[changed|] d'] eqn:E;
    [|vm_compute in E; discriminate E].
  destruct (SaveDir_LoadDir _ _ _ _ _ sample_plain E) as (_ & _ & _ & H).
  destruct H as (r' & Hr & Hc).
  - reflexivity.
  - intros n e Hn. unfold sample_disk in Hn. apply lookup_singleton_Some in Hn as [_ [=]].
  - discriminate.
  - apply NoDup_singleton.
  - exists changed, d', r'. split; [reflexivity|]. split; [|split; [exact Hr | exact Hc]].
    clear -E. apply (f_equal fst) in E. vm_compute in E. by injection E as <-.
Defined.

(** A save whose write fails removes nothing. *)
Lemma SaveDir_keeps_witness :
  let fails o := match o with WriteFile _ _ => true | _ => false end in
  is_Some ((SaveDir fails (Some (sample_record "e")) sample_disk).2 !! "old.json").
Proof.
  intros fails.
  destruct (SaveDir fails (Some (sample_record "e")) sample_disk) as [res d'] eqn:E.
  assert (forall r, Some (sample_record "e") = Some r -> plain_groups (Cases r)) as Hp.
  { intros r [= <-]. exact sample_plain. }
  destruct (SaveDir_keeps _ _ _ _ _ Hp E) as (Hgone & _). simpl.
  destruct (d' !! "old.json") eqn:Hold; [by eexists|].
  destruct (Hgone "old.json") as (_ & r & [= <-] & Hr).
  - exists Damaged. apply lookup_singleton_eq.
  - exact Hold.
  - specialize (Hr (sample_recorded "e") (list_elem_of_here _ _)).
    apply (f_equal snd) in E. simpl in E. rewrite <- E in Hr. vm_compute in Hr. discriminate Hr.
Defined.
