(* ===== verification/Suite.v ===== *)
(** * The probes: [internal/conformance/suite.go]

    The suite as the value it builds, and the checks the program makes of it:
    that it can be recorded, saved and compared, that the tables of the setup are
    read back after it, and that what any of its statements creates is dropped at
    the end, but for what [default_suite_ready] names. *)

From Stdlib Require Import Ascii String.
From stdpp Require Import base numbers strings list.
From S2P Require Import Prelude GoStd Json Compare Record Fixtures.

Local Open Scope Z_scope.

Record Suite := mkSuite {
  SName : string;
  Setup : list string;
  Verify : list string;
  Cleanup : list string;
  SCases : list Case;
}.

(** ** Writing a probe down *)

Definition dq : string := String "034" EmptyString.
Definition nl : string := String "010" EmptyString.
Definition tab : string := String "009" EmptyString.

Definition one (sql : string) : slice string := Some [sql].

Definition probe (name group note : string) (steps : slice string) : Case :=
  mkCase name group note steps false EmptyString [] false false false.

Definition ignoring_rows (c : Case) : Case :=
  mkCase (Name c) (Group c) (Note c) (Steps c) true (KnownGap c) (Sessions c) (RecordOnly c)
    (SimpleProtocol c) (ConflictRace c).
Definition known_gap (gap : string) (c : Case) : Case :=
  mkCase (Name c) (Group c) (Note c) (Steps c) (IgnoreRows c) gap (Sessions c) (RecordOnly c)
    (SimpleProtocol c) (ConflictRace c).
Definition in_sessions (l : list (list string)) (c : Case) : Case :=
  mkCase (Name c) (Group c) (Note c) (Steps c) (IgnoreRows c) (KnownGap c) l (RecordOnly c)
    (SimpleProtocol c) (ConflictRace c).
Definition simply (c : Case) : Case :=
  mkCase (Name c) (Group c) (Note c) (Steps c) (IgnoreRows c) (KnownGap c) (Sessions c) (RecordOnly c)
    true (ConflictRace c).
Definition racing (c : Case) : Case :=
  mkCase (Name c) (Group c) (Note c) (Steps c) (IgnoreRows c) (KnownGap c) (Sessions c) (RecordOnly c)
    (SimpleProtocol c) true.

(** ** The suite *)

(** [setupStatements]. *)
Definition setupStatements : list string :=
  ["DROP TABLE IF EXISTS baseline_conflict_child";
   "DROP TABLE IF EXISTS baseline_conflict";
   "DROP TABLE IF EXISTS baseline_child";
   "DROP TABLE IF EXISTS baseline_alter_fk";
   "DROP TABLE IF EXISTS baseline_alter_pk";
   "DROP TABLE IF EXISTS baseline_alter_big";
   "DROP TABLE IF EXISTS baseline_alter";
   "DROP TABLE IF EXISTS baseline_parent";
   "DROP TABLE IF EXISTS baseline_idx";
   "DROP TABLE IF EXISTS baseline_bulk";
   "DROP TABLE IF EXISTS baseline_drop_me";
   "DROP TABLE IF EXISTS baseline_implicit_bulk";
   "DROP TABLE IF EXISTS baseline_fk_cascade";
   "DROP TABLE IF EXISTS baseline_fk_setnull";
   "DROP TABLE IF EXISTS baseline_fk_setdefault";
   "DROP TABLE IF EXISTS baseline_fk_action";
   "DROP TABLE IF EXISTS baseline_span";
   "DROP TABLE IF EXISTS baseline_multi";
   "DROP TABLE IF EXISTS baseline_multi_a";
   "DROP TABLE IF EXISTS baseline_multi_b";
   "DROP TABLE IF EXISTS baseline_multi_c";
   "DROP TABLE IF EXISTS baseline_multi_d";
   "CREATE TABLE baseline_parent (id uuid PRIMARY KEY DEFAULT gen_random_uuid(), name text NOT NULL)";
   "CREATE TABLE baseline_child (id uuid PRIMARY KEY DEFAULT gen_random_uuid(), parent_id uuid NOT NULL REFERENCES baseline_parent(id))";
   "CREATE TABLE baseline_idx (id uuid PRIMARY KEY, value text)";
   "CREATE TABLE baseline_bulk (id int)";
   "CREATE TABLE baseline_drop_me (id int)";
   "CREATE TABLE baseline_alter (id int PRIMARY KEY, a text, b int)";
   "CREATE TABLE baseline_alter_pk (id int PRIMARY KEY, a text)";
   "CREATE TABLE baseline_alter_big (big bigint, note text)";
   "CREATE TABLE baseline_alter_fk (id int PRIMARY KEY, parent_id uuid)";
   "CREATE TABLE baseline_alter_pkadd (id int, v text)";
   "CREATE TABLE baseline_lat_parent (id text NOT NULL PRIMARY KEY)";
   "CREATE TABLE baseline_lat_child (id bigint NOT NULL PRIMARY KEY, parent_id text)";
   "INSERT INTO baseline_lat_parent (id) VALUES ('a')";
   "INSERT INTO baseline_lat_child (id, parent_id) VALUES (1, 'a')";
   "CREATE TABLE baseline_implicit_bulk (id int)";
   "CREATE TABLE baseline_multi (id int PRIMARY KEY, a int)";
   "CREATE TABLE baseline_fk_action (id uuid PRIMARY KEY, name text NOT NULL)";
   "INSERT INTO baseline_fk_action (id, name) VALUES ('00000000-0000-0000-0000-0000000000c1', 'cascade')";
   "INSERT INTO baseline_fk_action (id, name) VALUES ('00000000-0000-0000-0000-0000000000c2', 'set-null')";
   "INSERT INTO baseline_fk_action (id, name) VALUES ('00000000-0000-0000-0000-0000000000c3', 'set-default')";
   "INSERT INTO baseline_fk_action (id, name) VALUES ('00000000-0000-0000-0000-0000000000c4', 'default-target')";
   "CREATE TABLE baseline_fk_cascade (id uuid PRIMARY KEY, parent_id uuid REFERENCES baseline_fk_action(id) ON DELETE CASCADE, note text)";
   "CREATE TABLE baseline_fk_setnull (id uuid PRIMARY KEY, parent_id uuid REFERENCES baseline_fk_action(id) ON DELETE SET NULL, note text)";
   "CREATE TABLE baseline_fk_setdefault (id uuid PRIMARY KEY, parent_id uuid DEFAULT '00000000-0000-0000-0000-0000000000c4' REFERENCES baseline_fk_action(id) ON DELETE SET DEFAULT, note text)";
   "INSERT INTO baseline_fk_cascade (id, parent_id, note) VALUES ('00000000-0000-0000-0000-0000000000d1', '00000000-0000-0000-0000-0000000000c1', 'child')";
   "INSERT INTO baseline_fk_setnull (id, parent_id, note) VALUES ('00000000-0000-0000-0000-0000000000d2', '00000000-0000-0000-0000-0000000000c2', 'child')";
   "INSERT INTO baseline_fk_setdefault (id, parent_id, note) VALUES ('00000000-0000-0000-0000-0000000000d3', '00000000-0000-0000-0000-0000000000c3', 'child')";
   "CREATE TABLE baseline_span (id int PRIMARY KEY, k int NOT NULL, v text)";
   "INSERT INTO baseline_span (id, k, v) VALUES (1, 1, 'a'), (2, 1, 'b'), (3, 1, 'c'), (4, 2, 'other')";
   "INSERT INTO baseline_parent (id, name) VALUES ('00000000-0000-0000-0000-0000000000aa', 'seed')";
   "CREATE TABLE baseline_conflict (id uuid PRIMARY KEY, name text NOT NULL)";
   "CREATE TABLE baseline_conflict_child (id uuid PRIMARY KEY, parent_id uuid NOT NULL REFERENCES baseline_conflict(id))";
   "INSERT INTO baseline_conflict (id, name) VALUES ('00000000-0000-0000-0000-0000000000ab', 'conflict-fk')";
   "INSERT INTO baseline_conflict (id, name) VALUES ('00000000-0000-0000-0000-0000000000ac', 'conflict-row')";
   "INSERT INTO baseline_conflict (id, name) VALUES ('00000000-0000-0000-0000-0000000000ad', 'disjoint-a')";
   "INSERT INTO baseline_conflict (id, name) VALUES ('00000000-0000-0000-0000-0000000000ae', 'disjoint-b')";
   "INSERT INTO baseline_conflict (id, name) VALUES ('00000000-0000-0000-0000-0000000000af', 'conflict-nonkey')"].

(** The relations [verifyStatements] ranges over. *)
Definition verifiedRelations : list string :=
  ["baseline_parent";
   "baseline_child";
   "baseline_idx";
   "baseline_bulk";
   "baseline_alter";
   "baseline_alter_pk";
   "baseline_alter_big";
   "baseline_alter_fk";
   "baseline_implicit_bulk";
   "baseline_multi";
   "baseline_fk_action";
   "baseline_fk_cascade";
   "baseline_fk_setnull";
   "baseline_fk_setdefault";
   "baseline_span";
   "baseline_alter_pkadd";
   "baseline_lat_parent";
   "baseline_lat_child";
   "baseline_conflict";
   "baseline_conflict_child"].

(** The statement that reads a relation after the setup. *)
Definition verify_statement (table : string) : string := "SELECT 1 FROM " +:+ table +:+ " LIMIT 0".

Definition verifyStatements : list string := map verify_statement verifiedRelations.

(** [cleanupStatements]. *)
Definition cleanupStatements : list string :=
  ["DROP TABLE IF EXISTS baseline_multi";
   "DROP TABLE IF EXISTS baseline_multi_a";
   "DROP TABLE IF EXISTS baseline_multi_b";
   "DROP TABLE IF EXISTS baseline_multi_c";
   "DROP TABLE IF EXISTS baseline_multi_d";
   "DROP TABLE IF EXISTS baseline_span";
   "DROP TABLE IF EXISTS baseline_alter_pkadd";
   "DROP TABLE IF EXISTS baseline_lat_child";
   "DROP TABLE IF EXISTS baseline_lat_parent";
   "DROP TABLE IF EXISTS baseline_identity_int";
   "DROP TABLE IF EXISTS baseline_identity_small";
   "DROP TABLE IF EXISTS baseline_identity_big";
   "DROP TABLE IF EXISTS baseline_alter_pkadd";
   "DROP TABLE IF EXISTS baseline_fk_cascade";
   "DROP TABLE IF EXISTS baseline_fk_setnull";
   "DROP TABLE IF EXISTS baseline_fk_setdefault";
   "DROP TABLE IF EXISTS baseline_fk_action";
   "DROP TABLE IF EXISTS baseline_alter_fk";
   "DROP TABLE IF EXISTS baseline_alter_pk";
   "DROP TABLE IF EXISTS baseline_alter_big";
   "DROP TABLE IF EXISTS baseline_alter";
   "DROP TABLE IF EXISTS baseline_conflict_child";
   "DROP TABLE IF EXISTS baseline_conflict";
   "DROP TABLE IF EXISTS baseline_child";
   "DROP TABLE IF EXISTS baseline_deferred";
   "DROP TABLE IF EXISTS baseline_parent";
   "DROP TABLE IF EXISTS baseline_idx";
   "DROP TABLE IF EXISTS baseline_bulk";
   "DROP TABLE IF EXISTS baseline_drop_me";
   "DROP TABLE IF EXISTS baseline_implicit_bulk";
   "DROP TABLE IF EXISTS baseline_identity";
   "DROP TABLE IF EXISTS baseline_serial";
   "DROP TABLE IF EXISTS baseline_unlogged";
   "DROP TABLE IF EXISTS baseline_temp";
   "DROP TABLE IF EXISTS baseline_ctas";
   "DROP TABLE IF EXISTS baseline_txn_a";
   "DROP TABLE IF EXISTS baseline_txn_b";
   "DROP TABLE IF EXISTS baseline_txn_c";
   "DROP TABLE IF EXISTS baseline_identity_cached";
   "DROP TABLE IF EXISTS baseline_identity_int";
   "DROP TABLE IF EXISTS baseline_identity_small";
   "DROP TABLE IF EXISTS baseline_identity_big";
   "DROP TABLE IF EXISTS baseline_types_ok";
   "DROP TABLE IF EXISTS baseline_types_alias";
   "DROP TABLE IF EXISTS baseline_enum_col";
   "DROP TABLE IF EXISTS baseline_enum_t";
   "DROP TABLE IF EXISTS baseline_enum_check";
   "DROP TABLE IF EXISTS baseline_enum_check_v";
   "DROP VIEW IF EXISTS baseline_v";
   "DROP INDEX IF EXISTS baseline_idx_value";
   "DROP INDEX IF EXISTS baseline_idx_value_async";
   "DROP SEQUENCE IF EXISTS baseline_seq";
   "DROP SEQUENCE IF EXISTS baseline_seq2";
   "DROP SEQUENCE IF EXISTS baseline_seq_one";
   "DROP FUNCTION IF EXISTS baseline_fn";
   "DROP DOMAIN IF EXISTS baseline_domain";
   "DROP DOMAIN IF EXISTS baseline_mood_domain";
   "DROP SCHEMA IF EXISTS baseline_schema"].

(** The cases [DefaultSuite] lists itself: what is unsupported. *)
Definition dialectCases : list Case :=
  [probe "truncate" "unsupported" "" (one "TRUNCATE TABLE baseline_parent");
   probe "create_extension" "unsupported" "" (one "CREATE EXTENSION IF NOT EXISTS pgcrypto");
   probe "create_trigger" "unsupported" "" (one "CREATE TRIGGER baseline_trg AFTER INSERT ON baseline_parent EXECUTE FUNCTION baseline_fn()");
   probe "create_database" "unsupported" "" (one "CREATE DATABASE baseline_other");
   probe "temporary_table" "unsupported" "" (one "CREATE TEMPORARY TABLE baseline_temp (id int)");
   probe "unlogged_table" "unsupported" "" (one "CREATE UNLOGGED TABLE baseline_unlogged (id int)");
   probe "serial_column" "unsupported" "" (one "CREATE TABLE baseline_serial (id serial PRIMARY KEY)");
   probe "materialized_view" "unsupported" "" (one "CREATE MATERIALIZED VIEW baseline_mv AS SELECT 1 AS x");
   probe "create_table_as" "unsupported" "confirm CTAS is unsupported" (one "CREATE TABLE baseline_ctas AS SELECT 1 AS x");
   probe "enum_type" "unsupported" "" (one "CREATE TYPE baseline_mood AS ENUM ('sad', 'ok')");
   probe "composite_type" "unsupported" "" (one "CREATE TYPE baseline_pair AS (a int, b int)");
   probe "range_type" "unsupported" "" (one "CREATE TYPE baseline_range AS RANGE (subtype = int4)");
   probe "domain_type" "unsupported" "" (one "CREATE DOMAIN baseline_domain AS int");
   probe "tablespace" "unsupported" "" (one "CREATE TABLESPACE baseline_ts LOCATION '/tmp/baseline'");
   probe "foreign_table" "unsupported" "" (one "CREATE FOREIGN TABLE baseline_ft (id int) SERVER baseline_srv");
   probe "vacuum" "unsupported" "" (one "VACUUM baseline_parent");
   probe "listen" "unsupported" "" (one "LISTEN baseline_chan");
   probe "notify" "unsupported" "" (one "NOTIFY baseline_chan");
   probe "unlisten" "unsupported" "" (one "UNLISTEN baseline_chan");
   probe "alter_system" "unsupported" "" (one "ALTER SYSTEM SET work_mem = '4MB'");
   probe "create_function" "unsupported" "is LANGUAGE sql rejected too, or only plpgsql?" (one "CREATE FUNCTION baseline_fn() RETURNS int LANGUAGE sql AS $$ SELECT 1 $$");
   probe "savepoint" "transaction" "confirm savepoints are refused" (one "SAVEPOINT baseline_sp");
   probe "create_view" "supported" "confirm a view is allowed, which is why no rule refuses one" (one "CREATE VIEW baseline_v AS SELECT 1 AS x");
   probe "create_sequence" "supported" "confirm a sequence with no CACHE is refused" (one "CREATE SEQUENCE baseline_seq");
   probe "create_sequence_cached" "supported" "sequences with high CACHE may be allowed" (one "CREATE SEQUENCE baseline_seq2 CACHE 65536");
   probe "create_schema" "supported" "" (one "CREATE SCHEMA baseline_schema")].

(** Isolation, transactions and what is supported. *)
Definition transactionCases : list Case :=
  [probe "set_transaction_serializable" "isolation" "" (one "SET TRANSACTION ISOLATION LEVEL SERIALIZABLE");
   probe "begin_serializable" "isolation" "" (one "BEGIN ISOLATION LEVEL SERIALIZABLE");
   probe "begin_repeatable_read" "isolation" "" (Some ["BEGIN ISOLATION LEVEL REPEATABLE READ"; "SELECT 1"; "COMMIT"]);
   probe "two_ddl_one_txn" "transaction" "" (Some ["BEGIN"; "CREATE TABLE baseline_txn_a (id int)"; "CREATE TABLE baseline_txn_b (id int)"]);
   probe "ddl_then_dml" "transaction" "" (Some ["BEGIN"; "CREATE TABLE baseline_txn_c (id int)"; "INSERT INTO baseline_txn_c (id) VALUES (1)"]);
   probe "row_cap" "transaction" "DSQL fails the statement that crosses the cap and aborts the transaction" (Some ["BEGIN"; "INSERT INTO baseline_bulk SELECT generate_series(1, 3001)"; "SELECT 1"]);
   probe "commit" "transaction" "" (Some ["BEGIN"; "INSERT INTO baseline_parent (id, name) VALUES ('00000000-0000-0000-0000-0000000000bb', 'tx')"; "COMMIT"]);
   probe "rollback" "transaction" "" (Some ["BEGIN"; "INSERT INTO baseline_parent (id, name) VALUES ('00000000-0000-0000-0000-0000000000cc', 'tx')"; "ROLLBACK"; "SELECT count(*) FROM baseline_parent WHERE name = 'tx'"]);
   probe "read_only" "transaction" "DSQL refuses SET TRANSACTION and then the transaction is aborted" (Some ["BEGIN"; "SET TRANSACTION READ ONLY"; "SELECT 1"; "COMMIT"]);
   probe "rejection_aborts_txn" "transaction" "a dialect refusal fails the transaction" (Some ["BEGIN"; "TRUNCATE baseline_parent"; "SELECT 1"; "ROLLBACK"]);
   probe "aborted_txn_prefers_25P02" "transaction" "in a failed transaction an unsupported statement reports 25P02 first" (Some ["BEGIN"; "TRUNCATE baseline_parent"; "TRUNCATE baseline_parent"; "ROLLBACK"]);
   probe "aborted_txn_recovers_after_rollback" "transaction" "ROLLBACK ends a failed transaction and the session is usable" (Some ["BEGIN"; "SET TRANSACTION READ ONLY"; "ROLLBACK"; "SELECT 1"]);
   probe "rejection_outside_txn_does_not_abort" "transaction" "an implicit transaction is not failed by a refusal" (Some ["TRUNCATE baseline_parent"; "SELECT 1"]);
   probe "row_cap_boundary" "transaction" "confirm exactly 3000 rows is allowed" (Some ["BEGIN"; "INSERT INTO baseline_bulk SELECT generate_series(1, 3000)"; "SELECT 1"; "ROLLBACK"]);
   probe "row_cap_discards_rows" "transaction" "confirm a failed row-cap transaction leaves no rows" (Some ["BEGIN"; "INSERT INTO baseline_bulk SELECT generate_series(1, 3001)"; "ROLLBACK"; "SELECT count(*) FROM baseline_bulk"]);
   probe "row_cap_implicit" "transaction" "an autocommit statement that crosses the cap" (one "INSERT INTO baseline_implicit_bulk SELECT generate_series(1, 3001)");
   probe "select_one" "supported" "" (one "SELECT 1");
   probe "show_transaction_isolation" "supported" "" (one "SHOW transaction_isolation");
   ignoring_rows (probe "select_version" "supported" "record the server_version string" (one "SELECT version()"));
   probe "insert_returning" "supported" "" (one "INSERT INTO baseline_idx (id, value) VALUES ('00000000-0000-0000-0000-0000000000dd', 'v1') ON CONFLICT (id) DO NOTHING RETURNING value");
   probe "select_count" "supported" "" (one "SELECT count(*) FROM baseline_idx");
   probe "update_row" "supported" "" (one "UPDATE baseline_idx SET value = 'v2' WHERE id = '00000000-0000-0000-0000-0000000000dd'");
   probe "delete_row" "supported" "" (one "DELETE FROM baseline_idx WHERE id = '00000000-0000-0000-0000-0000000000dd'");
   probe "cte" "supported" "" (one "WITH x AS (SELECT 1 AS n) SELECT n FROM x");
   probe "join" "supported" "" (one "SELECT p.name FROM baseline_parent p JOIN baseline_child c ON c.parent_id = p.id");
   probe "foreign_key_insert" "supported" "" (one "INSERT INTO baseline_child (id, parent_id) VALUES ('00000000-0000-0000-0000-0000000000ee', '00000000-0000-0000-0000-0000000000aa')");
   probe "foreign_key_violation" "supported" "" (one "INSERT INTO baseline_child (id, parent_id) VALUES ('00000000-0000-0000-0000-0000000000ff', '00000000-0000-0000-0000-0000000000ff')");
   probe "identity_column" "supported" "" (one "CREATE TABLE baseline_identity (id bigint GENERATED ALWAYS AS IDENTITY PRIMARY KEY, value text)");
   probe "deferrable_foreign_key" "supported" "" (one "CREATE TABLE baseline_deferred (id int PRIMARY KEY, parent_id uuid REFERENCES baseline_parent(id) DEFERRABLE INITIALLY DEFERRED)");
   probe "alter_table_add_column" "supported" "" (one "ALTER TABLE baseline_idx ADD COLUMN extra text");
   probe "drop_table" "supported" "" (one "DROP TABLE baseline_drop_me")].

(** Indexes, and further types of columns. *)
Definition indexCases : list Case :=
  [probe "create_index_sync" "index" "DSQL requires ASYNC; sync should be refused" (one "CREATE INDEX baseline_idx_value ON baseline_idx (value)");
   ignoring_rows (probe "create_index_async" "index" "returns a generated job_id" (one "CREATE INDEX ASYNC IF NOT EXISTS baseline_idx_value_async ON baseline_idx (value)"));
   ignoring_rows (probe "create_index_async_partial" "index" "partial index predicate" (one "CREATE INDEX ASYNC baseline_partial_idx ON baseline_idx (value) WHERE value IS NOT NULL"));
   ignoring_rows (probe "create_index_async_unique_partial" "index" "" (one "CREATE UNIQUE INDEX ASYNC baseline_upartial_idx ON baseline_idx (value) WHERE value <> ''"));
   ignoring_rows (probe "create_index_async_expression" "index" "" (one "CREATE INDEX ASYNC baseline_expr_idx ON baseline_idx ((lower(value)))"));
   ignoring_rows (probe "create_index_async_include" "index" "" (one "CREATE INDEX ASYNC baseline_include_idx ON baseline_idx (value) INCLUDE (id)"));
   ignoring_rows (probe "create_index_async_nulls_not_distinct" "index" "" (one "CREATE UNIQUE INDEX ASYNC baseline_nnd_idx ON baseline_idx (value) NULLS NOT DISTINCT"));
   ignoring_rows (probe "create_index_async_unnamed" "index" "the server chooses the name, so no id can be derived from it" (one "CREATE INDEX ASYNC ON baseline_idx (value)"));
   probe "create_index_async_qualified" "index" "the documentation says a schema-qualified name is not allowed" (one "CREATE INDEX ASYNC public.baseline_qualified_idx ON baseline_idx (value)");
   ignoring_rows (probe "sys_jobs" "index" "" (one "SELECT count(*) AS n FROM sys.jobs"));
   ignoring_rows (probe "sys_jobs_columns" "index" "pin the real sys.jobs shape; limited because the cluster's job log only grows" (one "SELECT * FROM sys.jobs LIMIT 1"));
   probe "sys_wait_for_job" "index" "pin the real wait_for_job contract" (one "SELECT sys.wait_for_job((SELECT job_id FROM sys.jobs LIMIT 1))");
   probe "sys_call_wait_for_job" "index" "wait_for_job is a procedure on DSQL" (one "CALL sys.wait_for_job((SELECT job_id FROM sys.jobs LIMIT 1))");
   probe "sys_call_wait_for_job_literal" "index" "the CALL path with a literal argument" (one "CALL sys.wait_for_job('no-such-job')");
   probe "create_function_plpgsql" "unsupported" "confirm non-sql function languages are refused" (one "CREATE FUNCTION baseline_plpgsql() RETURNS int LANGUAGE plpgsql AS $$ BEGIN RETURN 1; END $$");
   probe "identity_column_cached" "supported" "confirm identity with a large CACHE is allowed" (one "CREATE TABLE baseline_identity_cached (id bigint GENERATED ALWAYS AS IDENTITY (CACHE 65536) PRIMARY KEY, value text)");
   probe "identity_integer" "supported" "an integer identity column: refused, naming the type?" (one "CREATE TABLE baseline_identity_int (id integer GENERATED BY DEFAULT AS IDENTITY (CACHE 1) PRIMARY KEY)");
   probe "identity_smallint" "supported" "confirm the restriction is to bigint rather than to integer alone" (one "CREATE TABLE baseline_identity_small (id smallint GENERATED BY DEFAULT AS IDENTITY (CACHE 1) PRIMARY KEY)");
   probe "identity_bigint_by_default" "supported" "the form the restriction leaves, with the smallest allowed CACHE" (one "CREATE TABLE baseline_identity_big (id bigint GENERATED BY DEFAULT AS IDENTITY (CACHE 1) PRIMARY KEY)")].

(** Constraints, row values and added columns. *)
Definition alterationCases : list Case :=
  [probe "alter_add_pk_constraint" "alters" "add a primary key to a table that has none" (one "ALTER TABLE baseline_alter_pkadd ADD CONSTRAINT baseline_pkadd_pk PRIMARY KEY (id)");
   probe "alter_add_unique_constraint" "alters" "add a unique constraint without an index to adopt" (one "ALTER TABLE baseline_alter_pkadd ADD CONSTRAINT baseline_pkadd_uq UNIQUE (v)");
   probe "q_row_constructor" "queries" "a row value built in the projection" (one "SELECT ROW(1, 'a')");
   probe "q_row_comparison" "queries" "two row values compared" (one "SELECT ROW(1, 'a') = ROW(1, 'a') AS same");
   ignoring_rows (probe "q_whole_row_reference" "queries" "a table referenced as a whole row, which is a composite of its rowtype" (one "SELECT baseline_parent FROM baseline_parent LIMIT 1"));
   ignoring_rows (probe "q_whole_row_in_subquery" "queries" "the shape an ORM generates for a nested projection" (one "SELECT (SELECT p FROM baseline_parent p WHERE p.id = c.id) AS whole FROM baseline_parent c LIMIT 1"));
   probe "alter_add_identity_integer" "alters" "recorded as a refusal about the constraint, not about the type" (one "ALTER TABLE baseline_alter ADD COLUMN seq integer GENERATED BY DEFAULT AS IDENTITY (CACHE 1)");
   probe "alter_add_identity_bigint" "alters" "the type CREATE TABLE accepts, added to a table that exists" (one "ALTER TABLE baseline_alter ADD COLUMN seq2 bigint GENERATED BY DEFAULT AS IDENTITY (CACHE 1)");
   probe "alter_add_column_not_null" "alters" "is NOT NULL a constraint for this purpose?" (one "ALTER TABLE baseline_alter ADD COLUMN nn int NOT NULL DEFAULT 0");
   probe "alter_add_column_default" "alters" "a default on its own" (one "ALTER TABLE baseline_alter ADD COLUMN df int DEFAULT 7");
   probe "alter_add_column_check" "alters" "a check constraint on the new column" (one "ALTER TABLE baseline_alter ADD COLUMN ck int CHECK (ck > 0)");
   probe "alter_add_column_unique" "alters" "a unique constraint on the new column" (one "ALTER TABLE baseline_alter ADD COLUMN uq int UNIQUE");
   probe "alter_add_column_null" "backlog" "an explicit NULL, which states the default nullability" (one "ALTER TABLE baseline_alter ADD COLUMN nl int NULL");
   probe "alter_add_column_generated" "backlog" "a generated column, which may be refused for its own reasons" (one "ALTER TABLE baseline_alter ADD COLUMN gn int GENERATED ALWAYS AS (1) STORED");
   probe "create_sequence_cache_one" "supported" "confirm CACHE 1 is allowed" (one "CREATE SEQUENCE baseline_seq_one CACHE 1");
   probe "rollback_to_savepoint" "transaction" "" (one "ROLLBACK TO SAVEPOINT baseline_sp");
   probe "set_transaction_repeatable_read" "isolation" "confirm SET TRANSACTION is refused even for the supported level" (one "SET TRANSACTION ISOLATION LEVEL REPEATABLE READ");
   probe "set_default_isolation" "isolation" "confirm SET default_transaction_isolation is refused" (one "SET default_transaction_isolation = 'repeatable read'")].

(** [supportedTypeCases]. *)
Definition supportedTypeCases : list Case :=
  [probe "types_supported_columns" "types" "every documented supported type as a column" (one ("CREATE TABLE baseline_types_ok (" +:+ nl +:+ tab +:+ tab +:+ tab +:+ "c_smallint smallint," +:+ nl +:+ tab +:+ tab +:+ tab +:+ "c_integer integer," +:+ nl +:+ tab +:+ tab +:+ tab +:+ "c_bigint bigint," +:+ nl +:+ tab +:+ tab +:+ tab +:+ "c_real real," +:+ nl +:+ tab +:+ tab +:+ tab +:+ "c_double double precision," +:+ nl +:+ tab +:+ tab +:+ tab +:+ "c_numeric numeric," +:+ nl +:+ tab +:+ tab +:+ tab +:+ "c_numeric_ps numeric(18,6)," +:+ nl +:+ tab +:+ tab +:+ tab +:+ "c_decimal decimal(10,2)," +:+ nl +:+ tab +:+ tab +:+ tab +:+ "c_char character(10)," +:+ nl +:+ tab +:+ tab +:+ tab +:+ "c_varchar character varying(20)," +:+ nl +:+ tab +:+ tab +:+ tab +:+ "c_bpchar bpchar(5)," +:+ nl +:+ tab +:+ tab +:+ tab +:+ "c_text text," +:+ nl +:+ tab +:+ tab +:+ tab +:+ "c_date date," +:+ nl +:+ tab +:+ tab +:+ tab +:+ "c_time time," +:+ nl +:+ tab +:+ tab +:+ tab +:+ "c_timetz time with time zone," +:+ nl +:+ tab +:+ tab +:+ tab +:+ "c_timestamp timestamp," +:+ nl +:+ tab +:+ tab +:+ tab +:+ "c_timestamptz timestamp with time zone," +:+ nl +:+ tab +:+ tab +:+ tab +:+ "c_interval interval," +:+ nl +:+ tab +:+ tab +:+ tab +:+ "c_boolean boolean," +:+ nl +:+ tab +:+ tab +:+ tab +:+ "c_bytea bytea," +:+ nl +:+ tab +:+ tab +:+ tab +:+ "c_uuid uuid," +:+ nl +:+ tab +:+ tab +:+ tab +:+ "c_json json," +:+ nl +:+ tab +:+ tab +:+ tab +:+ "c_jsonb jsonb)"));
   probe "types_alias_columns" "types" "documented aliases as column types" (one ("CREATE TABLE baseline_types_alias (" +:+ nl +:+ tab +:+ tab +:+ tab +:+ "c_int2 int2, c_int4 int4, c_int8 int8," +:+ nl +:+ tab +:+ tab +:+ tab +:+ "c_float4 float4, c_float8 float8," +:+ nl +:+ tab +:+ tab +:+ tab +:+ "c_bool bool, c_varchar varchar(5), c_char char(5)," +:+ nl +:+ tab +:+ tab +:+ tab +:+ "c_dec dec, c_timetz timetz, c_timestamptz timestamptz)"));
   probe "types_roundtrip" "types" "a row through every supported type" (Some [("INSERT INTO baseline_types_ok" +:+ nl +:+ tab +:+ tab +:+ tab +:+ " (c_smallint, c_integer, c_bigint, c_real, c_double, c_numeric, c_numeric_ps," +:+ nl +:+ tab +:+ tab +:+ tab +:+ "  c_decimal, c_char, c_varchar, c_bpchar, c_text, c_date, c_time, c_timetz," +:+ nl +:+ tab +:+ tab +:+ tab +:+ "  c_timestamp, c_timestamptz, c_interval, c_boolean, c_bytea, c_uuid, c_json, c_jsonb)" +:+ nl +:+ tab +:+ tab +:+ tab +:+ " VALUES (1, 2, 3, 1.5, 2.5, 3.5, 4.5, 5.5, 'abc', 'def', 'ghi', 'jkl'," +:+ nl +:+ tab +:+ tab +:+ tab +:+ "  '2026-01-02', '03:04:05', '03:04:05+00', '2026-01-02 03:04:05'," +:+ nl +:+ tab +:+ tab +:+ tab +:+ "  '2026-01-02 03:04:05+00', '1 day', true, '\x6869'," +:+ nl +:+ tab +:+ tab +:+ tab +:+ "  '00000000-0000-0000-0000-000000000001', '{" +:+ dq +:+ "a" +:+ dq +:+ ":1}', '{" +:+ dq +:+ "b" +:+ dq +:+ ":2}')"); "SELECT count(*) FROM baseline_types_ok"]);
   probe "types_runtime_array" "types" "arrays are documented as query-runtime only" (one "SELECT string_to_array('1,2,3', ',')");
   probe "types_runtime_inet" "types" "inet is documented as query-runtime only" (one "SELECT '127.0.0.1'::inet");
   probe "types_runtime_json_ops" "types" "" (one ("SELECT '{" +:+ dq +:+ "a" +:+ dq +:+ ":1}'::jsonb ->> 'a'"))].

(** Characters a name may hold. *)
Definition slug_char (c : ascii) : bool :=
  ((97 <=? code c) && (code c <=? 122) || (48 <=? code c) && (code c <=? 57))%N.

(** One underscore for every other rune; [skip] bytes of one are left. *)
Fixpoint slug_from (s : string) (skip : nat) : string :=
  match s with
  | EmptyString => EmptyString
  | String c rest =>
      match skip with
      | S k => slug_from rest k
      | O => if slug_char c then String c (slug_from rest 0)
             else String "_" (slug_from rest (pred (rune_width s)))
      end
  end.

Definition underscore_width (s : string) : nat :=
  match s with String c _ => if Ascii.eqb c "_" then 1%nat else 0%nat | EmptyString => 0%nat end.

(** [strings.Trim] of underscores. *)
Definition trim_underscores (s : string) : string :=
  string_rev (trim_front underscore_width (string_rev (trim_front underscore_width s 0)) 0).

Definition typeSlug (typ : string) : string := trim_underscores (slug_from typ 0).

(** The types of [unsupportedTypeCases]. *)
Definition unsupportedTypes : list string :=
  ["money"; "xml"; "inet"; "cidr"; "macaddr"; "point"; "line"; "lseg"; "box"; "path"; "polygon"; "circle"; "tsvector"; "tsquery"; "int4range"; "tsrange"; "bit(8)"; "varbit(8)"; "pg_lsn"; "int[]"; "text[]"].

Definition unsupportedTypeCase (typ : string) : Case :=
  let table := "baseline_type_" +:+ typeSlug typ in
  probe ("type_unsupported_" +:+ typeSlug typ) "types" ("unsupported column type " +:+ typ)
    (Some ["CREATE TABLE " +:+ table +:+ " (v " +:+ typ +:+ ")"; "DROP TABLE IF EXISTS " +:+ table]).

Definition unsupportedTypeCases : list Case := map unsupportedTypeCase unsupportedTypes.

(** [enumCases]. *)
Definition enumCases : list Case :=
  [probe "enum_create_type" "enum" "CREATE TYPE ... AS ENUM" (one "CREATE TYPE baseline_mood AS ENUM ('sad', 'ok')");
   probe "enum_alter_add_value" "enum" "" (one "ALTER TYPE baseline_mood ADD VALUE 'meh'");
   probe "enum_alter_rename" "enum" "" (one "ALTER TYPE baseline_mood RENAME TO baseline_mood_renamed");
   probe "enum_drop_if_exists" "enum" "" (one "DROP TYPE IF EXISTS baseline_mood");
   probe "enum_column_undefined" "enum" "a column of a type that cannot be created" (one "CREATE TABLE baseline_enum_col (m baseline_mood)");
   probe "enum_cast_undefined" "enum" "a cast to a type that cannot be created" (one "SELECT 'sad'::baseline_mood");
   probe "enum_domain_create" "enum" "domain as the enum workaround" (one "CREATE DOMAIN baseline_mood_domain AS text CHECK (VALUE IN ('sad', 'ok'))");
   probe "enum_domain_violation" "enum" "domain CHECK rejects an unknown label" (Some ["CREATE TABLE baseline_enum_t (id int, m baseline_mood_domain)"; "INSERT INTO baseline_enum_t (id, m) VALUES (1, 'bogus')"]);
   probe "enum_check_create" "enum" "CHECK constraint as the enum workaround" (one "CREATE TABLE baseline_enum_check (id int, m text CHECK (m IN ('sad', 'ok')))");
   probe "enum_check_violation" "enum" "CHECK constraint rejects an unknown label" (Some ["CREATE TABLE baseline_enum_check_v (id int, m text CHECK (m IN ('sad', 'ok')))"; "INSERT INTO baseline_enum_check_v (id, m) VALUES (1, 'bogus')"])].

(** [environmentCases]. *)
Definition environmentCases : list Case :=
  [probe "env_server_version" "environment" "" (one "SHOW server_version");
   ignoring_rows (probe "env_version_function" "environment" "" (one "SELECT version()"));
   probe "env_server_version_setting" "environment" "" (one "SELECT current_setting('server_version')");
   probe "env_server_version_num" "environment" "" (one "SELECT current_setting('server_version_num')");
   probe "env_show_server_version_num" "environment" "" (one "SHOW server_version_num");
   probe "env_current_database" "environment" "" (one "SELECT current_database()");
   probe "env_current_schema" "environment" "" (one "SELECT current_schema()");
   probe "env_timezone" "environment" "" (one "SHOW timezone");
   probe "env_client_encoding" "environment" "" (one "SHOW client_encoding");
   probe "env_lc_collate" "environment" "" (one "SHOW lc_collate")].

(** [occCases]. *)
Definition occCases : list Case :=
  [probe "occ_for_update" "occ" "" (one "SELECT id FROM baseline_parent WHERE id = '00000000-0000-0000-0000-0000000000aa' FOR UPDATE");
   probe "occ_for_key_share" "occ" "" (one "SELECT id FROM baseline_parent WHERE id = '00000000-0000-0000-0000-0000000000aa' FOR KEY SHARE");
   probe "occ_for_no_key_update" "occ" "documented as unsupported" (one "SELECT id FROM baseline_parent WHERE id = '00000000-0000-0000-0000-0000000000aa' FOR NO KEY UPDATE");
   probe "occ_for_share" "occ" "documented as unsupported" (one "SELECT id FROM baseline_parent WHERE id = '00000000-0000-0000-0000-0000000000aa' FOR SHARE")].

(** [queryCases]. *)
Definition queryCases : list Case :=
  [probe "q_where" "queries" "" (one "SELECT name FROM baseline_parent WHERE name = 'seed'");
   probe "q_distinct" "queries" "" (one "SELECT DISTINCT name FROM baseline_parent ORDER BY name");
   probe "q_group_by" "queries" "" (one "SELECT name, count(*) FROM baseline_parent GROUP BY name ORDER BY name");
   probe "q_group_by_all" "queries" "documented DSQL extension" (one "SELECT name, count(*) FROM baseline_parent GROUP BY ALL");
   probe "q_group_by_distinct" "queries" "" (one "SELECT name, count(*) FROM baseline_parent GROUP BY DISTINCT name ORDER BY name");
   probe "q_having" "queries" "" (one "SELECT name, count(*) FROM baseline_parent GROUP BY name HAVING count(*) >= 0 ORDER BY name");
   probe "q_order_nulls" "queries" "" (one "SELECT name FROM baseline_parent ORDER BY name ASC NULLS FIRST");
   probe "q_order_desc_nulls_last" "queries" "" (one "SELECT name FROM baseline_parent ORDER BY name DESC NULLS LAST");
   probe "q_limit" "queries" "" (one "SELECT name FROM baseline_parent LIMIT 1");
   probe "q_window_rank" "queries" "" (one "SELECT name, RANK() OVER (PARTITION BY name ORDER BY name) FROM baseline_parent");
   probe "q_inner_join" "queries" "" (one "SELECT p.name FROM baseline_parent p INNER JOIN baseline_child c ON c.parent_id = p.id");
   probe "q_left_join" "queries" "" (one "SELECT p.name FROM baseline_parent p LEFT JOIN baseline_child c ON c.parent_id = p.id ORDER BY 1");
   probe "q_right_join" "queries" "" (one "SELECT p.name FROM baseline_parent p RIGHT JOIN baseline_child c ON c.parent_id = p.id");
   probe "q_full_join" "queries" "" (one "SELECT p.name FROM baseline_parent p FULL JOIN baseline_child c ON c.parent_id = p.id ORDER BY 1");
   probe "q_cross_join" "queries" "" (one "SELECT p.name FROM baseline_parent p CROSS JOIN baseline_child c ORDER BY 1");
   probe "q_union" "queries" "" (one "SELECT name FROM baseline_parent UNION SELECT name FROM baseline_parent ORDER BY 1");
   probe "q_union_all" "queries" "" (one "SELECT name FROM baseline_parent UNION ALL SELECT name FROM baseline_parent ORDER BY 1");
   probe "q_intersect" "queries" "" (one "SELECT name FROM baseline_parent INTERSECT SELECT name FROM baseline_parent ORDER BY 1");
   probe "q_except" "queries" "" (one "SELECT name FROM baseline_parent EXCEPT SELECT name FROM baseline_parent ORDER BY 1");
   probe "q_cte" "queries" "" (one "WITH x AS (SELECT name FROM baseline_parent) SELECT name FROM x");
   probe "q_cte_multiple" "queries" "" (one "WITH a AS (SELECT 1 AS n), b AS (SELECT n FROM a) SELECT n FROM b");
   probe "q_subquery_scalar" "queries" "" (one "SELECT (SELECT count(*) FROM baseline_parent)");
   probe "q_subquery_in" "queries" "" (one "SELECT name FROM baseline_parent WHERE id IN (SELECT parent_id FROM baseline_child)");
   probe "q_subquery_exists" "queries" "" (one "SELECT p.name FROM baseline_parent p WHERE EXISTS (SELECT 1 FROM baseline_child c WHERE c.parent_id = p.id)");
   probe "q_subquery_correlated" "queries" "" (one "SELECT p.name FROM baseline_parent p WHERE p.name = (SELECT q.name FROM baseline_parent q WHERE q.id = p.id) ORDER BY 1");
   probe "q_unnest" "queries" "" (one "SELECT unnest(string_to_array('a,b,c', ',')) ORDER BY 1");
   probe "q_array_runtime" "queries" "" (one "SELECT string_to_array('1,2,3', ',')");
   probe "q_generate_series" "queries" "" (one "SELECT * FROM generate_series(1, 3) ORDER BY 1");
   probe "q_case" "queries" "" (one "SELECT CASE WHEN 1 = 1 THEN 'yes' ELSE 'no' END");
   probe "q_coalesce_nullif" "queries" "" (one "SELECT coalesce(NULL, 'x'), nullif(1, 2)");
   probe "q_cast" "queries" "" (one "SELECT '1'::int + 1, 1::text");
   probe "q_string_ops" "queries" "" (one "SELECT 'a' || 'b', upper('a'), lower('A'), length('abc')");
   probe "q_aggregates" "queries" "" (one "SELECT count(*), count(DISTINCT name), min(name), max(name) FROM baseline_parent");
   probe "q_between" "queries" "" (one "SELECT 1 WHERE 2 BETWEEN 1 AND 3");
   probe "q_is_distinct_from" "queries" "" (one "SELECT 1 IS DISTINCT FROM 2");
   probe "q_insert_returning" "queries" "" (one "INSERT INTO baseline_idx (id, value) VALUES ('00000000-0000-0000-0000-0000000000a1', 'v1') RETURNING value");
   probe "q_upsert" "queries" "" (one "INSERT INTO baseline_idx (id, value) VALUES ('00000000-0000-0000-0000-0000000000a1', 'v2') ON CONFLICT (id) DO UPDATE SET value = EXCLUDED.value");
   probe "q_insert_select" "queries" "" (one "INSERT INTO baseline_bulk SELECT generate_series(1, 3)");
   probe "q_update_returning" "queries" "" (one "UPDATE baseline_idx SET value = 'v3' WHERE id = '00000000-0000-0000-0000-0000000000a1' RETURNING value");
   probe "q_delete_returning" "queries" "" (one "DELETE FROM baseline_idx WHERE id = '00000000-0000-0000-0000-0000000000a1' RETURNING value");
   probe "q_delete_using" "queries" "" (one "DELETE FROM baseline_bulk USING baseline_parent WHERE baseline_bulk.id = 1");
   probe "q_explain" "queries" "" (one "EXPLAIN SELECT 1");
   probe "q_analyze" "queries" "" (one "ANALYZE baseline_parent");
   probe "q_set_constraints" "queries" "" (Some ["BEGIN"; "SET CONSTRAINTS ALL DEFERRED"; "COMMIT"]);
   probe "q_fulltext_to_tsvector" "queries" "" (one "SELECT to_tsvector('english', 'hello world')");
   probe "q_fulltext_to_tsquery" "queries" "" (one "SELECT to_tsquery('english', 'hello & world')");
   probe "q_fulltext_websearch" "queries" "" (one "SELECT websearch_to_tsquery('english', 'hello world')");
   probe "q_fulltext_match" "queries" "" (one "SELECT 1 WHERE to_tsvector('english', 'a') @@ to_tsquery('english', 'a')");
   probe "q_geom_line" "queries" "" (one "SELECT line('{1,2,3}')");
   probe "q_geom_circle" "queries" "" (one "SELECT circle('<(0,0),1>'::text)");
   probe "q_grouping_sets" "queries" "" (one "SELECT count(*) FROM baseline_parent GROUP BY GROUPING SETS ((name), ()) ORDER BY 1");
   probe "q_rollup" "queries" "" (one "SELECT count(*) FROM baseline_parent GROUP BY ROLLUP (name) ORDER BY 1");
   probe "q_cube" "queries" "" (one "SELECT count(*) FROM baseline_parent GROUP BY CUBE (name) ORDER BY 1");
   probe "q_lateral" "queries" "" (one "SELECT p.name FROM baseline_parent p CROSS JOIN LATERAL (SELECT count(*) FROM baseline_child c WHERE c.parent_id = p.id) AS x ORDER BY 1");
   probe "q_tablesample" "queries" "" (one "SELECT name FROM baseline_parent TABLESAMPLE SYSTEM (1)");
   probe "q_distinct_on" "queries" "" (one "SELECT DISTINCT ON (name) name FROM baseline_parent ORDER BY name");
   probe "q_window_row_number" "queries" "" (one "SELECT ROW_NUMBER() OVER (ORDER BY name) FROM baseline_parent ORDER BY 1");
   probe "q_window_lag" "queries" "" (one "SELECT LAG(name) OVER (ORDER BY name) FROM baseline_parent ORDER BY 1");
   probe "q_with_recursive" "queries" "" (one "WITH RECURSIVE t(n) AS (SELECT 1 UNION ALL SELECT n + 1 FROM t WHERE n < 3) SELECT n FROM t ORDER BY 1");
   probe "q_aggregate_filter" "queries" "" (one "SELECT count(*) FILTER (WHERE name = 'seed') FROM baseline_parent");
   known_gap "DSQL refuses this with 42804; a suspected planner defect, reported and tracked rather than emulated" (probe "q_lateral_left_outer_ref" "queries" "LEFT JOIN LATERAL whose target list and WHERE both reference the outer relation" (one "SELECT p.id, x.pid FROM baseline_lat_parent AS p LEFT JOIN LATERAL (SELECT p.id AS pid FROM baseline_lat_child AS c WHERE p.id = c.parent_id) AS x ON TRUE"));
   known_gap "DSQL refuses this with 42804; a suspected planner defect, reported and tracked rather than emulated" (probe "q_lateral_left_no_outer_where" "queries" "the same with no WHERE at all, which is refused too: the outer reference in the target list is enough" (one "SELECT p.id, x.pid FROM baseline_lat_parent AS p LEFT JOIN LATERAL (SELECT p.id AS pid FROM baseline_lat_child AS c) AS x ON TRUE"));
   probe "q_lateral_cross_outer_ref" "queries" "control: CROSS JOIN LATERAL takes the identical subquery" (one "SELECT p.id, x.pid FROM baseline_lat_parent AS p CROSS JOIN LATERAL (SELECT p.id AS pid FROM baseline_lat_child AS c WHERE p.id = c.parent_id) AS x");
   probe "q_lateral_inner_outer_ref" "queries" "control: INNER JOIN LATERAL takes the identical subquery" (one "SELECT p.id, x.pid FROM baseline_lat_parent AS p INNER JOIN LATERAL (SELECT p.id AS pid FROM baseline_lat_child AS c WHERE p.id = c.parent_id) AS x ON TRUE");
   known_gap "DSQL refuses this with 42804; a suspected planner defect, reported and tracked rather than emulated" (probe "q_lateral_left_outer_ref_cast" "queries" "the expected type tracks the outer column even when the projection is cast away from it" (one "SELECT p.id, x.pid FROM baseline_lat_parent AS p LEFT JOIN LATERAL (SELECT length(p.id)::bigint AS pid FROM baseline_lat_child AS c WHERE p.id = c.parent_id) AS x ON TRUE"));
   probe "q_merge" "queries" "" (one "MERGE INTO baseline_idx t USING baseline_parent s ON t.id = '00000000-0000-0000-0000-0000000000a1' WHEN MATCHED THEN UPDATE SET value = 'x'")].

(** [multiStatementCases]. *)
Definition multiStatementCases : list Case :=
  [simply (probe "multi_two_selects" "multi_statement" "confirm a multi-statement simple query runs at all, and answers once per statement" (one "SELECT 1 AS a; SELECT 2 AS b"));
   simply (probe "multi_two_ddl" "multi_statement" "two DDL in one implicit transaction, without the ASYNC keyword in play" (one "CREATE TABLE baseline_multi_a (id int); CREATE TABLE baseline_multi_b (id int)"));
   simply (probe "multi_ddl_then_dml" "multi_statement" "DDL and DML in one implicit transaction" (one "CREATE TABLE baseline_multi_c (id int); INSERT INTO baseline_multi_c (id) VALUES (1)"));
   simply (probe "multi_ddl_then_async_index" "multi_statement" "the shape psql -c sends: a table and its index in one query" (one "CREATE TABLE baseline_multi_d (id int); CREATE INDEX ASYNC baseline_multi_d_idx ON baseline_multi_d (id)"));
   simply (ignoring_rows (probe "multi_async_index_in_txn" "multi_statement" "one DDL in an explicit transaction: does the job id ride on the index build's own result?" (one "BEGIN; CREATE INDEX ASYNC baseline_multi_idx ON baseline_multi (a); COMMIT")));
   simply (probe "multi_dml_in_txn" "multi_statement" "an explicit transaction of DML in one query" (one "BEGIN; INSERT INTO baseline_multi (id, a) VALUES (1, 1); COMMIT"))].

(** [occConflictCases]. *)
Definition occConflictCases : list Case :=
  [in_sessions [["BEGIN"; "UPDATE baseline_conflict SET name = 'ww-a' WHERE id = '00000000-0000-0000-0000-0000000000ac'"; "COMMIT"]; ["BEGIN"; "UPDATE baseline_conflict SET name = 'ww-b' WHERE id = '00000000-0000-0000-0000-0000000000ac'"; "COMMIT"]] (racing (probe "occ_write_write" "occ_conflict" "two writers to one row: the loser fails at commit" None));
   in_sessions [["BEGIN"; "SELECT name FROM baseline_conflict WHERE id = '00000000-0000-0000-0000-0000000000ac' FOR UPDATE"; "COMMIT"]; ["BEGIN"; "UPDATE baseline_conflict SET name = 'fu-b' WHERE id = '00000000-0000-0000-0000-0000000000ac'"; "COMMIT"]] (racing (ignoring_rows (probe "occ_for_update_vs_write" "occ_conflict" "FOR UPDATE versus a write" None)));
   in_sessions [["BEGIN"; "SELECT name FROM baseline_conflict WHERE id = '00000000-0000-0000-0000-0000000000ac' FOR KEY SHARE"; "COMMIT"]; ["BEGIN"; "DELETE FROM baseline_conflict WHERE id = '00000000-0000-0000-0000-0000000000ac'"; "COMMIT"]] (racing (ignoring_rows (probe "occ_for_key_share_vs_delete" "occ_conflict" "FOR KEY SHARE versus deleting the key" None)));
   in_sessions [["BEGIN"; "DELETE FROM baseline_conflict WHERE id = '00000000-0000-0000-0000-0000000000ab'"; "COMMIT"]; ["BEGIN"; "INSERT INTO baseline_conflict_child (id, parent_id) VALUES ('00000000-0000-0000-0000-0000000000b0', '00000000-0000-0000-0000-0000000000ab')"; "COMMIT"]] (racing (probe "occ_fk_delete_insert" "occ_conflict" "delete a referenced row while another session inserts a referencing row" None));
   in_sessions [["BEGIN"; "UPDATE baseline_conflict SET name = 'nk' WHERE id = '00000000-0000-0000-0000-0000000000af'"; "COMMIT"]; ["BEGIN"; "INSERT INTO baseline_conflict_child (id, parent_id) VALUES ('00000000-0000-0000-0000-0000000000b1', '00000000-0000-0000-0000-0000000000af')"; "COMMIT"]] (probe "occ_fk_nonkey_update" "occ_conflict" "a non-key update does not conflict with a referencing insert" None);
   in_sessions [["BEGIN"; "DELETE FROM baseline_fk_action WHERE id = '00000000-0000-0000-0000-0000000000c1'"; "COMMIT"]; ["BEGIN"; "UPDATE baseline_fk_cascade SET note = 'touched' WHERE id = '00000000-0000-0000-0000-0000000000d1'"; "COMMIT"]] (racing (probe "occ_fk_cascade_vs_child_write" "occ_conflict" "ON DELETE CASCADE deletes the child; does that conflict with a write to it?" None));
   in_sessions [["BEGIN"; "DELETE FROM baseline_fk_action WHERE id = '00000000-0000-0000-0000-0000000000c2'"; "COMMIT"]; ["BEGIN"; "UPDATE baseline_fk_setnull SET note = 'touched' WHERE id = '00000000-0000-0000-0000-0000000000d2'"; "COMMIT"]] (racing (probe "occ_fk_set_null_vs_child_write" "occ_conflict" "ON DELETE SET NULL rewrites the child's key column" None));
   in_sessions [["BEGIN"; "DELETE FROM baseline_fk_action WHERE id = '00000000-0000-0000-0000-0000000000c3'"; "COMMIT"]; ["BEGIN"; "UPDATE baseline_fk_setdefault SET note = 'touched' WHERE id = '00000000-0000-0000-0000-0000000000d3'"; "COMMIT"]] (racing (probe "occ_fk_set_default_vs_child_write" "occ_conflict" "ON DELETE SET DEFAULT rewrites the child's key column to another parent" None));
   in_sessions [["BEGIN"; "UPDATE baseline_span SET v = 'a-side' WHERE k = 1"; "COMMIT"]; ["BEGIN"; "UPDATE baseline_span SET v = 'b-side' WHERE k = 1"; "COMMIT"]] (known_gap "how many transactions DSQL fails for a multi-row conflict varies between runs; the emulator always leaves one winner" (racing (probe "occ_multirow_predicate" "occ_conflict" "what row count does the loser report when its predicate spans several rows?" None)));
   in_sessions [["BEGIN"; "UPDATE baseline_conflict SET name = 'dw-a' WHERE id = '00000000-0000-0000-0000-0000000000ad'"; "COMMIT"]; ["BEGIN"; "UPDATE baseline_conflict SET name = 'dw-b' WHERE id = '00000000-0000-0000-0000-0000000000ae'"; "COMMIT"]] (probe "occ_disjoint_writes" "occ_conflict" "writes to different rows do not conflict" None)].

(** [alterCases]. *)
Definition alterCases : list Case :=
  [probe "alter_drop_column" "alters" "" (one "ALTER TABLE baseline_alter DROP COLUMN b");
   probe "alter_drop_pk_column" "alters" "DSQL does not support dropping a primary key column; PostgreSQL does" (one "ALTER TABLE baseline_alter_pk DROP COLUMN id");
   probe "alter_add_column" "alters" "" (one "ALTER TABLE baseline_alter ADD COLUMN c text");
   probe "alter_add_column_storage" "alters" "compression is controlled with STORAGE" (one "ALTER TABLE baseline_alter ADD COLUMN d text STORAGE PLAIN");
   probe "alter_set_storage" "alters" "" (one "ALTER TABLE baseline_alter ALTER COLUMN a SET STORAGE PLAIN");
   probe "alter_add_fk_not_valid" "alters" "" (one "ALTER TABLE baseline_alter_fk ADD CONSTRAINT alter_fk FOREIGN KEY (parent_id) REFERENCES baseline_parent(id) NOT VALID");
   probe "alter_add_fk_without_not_valid" "alters" "DSQL requires NOT VALID; PostgreSQL allows it" (one "ALTER TABLE baseline_alter_fk ADD CONSTRAINT alter_fk2 FOREIGN KEY (parent_id) REFERENCES baseline_parent(id)");
   probe "alter_add_check_not_valid" "alters" "" (one "ALTER TABLE baseline_alter ADD CONSTRAINT alter_chk CHECK (a IS NOT NULL) NOT VALID");
   probe "alter_add_check_without_not_valid" "alters" "DSQL requires NOT VALID; PostgreSQL allows it" (one "ALTER TABLE baseline_alter ADD CONSTRAINT alter_chk2 CHECK (a IS NOT NULL)");
   ignoring_rows (probe "alter_validate_constraint_async" "alters" "the asynchronous form that returns a job" (one "ALTER TABLE ASYNC baseline_alter_fk VALIDATE CONSTRAINT alter_fk"));
   probe "alter_validate_constraint_sync" "alters" "without ASYNC should be refused" (one "ALTER TABLE baseline_alter_fk VALIDATE CONSTRAINT alter_fk");
   known_gap "DSQL builds the index asynchronously, so it is not yet valid when the constraint is added (55000); the emulator builds synchronously" (ignoring_rows (probe "alter_unique_using_index" "alters" "" (Some ["CREATE UNIQUE INDEX ASYNC baseline_alter_big_uq ON baseline_alter_big (big)"; "ALTER TABLE baseline_alter_big ADD CONSTRAINT baseline_alter_big_uq UNIQUE USING INDEX baseline_alter_big_uq"])));
   probe "alter_add_column_unsupported_type" "alters" "" (one "ALTER TABLE baseline_alter ADD COLUMN bad_money money");
   probe "alter_add_column_array" "alters" "" (one "ALTER TABLE baseline_alter ADD COLUMN bad_array text[]");
   probe "alter_add_column_serial" "alters" "" (one "ALTER TABLE baseline_alter ADD COLUMN bad_serial serial");
   probe "alter_column_type_unsupported" "alters" "" (one "ALTER TABLE baseline_alter ALTER COLUMN a TYPE xml");
   probe "alter_column_type_supported" "alters" "" (one "ALTER TABLE baseline_alter ALTER COLUMN a TYPE varchar(20)")].

Definition DefaultSuite : Suite :=
  mkSuite "dsql-baseline" setupStatements verifyStatements cleanupStatements
    (dialectCases ++ transactionCases ++ indexCases ++ alterationCases ++
     supportedTypeCases ++ unsupportedTypeCases ++ enumCases ++ environmentCases ++ occCases ++
     queryCases ++ alterCases ++ occConflictCases ++ multiStatementCases).

(** ** Checks *)

(** A case as the harness expects it: named, grouped, with steps or with
    sessions but not both, none of them empty; a race is run in sessions, and a
    simple query is not. *)
Definition well_formed (c : Case) : bool :=
  nonempty (Name c) && nonempty (Group c) && negb (has_slash (Group c)) &&
  xorb (nonnil (elems (Steps c))) (nonnil (Sessions c)) &&
  forallb nonempty (elems (Steps c)) && forallb nonnil (Sessions c) &&
  (if ConflictRace c then Nat.leb 2 (length (Sessions c)) else true) &&
  (if SimpleProtocol c then nonnil (elems (Steps c)) else true).

(** The name in front of a space or a bracket. *)
Fixpoint table_name (s : string) : string :=
  match s with
  | String c rest => if Ascii.eqb c " " || Ascii.eqb c "(" then EmptyString
                     else String c (table_name rest)
  | EmptyString => EmptyString
  end.

(** The words of each statement of a step, which may hold several. *)
Definition statements_of (sql : string) : list (list string) :=
  map GoStd.fields (split_char ";" (String.length sql) sql "").

(** The table a CREATE creates, whatever kind of table it is. *)
Fixpoint table_of (ws : list string) : option string :=
  match ws with
  | "TABLE" :: "IF" :: "NOT" :: "EXISTS" :: t :: _ => Some t
  | "TABLE" :: t :: _ => Some t
  | ("TEMPORARY" | "UNLOGGED" | "FOREIGN") :: ws => table_of ws
  | _ => None
  end.

Definition created_table (ws : list string) : option string :=
  match ws with "CREATE" :: ws => table_of ws | _ => None end.

(** Every table a step creates. *)
Definition creates (sql : string) : list string := omap created_table (statements_of sql).

(** The tables a statement's foreign keys refer to, with the table they are of. *)
Fixpoint referenced (ws : list string) : list string :=
  match ws with
  | "REFERENCES" :: t :: ws => table_name t :: referenced ws
  | _ :: ws => referenced ws
  | [] => []
  end.

Definition altered_table (ws : list string) : option string :=
  match ws with "ALTER" :: "TABLE" :: t :: _ => Some t | _ => created_table ws end.

Definition foreign_keys (sql : string) : list (string * string) :=
  concat (map (fun ws => match altered_table ws with
                         | Some t => map (pair t) (referenced ws)
                         | None => []
                         end) (statements_of sql)).

Definition drop_statement (table : string) : string := "DROP TABLE IF EXISTS " +:+ table.

Definition string_in (s : string) (l : list string) : bool := existsb (String.eqb s) l.

(** A list drops one table before it drops another. *)
Fixpoint drops_first (child parent : string) (l : list string) : bool :=
  match l with
  | [] => true
  | x :: l => String.eqb x (drop_statement child) ||
              negb (String.eqb x (drop_statement parent)) && drops_first child parent l
  end.

(** Every statement of a case, on whichever connection. *)
Definition case_statements (c : Case) : list string := elems (Steps c) ++ concat (Sessions c).

Definition suite_statements : list string :=
  Setup DefaultSuite ++ concat (map case_statements (SCases DefaultSuite)).

(** ** Lemmas *)

Lemma string_in_iff s l : string_in s l = true <-> s ∈ l.
Proof.
  unfold string_in. rewrite existsb_true_iff. split.
  - intros (x & Hx & ->%String.eqb_eq). done.
  - intros H. exists s. split; [done | apply String.eqb_refl].
Qed.

Lemma drops_first_spec child parent l i :
  drops_first child parent l = true -> l !! i = Some (drop_statement parent) ->
  exists j, (j <= i)%nat /\ l !! j = Some (drop_statement child).
Proof.
  revert i. induction l as [|x l IH]; intros i; simpl; [done|].
  destruct (String.eqb_spec x (drop_statement child)) as [->|Hc]; [intros _ _; exists 0%nat; split; [lia | done]|].
  destruct (String.eqb_spec x (drop_statement parent)) as [->|Hp]; [done|]. intros Hd.
  destruct i as [|i]; simpl; [congruence|]. intros Hi. destruct (IH i Hd Hi) as (j & Hj & Hl).
  exists (S j). split; [lia | done].
Qed.

Fixpoint no_duplicates (l : list string) : bool :=
  match l with [] => true | x :: l => negb (string_in x l) && no_duplicates l end.

Lemma no_duplicates_NoDup l : no_duplicates l = true -> NoDup l.
Proof.
  induction l as [|x l IH]; simpl; [by constructor|]. intros [H1 H2]%andb_true_iff.
  constructor; [|by apply IH]. rewrite <- string_in_iff. by destruct (string_in x l).
Qed.

Lemma forallb_elem {A} (f : A -> bool) l x : forallb f l = true -> x ∈ l -> f x = true.
Proof. rewrite forallb_forall, list_elem_of_In. auto. Qed.

(** The one relation a probe removes on purpose. *)
Definition dropped_by_a_probe : string := "baseline_drop_me".

(** The one table a probe creates that nothing drops. *)
Definition foreign_table : string := "baseline_ft".

Definition setup_cleaned : bool :=
  forallb (fun t => string_in (drop_statement t) (Cleanup DefaultSuite) &&
                    (String.eqb t dropped_by_a_probe || string_in (verify_statement t) (Verify DefaultSuite)))
    (concat (map creates (Setup DefaultSuite))).

(** A probe of an unsupported type drops its table in its second step. *)
Definition drops_itself (c : Case) (sql t : string) : bool :=
  String.prefix "type_unsupported_" (Name c) &&
  match Steps c with Some [s; d] => String.eqb s sql && String.eqb d (drop_statement t) | _ => false end.

Definition case_cleaned (c : Case) : bool :=
  forallb (fun sql => forallb (fun t => string_in (drop_statement t) (Cleanup DefaultSuite) ||
                                        drops_itself c sql t || String.eqb t foreign_table) (creates sql))
    (case_statements c).

Lemma default_names : NoDup (map Name (SCases DefaultSuite)).
Proof. apply no_duplicates_NoDup. vm_compute. reflexivity. Qed.

Lemma default_well_formed c : c ∈ SCases DefaultSuite -> well_formed c = true.
Proof. apply forallb_elem. vm_compute. reflexivity. Qed.


(** The foreign keys there are, and the tables the setup creates without dropping
    what a run that was not cleaned up after left of them. *)
Lemma suite_foreign_keys :
  concat (map foreign_keys suite_statements) =
    [("baseline_child", "baseline_parent"); ("baseline_fk_cascade", "baseline_fk_action");
     ("baseline_fk_setnull", "baseline_fk_action"); ("baseline_fk_setdefault", "baseline_fk_action");
     ("baseline_conflict_child", "baseline_conflict"); ("baseline_deferred", "baseline_parent");
     ("baseline_alter_fk", "baseline_parent"); ("baseline_alter_fk", "baseline_parent")].
Proof. vm_compute. reflexivity. Qed.

Lemma setup_not_repeatable :
  List.filter (fun t => negb (string_in (drop_statement t) (Setup DefaultSuite)))
    (concat (map creates (Setup DefaultSuite))) =
    ["baseline_alter_pkadd"; "baseline_lat_parent"; "baseline_lat_child"].
Proof. vm_compute. reflexivity. Qed.

(** ** Slugs *)

Fixpoint all_chars (p : ascii -> bool) (s : string) : bool :=
  match s with EmptyString => true | String c s => p c && all_chars p s end.

Definition slug_or_underscore (c : ascii) : bool := slug_char c || Ascii.eqb c "_".

Lemma slug_from_chars s skip : all_chars slug_or_underscore (slug_from s skip) = true.
Proof.
  revert skip. induction s as [|c s IH]; intros [|k]; simpl; try done.
  destruct (slug_char c) eqn:E; simpl; [|apply IH]. unfold slug_or_underscore. by rewrite E, IH.
Qed.

Lemma all_chars_rev_app p s acc :
  all_chars p (string_rev_app s acc) = all_chars p s && all_chars p acc.
Proof.
  revert acc. induction s as [|c s IH]; intros acc; simpl; [done|].
  rewrite IH. simpl. by destruct (p c), (all_chars p s).
Qed.

Lemma all_chars_trim p w s skip : all_chars p s = true -> all_chars p (trim_front w s skip) = true.
Proof.
  revert skip. induction s as [|c s IH]; intros skip; simpl; [done|].
  intros [Hc Hs]%andb_true_iff. destruct skip as [|k]; [|by apply IH].
  destruct (w (String c s)); [simpl; by rewrite Hc, Hs | by apply IH].
Qed.

(** A slug holds nothing but lower-case letters, digits and underscores, so a
    table can be named after any type. *)
Theorem typeSlug_chars typ : all_chars slug_or_underscore (typeSlug typ) = true.
Proof.
  unfold typeSlug, trim_underscores, string_rev.
  rewrite all_chars_rev_app, andb_true_r. apply all_chars_trim.
  rewrite all_chars_rev_app, andb_true_r. apply all_chars_trim, slug_from_chars.
Qed.
