(* ===== verification/Run.v ===== *)
(** * Running the suite: [RunSuite] of [internal/conformance/record.go]

    The suite is run against a target through a driver, pgx, which is not under
    [src/]: the class [Driver], whose [DB] is the target with the connections to it,
    the time and whatever else happens.  Each call is under a context, which may be
    done at any moment: the run's own, a session step's with a timeout of its own, or
    the cleanup's, made afresh.  What was sent on which connection is kept: on a closed
    connection, or under a context that is done, nothing is.  Sessions of a concurrent
    case interleave in any order.  Progress messages are left out. *)

From Stdlib Require Import Ascii String.
From stdpp Require Import base numbers strings list gmap.
From S2P Require Import Prelude GoStd Json Compare Record Fixtures Suite.

Local Open Scope Z_scope.

(** An error of the driver: the code and message of the server's, if it is one,
    and its text. *)
Record dbError := mkDbError { pgError : option (string * string); errText : string }.

(** A value of a row, as far as [formatValue] tells values apart: a time is given
    in UTC as RFC 3339 prints it, any other value as [fmt] does. *)
Inductive value := VNull | VBytes (s : string) | VTime (utc : string) | VOther (printed : string).

(** What a query answered: an error, or its fields, each row or the error of
    decoding it, the error after the last row, and the tag. *)
Inductive queryResult :=
| QueryFailed (e : dbError)
| QueryRows (fieldNames : list string) (rs : list (list value + dbError)) (err : option dbError)
    (tag : string).

(** What a simple query answered: an error, or per statement a tag, the fields and
    the rows as text. *)
Inductive simpleResult :=
| SimpleFailed (e : dbError)
| SimpleResults (l : list (string * list string * list (list (option string)))).

(** The driver on a target whose state, and whatever else happens to it (time,
    a signal, a lost connection), is [DB]; [queryInt] scans one number.  A
    connection is a number.  A context is done once [ctxErr] has an error for it;
    [withTimeout] derives one from another, that is done after so many nanoseconds
    too.  [wait] is a delay, and whether it passed before the context was done. *)
Class Driver := {
  DB : Type;
  Ctx : Type;
  Background : Ctx;
  withTimeout : Ctx -> Z -> DB -> Ctx;
  ctxErr : Ctx -> DB -> option string;
  connect : Ctx -> DB -> option nat * DB;
  close : Ctx -> nat -> DB -> DB;
  isClosed : nat -> DB -> bool;
  exec : Ctx -> nat -> string -> DB -> option dbError * DB;
  query : Ctx -> nat -> string -> DB -> queryResult * DB;
  simpleQuery : Ctx -> nat -> string -> DB -> simpleResult * DB;
  serverVersion : Ctx -> nat -> string -> DB -> string * DB;
  queryInt : Ctx -> nat -> string -> DB -> option Z * DB;
  wait : Ctx -> nat -> DB -> bool * DB;
}.

(** Whether a statement can go up: the driver sends nothing on a closed connection
    nor under a context that is done. *)
Definition usable {D : Driver} (ctx : Ctx) (conn : nat) (d : DB) : bool :=
  negb (isClosed conn d) && negb (bool_decide (is_Some (ctxErr ctx d))).

(** What the driver documents of a statement it cannot send: an error of its own,
    that is none of the server's, and nothing has happened. *)
Class DriverLaws (D : Driver) := {
  exec_unsent ctx conn sql d : usable ctx conn d = false ->
    exists text, exec ctx conn sql d = (Some (mkDbError None text), d);
  queryInt_unsent ctx conn sql d : usable ctx conn d = false -> queryInt ctx conn sql d = (None, d);
}.

(** ** Observing one statement *)

Definition nil_if_empty {A} (l : list A) : slice A := match l with [] => None | _ => Some l end.

Definition failedObservation (e : dbError) : Observation :=
  match pgError e with
  | Some (c, message) => mkObs "error" c message (mkAnswer EmptyString None None) []
  | None => mkObs "error" EmptyString (errText e) (mkAnswer EmptyString None None) []
  end.

(** [Answered]. *)
Definition Answered (o : Observation) : bool :=
  negb (is_error o) || negb (String.eqb (SQLState o) "").

Definition formatValue (v : value) : string :=
  match v with VNull => "NULL" | VBytes s => s | VTime s => s | VOther s => s end.

Fixpoint decoded (rs : list (list value + dbError)) : list (list value) + dbError :=
  match rs with
  | [] => inl []
  | inr e :: _ => inr e
  | inl r :: rs => match decoded rs with inl l => inl (r :: l) | inr e => inr e end
  end.

Definition Observe (r : queryResult) : Observation :=
  match r with
  | QueryFailed e => failedObservation e
  | QueryRows fieldNames rs err tag =>
      match decoded rs, err with
      | inr e, _ => failedObservation e
      | inl _, Some e => failedObservation e
      | inl l, None =>
          mkObs "ok" EmptyString EmptyString
            (mkAnswer tag (nil_if_empty fieldNames)
               (nil_if_empty (map (fun row => Some (map formatValue row)) l))) []
      end
  end.

(** [formatRawValues]. *)
Definition formatRawValues (row : list (option string)) : slice string :=
  Some (map (fun v => match v with None => "NULL" | Some s => s end) row).

Definition ObserveSimple (r : simpleResult) : Observation :=
  match r with
  | SimpleFailed e => failedObservation e
  | SimpleResults l =>
      mkObs "ok" EmptyString EmptyString (mkAnswer EmptyString None None)
        (map (fun res => let '(tag, fieldNames, rs) := res in
                mkAnswer tag (nil_if_empty fieldNames) (nil_if_empty (map formatRawValues rs))) l)
  end.

Definition isSerializationFailure (e : dbError) : bool :=
  match pgError e with Some (c, _) => String.eqb c "40001" | None => false end.

Definition schemaAttempts : nat := 5.

Definition sessionStepTimeout : Z := 15 * second.

Definition cleanupTimeout : Z := 2 * 60 * second.

Section run.
Context {D : Driver}.

(** A target with what was sent to it. *)
Record target := mkTarget { db : DB; sent : list (nat * string) }.

Definition at_db (t : target) (d : DB) : target := mkTarget d (sent t).

Definition send {A} (ctx : Ctx) (conn : nat) (sql : string) (f : Ctx -> nat -> string -> DB -> A * DB) (t : target) :
    A * target :=
  let (a, d) := f ctx conn sql (db t) in
  (a, mkTarget d (if usable ctx conn (db t) then sent t ++ [(conn, sql)] else sent t)).

(** The attempts from one on, [n] at most; [last] is the error so far. *)
Fixpoint attempts_from (ctx : Ctx) (attempt n : nat) (conn : nat) (sql : string) (last : option dbError)
    (t : target) : option dbError * target :=
  match n with
  | O => (last, t)
  | S n =>
      let try_ t :=
        match send ctx conn sql exec t with
        | (None, t) => (None, t)
        | (Some e, t) =>
            if isSerializationFailure e then attempts_from ctx (S attempt) n conn sql (Some e) t
            else (Some e, t)
        end in
      if Nat.eqb attempt 0 then try_ t
      else match wait ctx attempt (db t) with
           | (true, d) => try_ (at_db t d)
           | (false, d) => (Some (mkDbError None (default EmptyString (ctxErr ctx d))), at_db t d)
           end
  end.

Definition execRetryingConflicts (ctx : Ctx) (conn : nat) (sql : string) : target -> option dbError * target :=
  attempts_from ctx 0 schemaAttempts conn sql None.

(** Statements that must all succeed: the one that did not, if one did not. *)
Fixpoint exec_all (ctx : Ctx) (conn : nat) (sqls : list string) (t : target) : option string * target :=
  match sqls with
  | [] => (None, t)
  | sql :: sqls =>
      match execRetryingConflicts ctx conn sql t with
      | (Some _, t) => (Some sql, t)
      | (None, t) => exec_all ctx conn sqls t
      end
  end.

(** The cleanup's statements, whose errors are only reported. *)
Fixpoint drop_each (ctx : Ctx) (conn : nat) (sqls : list string) (t : target) : target :=
  match sqls with
  | [] => t
  | sql :: sqls => drop_each ctx conn sqls (execRetryingConflicts ctx conn sql t).2
  end.

(** The context the cleanup runs under: not the run's, which may be done. *)
Definition cleanup_ctx (t : target) : Ctx := withTimeout Background cleanupTimeout (db t).

(** The cleanup a run defers. *)
Definition clean_up (conn : nat) (sqls : list string) (t : target) : target :=
  drop_each (cleanup_ctx t) conn sqls t.

(** ** Concurrent sessions *)

(** A connection per session; those already made are closed when one cannot be. *)
Fixpoint connect_all (ctx : Ctx) (n : nat) (t : target) : option (list nat) * target :=
  match n with
  | O => (Some [], t)
  | S n =>
      match connect ctx (db t) with
      | (None, d) => (None, at_db t d)
      | (Some c, d) =>
          match connect_all ctx n (at_db t d) with
          | (Some cs, t) => (Some (c :: cs), t)
          | (None, t) => (None, at_db t (close Background c (db t)))
          end
      end
  end.

(** Deferred calls are made last first. *)
Definition close_all (conns : list nat) (t : target) : target :=
  at_db t (foldr (close Background) (db t) conns).

(** A session: its connection, the steps it has left and what it observed. *)
Record sessionRun := mkSession { sconn : nat; todo : list string; observed : list Observation }.

(** The next step of a session, if it has one, under a timeout of its own. *)
Definition session_step (ctx : Ctx) (i : nat) (rt : list sessionRun * target) : list sessionRun * target :=
  let (rs, t) := rt in
  match rs !! i with
  | Some (mkSession c (sql :: todo) obs) =>
      let (r, t) := send (withTimeout ctx sessionStepTimeout (db t)) c sql query t in
      (<[i := mkSession c todo (obs ++ [Observe r])]> rs, t)
  | _ => (rs, t)
  end.

(** The sessions' steps in the order the scheduler has them, each session's to the
    end. *)
Definition whole_order (order : list nat) (steps : list (list string)) : list nat :=
  order ++ concat (imap (fun i s => repeat i (length s)) steps).

Definition run_order (ctx : Ctx) (order : list nat) (rt : list sessionRun * target) : list sessionRun * target :=
  foldl (fun rt i => session_step ctx i rt) rt order.

Definition start_session (p : nat * list string) : sessionRun := mkSession p.1 p.2 [].

Definition runSessions (ctx : Ctx) (order : list nat) (steps : list (list string)) (t : target) :
    option (list (slice Observation)) * target :=
  match connect_all ctx (length steps) t with
  | (None, t) => (None, t)
  | (Some conns, t) =>
      let (rs, t) := run_order ctx (whole_order order steps) (map start_session (zip conns steps), t) in
      (Some (map (fun r => nil_if_empty (observed r)) rs), close_all conns t)
  end.

(** ** The run *)

Definition observe (ctx : Ctx) (conn : nat) (simple : bool) (sql : string) (t : target) : Observation * target :=
  if simple then let (r, t) := send ctx conn sql simpleQuery t in (ObserveSimple r, t)
  else let (r, t) := send ctx conn sql query t in (Observe r, t).

(** The steps of a case, or the step at which the connection was lost. *)
Fixpoint run_steps (ctx : Ctx) (conn : nat) (simple : bool) (steps : list string) (t : target) :
    (list Observation + string) * target :=
  match steps with
  | [] => (inl [], t)
  | sql :: steps =>
      let (obs, t) := observe ctx conn simple sql t in
      if negb (Answered obs) && isClosed conn (db t) then (inr sql, t)
      else match run_steps ctx conn simple steps t with
           | (inl l, t) => (inl (obs :: l), t)
           | (inr s, t) => (inr s, t)
           end
  end.

Inductive runError :=
| ConnectFailed
| SetupFailed (sql : string)
| VerifyFailed (sql : string)
| SessionsFailed (name : string)
| ConnectionLost (name sql : string)
| SchemaLost (sql : string).

Definition run_case (ctx : Ctx) (order : string -> list nat) (conn : nat) (c : Case) (t : target) :
    (RecordedCase + runError) * target :=
  match Sessions c with
  | [] =>
      match run_steps ctx conn (SimpleProtocol c) (elems (Steps c)) t with
      | (inr sql, t) => (inr (ConnectionLost (Name c) sql), t)
      | (inl obs, t) =>
          let (_, t) := send ctx conn "ROLLBACK" exec t in (inl (mkRecorded c obs []), t)
      end
  | steps =>
      match runSessions ctx (order (Name c)) steps t with
      | (None, t) => (inr (SessionsFailed (Name c)), t)
      | (Some results, t) => (inl (mkRecorded c [] results), t)
      end
  end.

(** Whether a case is left out of a run. *)
Definition skipped (includeRecordOnly : bool) (c : Case) : bool :=
  RecordOnly c && negb includeRecordOnly.

Fixpoint run_cases (ctx : Ctx) (order : string -> list nat) (includeRecordOnly : bool) (conn : nat)
    (cases : list Case) (t : target) : (list RecordedCase * option runError) * target :=
  match cases with
  | [] => (([], None), t)
  | c :: cases =>
      if skipped includeRecordOnly c then run_cases ctx order includeRecordOnly conn cases t
      else match run_case ctx order conn c t with
           | (inr e, t) => (([], Some e), t)
           | (inl r, t) =>
               let '((l, e), t) := run_cases ctx order includeRecordOnly conn cases t in
               ((r :: l, e), t)
           end
  end.

(** What a run has recorded, and the error that ended it. *)
Definition run_body (ctx : Ctx) (order : string -> list nat) (includeRecordOnly : bool) (suite : Suite)
    (conn : nat) (t : target) : (list RecordedCase * option runError) * target :=
  match exec_all ctx conn (Setup suite) t with
  | (Some sql, t) => (([], Some (SetupFailed sql)), t)
  | (None, t) =>
      match exec_all ctx conn (Verify suite) t with
      | (Some sql, t) => (([], Some (VerifyFailed sql)), t)
      | (None, t) =>
          match run_cases ctx order includeRecordOnly conn (SCases suite) t with
          | ((l, Some e), t) => ((l, Some e), t)
          | ((l, None), t) =>
              match exec_all ctx conn (Verify suite) t with
              | (Some sql, t) => ((l, Some (SchemaLost sql)), t)
              | (None, t) => ((l, None), t)
              end
          end
      end
  end.

Definition RunSuite (ctx : Ctx) (order : string -> list nat) (includeRecordOnly : bool) (now : Z) (suite : Suite)
    (t : target) : (option Record_ * option runError) * target :=
  match connect ctx (db t) with
  | (None, d) => ((None, Some ConnectFailed), at_db t d)
  | (Some conn, d) =>
      let (version, t) := send ctx conn "SELECT version()" serverVersion (at_db t d) in
      let '((l, e), t) := run_body ctx order includeRecordOnly suite conn t in
      ((Some (mkRecord now EmptyString version (SName suite) l), e),
       close_all [conn] (clean_up conn (Cleanup suite) t))
  end.
End run.

(** ** Retrying *)

Section facts.
Context {D : Driver}.

Lemma send_sent {A} ctx conn sql (f : Ctx -> nat -> string -> DB -> A * DB) t :
  sent (send ctx conn sql f t).2 = if usable ctx conn (db t) then sent t ++ [(conn, sql)] else sent t.
Proof. unfold send. by destruct (f ctx conn sql (db t)). Qed.

Lemma send_counted {A} ctx conn sql (f : Ctx -> nat -> string -> DB -> A * DB) t :
  exists k, (k <= 1)%nat /\ (usable ctx conn (db t) = true -> k = 1%nat) /\
    sent (send ctx conn sql f t).2 = sent t ++ repeat (conn, sql) k.
Proof.
  rewrite send_sent. destruct (usable ctx conn (db t)); [by exists 1%nat|].
  exists 0%nat. rewrite app_nil_r. by split_and!; [lia| |].
Qed.

Lemma attempts_sent ctx attempt n conn sql last t :
  exists k, (k <= n)%nat /\
    (attempt = 0%nat -> n <> 0%nat -> usable ctx conn (db t) = true -> k <> 0%nat) /\
    sent (attempts_from ctx attempt n conn sql last t).2 = sent t ++ repeat (conn, sql) k.
Proof.
  revert attempt last t. induction n as [|n IH]; intros attempt last t.
  { exists 0%nat. rewrite app_nil_r. by split_and!. }
  assert (forall t, exists k, (k <= S n)%nat /\ (usable ctx conn (db t) = true -> k <> 0%nat) /\
    sent (match send ctx conn sql exec t with
          | (None, t) => (None, t)
          | (Some e, t) => if isSerializationFailure e
                           then attempts_from ctx (S attempt) n conn sql (Some e) t else (Some e, t)
          end).2 = sent t ++ repeat (conn, sql) k) as Htry.
  { intros t0. destruct (send_counted ctx conn sql exec t0) as (i & Hi & Hu & Hs).
    destruct (send ctx conn sql exec t0) as [[e|] t1]; simpl in Hs;
      [destruct (isSerializationFailure e)|].
    - destruct (IH (S attempt) (Some e) t1) as (k & Hk & _ & Hsent). exists (i + k)%nat.
      rewrite Hsent, Hs, <- app_assoc, repeat_app. split_and!; [lia | intros ->%Hu; lia | done].
    - exists i. split_and!; [lia | intros ->%Hu; lia | exact Hs].
    - exists i. split_and!; [lia | intros ->%Hu; lia | exact Hs]. }
  simpl. destruct (Nat.eqb_spec attempt 0) as [Ha|Ha].
  - destruct (Htry t) as (k & Hk & Hk0 & Hsent). exists k. by split_and!; [| intros _ _ |].
  - destruct (wait ctx attempt (db t)) as [[] d].
    + destruct (Htry (at_db t d)) as (k & Hk & Hk0 & Hsent). by exists k.
    + exists 0%nat. rewrite app_nil_r. by split_and!; [lia| |].
Qed.

(** A schema statement is sent at most [schemaAttempts] times, and at least once if
    it can be sent. *)
Lemma execRetrying_sent ctx conn sql t :
  exists k, (k <= schemaAttempts)%nat /\ (usable ctx conn (db t) = true -> (1 <= k)%nat) /\
    sent (execRetryingConflicts ctx conn sql t).2 = sent t ++ repeat (conn, sql) k.
Proof.
  destruct (attempts_sent ctx 0 schemaAttempts conn sql None t) as (k & Hk & Hk0 & Hs).
  exists k. split_and!; [done| |done]. intros Hu. specialize (Hk0 eq_refl ltac:(done) Hu). lia.
Qed.

Lemma execRetrying_unsent `{!DriverLaws D} ctx conn sql t :
  usable ctx conn (db t) = false -> (execRetryingConflicts ctx conn sql t).2 = t.
Proof.
  intros Hu. unfold execRetryingConflicts. simpl. unfold send.
  destruct (exec_unsent ctx conn sql (db t) Hu) as [text ->]. rewrite Hu. simpl. by destruct t.
Qed.

(** ** Sessions run to their end *)

Definition steps_left (i : nat) (rs : list sessionRun) : nat :=
  match rs !! i with Some r => length (todo r) | None => 0 end.

Lemma session_step_left ctx i j rt :
  steps_left j (session_step ctx i rt).1 =
  if decide (i = j) then pred (steps_left j rt.1) else steps_left j rt.1.
Proof.
  destruct rt as [rs t]. unfold session_step, steps_left.
  destruct (rs !! i) as [[c [|sql l] obs]|] eqn:Hi; simpl.
  - destruct (decide (i = j)) as [<-|]; [by rewrite Hi | done].
  - destruct (send _ c sql query t) as [r t']. simpl. destruct (decide (i = j)) as [<-|Hne].
    + rewrite list_lookup_insert_eq by (by eapply lookup_lt_Some). by rewrite Hi.
    + by rewrite list_lookup_insert_ne.
  - destruct (decide (i = j)) as [<-|]; [by rewrite Hi | done].
Qed.

Lemma run_order_left ctx order j rt :
  steps_left j (run_order ctx order rt).1 = (steps_left j rt.1 - count_occ Nat.eq_dec order j)%nat.
Proof.
  unfold run_order. revert rt. induction order as [|i order IH]; intros rt; simpl; [lia|].
  rewrite IH, session_step_left. destruct (decide (i = j)), (Nat.eq_dec i j); try done; lia.
Qed.

Lemma count_repeat i n j :
  count_occ Nat.eq_dec (repeat i n) j = if Nat.eq_dec i j then n else 0%nat.
Proof.
  induction n as [|n IH]; simpl; [by destruct (Nat.eq_dec i j)|].
  rewrite IH. by destruct (Nat.eq_dec i j).
Qed.

Lemma count_all_steps (f : nat -> nat) steps j s :
  (forall a b, f a = f b -> a = b) -> steps !! j = Some s ->
  (length s <= count_occ Nat.eq_dec
     (concat (imap (fun i (s : list string) => repeat (f i) (length s)) steps)) (f j))%nat.
Proof.
  revert f j. induction steps as [|x steps IH]; intros f j Hf Hj; [by rewrite lookup_nil in Hj|].
  simpl. rewrite count_occ_app, count_repeat. destruct j as [|j]; simpl in Hj.
  - injection Hj as ->. destruct (Nat.eq_dec (f 0%nat) (f 0%nat)); [lia | done].
  - specialize (IH (f ∘ S) j). simpl in IH.
    assert (forall a b, f (S a) = f (S b) -> a = b) as Hf' by (intros a b H%Hf; by injection H).
    specialize (IH Hf' Hj). unfold compose in *. lia.
Qed.

(** What one session has done and has left to do is all its steps. *)
Definition session_total (r : sessionRun) (steps : list string) : Prop :=
  (length (observed r) + length (todo r) = length steps)%nat.

Lemma session_step_total ctx i rt steps :
  Forall2 session_total rt.1 steps -> Forall2 session_total (session_step ctx i rt).1 steps.
Proof.
  destruct rt as [rs t]. intros H. unfold session_step. simpl in H.
  destruct (rs !! i) as [[c [|sql l] obs]|] eqn:Hi; try done.
  destruct (send _ c sql query t) as [r t']. simpl.
  destruct (Forall2_lookup_l _ _ _ _ _ H Hi) as (s & Hs & Ht).
  rewrite <- (list_insert_id steps i s Hs). apply Forall2_insert; [done|].
  unfold session_total in *. simpl in *. rewrite length_app. simpl. lia.
Qed.

Lemma run_order_total ctx order rt steps :
  Forall2 session_total rt.1 steps -> Forall2 session_total (run_order ctx order rt).1 steps.
Proof.
  unfold run_order. revert rt. induction order as [|i order IH]; intros rt H; simpl; [done|].
  apply IH. by apply session_step_total.
Qed.

Lemma connect_all_length ctx n t cs t' : connect_all ctx n t = (Some cs, t') -> length cs = n.
Proof.
  revert t cs t'. induction n as [|n IH]; intros t cs t' H; simpl in H; [by injection H as <- _|].
  destruct (connect ctx (db t)) as [[c|] d]; [|done].
  destruct (connect_all ctx n (at_db t d)) as [[cs'|] t1] eqn:E; [|done].
  injection H as <- _. simpl. f_equal. exact (IH _ _ _ E).
Qed.

Lemma elems_nil_if_empty {A} (l : list A) : elems (nil_if_empty l) = l.
Proof. by destruct l. Qed.

(** However the sessions interleave, each observes every one of its steps. *)
Lemma runSessions_complete ctx order steps t results t' :
  runSessions ctx order steps t = (Some results, t') ->
  Forall2 (fun s l => length (elems s) = length l) results steps.
Proof.
  unfold runSessions. destruct (connect_all ctx (length steps) t) as [[conns|] t1] eqn:Hc; [|done].
  apply connect_all_length in Hc.
  set (rs0 := map start_session (zip conns steps)).
  destruct (run_order ctx (whole_order order steps) (rs0, t1)) as [rs t2] eqn:Hr.
  intros [= <- <-].
  assert (Forall2 session_total rs0 steps) as H0.
  { unfold rs0. clear Hr rs0. revert conns Hc.
    induction steps as [|s steps IH]; intros [|c conns] Hc; try discriminate Hc; simpl; constructor.
    - done.
    - apply IH. simpl in Hc. lia. }
  pose proof (run_order_total ctx (whole_order order steps) (rs0, t1) steps H0) as Ht. rewrite Hr in Ht. simpl in Ht.
  apply Forall2_same_length_lookup. split; [rewrite length_map; exact (Forall2_length _ _ _ Ht)|].
  intros i s l Hs Hl. apply list_lookup_fmap_Some in Hs as (r & -> & Hri).
  destruct (Forall2_lookup_lr _ _ _ _ _ _ Ht Hri Hl) as []. rewrite elems_nil_if_empty.
  pose proof (run_order_left ctx (whole_order order steps) i (rs0, t1)) as Hleft. rewrite Hr in Hleft.
  unfold steps_left in Hleft at 1. simpl in Hleft. rewrite Hri in Hleft.
  assert (steps_left i rs0 = length l) as E.
  { destruct (Forall2_lookup_r _ _ _ _ _ H0 Hl) as (r0 & Hr0 & Htot). unfold steps_left. rewrite Hr0.
    unfold rs0 in Hr0. apply list_lookup_fmap_Some in Hr0 as (p & -> & _). exact Htot. }
  rewrite E in Hleft. unfold whole_order in Hleft. rewrite count_occ_app in Hleft.
  pose proof (count_all_steps (fun i => i) steps i l (fun a b H => H) Hl) as Hcount.
  unfold session_total in *. lia.
Qed.

(** ** What a run records *)

Lemma run_steps_length ctx conn simple steps t l t' :
  run_steps ctx conn simple steps t = (inl l, t') -> length l = length steps.
Proof.
  revert t l. induction steps as [|sql steps IH]; intros t l H; simpl in H; [by injection H as <- _|].
  destruct (observe ctx conn simple sql t) as [obs t1].
  destruct (negb (Answered obs) && isClosed conn (db t1)); [done|].
  destruct (run_steps ctx conn simple steps t1) as [[l1|] t2] eqn:E; [|done].
  injection H as <- <-. simpl. f_equal. exact (IH _ _ E).
Qed.

(** A case recorded to its end. *)
Definition recorded_whole (c : Case) (r : RecordedCase) : Prop :=
  RCase r = c /\
  match Sessions c with
  | [] => length (Observations r) = length (elems (Steps c)) /\ SessionResults r = []
  | ss => Observations r = [] /\
          Forall2 (fun s l => length (elems s) = length l) (SessionResults r) ss
  end.

Lemma run_case_whole ctx order conn c t r t' :
  run_case ctx order conn c t = (inl r, t') -> recorded_whole c r.
Proof.
  unfold run_case, recorded_whole. intros H. destruct (Sessions c) as [|s ss] eqn:Hs.
  - destruct (run_steps ctx conn (SimpleProtocol c) (elems (Steps c)) t) as [[obs|] t1] eqn:E; [|done].
    destruct (send ctx conn "ROLLBACK" exec t1) as [e t2]. injection H as <- <-. simpl.
    split_and!; [done | exact (run_steps_length _ _ _ _ _ _ _ E) | done].
  - destruct (runSessions ctx (order (Name c)) (s :: ss) t) as [[results|] t1] eqn:E; [|done].
    injection H as <- <-. simpl. split_and!; [done..|]. exact (runSessions_complete _ _ _ _ _ _ E).
Qed.

(** The cases a run does not leave out. *)
Definition selected (includeRecordOnly : bool) (suite : Suite) : list Case :=
  List.filter (fun c => negb (skipped includeRecordOnly c)) (SCases suite).

Lemma run_cases_recorded ctx order b conn cases t l e t' :
  run_cases ctx order b conn cases t = ((l, e), t') ->
  exists ran rest, List.filter (fun c => negb (skipped b c)) cases = ran ++ rest /\
    Forall2 recorded_whole ran l /\ (e = None -> rest = []).
Proof.
  revert t l e. induction cases as [|c cases IH]; intros t l e H; simpl in *.
  { injection H as <- <- <-. exists [], []. by split_and!. }
  destruct (skipped b c); simpl; [exact (IH _ _ _ H)|].
  destruct (run_case ctx order conn c t) as [[r|e1] t1] eqn:E.
  - destruct (run_cases ctx order b conn cases t1) as [[l1 e1] t2] eqn:E1. injection H as <- <- <-.
    destruct (IH _ _ _ E1) as (ran & rest & Hf & Hl & He). exists (c :: ran), rest.
    rewrite Hf. split_and!; [done| |done]. constructor; [exact (run_case_whole _ _ _ _ _ _ _ E) | done].
  - injection H as <- <- <-. exists [], (c :: List.filter (fun c => negb (skipped b c)) cases).
    by split_and!.
Qed.

Lemma run_body_recorded ctx order b suite conn t l e t' :
  run_body ctx order b suite conn t = ((l, e), t') ->
  exists ran rest, selected b suite = ran ++ rest /\
    Forall2 recorded_whole ran l /\ (e = None -> rest = []).
Proof.
  assert (forall e0, exists ran rest, selected b suite = ran ++ rest /\
    Forall2 recorded_whole ran [] /\ (Some e0 = @None runError -> rest = [])) as Hnone.
  { intros e0. exists [], (selected b suite). by split_and!. }
  unfold run_body. intros H.
  destruct (exec_all ctx conn (Setup suite) t) as [[sql|] t1]; [injection H as <- <- <-; apply Hnone|].
  destruct (exec_all ctx conn (Verify suite) t1) as [[sql|] t2]; [injection H as <- <- <-; apply Hnone|].
  destruct (run_cases ctx order b conn (SCases suite) t2) as [[l1 e1] t3] eqn:E.
  destruct (run_cases_recorded _ _ _ _ _ _ _ _ _ E) as (ran & rest & Hf & Hl & He).
  exists ran, rest. destruct e1 as [e1|]; [injection H as <- <- <-; by split_and!|].
  destruct (exec_all ctx conn (Verify suite) t3) as [[sql|] t4]; injection H as <- <- <-; by split_and!.
Qed.

(** ** What a run sends *)

Lemma extends_app {A} (a b : list A) c : a `prefix_of` b -> a `prefix_of` b ++ c.
Proof. intros [k ->]. exists (k ++ c). by rewrite app_assoc. Qed.

Lemma execRetrying_extends ctx conn sql t : sent t `prefix_of` sent (execRetryingConflicts ctx conn sql t).2.
Proof. destruct (execRetrying_sent ctx conn sql t) as (k & _ & _ & ->). by eexists. Qed.

Lemma exec_all_extends ctx conn sqls t : sent t `prefix_of` sent (exec_all ctx conn sqls t).2.
Proof.
  revert t. induction sqls as [|sql sqls IH]; intros t; simpl; [done|].
  pose proof (execRetrying_extends ctx conn sql t) as H.
  destruct (execRetryingConflicts ctx conn sql t) as [[e|] t1]; simpl in *; [done|].
  etransitivity; [exact H | apply IH].
Qed.

Lemma send_extends {A} ctx conn sql (f : Ctx -> nat -> string -> DB -> A * DB) t :
  sent t `prefix_of` sent (send ctx conn sql f t).2.
Proof. destruct (send_counted ctx conn sql f t) as (k & _ & _ & ->). by eexists. Qed.

Lemma observe_extends ctx conn simple sql t : sent t `prefix_of` sent (observe ctx conn simple sql t).2.
Proof.
  unfold observe. destruct simple.
  - pose proof (send_extends ctx conn sql simpleQuery t) as H. by destruct (send ctx conn sql simpleQuery t).
  - pose proof (send_extends ctx conn sql query t) as H. by destruct (send ctx conn sql query t).
Qed.

Lemma run_steps_extends ctx conn simple steps t : sent t `prefix_of` sent (run_steps ctx conn simple steps t).2.
Proof.
  revert t. induction steps as [|sql steps IH]; intros t; simpl; [done|].
  pose proof (observe_extends ctx conn simple sql t) as H.
  destruct (observe ctx conn simple sql t) as [obs t1]. simpl in H.
  destruct (negb (Answered obs) && isClosed conn (db t1)); [done|].
  specialize (IH t1). destruct (run_steps ctx conn simple steps t1) as [[l|s] t2]; by etransitivity.
Qed.

Lemma connect_all_sent ctx n t : sent (connect_all ctx n t).2 = sent t.
Proof.
  revert t. induction n as [|n IH]; intros t; simpl; [done|].
  destruct (connect ctx (db t)) as [[c|] d]; [|done].
  specialize (IH (at_db t d)). by destruct (connect_all ctx n (at_db t d)) as [[cs|] t1].
Qed.

Lemma session_step_extends ctx i rt : sent rt.2 `prefix_of` sent (session_step ctx i rt).2.
Proof.
  destruct rt as [rs t]. simpl. destruct (rs !! i) as [[c [|sql l] obs]|]; try done.
  set (step := withTimeout ctx sessionStepTimeout (db t)).
  pose proof (send_extends step c sql query t) as H. by destruct (send step c sql query t).
Qed.

Lemma run_order_extends ctx order rt : sent rt.2 `prefix_of` sent (run_order ctx order rt).2.
Proof.
  unfold run_order. revert rt. induction order as [|i order IH]; intros rt; simpl; [done|].
  etransitivity; [apply (session_step_extends ctx i) | apply IH].
Qed.

Lemma runSessions_extends ctx order steps t : sent t `prefix_of` sent (runSessions ctx order steps t).2.
Proof.
  unfold runSessions. pose proof (connect_all_sent ctx (length steps) t) as H.
  destruct (connect_all ctx (length steps) t) as [[conns|] t1]; simpl in H; rewrite <- H; [|done].
  pose proof (run_order_extends ctx (whole_order order steps) (map start_session (zip conns steps), t1)) as H1.
  by destruct (run_order ctx (whole_order order steps) (map start_session (zip conns steps), t1)).
Qed.

Lemma run_case_extends ctx order conn c t : sent t `prefix_of` sent (run_case ctx order conn c t).2.
Proof.
  unfold run_case. destruct (Sessions c) as [|s ss].
  - pose proof (run_steps_extends ctx conn (SimpleProtocol c) (elems (Steps c)) t) as H.
    destruct (run_steps ctx conn (SimpleProtocol c) (elems (Steps c)) t) as [[obs|sql] t1]; [|done].
    pose proof (send_extends ctx conn "ROLLBACK" exec t1) as H1.
    destruct (send ctx conn "ROLLBACK" exec t1) as [e t2]. by etransitivity.
  - pose proof (runSessions_extends ctx (order (Name c)) (s :: ss) t) as H.
    by destruct (runSessions ctx (order (Name c)) (s :: ss) t) as [[results|] t1].
Qed.

Lemma run_cases_extends ctx order b conn cases t : sent t `prefix_of` sent (run_cases ctx order b conn cases t).2.
Proof.
  revert t. induction cases as [|c cases IH]; intros t; simpl; [done|].
  destruct (skipped b c); [apply IH|]. pose proof (run_case_extends ctx order conn c t) as H.
  destruct (run_case ctx order conn c t) as [[r|e] t1]; [|done]. specialize (IH t1).
  destruct (run_cases ctx order b conn cases t1) as [[l e] t2]. by etransitivity.
Qed.

Lemma run_body_extends ctx order b suite conn t : sent t `prefix_of` sent (run_body ctx order b suite conn t).2.
Proof.
  unfold run_body. pose proof (exec_all_extends ctx conn (Setup suite) t) as H1.
  destruct (exec_all ctx conn (Setup suite) t) as [[sql|] t1]; [done|].
  pose proof (exec_all_extends ctx conn (Verify suite) t1) as H2.
  destruct (exec_all ctx conn (Verify suite) t1) as [[sql|] t2]; [by etransitivity|].
  pose proof (run_cases_extends ctx order b conn (SCases suite) t2) as H3.
  destruct (run_cases ctx order b conn (SCases suite) t2) as [[l [e|]] t3]; [by do 2 etransitivity|].
  pose proof (exec_all_extends ctx conn (Verify suite) t3) as H4.
  destruct (exec_all ctx conn (Verify suite) t3) as [[sql|] t4]; by do 3 etransitivity.
Qed.

(** ** The theorems *)

(** What was recorded when a run ended. *)
Lemma RunSuite_recorded ctx order includeRecordOnly now suite t golden e t' :
  RunSuite ctx order includeRecordOnly now suite t = ((Some golden, e), t') ->
  exists ran rest,
    selected includeRecordOnly suite = ran ++ rest /\
    Forall2 recorded_whole ran (Cases golden) /\ (e = None -> rest = []).
Proof.
  unfold RunSuite. destruct (connect ctx (db t)) as [[conn|] d]; [|done].
  destruct (send ctx conn "SELECT version()" serverVersion (at_db t d)) as [v t1].
  destruct (run_body ctx order includeRecordOnly suite conn t1) as [[l e1] t2] eqn:E.
  intros [= <- <- <-]. exact (run_body_recorded _ _ _ _ _ _ _ _ _ E).
Qed.

(** A run records a beginning of the suite: whatever ended it, its cases are the
    first of those the options select, in order and whole, with one observation for
    each step or for each step of each session however the sessions interleaved;
    and a run without an error recorded them all. *)
Theorem RunSuite_records ctx order includeRecordOnly now suite t golden e t' :
  RunSuite ctx order includeRecordOnly now suite t = ((Some golden, e), t') ->
  exists ran rest,
    selected includeRecordOnly suite = ran ++ rest /\
    Forall2 recorded_whole ran (Cases golden) /\ (e = None -> rest = []).
Proof. apply RunSuite_recorded. Qed.

(** What a cleanup of these statements does from one state of the target to another:
    each is sent in order, at least once and at most [schemaAttempts] times, if it
    can be sent when its turn comes, and else nothing happens; what became of
    the ones before makes no difference. *)
Inductive cleans (ctx : Ctx) (conn : nat) : list string -> target -> target -> Prop :=
| cleans_nil t : cleans ctx conn [] t t
| cleans_sent sql sqls t t1 t2 k :
    usable ctx conn (db t) = true -> (1 <= k <= schemaAttempts)%nat ->
    sent t1 = sent t ++ repeat (conn, sql) k ->
    cleans ctx conn sqls t1 t2 -> cleans ctx conn (sql :: sqls) t t2
| cleans_lost sql sqls t t2 :
    usable ctx conn (db t) = false ->
    cleans ctx conn sqls t t2 -> cleans ctx conn (sql :: sqls) t t2.

Lemma drop_each_cleans `{!DriverLaws D} ctx conn sqls t : cleans ctx conn sqls t (drop_each ctx conn sqls t).
Proof.
  revert t. induction sqls as [|sql sqls IH]; intros t; simpl; [constructor|].
  destruct (usable ctx conn (db t)) eqn:Hu.
  - destruct (execRetrying_sent ctx conn sql t) as (k & Hk & Hk1 & Hs).
    by apply (cleans_sent _ _ _ _ _ (execRetryingConflicts ctx conn sql t).2 _ k); [|auto| |].
  - rewrite execRetrying_unsent by done. by apply cleans_lost.
Qed.

(** While the connection and the cleanup's context last, every statement is sent. *)
Lemma cleans_all ctx conn sqls t t' :
  (forall d, usable ctx conn d = true) -> cleans ctx conn sqls t t' ->
  exists counts, Forall2 (fun _ k => (1 <= k <= schemaAttempts)%nat) sqls counts /\
    sent t' = sent t ++ concat (zip_with (fun sql k => repeat (conn, sql) k) sqls counts).
Proof.
  intros Hu. induction 1 as [t|sql sqls t t1 t2 k _ Hk Hs _ (ks & Hks & IH)|sql sqls t t2 Hl _ _].
  - exists []. rewrite app_nil_r. by split.
  - exists (k :: ks). split; [by constructor|]. simpl. by rewrite IH, Hs, app_assoc.
  - by rewrite Hu in Hl.
Qed.

(** On a connection that is lost, none is. *)
Lemma cleans_none ctx conn sqls t t' :
  usable ctx conn (db t) = false -> cleans ctx conn sqls t t' -> t' = t.
Proof. intros Hl. induction 1 as [| ? ? ? ? ? ? Hu |]; [done | by rewrite Hl in Hu | auto]. Qed.

Lemma run_steps_lost ctx conn simple steps t sql t' :
  run_steps ctx conn simple steps t = (inr sql, t') -> isClosed conn (db t') = true.
Proof.
  revert t. induction steps as [|s steps IH]; intros t H; simpl in H; [done|].
  destruct (observe ctx conn simple s t) as [obs t1].
  destruct (negb (Answered obs) && isClosed conn (db t1)) eqn:E.
  - injection H as <- <-. by apply andb_true_iff in E as [_ E].
  - specialize (IH t1). destruct (run_steps ctx conn simple steps t1) as [[l|s1] t2]; [done|].
    apply IH. by injection H as -> ->.
Qed.

Lemma run_cases_lost ctx order b conn cases t l name sql t' :
  run_cases ctx order b conn cases t = ((l, Some (ConnectionLost name sql)), t') ->
  isClosed conn (db t') = true.
Proof.
  revert t l. induction cases as [|c cases IH]; intros t l H; simpl in H; [done|].
  destruct (skipped b c); [exact (IH _ _ H)|].
  destruct (run_case ctx order conn c t) as [[r|e] t1] eqn:E.
  - destruct (run_cases ctx order b conn cases t1) as [[l1 e1] t2] eqn:E1.
    injection H as <- -> <-. exact (IH _ _ E1).
  - injection H as <- -> <-. unfold run_case in E. destruct (Sessions c) as [|s ss].
    + destruct (run_steps ctx conn (SimpleProtocol c) (elems (Steps c)) t) as [[obs|s] t2] eqn:Es.
      * by destruct (send ctx conn "ROLLBACK" exec t2).
      * injection E as _ _ <-. exact (run_steps_lost _ _ _ _ _ _ _ Es).
    + by destruct (runSessions ctx (order (Name c)) (s :: ss) t) as [[results|] t2].
Qed.

Lemma run_body_lost ctx order b suite conn t l name sql t' :
  run_body ctx order b suite conn t = ((l, Some (ConnectionLost name sql)), t') ->
  isClosed conn (db t') = true.
Proof.
  unfold run_body. intros H. destruct (exec_all ctx conn (Setup suite) t) as [[s|] t1]; [done|].
  destruct (exec_all ctx conn (Verify suite) t1) as [[s|] t2]; [done|].
  destruct (run_cases ctx order b conn (SCases suite) t2) as [[l1 [e|]] t3] eqn:E.
  - injection H as <- -> <-. exact (run_cases_lost _ _ _ _ _ _ _ _ _ _ E).
  - by destruct (exec_all ctx conn (Verify suite) t3) as [[s|] t4].
Qed.

(** What a run of a suite is made of, on the connection it gets: the probing, and
    from where it ended, the cleanup. *)
Lemma RunSuite_ends `{!DriverLaws D} ctx order includeRecordOnly now suite t res t' conn :
  RunSuite ctx order includeRecordOnly now suite t = (res, t') ->
  (connect ctx (db t)).1 = Some conn ->
  exists t1 l t2 t3,
    run_body ctx order includeRecordOnly suite conn t1 = ((l, res.2), t2) /\
    sent t `prefix_of` sent t2 /\
    cleans (cleanup_ctx t2) conn (Cleanup suite) t2 t3 /\ sent t' = sent t3.
Proof.
  unfold RunSuite. intros H Hc. destruct (connect ctx (db t)) as [[conn'|] d]; [|done].
  injection Hc as ->.
  pose proof (send_extends ctx conn "SELECT version()" serverVersion (at_db t d)) as Hv.
  destruct (send ctx conn "SELECT version()" serverVersion (at_db t d)) as [v t1]. simpl in Hv.
  pose proof (run_body_extends ctx order includeRecordOnly suite conn t1) as Hp.
  destruct (run_body ctx order includeRecordOnly suite conn t1) as [[l e] t2] eqn:E. simpl in Hp.
  injection H as <- <-. exists t1, l, t2, (clean_up conn (Cleanup suite) t2).
  split_and!; [exact E | by etransitivity | apply drop_each_cleans | done].
Qed.

(** C34: A run cleans up however it ends.  Whatever ended the probing, and even when
    the run's context is done, every statement of the suite's cleanup is then sent
    on the connection the run probed on, in order, at least once and at most five
    times, whether or not the ones before succeeded, as long as the connection is open
    and a context made afresh, two minutes long, is not done; once either fails,
    nothing more is sent.  A run that could not connect sends nothing. *)
Theorem RunSuite_cleans_up `{!DriverLaws D} ctx order includeRecordOnly now suite t res t' :
  RunSuite ctx order includeRecordOnly now suite t = (res, t') ->
  match (connect ctx (db t)).1 with
  | None => res = (None, Some ConnectFailed) /\ sent t' = sent t
  | Some conn =>
      exists t1 l t2 t3,
        run_body ctx order includeRecordOnly suite conn t1 = ((l, res.2), t2) /\
        sent t `prefix_of` sent t2 /\
        cleans (withTimeout Background (120 * second) (db t2)) conn (Cleanup suite) t2 t3 /\
        sent t' = sent t3
  end.
Proof.
  intros H. destruct (connect ctx (db t)).1 as [conn|] eqn:Hc.
  - destruct (RunSuite_ends _ _ _ _ _ _ _ _ _ H Hc) as (t1 & l & t2 & t3 & Hb & Hp & Hcl & Hs).
    by exists t1, l, t2, t3.
  - unfold RunSuite in H. destruct (connect ctx (db t)) as [[conn|] d]; [done|].
    by injection H as <- <-.
Qed.

(** A run that lost its connection sends nothing of its cleanup: the objects of the
    suite are left on the target. *)
Lemma lost_run_leaves_objects `{!DriverLaws D} ctx order includeRecordOnly now suite t golden name sql t' conn :
  RunSuite ctx order includeRecordOnly now suite t = ((golden, Some (ConnectionLost name sql)), t') ->
  (connect ctx (db t)).1 = Some conn ->
  exists t1 l t2, run_body ctx order includeRecordOnly suite conn t1 =
                    ((l, Some (ConnectionLost name sql)), t2) /\ sent t' = sent t2.
Proof.
  intros H Hc. destruct (RunSuite_ends _ _ _ _ _ _ _ _ _ H Hc) as (t1 & l & t2 & t3 & Hb & _ & Hcl & Hs).
  exists t1, l, t2. split; [exact Hb|]. rewrite Hs. f_equal. eapply cleans_none, Hcl.
  unfold usable. by rewrite (run_body_lost _ _ _ _ _ _ _ _ _ _ Hb).
Qed.

(** ** Recording the default suite *)

Lemma recorded_names ran l :
  Forall2 recorded_whole ran l -> map (fun c => Name (RCase c)) l = map Name ran.
Proof. induction 1 as [|c r ran l [Hc _] _ IH]; simpl; [done|]. by rewrite Hc, IH. Qed.

Lemma recorded_cases ran l r : Forall2 recorded_whole ran l -> r ∈ l -> RCase r ∈ ran.
Proof.
  intros H Hin. apply list_elem_of_lookup in Hin as [i Hi].
  destruct (Forall2_lookup_r _ _ _ _ _ H Hi) as (c & Hc & <- & _).
  by eapply list_elem_of_lookup_2.
Qed.

Lemma NoDup_map_filter {A B} (f : A -> B) (p : A -> bool) l : NoDup (map f l) -> NoDup (map f (List.filter p l)).
Proof.
  induction l as [|x l IH]; simpl; [done|]. intros [Hx H]%NoDup_cons. destruct (p x); [|by apply IH].
  simpl. apply NoDup_cons. split; [|by apply IH]. intros Hin. apply Hx.
  apply list_elem_of_fmap in Hin as (y & -> & Hy). apply elem_of_filter_bool in Hy as [_ Hy].
  by apply list_elem_of_fmap_2.
Qed.

(** A suite whose runs can be saved: its cases have distinct names, each is in a
    group that names a file, some case is always run, and the suite has a name. *)
Record recordable (suite : Suite) : Prop := {
  distinct_names : NoDup (map Name (SCases suite));
  all_grouped : forall c, c ∈ SCases suite -> nonempty (Group c) = true /\ has_slash (Group c) = false;
  some_selected : forall b, nonnil (selected b suite) = true;
  suite_named : SName suite <> EmptyString;
}.

Lemma run_saveable ctx order b now suite t golden t' :
  recordable suite ->
  RunSuite ctx order b now suite t = ((Some golden, None), t') ->
  saveable (Some golden) = true /\ NoDup (names golden) /\ SuiteName golden <> EmptyString /\
  plain_groups (Cases golden).
Proof.
  intros [Hnd Hg Hsel Hname]. unfold RunSuite. destruct (connect ctx (db t)) as [[conn|] d]; [|done].
  destruct (send ctx conn "SELECT version()" serverVersion (at_db t d)) as [v t1].
  destruct (run_body ctx order b suite conn t1) as [[l e1] t2] eqn:E.
  intros [= <- -> _]. destruct (run_body_recorded _ _ _ _ _ _ _ _ _ E) as (ran & rest & Hs & Hl & Hr).
  specialize (Hr eq_refl) as ->. rewrite app_nil_r in Hs. subst ran. split_and!; [|unfold names|done|].
  - simpl. apply andb_true_iff. split.
    + specialize (Hsel b). by destruct Hl.
    + apply forallb_forall. intros r Hin%list_elem_of_In.
      apply (recorded_cases _ _ _ Hl), elem_of_filter_bool in Hin as [_ Hin]. by apply Hg.
  - simpl. rewrite (recorded_names _ _ Hl). by apply NoDup_map_filter.
  - intros r Hin. apply (recorded_cases _ _ _ Hl), elem_of_filter_bool in Hin as [_ Hin]. by apply Hg.
Qed.

Lemma default_recordable : recordable DefaultSuite.
Proof.
  split.
  - exact default_names.
  - intros c Hc%default_well_formed. unfold well_formed in Hc. rewrite !andb_true_iff, negb_true_iff in Hc. tauto.
  - intros []; vm_compute; reflexivity.
  - discriminate.
Qed.

(** Recording the default suite end to end: a run of it that no error ended is
    saved, if no operation on the disk fails, and reading the fixtures back gives
    the record again, with its cases in order of their names and as far as they are
    enforced. *)
Theorem default_run_round_trip ctx order includeRecordOnly now t golden t' fails d :
  RunSuite ctx order includeRecordOnly now DefaultSuite t = ((Some golden, None), t') ->
  (forall o, fails o = false) ->
  record_utf8 golden -> (forall n e, d !! n = Some (Fixture e) -> record_utf8 e) ->
  exists changed d' golden',
    SaveDir fails (Some golden) d = (Some changed, d') /\
    LoadDir d' = Some golden' /\ content golden' = content (sorted_record golden).
Proof.
  intros Hrun Hf Hg Hd. destruct (run_saveable _ _ _ _ _ _ _ _ default_recordable Hrun) as (Hs & Hnd & Hn & Hp).
  destruct (SaveDir_succeeds fails golden d Hf Hs) as (changed & d' & H).
  destruct (LoadDir_saved fails golden d changed d' Hp H Hg Hd Hn Hnd) as (r' & Hr & Hc).
  by exists changed, d', r'.
Qed.
End facts.

(** ** Witnesses *)

(** A server that answers every query, but on which the statement [SELECT 1 FROM
    gone] fails and a drop of [t] is always in conflict.  Its state is the time, that
    a statement executed and a connection made take one of; a context is done from
    some time on, or never. *)
Definition sample_done (ctx : option nat) (n : nat) : option string :=
  match ctx with
  | Some m => if Nat.leb m n then Some "context canceled" else None
  | None => None
  end.

Definition sample_driver : Driver := {|
  DB := nat;
  Ctx := option nat;
  Background := None;
  withTimeout ctx _ _ := ctx;
  ctxErr := sample_done;
  connect _ n := (Some n, S n);
  close _ _ n := n;
  isClosed _ _ := false;
  exec ctx _ sql n :=
    match sample_done ctx n with
    | Some e => (Some (mkDbError None e), n)
    | None =>
        (if String.eqb sql "SELECT 1 FROM gone" then Some (mkDbError (Some ("42P01", "no such table")) "")
         else if String.eqb sql "DROP TABLE t" then Some (mkDbError (Some ("40001", "conflict")) "")
         else None, S n)
    end;
  query ctx _ _ n :=
    match sample_done ctx n with
    | Some e => (QueryFailed (mkDbError None e), n)
    | None => (QueryRows ["?column?"] [inl [VOther "1"]] None "SELECT 1", n)
    end;
  simpleQuery ctx _ _ n :=
    match sample_done ctx n with
    | Some e => (SimpleFailed (mkDbError None e), n)
    | None => (SimpleResults [("SELECT 1", ["?column?"], [[Some "1"]])], n)
    end;
  serverVersion ctx _ _ n := (match sample_done ctx n with Some _ => "" | None => "16" end, n);
  queryInt ctx _ _ n := (match sample_done ctx n with Some _ => None | None => Some 0 end, n);
  wait ctx _ n := (match sample_done ctx n with Some _ => false | None => true end, n);
|}.

Lemma sample_unusable ctx conn n :
  @usable sample_driver ctx conn n = false -> exists e, sample_done ctx n = Some e.
Proof.
  unfold usable. simpl. destruct (sample_done ctx n) as [e|]; [by exists e|].
  by destruct (bool_decide_reflect (is_Some (@None string))) as [[? [=]]|].
Qed.

#[export] Instance sample_laws : DriverLaws sample_driver.
Proof.
  split; intros ctx conn sql d [e He]%sample_unusable; simpl; rewrite He; [by eexists | done].
Qed.

Definition start : @target sample_driver := @mkTarget sample_driver 0%nat [].

Definition sample_suite (verify : string) : Suite :=
  mkSuite "sample" ["CREATE TABLE t (a int)"] [verify]
    ["DROP TABLE t"; "DROP SCHEMA s"]
    [sample_case "one"; in_sessions [["BEGIN"; "COMMIT"]; ["SELECT 1"]] (probe "two" "occ" "" None)].

(** The run's context is done after the setup, so that verifying it fails: the cleanup
    is under another, and all of it is sent. *)
Lemma RunSuite_cleans_up_witness :
  let run := @RunSuite sample_driver (Some 2%nat) (fun _ => []) true 0 (sample_suite "SELECT 1") start in
  run.1.2 = Some (VerifyFailed "SELECT 1") /\
  last (sent run.2) = Some (0%nat, "DROP SCHEMA s").
Proof.
  intros run. split; [reflexivity|].
  destruct (@RunSuite_cleans_up sample_driver sample_laws (Some 2%nat) (fun _ => []) true 0
              (sample_suite "SELECT 1") start run.1 run.2 (surjective_pairing _))
    as (t1 & l & t2 & t3 & _ & _ & Hc & ->).
  assert (forall d : nat, @usable sample_driver None 0%nat d = true) as Hu by reflexivity.
  destruct (@cleans_all sample_driver _ _ _ _ _ Hu Hc) as (counts & Hk & ->).
  inversion Hk as [|? k1 ? ks H1 Hks]; subst. inversion Hks as [|? k2 ? ks2 H2 Hks2]; subst.
  inversion Hks2; subst. simpl. rewrite app_nil_r.
  destruct k2 as [|k2]; [exfalso; lia|]. change (S k2) with (1 + k2)%nat. rewrite Nat.add_comm.
  rewrite (repeat_app _ k2 1), app_assoc, app_assoc. apply last_snoc.
Defined.

(** Two cases, the second of sessions that interleave. *)
Lemma RunSuite_records_witness :
  let run := @RunSuite sample_driver None (fun _ => [1; 0]%nat) true 0 (sample_suite "SELECT 1 FROM t") start in
  exists golden, run.1 = (Some golden, None) /\ map RCase (Cases golden) = SCases (sample_suite "").
Proof.
  intros run. destruct run as [[[golden|] e] t'] eqn:E; [|vm_compute in E; discriminate E].
  assert (e = None) as -> by (vm_compute in E; by injection E).
  exists golden. split; [reflexivity|].
  destruct (@RunSuite_records sample_driver _ _ _ _ _ _ _ _ _ E) as (ran & rest & Hs & Hl & Hr).
  rewrite (Hr eq_refl), app_nil_r in Hs. rewrite <- Hs in Hl. simpl in Hl.
  inversion Hl as [|? r1 ? l1 [Ha _] Hl1]; subst. inversion Hl1 as [|? r2 ? l2 [Hb _] Hl2]; subst.
  inversion Hl2; subst. simpl. by rewrite Ha, Hb.
Defined.

Local Abbreviation default_run := (@RunSuite sample_driver None (fun _ => []) true 0 DefaultSuite start).

Lemma default_run_ends : bool_decide (is_Some default_run.1.1) = true /\ default_run.1.2 = None.
Proof. split; vm_compute; reflexivity. Qed.

Lemma default_run_utf8 : record_utf8 (default no_record default_run.1.1).
Proof. vm_compute. reflexivity. Qed.

Lemma default_run_round_trip_witness :
  exists golden changed d' golden',
    SaveDir (fun _ => false) (Some golden) ∅ = (Some changed, d') /\
    LoadDir d' = Some golden' /\ content golden' = content (sorted_record golden).
Proof.
  pose proof default_run_ends as [H1 H2]. pose proof default_run_utf8 as H3.
  destruct default_run as [[[golden|] e] t'] eqn:E; [simpl in H2, H3 | discriminate H1].
  subst e. exists golden.
  apply (@default_run_round_trip sample_driver _ _ _ _ _ _ _ (fun _ => false) ∅ E).
  - reflexivity.
  - exact H3.
  - intros n e H. by rewrite lookup_empty in H.
Defined.
