(* ===== verification/Net.v ===== *)
(** * Addresses and URLs: what the mains use of [net] and [net/url]

    Splitting and joining addresses, reading IP addresses, escaping the parts of a
    URL and reading a URL back. *)

From Stdlib Require Import Ascii String.
From stdpp Require Import base numbers pretty strings list.
From S2P Require Import Prelude GoStd.

Local Open Scope Z_scope.

(** ** Cutting strings *)

(** What stands before and after the first, and the last, of a character. *)
Fixpoint cut (c : ascii) (s : string) : option (string * string) :=
  match s with
  | EmptyString => None
  | String a rest =>
      if Ascii.eqb a c then Some (EmptyString, rest)
      else match cut c rest with Some (x, y) => Some (String a x, y) | None => None end
  end.

Fixpoint cut_last (c : ascii) (s : string) : option (string * string) :=
  match s with
  | EmptyString => None
  | String a rest =>
      match cut_last c rest with
      | Some (x, y) => Some (String a x, y)
      | None => if Ascii.eqb a c then Some (EmptyString, rest) else None
      end
  end.

(** [strings.Split] on one character. *)
Fixpoint split_all (sep : ascii) (s : string) : list string :=
  match s with
  | EmptyString => [EmptyString]
  | String c rest =>
      if Ascii.eqb c sep then EmptyString :: split_all sep rest
      else match split_all sep rest with p :: ps => String c p :: ps | [] => [] end
  end.

Fixpoint all_chars (f : ascii -> bool) (s : string) : bool :=
  match s with EmptyString => true | String c rest => f c && all_chars f rest end.

Definition has_char (c : ascii) (s : string) : bool := negb (all_chars (fun a => negb (Ascii.eqb a c)) s).

Lemma all_chars_app f a b : all_chars f (a +:+ b) = all_chars f a && all_chars f b.
Proof. induction a as [|c a IH]; [done|]. simpl. by rewrite IH, andb_assoc. Qed.

Lemma all_chars_impl (f g : ascii -> bool) s :
  (forall c, f c = true -> g c = true) -> all_chars f s = true -> all_chars g s = true.
Proof. intros Hfg. induction s as [|c s IH]; [done|]. simpl. rewrite !andb_true_iff. naive_solver. Qed.

Lemma has_char_app c a b : has_char c (a +:+ b) = has_char c a || has_char c b.
Proof. unfold has_char. by rewrite all_chars_app, negb_andb. Qed.

(** A class that a character is not in keeps it out of a string. *)
Lemma class_without f c s : all_chars f s = true -> f c = false -> has_char c s = false.
Proof.
  intros Hs Hc. apply negb_false_iff. revert Hs. apply all_chars_impl. intros a Ha.
  destruct (Ascii.eqb_spec a c) as [->|]; [by rewrite Hc in Ha | done].
Qed.

Lemma cut_none c s : has_char c s = false -> cut c s = None.
Proof.
  unfold has_char. rewrite negb_false_iff. induction s as [|a s IH]; [done|]. simpl.
  rewrite andb_true_iff, negb_true_iff. intros [-> Hs]. by rewrite (IH Hs).
Qed.

Lemma cut_last_none c s : has_char c s = false -> cut_last c s = None.
Proof.
  unfold has_char. rewrite negb_false_iff. induction s as [|a s IH]; [done|]. simpl.
  rewrite andb_true_iff, negb_true_iff. intros [Ha Hs]. by rewrite (IH Hs), Ha.
Qed.

Lemma cut_app c a b : has_char c a = false -> cut c (a +:+ String c b) = Some (a, b).
Proof.
  unfold has_char. rewrite negb_false_iff. induction a as [|x a IH]; simpl; [by rewrite Ascii.eqb_refl|].
  rewrite andb_true_iff, negb_true_iff. intros [-> Hs]. by rewrite (IH Hs).
Qed.

Lemma cut_last_app c a b : has_char c b = false -> cut_last c (a +:+ String c b) = Some (a, b).
Proof.
  intros Hb. induction a as [|x a IH]; simpl; [by rewrite (cut_last_none _ _ Hb), Ascii.eqb_refl | by rewrite IH].
Qed.

(** ** [net.SplitHostPort] and [net.JoinHostPort] *)

(** Host and port of an address, or nothing when it has no port, too many colons or
    a bracket out of place. *)
Definition SplitHostPort (hostport : string) : option (string * string) :=
  match cut_last ":" hostport with
  | None => None
  | Some (before, port) =>
      match hostport with
      | String "[" inner =>
          match cut "]" inner with
          | Some (host, after) =>
              if String.eqb after (String ":" port) && negb (has_char "[" inner) && negb (has_char "]" after)
              then Some (host, port) else None
          | None => None
          end
      | _ =>
          if has_char ":" before || has_char "[" hostport || has_char "]" hostport then None
          else Some (before, port)
      end
  end.

Definition JoinHostPort (host port : string) : string :=
  if has_char ":" host then String "[" (host +:+ String "]" (String ":" port)) else host +:+ String ":" port.

Example split_plain : SplitHostPort "127.0.0.1:5432" = Some ("127.0.0.1", "5432").
Proof. reflexivity. Qed.
Example split_bracketed : SplitHostPort "[::1]:5432" = Some ("::1", "5432").
Proof. reflexivity. Qed.
Example split_refused :
  map SplitHostPort ["::1"; "host"; "[::1]"; "[::1:5432"; "[::1]5432"; "[[::1]:5432"; "a]:1"; "a[:1"; "[::1]]:1"; ""]
    = repeat None 10.
Proof. reflexivity. Qed.

(** ** [net.ParseIP] *)

(** One field of a dotted address: up to 255, without leading zeros. *)
Definition ipv4_field (s : string) : option Z :=
  match s with
  | EmptyString => None
  | String c rest =>
      if Ascii.eqb c "0" && negb (String.eqb rest "") then None
      else match digits_value 0 s with
           | Some n => if n <=? 255 then Some n else None
           | None => None
           end
  end.

Definition parse_ipv4 (s : string) : option (list Z) :=
  match map ipv4_field (split_all "." s) with
  | [Some a; Some b; Some c; Some d] => Some [a; b; c; d]
  | _ => None
  end.

Definition hex_value (c : ascii) : option Z :=
  let n := Z.of_N (code c) in
  if (48 <=? n) && (n <=? 57) then Some (n - 48)
  else if (97 <=? n) && (n <=? 102) then Some (n - 87)
  else if (65 <=? n) && (n <=? 70) then Some (n - 55)
  else None.

(** The hexadecimal number in front: its value, how many digits it has and what
    follows it. *)
Fixpoint hex_prefix (acc : Z) (n : nat) (s : string) : Z * nat * string :=
  match s with
  | EmptyString => (acc, n, s)
  | String c rest =>
      match hex_value c with
      | Some d => hex_prefix (16 * acc + d) (S n) rest
      | None => (acc, n, s)
      end
  end.

(** The bytes with the zeros of the ellipsis put in. *)
Definition expand (bytes_ : list Z) (ellipsis : option nat) : option (list Z) :=
  match Nat.eqb (length bytes_) 16, ellipsis with
  | true, None => Some bytes_
  | true, Some _ => None
  | false, None => None
  | false, Some e => Some (take e bytes_ ++ repeat 0 (16 - length bytes_) ++ drop e bytes_)
  end.

(** The groups from one on; a step per character is enough. *)
Fixpoint parse_groups (fuel : nat) (s : string) (bytes_ : list Z) (ellipsis : option nat) : option (list Z) :=
  match fuel with
  | O => None
  | S fuel =>
      if Nat.leb 16 (length bytes_) then None
      else
        let '(acc, digits, rest) := hex_prefix 0 0 s in
        if Nat.eqb digits 0 || Nat.ltb 4 digits then None
        else match rest with
        | EmptyString => expand (bytes_ ++ [Z.shiftr acc 8; Z.land acc 255]) ellipsis
        | String "." _ =>
            if (bool_decide (ellipsis = None) && negb (Nat.eqb (length bytes_) 12)) || Nat.ltb 12 (length bytes_)
            then None
            else match parse_ipv4 s with
                 | Some v4 => expand (bytes_ ++ v4) ellipsis
                 | None => None
                 end
        | String ":" (String c after) =>
            let bytes_ := bytes_ ++ [Z.shiftr acc 8; Z.land acc 255] in
            if Ascii.eqb c ":" then
              match ellipsis, after with
              | Some _, _ => None
              | None, EmptyString => expand bytes_ (Some (length bytes_))
              | None, _ => parse_groups fuel after bytes_ (Some (length bytes_))
              end
            else parse_groups fuel (String c after) bytes_ ellipsis
        | _ => None
        end
  end.

Definition parse_ipv6 (s : string) : option (list Z) :=
  match s with
  | String ":" (String ":" EmptyString) => Some (repeat 0 16)
  | String ":" (String ":" rest) => parse_groups (String.length s) rest [] (Some 0%nat)
  | _ => parse_groups (String.length s) s [] None
  end.

(** The first dot, colon or percent sign decides what an address is. *)
Fixpoint address_kind (s : string) : option ascii :=
  match s with
  | EmptyString => None
  | String c rest => if Ascii.eqb c "." || Ascii.eqb c ":" || Ascii.eqb c "%" then Some c else address_kind rest
  end.

(** The sixteen bytes of an address; one with a zone is none. *)
Definition ParseIP (s : string) : option (list Z) :=
  match address_kind s with
  | Some "."%char => (fun v4 => repeat 0 10 ++ [255; 255] ++ v4) <$> parse_ipv4 s
  | Some ":"%char => if string_contains s "%" then None else parse_ipv6 s
  | _ => None
  end.

Example parse_ip_examples :
  ParseIP "127.0.0.1" = Some (repeat 0 10 ++ [255; 255; 127; 0; 0; 1]) /\
  ParseIP "::1" = Some (repeat 0 15 ++ [1]) /\ ParseIP "::" = Some (repeat 0 16) /\
  ParseIP "fe80::1:2" = Some ([254; 128] ++ repeat 0 10 ++ [0; 1; 0; 2]) /\
  ParseIP "::ffff:1.2.3.4" = ParseIP "1.2.3.4" /\ ParseIP "1:2:3:4:5:6:7:8" <> None /\
  map ParseIP ["localhost"; "1.2.3"; "1.2.3.256"; "01.2.3.4"; "1.2.3.4.5"; "1..3.4"; ":1"; "1:"; "1::2::3"; "fe80::1%eth0";
               "12345::"; "1:2:3:4:5:6:7:8::"; "1:2:3:4:5:6:7"] = repeat None 13.
Proof. by vm_compute. Qed.


(** ** Escaping: [net/url] *)

Inductive encoding := encodePath | encodeHost | encodeUserPassword | encodeQueryComponent.

Definition between (lo hi : N) (c : ascii) : bool := ((lo <=? code c) && (code c <=? hi))%N.

Definition alphanumeric (c : ascii) : bool := between 48 57 c || between 65 90 c || between 97 122 c.

Fixpoint one_of (l : string) (c : ascii) : bool :=
  match l with EmptyString => false | String a l => Ascii.eqb c a || one_of l c end.

(** The quotation mark, the last of the characters a host keeps. *)
Definition quotation_mark : ascii := "034".

Definition shouldEscape (c : ascii) (mode : encoding) : bool :=
  if alphanumeric c then false
  else if match mode with
          | encodeHost => one_of "!$&'()*+,;=:[]<>" c || Ascii.eqb c quotation_mark
          | _ => false
          end then false
  else if one_of "-_.~" c then false
  else if one_of "$&+,/:;=?@" c then
    match mode with
    | encodePath => Ascii.eqb c "?"
    | encodeUserPassword => one_of "@/?:" c
    | encodeQueryComponent => true
    | encodeHost => true
    end
  else true.

Definition upperhex (n : N) : ascii := if (n <? 10)%N then ascii_of_N (48 + n) else ascii_of_N (55 + n).

Definition escape_char (mode : encoding) (c : ascii) (rest : string) : string :=
  match mode, Ascii.eqb c " " with
  | encodeQueryComponent, true => String "+" rest
  | _, _ =>
      if shouldEscape c mode
      then String "%" (String (upperhex (code c / 16)) (String (upperhex (code c mod 16)) rest))
      else String c rest
  end.

Fixpoint escape (mode : encoding) (s : string) : string :=
  match s with EmptyString => EmptyString | String c rest => escape_char mode c (escape mode rest) end.

Fixpoint unescape (mode : encoding) (s : string) : option string :=
  match s with
  | EmptyString => Some EmptyString
  | String "%" (String a (String b rest)) =>
      match hex_value a, hex_value b with
      | Some x, Some y =>
          if match mode with
             | encodeHost => (x <? 8) && negb (Ascii.eqb a "2" && Ascii.eqb b "5")
             | _ => false
             end then None
          else String (ascii_of_N (Z.to_N (16 * x + y))) <$> unescape mode rest
      | _, _ => None
      end
  | String c rest =>
      if Ascii.eqb c "%" then None
      else if Ascii.eqb c "+" then
        String (match mode with encodeQueryComponent => " "%char | _ => c end) <$> unescape mode rest
      else if match mode with encodeHost => (code c <? 128)%N && shouldEscape c mode | _ => false end then None
      else String c <$> unescape mode rest
  end.

(** ** URLs *)

(** The parts of a [url.URL] with an authority. *)
Record URL := mkURL {
  Scheme : string;
  Username : option string;
  Password : option string;
  Host : string;
  Path : string;
  RawQuery : string;
}.

(** [UserPassword(..).String()], which writes nothing when both strings are empty,
    although a password was set. *)
Definition userinfo_string (user password : string) : string :=
  if String.eqb user "" && String.eqb password "" then EmptyString
  else escape encodeUserPassword user +:+ String ":" (escape encodeUserPassword password).

(** [URL.String] of a URL with a scheme, a user, a password, a host and a path
    from the root. *)
Definition url_string (scheme user password host path query : string) : string :=
  scheme +:+ "://" +:+ userinfo_string user password +:+ String "@" (escape encodeHost host +:+
    escape encodePath path +:+ (if String.eqb query "" then EmptyString else String "?" query)).

(** [url.Values] of one value each, sorted by key, and [Values.Encode]. *)
Fixpoint values_set (k v : string) (l : list (string * string)) : list (string * string) :=
  match l with
  | [] => [(k, v)]
  | (k', v') :: l' =>
      match String.compare k k' with
      | Lt => (k, v) :: l
      | Eq => (k, v) :: l'
      | Gt => (k', v') :: values_set k v l'
      end
  end.

Definition encode_pair (kv : string * string) : string :=
  escape encodeQueryComponent kv.1 +:+ String "=" (escape encodeQueryComponent kv.2).

Definition values_encode (l : list (string * string)) : string := join "&" (map encode_pair l).

(** ** Reading a URL: [url.Parse] *)

Fixpoint all_letters_then_colon (s : string) (first : bool) : option (string * string) :=
  match s with
  | EmptyString => None
  | String c rest =>
      if between 65 90 c || between 97 122 c || (negb first && (between 48 57 c || one_of "+-." c)) then
        match all_letters_then_colon rest false with Some (x, y) => Some (String c x, y) | None => None end
      else if Ascii.eqb c ":" && negb first then Some (EmptyString, rest)
      else None
  end.

(** The scheme and what follows its colon. *)
Definition getScheme (s : string) : option (string * string) := all_letters_then_colon s true.

Definition validUserinfo (s : string) : bool := all_chars (fun c => alphanumeric c || one_of "-._:~!$&'()*+,;=%@" c) s.

Definition digit (c : ascii) : bool := between 48 57 c.

Definition validOptionalPort (s : string) : bool :=
  match s with EmptyString => true | String c rest => Ascii.eqb c ":" && all_chars digit rest end.

(** The host and its port; an address in brackets is one of version 6, without a zone. *)
Definition parseHost (host : string) : option string :=
  match host with
  | String "[" inner =>
      if has_char "[" inner then None
      else match cut_last "]" inner with
           | Some (address, port) =>
               match (if has_char ":" address then ParseIP address else None) with
               | Some _ => if validOptionalPort port then unescape encodeHost host else None
               | None => None
               end
           | None => None
           end
  | _ =>
      if has_char "[" host then None
      else match cut_last ":" host with
           | Some (_, port) => if all_chars digit port then unescape encodeHost host else None
           | None => unescape encodeHost host
           end
  end.

(** User, password and host. *)
Definition parseAuthority (authority : string) : option (option string * option string * string) :=
  match cut_last "@" authority with
  | None => (fun h => (None, None, h)) <$> parseHost authority
  | Some (userinfo, h) =>
      match parseHost h with
      | None => None
      | Some h =>
          if negb (validUserinfo userinfo) then None
          else match cut ":" userinfo with
          | None => (fun u => (Some u, None, h)) <$> unescape encodeUserPassword userinfo
          | Some (u, p) =>
              match unescape encodeUserPassword u, unescape encodeUserPassword p with
              | Some u, Some p => Some (Some u, Some p, h)
              | _, _ => None
              end
          end
      end
  end.

Definition control (c : ascii) : bool := ((code c <? 32) || (code c =? 127))%N.

(** What stands before the first of a character, and after it. *)
Definition before_after (c : ascii) (s : string) : string * string := default (s, EmptyString) (cut c s).

(** [url.Parse] of a URL with a scheme, an authority and no fragment; nothing of
    another. *)
Definition url_parse (s : string) : option URL :=
  if has_char "#" s || negb (all_chars (fun c => negb (control c)) s) then None
  else match getScheme s with
  | None => None
  | Some (scheme, rest) =>
      let '(rest, query) := before_after "?" rest in
      match rest with
      | String "/" (String "/" rest) =>
          let (authority, path) :=
            match cut "/" rest with Some (a, p) => (a, String "/" p) | None => (rest, EmptyString) end in
          match parseAuthority authority, unescape encodePath path with
          | Some (user, password, host), Some path => Some (mkURL (to_lower scheme) user password host path query)
          | _, _ => None
          end
      | _ => None
      end
  end.

(** [URL.Query]: the pairs that can be read, in order. *)
Definition parse_pair (s : string) : list (string * string) :=
  if String.eqb s "" || has_char ";" s then []
  else let (k, v) := before_after "=" s in
       match unescape encodeQueryComponent k, unescape encodeQueryComponent v with
       | Some k, Some v => [(k, v)]
       | _, _ => []
       end.

Definition parse_query (query : string) : list (string * string) := flat_map parse_pair (split_all "&" query).

Definition url_query (u : URL) : list (string * string) := parse_query (RawQuery u).

(** ** Escaped text reads back *)

Lemma unescape_char mode c rest :
  mode <> encodeHost -> unescape mode (escape_char mode c rest) = String c <$> unescape mode rest.
Proof. intros Hm. destruct mode; try done; destruct c as [[] [] [] [] [] [] [] []]; reflexivity. Qed.

Lemma unescape_escape mode s : mode <> encodeHost -> unescape mode (escape mode s) = Some s.
Proof. intros Hm. induction s as [|c s IH]; [done|]. simpl. by rewrite unescape_char, IH. Qed.

(** Escaping leaves a host of plain characters as it is, and so does reading it. *)
Definition host_char (c : ascii) : bool := alphanumeric c || one_of "-._~:[]" c.

Lemma host_char_plain c :
  host_char c = true ->
  shouldEscape c encodeHost = false /\ Ascii.eqb c "%" = false /\ Ascii.eqb c "+" = false.
Proof. by destruct c as [[] [] [] [] [] [] [] []]. Qed.

Lemma escape_host s : all_chars host_char s = true -> escape encodeHost s = s.
Proof.
  induction s as [|c s IH]; [done|]. simpl. rewrite andb_true_iff. intros [Hc Hs].
  unfold escape_char. destruct (host_char_plain _ Hc) as (-> & _). by rewrite IH.
Qed.

Lemma unescape_plain mode c rest :
  Ascii.eqb c "%" = false -> Ascii.eqb c "+" = false -> shouldEscape c encodeHost = false ->
  unescape mode (String c rest) = String c <$> unescape mode rest.
Proof.
  intros Hp Hq Hs. assert (c <> "%"%char) as Hne by (by intros ->).
  cbn [unescape]. rewrite Hp, Hq.
  destruct mode; try rewrite Hs, andb_false_r; destruct c as [[] [] [] [] [] [] [] []]; try reflexivity; done.
Qed.

Lemma unescape_host s : all_chars host_char s = true -> unescape encodeHost s = Some s.
Proof.
  induction s as [|c s IH]; [done|]. cbn [all_chars]. rewrite andb_true_iff. intros [Hc Hs].
  destruct (host_char_plain _ Hc) as (? & ? & ?). by rewrite unescape_plain, IH.
Qed.

(** The characters an escaped string is made of. *)
Definition escaped_char (mode : encoding) (c : ascii) : bool :=
  negb (shouldEscape c mode) || Ascii.eqb c "%" || match mode with encodeQueryComponent => Ascii.eqb c "+" | _ => false end.

Lemma escape_chars mode s : all_chars (escaped_char mode) (escape mode s) = true.
Proof.
  induction s as [|c s IH]; [done|].
  assert (forall rest, all_chars (escaped_char mode) (escape_char mode c rest) = all_chars (escaped_char mode) rest) as H.
  { intros rest. destruct mode, c as [[] [] [] [] [] [] [] []]; reflexivity. }
  simpl. by rewrite H.
Qed.

Lemma escape_without mode c s : escaped_char mode c = false -> has_char c (escape mode s) = false.
Proof. intros H. apply (class_without (escaped_char mode)); [apply escape_chars | done]. Qed.

Lemma escaped_not_control mode c : escaped_char mode c = true -> control c = false.
Proof. by destruct mode, c as [[] [] [] [] [] [] [] []]. Qed.

Lemma escaped_user_valid c :
  escaped_char encodeUserPassword c = true -> alphanumeric c || one_of "-._:~!$&'()*+,;=%@" c = true.
Proof. by destruct c as [[] [] [] [] [] [] [] []]. Qed.

Lemma itoa_digits z : 0 <= z -> all_chars digit (itoa z) = true.
Proof.
  assert (forall x s, all_chars digit s = true -> all_chars digit (pretty_N_go x s) = true) as Hgo.
  { intros x. induction (N.lt_wf_0 x) as [x _ IH]. intros s Hs.
    destruct (decide (x = 0%N)) as [->|Hx]; [by rewrite pretty_N_go_0|].
    rewrite pretty_N_go_step by lia. apply IH; [by apply N.div_lt; lia|]. simpl. rewrite Hs.
    unfold pretty_N_char. by repeat case_match. }
  intros Hz. unfold itoa, pretty, pretty_Z. destruct z as [|p|p]; [done| |lia].
  unfold pretty, pretty_positive, pretty, pretty_N; case_match; [done | by apply Hgo].
Qed.

(** ** Addresses and URLs read back *)

(** A host the parts of a URL can hold as it is: a name, an address of version 4,
    or one of version 6, which is written in brackets. *)
Definition plain_char (c : ascii) : bool := alphanumeric c || one_of "-._~:" c.

Definition plain_host (host : string) : bool :=
  all_chars plain_char host && (negb (has_char ":" host) || bool_decide (is_Some (ParseIP host))).

Lemma plain_without c host : plain_host host = true -> plain_char c = false -> has_char c host = false.
Proof. intros [Hc _]%andb_true_iff. by apply class_without. Qed.

Lemma SplitHostPort_JoinHostPort host port :
  plain_host host = true -> all_chars digit port = true ->
  SplitHostPort (JoinHostPort host port) = Some (host, port).
Proof.
  intros Hh Hp.
  assert (has_char ":" port = false /\ has_char "[" port = false /\ has_char "]" port = false) as (Hp1 & Hp2 & Hp3).
  { split_and!; by apply (class_without digit). }
  pose proof (plain_without "[" _ Hh eq_refl) as H1. pose proof (plain_without "]" _ Hh eq_refl) as H2.
  unfold JoinHostPort, SplitHostPort. destruct (has_char ":" host) eqn:Hc.
  - change (String "[" (host +:+ String "]" (String ":" port))) with ((String "[" host) +:+ String "]" (String ":" port)) at 1.
    replace ((String "[" host) +:+ String "]" (String ":" port))
      with ((String "[" host +:+ "]") +:+ String ":" port) by (simpl; by rewrite string_app_assoc).
    rewrite (cut_last_app _ _ _ Hp1). rewrite (cut_app _ _ _ H2), String.eqb_refl.
    assert (has_char "[" (host +:+ String "]" (String ":" port)) = false) as ->.
    { rewrite has_char_app, H1. exact Hp2. }
    assert (has_char "]" (String ":" port) = false) as -> by exact Hp3. done.
  - rewrite (cut_last_app _ _ _ Hp1), Hc, !has_char_app, H1, H2.
    assert (has_char "[" (String ":" port) = false) as -> by exact Hp2.
    assert (has_char "]" (String ":" port) = false) as -> by exact Hp3.
    destruct host as [|c host]; [done|]. simpl.
    destruct c as [[] [] [] [] [] [] [] []]; try reflexivity. done.
Qed.

(** The text of an address with a plain host. *)
Lemma join_host_chars host port :
  plain_host host = true -> all_chars digit port = true -> all_chars host_char (JoinHostPort host port) = true.
Proof.
  intros [Hh _]%andb_true_iff Hp. unfold JoinHostPort.
  assert (all_chars host_char host = true).
  { revert Hh. apply all_chars_impl. by intros [[] [] [] [] [] [] [] []]. }
  assert (all_chars host_char port = true).
  { revert Hp. apply all_chars_impl. by intros [[] [] [] [] [] [] [] []]. }
  destruct (has_char ":" host); [change (all_chars host_char (host +:+ String "]" (String ":" port)) = true)|];
    rewrite all_chars_app, andb_true_iff; by split.
Qed.

Lemma parseHost_JoinHostPort host port :
  plain_host host = true -> all_chars digit port = true ->
  parseHost (JoinHostPort host port) = Some (JoinHostPort host port).
Proof.
  intros Hh Hp. pose proof (unescape_host _ (join_host_chars _ _ Hh Hp)) as Hu.
  assert (has_char ":" port = false /\ has_char "[" port = false /\ has_char "]" port = false) as (Hp1 & Hp2 & Hp3).
  { split_and!; by apply (class_without digit). }
  pose proof (plain_without "[" _ Hh eq_refl) as H1. pose proof (plain_without "]" _ Hh eq_refl) as H2.
  revert Hu. unfold JoinHostPort. destruct (has_char ":" host) eqn:Hc; intros Hu.
  - unfold parseHost. rewrite has_char_app, H1.
    assert (has_char "[" (String "]" (String ":" port)) = false) as -> by exact Hp2. simpl orb.
    rewrite (cut_last_app _ _ (String ":" port)) by exact Hp3. rewrite Hc.
    unfold plain_host in Hh. rewrite Hc in Hh. apply andb_true_iff in Hh as [_ Hip%bool_decide_eq_true].
    destruct Hip as [ip ->]. cbn [validOptionalPort Ascii.eqb]. by rewrite Hp, Hu.
  - assert (parseHost (host +:+ String ":" port) =
      if has_char "[" (host +:+ String ":" port) then None
      else match cut_last ":" (host +:+ String ":" port) with
           | Some (_, p) => if all_chars digit p then unescape encodeHost (host +:+ String ":" port) else None
           | None => unescape encodeHost (host +:+ String ":" port)
           end) as ->.
    { destruct host as [|c host]; [reflexivity|]. destruct c as [[] [] [] [] [] [] [] []]; try reflexivity. by vm_compute in H1. }
    rewrite has_char_app, H1. assert (has_char "[" (String ":" port) = false) as -> by exact Hp2.
    by rewrite (cut_last_app _ _ _ Hp1), Hp, Hu.
Qed.

Lemma parseAuthority_user user password host port :
  plain_host host = true -> all_chars digit port = true -> password <> EmptyString ->
  parseAuthority (userinfo_string user password +:+ String "@" (JoinHostPort host port))
    = Some (Some user, Some password, JoinHostPort host port).
Proof.
  intros Hh Hp Hne. unfold parseAuthority, userinfo_string.
  destruct (String.eqb_spec password "") as [|_]; [done|]. rewrite andb_false_r.
  rewrite cut_last_app, (parseHost_JoinHostPort _ _ Hh Hp).
  2: { apply (class_without host_char); [by apply join_host_chars | done]. }
  assert (validUserinfo (escape encodeUserPassword user +:+ String ":" (escape encodeUserPassword password)) = true) as ->.
  { unfold validUserinfo. rewrite all_chars_app, andb_true_iff. split;
      [| change (all_chars (fun c => alphanumeric c || one_of "-._:~!$&'()*+,;=%@" c) (escape encodeUserPassword password) = true)];
      eapply all_chars_impl, escape_chars; exact escaped_user_valid. }
  rewrite cut_app by (by apply escape_without). by rewrite !unescape_escape.
Qed.

(** No part of a URL holds a character none of them may. *)
Definition authority_string (user password host port : string) : string :=
  userinfo_string user password +:+ String "@" (JoinHostPort host port).

Definition authority_char (c : ascii) : bool :=
  escaped_char encodeUserPassword c || host_char c || Ascii.eqb c "@".

Lemma authority_chars user password host port :
  plain_host host = true -> all_chars digit port = true ->
  all_chars authority_char (authority_string user password host port) = true.
Proof.
  intros Hh Hp. unfold authority_string, userinfo_string.
  assert (forall s, all_chars authority_char (escape encodeUserPassword s) = true) as He.
  { intros s. eapply all_chars_impl, escape_chars. intros c Hc. unfold authority_char. by rewrite Hc. }
  assert (all_chars authority_char (JoinHostPort host port) = true) as Hj.
  { eapply all_chars_impl, join_host_chars; [|done..]. intros c Hc. unfold authority_char. by rewrite Hc, orb_true_r. }
  rewrite all_chars_app, andb_true_iff. split; [|exact Hj].
  destruct (String.eqb user "" && _); [done|]. rewrite all_chars_app, He. exact (He password).
Qed.

Definition url_char (c : ascii) : bool := negb (control c) && negb (Ascii.eqb c "#").

Lemma authority_url_char c : authority_char c = true -> url_char c = true.
Proof. by destruct c as [[] [] [] [] [] [] [] []]. Qed.

Lemma escaped_url_char mode c : mode <> encodeHost -> escaped_char mode c = true -> url_char c = true.
Proof. by destruct mode, c as [[] [] [] [] [] [] [] []]. Qed.

Lemma url_chars s :
  all_chars url_char s = true -> has_char "#" s = false /\ all_chars (fun c => negb (control c)) s = true.
Proof.
  intros H. split; [by apply (class_without url_char)|]. revert H. apply all_chars_impl.
  unfold url_char. intros c [? _]%andb_true_iff. done.
Qed.

(** The URL of a database, read back. *)
Lemma url_parse_string user password host port db query :
  plain_host host = true -> all_chars digit port = true -> password <> EmptyString ->
  all_chars url_char query = true ->
  url_parse (url_string "postgres" user password (JoinHostPort host port) (String "/" db) query)
    = Some (mkURL "postgres" (Some user) (Some password) (JoinHostPort host port) (String "/" db) query).
Proof.
  intros Hh Hp Hne Hq. pose proof (authority_chars user password host port Hh Hp) as Ha.
  set (tail := if String.eqb query "" then EmptyString else String "?" query).
  assert (url_string "postgres" user password (JoinHostPort host port) (String "/" db) query
    = "postgres://" +:+ (authority_string user password host port +:+ String "/" (escape encodePath db +:+ tail))) as ->.
  { unfold url_string, authority_string. rewrite escape_host by (by apply join_host_chars).
    rewrite string_app_assoc. reflexivity. }
  assert (all_chars url_char tail = true) as Ht by (by unfold tail; destruct (String.eqb query "")).
  assert (all_chars url_char (escape encodePath db) = true) as Hd.
  { eapply all_chars_impl, escape_chars. intros c. by apply escaped_url_char. }
  destruct (url_chars ("postgres://" +:+ (authority_string user password host port +:+
              String "/" (escape encodePath db +:+ tail)))) as [H1 H2].
  { change (all_chars url_char (authority_string user password host port +:+
              String "/" (escape encodePath db +:+ tail)) = true).
    rewrite all_chars_app, andb_true_iff. split; [by eapply all_chars_impl, Ha; exact authority_url_char|].
    change (all_chars url_char (escape encodePath db +:+ tail) = true). by rewrite all_chars_app, Hd, Ht. }
  unfold url_parse. rewrite H1, H2. clear H1 H2. cbn [orb negb].
  change (getScheme ("postgres://" +:+ ?x)) with (Some ("postgres", "//" +:+ x)). cbv beta iota.
  set (authority := authority_string user password host port) in *.
  assert (before_after "?" ("//" +:+ (authority +:+ String "/" (escape encodePath db +:+ tail)))
    = ("//" +:+ (authority +:+ String "/" (escape encodePath db)), query)) as ->.
  { assert (has_char "?" ("//" +:+ (authority +:+ String "/" (escape encodePath db))) = false) as Hn.
    { change (has_char "?" (authority +:+ String "/" (escape encodePath db)) = false).
      rewrite has_char_app, (class_without authority_char) by done.
      exact (escape_without encodePath "?" db eq_refl). }
    replace ("//" +:+ (authority +:+ String "/" (escape encodePath db +:+ tail)))
      with (("//" +:+ (authority +:+ String "/" (escape encodePath db))) +:+ tail)
      by (rewrite !string_app_assoc; reflexivity).
    unfold before_after, tail. destruct (String.eqb_spec query "") as [->|].
    - by rewrite string_app_nil, (cut_none _ _ Hn).
    - by rewrite (cut_app _ _ _ Hn). }
  change ("//" +:+ ?x) with (String "/" (String "/" x)). cbv beta iota.
  rewrite cut_app by (by apply (class_without authority_char)). cbv beta iota.
  unfold authority. unfold authority_string. rewrite (parseAuthority_user _ _ _ _ Hh Hp Hne).
  change (String "/" (escape encodePath db)) with (escape encodePath (String "/" db)).
  by rewrite unescape_escape.
Qed.

(** A query reads back. *)
Definition query_char (c : ascii) : bool := escaped_char encodeQueryComponent c || one_of "=&" c.

Lemma query_url_char c : query_char c = true -> url_char c = true.
Proof. by destruct c as [[] [] [] [] [] [] [] []]. Qed.

Lemma encode_pair_chars kv : all_chars (fun c => escaped_char encodeQueryComponent c || Ascii.eqb c "=") (encode_pair kv) = true.
Proof.
  unfold encode_pair. rewrite all_chars_app, andb_true_iff.
  assert (forall s, all_chars (fun c => escaped_char encodeQueryComponent c || Ascii.eqb c "=")
                      (escape encodeQueryComponent s) = true) as He.
  { intros s. eapply all_chars_impl, escape_chars. by intros c ->. }
  split; [apply He|]. simpl. apply He.
Qed.

Lemma values_encode_chars l : all_chars query_char (values_encode l) = true.
Proof.
  assert (forall kv, all_chars query_char (encode_pair kv) = true) as He.
  { intros kv. eapply all_chars_impl, encode_pair_chars. intros c. unfold query_char, one_of.
    rewrite !orb_true_iff. tauto. }
  unfold values_encode, join. induction l as [|kv [|kv' l] IH]; [done | apply He|].
  change (all_chars query_char (encode_pair kv +:+ ("&" +:+ String.concat "&" (map encode_pair (kv' :: l)))) = true).
  rewrite all_chars_app, He. exact IH.
Qed.

Lemma parse_encode_pair kv : parse_pair (encode_pair kv) = [kv].
Proof.
  unfold parse_pair.
  assert (has_char ";" (encode_pair kv) = false) as Hs by (by eapply class_without; [apply encode_pair_chars|]).
  unfold encode_pair, before_after in *. rewrite Hs, cut_app by (by apply escape_without). simpl.
  rewrite !unescape_escape by done. destruct kv as [k v]. cbn [fst snd].
  destruct (String.eqb_spec (escape encodeQueryComponent k +:+ String "=" (escape encodeQueryComponent v)) "")
    as [He|]; [|done]. revert He. by destruct (escape encodeQueryComponent k).
Qed.

Lemma split_all_none sep s : has_char sep s = false -> split_all sep s = [s].
Proof.
  unfold has_char. rewrite negb_false_iff. induction s as [|a s IH]; [done|]. simpl.
  rewrite andb_true_iff, negb_true_iff. intros [-> Hs]. by rewrite (IH Hs).
Qed.

Lemma split_all_app sep a b : has_char sep a = false -> split_all sep (a +:+ String sep b) = a :: split_all sep b.
Proof.
  unfold has_char. rewrite negb_false_iff. induction a as [|x a IH]; simpl; [by rewrite Ascii.eqb_refl|].
  rewrite andb_true_iff, negb_true_iff. intros [-> Hs]. by rewrite (IH Hs).
Qed.

Lemma parse_query_encode l : parse_query (values_encode l) = l.
Proof.
  assert (forall kv, has_char "&" (encode_pair kv) = false) as Hn.
  { intros kv. by eapply class_without; [apply encode_pair_chars|]. }
  unfold parse_query, values_encode, join. induction l as [|kv [|kv' l] IH]; [done| |].
  - cbn [map String.concat]. rewrite split_all_none by apply Hn. cbn [flat_map]. by rewrite parse_encode_pair.
  - change (flat_map parse_pair (split_all "&" (encode_pair kv +:+ String "&" (String.concat "&" (map encode_pair (kv' :: l)))))
      = kv :: kv' :: l).
    rewrite split_all_app by apply Hn. cbn [flat_map]. by rewrite parse_encode_pair, IH.
Qed.
