(* ===== verification/Reports.v ===== *)
(** * What is reported to a person

    The lines the conformance tools print: a difference found, the summary of what a
    case answered, and the suite as [dsql-baseline] lists it.  Text printed to a
    width is ASCII. *)

From Stdlib Require Import Ascii String.
From stdpp Require Import base numbers strings list.
From S2P Require Import Prelude GoStd Compare Suite Commands.

Local Open Scope Z_scope.

(** ** [compare.go]: a difference *)

Definition Difference_String (d : Difference) : string :=
  let kind := if Advisory d then "note" else "mismatch" in
  let where_ := if Nat.ltb 0 (DSession d) then " session " +:+ itoa (Z.of_nat (DSession d)) else EmptyString in
  let sql := default EmptyString (DSteps d !! DStep d) in
  DCase d +:+ ":" +:+ where_ +:+ " " +:+ Field d +:+ " step " +:+ itoa (Z.of_nat (DStep d)) +:+ " (" +:+ sql +:+
    "): golden=" +:+ Golden d +:+ " emulator=" +:+ Emulator d +:+ " [" +:+ kind +:+ "]".

(** ** [record.go]: what a case answered *)

Definition summary_of (obs : Observation) : string :=
  if String.eqb (Outcome obs) "error" then "error " +:+ SQLState obs
  else match Results obs with
       | [] => CommandTag (Own obs)
       | results => join " + " (map CommandTag results)
       end.

Definition summarize (observations : list Observation) : string := join " | " (map summary_of observations).

Definition summarizeSessions (sessions : list (list Observation)) : string :=
  join " || " (imap (fun i obs => "session " +:+ itoa (Z.of_nat i) +:+ ": " +:+ summarize obs) sessions).

(** ** [dsql-baseline]: the suite *)

(** [%-ns]: at least that wide, filled up on the right. *)
Fixpoint pad_right (n : nat) (s : string) : string :=
  match n, s with
  | O, _ => s
  | S n, EmptyString => String " " (pad_right n EmptyString)
  | S n, String c s => String c (pad_right n s)
  end.

Definition case_line (c : Case) : string :=
  let note := if String.eqb (Note c) "" then EmptyString else "  (" +:+ Note c +:+ ")" in
  let gap := if String.eqb (KnownGap c) "" then EmptyString else "  [known gap: " +:+ KnownGap c +:+ "]" in
  "  " +:+ pad_right 28 (Name c) +:+ " " +:+ pad_right 12 (Group c) +:+ " " +:+
    itoa (Z.of_nat (length (elems (Steps c)))) +:+ " step(s)" +:+ note +:+ gap.

Definition printSuite (suite : Suite) : list string :=
  let n {A} (l : list A) := itoa (Z.of_nat (length l)) in
  ("suite " +:+ SName suite +:+ ": " +:+ n (SCases suite) +:+ " cases, " +:+ n (Setup suite) +:+ " setup, " +:+
    n (Cleanup suite) +:+ " cleanup") :: map case_line (SCases suite).

(** What a dry run prints, and what is printed before anything is sent. *)
Definition announcement (suite : Suite) (host : string) : list string :=
  printSuite suite ++
  [EmptyString; "About to run " +:+ itoa (statementCount suite) +:+ " statements against " +:+ host +:+
     " (plus setup and cleanup)."].

Example difference_line :
  Difference_String (mkDiff "select-one" 0 ["SELECT 1"] 0 "rows" "1" "2" false "")
    = "select-one: rows step 0 (SELECT 1): golden=1 emulator=2 [mismatch]".
Proof. reflexivity. Qed.

(** A session is named after the first only. *)
Example difference_session_line :
  Difference_String (mkDiff "race" 2 [] 1 "sqlstate" "40001" "" true "")
    = "race: session 2 sqlstate step 1 (): golden=40001 emulator= [note]".
Proof. reflexivity. Qed.

Example summary_line :
  summarize [mkObs "ok" "" "" (mkAnswer "BEGIN" None None) [];
             mkObs "ok" "" "" (mkAnswer "" None None) [mkAnswer "SELECT 1" None None; mkAnswer "COMMIT" None None];
             mkObs "error" "40001" "" (mkAnswer "" None None) []]
    = "BEGIN | SELECT 1 + COMMIT | error 40001".
Proof. reflexivity. Qed.

Example suite_line :
  case_line (mkCase "select-one" "query" "trivial" (Some ["SELECT 1"]) false "" [] false false false)
    = "  select-one                   query        1 step(s)  (trivial)".
Proof. reflexivity. Qed.
