(* ===== verification/Emulator.v ===== *)
(** * The emulator: [cmd/dsql-emu] and [internal/proxy/tls.go]

    How the main turns its flags into a configuration and an exit code, and the
    TLS configuration it terminates clients with.  Keys and signatures are made by
    Go's [crypto] packages, which may fail; flags are parsed by the [flag] package
    and signals cancel the context. *)

From Stdlib Require Import Ascii String.
From stdpp Require Import base numbers strings list gmap.
From S2P Require Import Prelude GoStd Net Ruleset DefaultRules Proxy.

Local Open Scope Z_scope.

(** ** The certificate: [tls.go] *)

Definition hour : Z := 3600 * second.

(** The fields of an [x509.Certificate] the template sets; times are instants in
    nanoseconds and an address its sixteen bytes. *)
Record Certificate := mkCertificate {
  SerialNumber : Z;
  CommonName : string;
  NotBefore : Z;
  NotAfter : Z;
  KeyUsage : Z;
  ExtKeyUsage : list Z;
  DNSNames : list string;
  IPAddresses : list (list Z);
}.

Definition KeyUsageDigitalSignature : Z := Z.shiftl 1 0.
Definition KeyUsageKeyEncipherment : Z := Z.shiftl 1 2.
Definition ExtKeyUsageServerAuth : Z := 1.
Definition VersionTLS12 : Z := 771.

(** What the code asks of [crypto]: keys, certificates signed with one, and pairs
    read from disk.  Each may fail with an error's text. *)
Class Crypto := {
  PrivateKey : Type;
  GenerateKey : PrivateKey + string;
  CreateCertificate : Certificate -> PrivateKey -> string + string;
  LoadX509KeyPair : string -> string -> (list string * PrivateKey) + string;
}.

Record TLSConfig `{Crypto} := mkTLSConfig {
  Certificates : list (list string * PrivateKey);
  MinVersion : Z;
}.

(** The addresses [net.ParseIP] makes of the literals. *)
Definition parsed (s : string) : list (list Z) := match ParseIP s with Some ip => [ip] | None => [] end.

Definition base_template (now : Z) : Certificate :=
  mkCertificate 1 "dsql-emulator" (now - hour) (now + 10 * 365 * 24 * hour)
    (Z.lor KeyUsageDigitalSignature KeyUsageKeyEncipherment) [ExtKeyUsageServerAuth]
    ["localhost"; "dsql-emulator"] (parsed "127.0.0.1" ++ parsed "::1").

Definition add_host (t : Certificate) (host : string) : Certificate :=
  if String.eqb host "" then t
  else
    let with_names dns ips :=
      mkCertificate (SerialNumber t) (CommonName t) (NotBefore t) (NotAfter t) (KeyUsage t) (ExtKeyUsage t) dns ips in
    match ParseIP host with
    | Some ip => with_names (DNSNames t) (IPAddresses t ++ [ip])
    | None => with_names (DNSNames t ++ [host]) (IPAddresses t)
    end.

Definition template (now : Z) (hosts : list string) : Certificate := foldl add_host (base_template now) hosts.

Section tls.
Context `{Crypto}.

Definition SelfSignedTLSConfig (now : Z) (hosts : list string) : TLSConfig + string :=
  match GenerateKey with
  | inr e => inr ("generate key: " +:+ e)
  | inl key =>
      match CreateCertificate (template now hosts) key with
      | inr e => inr ("create certificate: " +:+ e)
      | inl der => inl (mkTLSConfig _ [([der], key)] VersionTLS12)
      end
  end.

Definition LoadTLSConfig (certFile keyFile : string) : TLSConfig + string :=
  match LoadX509KeyPair certFile keyFile with
  | inr e => inr ("load key pair: " +:+ e)
  | inl cert => inl (mkTLSConfig _ [cert] VersionTLS12)
  end.

(** ** The main *)

(** The host of an address that a client cannot name. *)
Definition unspecified (host : string) : bool :=
  String.eqb host "" || String.eqb host "0.0.0.0" || String.eqb host "::".

Definition certificate_host (listen : string) : string :=
  match SplitHostPort listen with
  | Some (host, _) => if unspecified host then "localhost" else host
  | None => "localhost"
  end.

Definition buildTLS (now : Z) (disabled : bool) (certFile keyFile listen : string) : option TLSConfig + string :=
  let some_or_error r := match r with inl c => inl (Some c) | inr e => inr e end in
  if disabled then inl None
  else if negb (String.eqb certFile "") || negb (String.eqb keyFile "") then
    some_or_error (LoadTLSConfig certFile keyFile)
  else some_or_error (SelfSignedTLSConfig now [certificate_host listen]).

(** The flags, with their defaults in [default_flags]. *)
Record emuFlags := mkEmuFlags {
  listen : string;
  upstream : string;
  logLevel : string;
  tlsCert : string;
  tlsKey : string;
  noTLS : bool;
  serverVersion : string;
}.

Definition default_flags : emuFlags :=
  mkEmuFlags "127.0.0.1:5432" "127.0.0.1:5433" "info" "" "" false DefaultServerVersion.

(** [proxy.New] with the main's configuration and the embedded ruleset. *)
Definition emu_new (fl : emuFlags) (tlsConfig : option TLSConfig) : ProxyConfig + string :=
  New (inl default_ruleset)
    (mkProxyConfig (listen fl) (upstream fl) 0 None (bool_decide (is_Some tlsConfig)) (serverVersion fl)).

(** Up to [Run]: the proxy to run and its TLS configuration, or an exit code. *)
Definition emu_start (now : Z) (fl : emuFlags) : (ProxyConfig * option TLSConfig) + Z :=
  match buildTLS now (noTLS fl) (tlsCert fl) (tlsKey fl) (listen fl) with
  | inr _ => inr 2
  | inl tlsConfig =>
      match emu_new fl tlsConfig with
      | inr _ => inr 2
      | inl cfg => inl (cfg, tlsConfig)
      end
  end.

(** The exit code once [Run] has returned. *)
Definition run_code (r : runResult) : Z := match r with RunNil => 0 | ListenError | AcceptError => 1 end.

(** The ways the process ends of itself, its exit code and whether a signal had
    cancelled the context: before [Run], or when some run of the proxy returns. *)
Inductive emu_exits (now : Z) (fl : emuFlags) : Z -> bool -> Prop :=
| exits_early code : emu_start now fl = inr code -> emu_exits now fl code false
| exits_after started p r :
    emu_start now fl = inl started -> proxy_reachable p -> runAt p = RunReturned r ->
    emu_exits now fl (run_code r) (cancelled p).
End tls.

(** ** The log level *)

(** The name and the offset of a level: what stands before the first sign, and
    from it on. *)
Fixpoint split_sign (s : string) : string * string :=
  match s with
  | EmptyString => (EmptyString, EmptyString)
  | String c rest =>
      if Ascii.eqb c "+" || Ascii.eqb c "-" then (EmptyString, s)
      else let (name, offset) := split_sign rest in (String c name, offset)
  end.

(** [strings.ToUpper] of a name: the dotless i is the one letter outside ASCII
    whose upper case is in one of the names. *)
Fixpoint upper_name (s : string) : string :=
  match s with
  | String c ((String c1 rest1) as rest) =>
      if ((code c =? 196) && (code c1 =? 177))%N then String "I" (upper_name rest1)
      else String (upper_ascii c) (upper_name rest)
  | String c rest => String (upper_ascii c) (upper_name rest)
  | EmptyString => EmptyString
  end.

(** [slog.Level.UnmarshalText]. *)
Definition parse_level (s : string) : option Z :=
  let (name, sign) := split_sign s in
  match (if String.eqb sign "" then Some 0 else atoi sign) with
  | None => None
  | Some offset =>
      let at_ l := Some (int64 (l + offset)) in
      let up := upper_name name in
      if String.eqb up "DEBUG" then at_ (-4)
      else if String.eqb up "INFO" then at_ 0
      else if String.eqb up "WARN" then at_ 4
      else if String.eqb up "ERROR" then at_ 8
      else None
  end.

(** [newLogger]: the level logged from, and whether it complained. *)
Definition newLogger (level : string) : Z * bool :=
  match parse_level level with Some l => (l, false) | None => (0, true) end.

Example newLogger_examples :
  map newLogger ["debug"; "Warn"; "ERROR"; "info+2"; "debug-1"; "verbose"; ""; "info+x"]
    = [(-4, false); (4, false); (8, false); (2, false); (-5, false); (0, true); (0, true); (0, true)].
Proof. by vm_compute. Qed.

(** ** Who a certificate is good for *)

(** Whether a certificate lists the host a client dials: an address by its bytes, a
    name letter for letter.  (A client that verifies also folds the case of
    names and honours wildcards, so it accepts whatever is listed, and more.) *)
Definition covers (t : Certificate) (host : string) : Prop :=
  match ParseIP host with Some ip => ip ∈ IPAddresses t | None => host ∈ DNSNames t end.

(** Whether two hosts are one: the same address, or the same name. *)
Definition same_host (a b : string) : Prop :=
  match ParseIP a, ParseIP b with
  | Some x, Some y => x = y
  | None, None => a = b
  | _, _ => False
  end.

Lemma covers_add_host t host h :
  covers (add_host t host) h <-> covers t h \/ (host <> EmptyString /\ same_host h host).
Proof.
  unfold add_host. destruct (String.eqb_spec host ""); [naive_solver|].
  unfold covers, same_host. destruct (ParseIP h), (ParseIP host); simpl;
    rewrite ?elem_of_app, ?list_elem_of_singleton; naive_solver.
Qed.

Lemma covers_template hosts t h :
  covers (foldl add_host t hosts) h <->
    covers t h \/ exists host, host ∈ hosts /\ host <> EmptyString /\ same_host h host.
Proof.
  revert t. induction hosts as [|host hosts IH]; intros t; simpl; [set_solver|].
  rewrite IH, covers_add_host. set_solver.
Qed.

Definition always_covered : list string := ["localhost"; "dsql-emulator"; "127.0.0.1"; "::1"].

Lemma covers_base now h : covers (base_template now) h <-> exists host, host ∈ always_covered /\ same_host h host.
Proof.
  assert (ParseIP "localhost" = None /\ ParseIP "dsql-emulator" = None) as [Hl Hd] by (by vm_compute).
  unfold covers, same_host, base_template, always_covered, parsed. cbn [DNSNames IPAddresses].
  set (a := ParseIP "127.0.0.1"). vm_compute in a. set (b := ParseIP "::1"). vm_compute in b.
  assert (ParseIP "127.0.0.1" = a /\ ParseIP "::1" = b) as [Ha Hb] by (by vm_compute).
  split.
  - destruct (ParseIP h) as [ip|].
    + intros [->|[->|Hn]%elem_of_cons]%elem_of_cons; [| |by apply elem_of_nil in Hn].
      * exists "127.0.0.1". rewrite Ha. split; [set_solver | done].
      * exists "::1". rewrite Hb. split; [set_solver | done].
    + intros [->|[->|Hn]%elem_of_cons]%elem_of_cons; [| |by apply elem_of_nil in Hn].
      * exists "localhost". rewrite Hl. split; [set_solver | done].
      * exists "dsql-emulator". rewrite Hd. split; [set_solver | done].
  - intros (host & Hin & Hs). revert Hs.
    repeat (apply elem_of_cons in Hin as [->|Hin]; [|]); [..|by apply elem_of_nil in Hin];
      rewrite ?Hl, ?Hd, ?Ha, ?Hb; destruct (ParseIP h); simpl; set_solver.
Qed.

Lemma covers_exact now hosts h :
  covers (template now hosts) h <->
    exists host, (host ∈ always_covered \/ (host ∈ hosts /\ host <> EmptyString)) /\ same_host h host.
Proof.
  unfold template. rewrite covers_template, covers_base. split.
  - intros [(host & Hin & Hs)|(host & Hin & Hne & Hs)]; exists host; eauto.
  - intros (host & [Hin|[Hin Hne]] & Hs); eauto 6.
Qed.

Lemma template_unchanged hosts t :
  NotBefore (foldl add_host t hosts) = NotBefore t /\ NotAfter (foldl add_host t hosts) = NotAfter t /\
  ExtKeyUsage (foldl add_host t hosts) = ExtKeyUsage t.
Proof.
  revert t. induction hosts as [|host hosts IH]; intros t; [done|]. simpl.
  destruct (IH (add_host t host)) as (-> & -> & ->). unfold add_host.
  destruct (String.eqb host ""); [done|]. by destruct (ParseIP host).
Qed.

Lemma same_host_refl h : same_host h h.
Proof. unfold same_host. by destruct (ParseIP h). Qed.

Lemma certificate_host_named listen : unspecified (certificate_host listen) = false.
Proof. unfold certificate_host. destruct (SplitHostPort listen) as [[h p]|]; [|done]. by destruct (unspecified h) eqn:E. Qed.

Lemma unspecified_nonempty h : unspecified h = false -> h <> EmptyString.
Proof. by intros H ->. Qed.

Section emu.
Context `{Crypto}.

Lemma self_signed_inl now hosts cfg :
  SelfSignedTLSConfig now hosts = inl cfg ->
  exists key der, CreateCertificate (template now hosts) key = inl der /\
    Certificates cfg = [([der], key)] /\ MinVersion cfg = VersionTLS12.
Proof.
  unfold SelfSignedTLSConfig. destruct GenerateKey as [key|e]; [|done].
  destruct (CreateCertificate _ key) as [der|e] eqn:E; [|done]. intros [= <-]. by exists key, der.
Qed.

Lemma buildTLS_self_signed now listen c :
  buildTLS now false "" "" listen = inl c ->
  exists cfg, c = Some cfg /\ SelfSignedTLSConfig now [certificate_host listen] = inl cfg.
Proof.
  unfold buildTLS. simpl. destruct (SelfSignedTLSConfig now _) as [cfg|e]; [|done]. intros [= <-]. by exists cfg.
Qed.

Lemma emu_new_exact fl tls :
  (upstream fl = EmptyString -> emu_new fl tls = inr "upstream address is required") /\
  (upstream fl <> EmptyString -> exists cfg, emu_new fl tls = inl cfg /\ config_complete cfg /\
     Upstream cfg = upstream fl /\ TLS cfg = bool_decide (is_Some tls) /\ Classifier cfg = Some default_ruleset /\
     (listen fl <> EmptyString -> Listen cfg = listen fl)).
Proof.
  unfold emu_new, New, config_complete, or_default. cbn [Upstream Listen ServerVersion DialTimeout Classifier TLS].
  destruct (String.eqb_spec (upstream fl) "") as [->|Hu]; [done|].
  split; [done|]. intros _. eexists. split; [reflexivity|]. simpl.
  destruct (String.eqb_spec (listen fl) ""), (String.eqb_spec (serverVersion fl) ""); naive_solver.
Qed.

(** Whether the main gives up before [Run]. *)
Definition refuses_start (now : Z) (fl : emuFlags) : Prop :=
  (exists e, buildTLS now (noTLS fl) (tlsCert fl) (tlsKey fl) (listen fl) = inr e) \/ upstream fl = EmptyString.

Lemma emu_start_refuses now fl code : emu_start now fl = inr code -> code = 2 /\ refuses_start now fl.
Proof.
  unfold emu_start, refuses_start. destruct (buildTLS _ _ _ _ _) as [tls|e]; [|intros [= <-]; eauto].
  destruct (decide (upstream fl = EmptyString)) as [Hu|Hu].
  - rewrite (proj1 (emu_new_exact fl tls) Hu). intros [= <-]. auto.
  - destruct (proj2 (emu_new_exact fl tls) Hu) as (cfg & -> & _). done.
Qed.

Lemma emu_start_succeeds now fl started : emu_start now fl = inl started -> ~ refuses_start now fl.
Proof.
  unfold emu_start, refuses_start. destruct (buildTLS _ _ _ _ _) as [tls|e]; [|done].
  intros Hs [[e ?]|Hu]; [done|]. by rewrite (proj1 (emu_new_exact fl tls) Hu) in Hs.
Qed.

Lemma emu_started now fl : refuses_start now fl \/ exists started, emu_start now fl = inl started.
Proof.
  destruct (emu_start now fl) as [started|code] eqn:E; [right; eauto|left].
  by destruct (emu_start_refuses _ _ _ E).
Qed.
End emu.

(** Every result of [Run] is some run's. *)
Lemma run_reaches r : exists p, proxy_reachable p /\ runAt p = RunReturned r.
Proof.
  destruct r;
    [ exists (set_run true true (RunReturned RunNil) Unhooked proxy_start)
    | exists (set_run false false (RunReturned ListenError) Unregistered proxy_start)
    | exists (set_run true false (RunReturned AcceptError) Unhooked proxy_start) ]; (split; [|reflexivity]).
  - eapply rtc_l; [by apply listens|]. eapply rtc_l; [by apply context_cancelled|].
    eapply rtc_l; [by apply accept_fails|]. eapply rtc_l; [by apply (run_returns RunNil)|]. apply rtc_refl.
  - eapply rtc_l; [by apply listen_fails|]. apply rtc_refl.
  - eapply rtc_l; [by apply listens|]. eapply rtc_l; [by apply accept_fails|].
    eapply rtc_l; [by apply (run_returns AcceptError)|]. apply rtc_refl.
Qed.

(** C30: The certificate made for the listener names it.  Without a pair of its
    own the emulator terminates TLS 1.2 or later with one certificate, valid from
    before now for ten years, that a client accepts for a host exactly when the
    host is the one listened on or one of the four the emulator always answers to;
    a listener without a host a client can name counts as "localhost". *)
Theorem emulator_certificate `{Crypto} now fl cfg tls :
  emu_start now fl = inl (cfg, tls) -> noTLS fl = false -> tlsCert fl = EmptyString -> tlsKey fl = EmptyString ->
  exists conf key der,
    tls = Some conf /\ TLS cfg = true /\ MinVersion conf = VersionTLS12 /\ Certificates conf = [([der], key)] /\
    exists t, CreateCertificate t key = inl der /\
      NotBefore t < now /\ NotAfter t = now + 3650 * 24 * hour /\ ExtKeyUsage t = [ExtKeyUsageServerAuth] /\
      (forall h, covers t h <->
         exists host, (host ∈ always_covered \/ host = certificate_host (listen fl)) /\ same_host h host) /\
      (forall host port, SplitHostPort (listen fl) = Some (host, port) ->
         covers t (if unspecified host then "localhost" else host)).
Proof.
  intros Hs Hno Hc Hk. unfold emu_start in Hs. rewrite Hno, Hc, Hk in Hs.
  destruct (buildTLS now false "" "" (listen fl)) as [c|e] eqn:Hb; [|done].
  destruct (buildTLS_self_signed _ _ _ Hb) as (conf & -> & Hself).
  destruct (self_signed_inl _ _ _ Hself) as (key & der & Hder & Hcert & Hmin).
  destruct (decide (upstream fl = EmptyString)) as [Hu|Hu].
  { by rewrite (proj1 (emu_new_exact fl _) Hu) in Hs. }
  destruct (proj2 (emu_new_exact fl (Some conf)) Hu) as (cfg' & Hn & _ & _ & Htls & _).
  rewrite Hn in Hs. injection Hs as <- <-.
  exists conf, key, der. split_and!; [done | by rewrite Htls | done | done|].
  exists (template now [certificate_host (listen fl)]).
  destruct (template_unchanged [certificate_host (listen fl)] (base_template now)) as (Hnb & Hna & Hext).
  assert (forall h, covers (template now [certificate_host (listen fl)]) h <->
         exists host, (host ∈ always_covered \/ host = certificate_host (listen fl)) /\ same_host h host) as Hcov.
  { intros h. rewrite covers_exact.
    pose proof (unspecified_nonempty _ (certificate_host_named (listen fl))).
    setoid_rewrite list_elem_of_singleton. naive_solver. }
  split_and!; [done | | by unfold template; rewrite Hna | by unfold template; rewrite Hext | done |].
  { unfold template. rewrite Hnb. unfold base_template, hour, second. simpl. lia. }
  intros host port Hsp. apply Hcov. exists (certificate_host (listen fl)). split; [by right|].
  unfold certificate_host. rewrite Hsp. apply same_host_refl.
Qed.

(** C31: What the emulator's exit code says.  It is 2 when the TLS
    configuration cannot be made or no upstream is given, and then nothing was
    listened on; otherwise it is 0 or 1, whatever [Run] did, both happen, and 0
    means that a signal had asked the emulator to stop. *)
Theorem emulator_exit_codes `{Crypto} now fl code :
  ((exists signalled, emu_exits now fl code signalled) <->
     (refuses_start now fl /\ code = 2) \/ (~ refuses_start now fl /\ (code = 0 \/ code = 1))) /\
  ~ emu_exits now fl 0 false.
Proof.
  split; [split|].
  - intros [b [c Hc|started p r Hst Hp Hr]].
    + destruct (emu_start_refuses _ _ _ Hc). auto.
    + right. split; [by eapply emu_start_succeeds|]. destruct r; simpl; auto.
  - intros [[Hre ->]|[Hno Hc]].
    + exists false. apply exits_early. destruct (emu_start now fl) as [started|code] eqn:E.
      * by destruct (emu_start_succeeds _ _ _ E).
      * by destruct (emu_start_refuses _ _ _ E) as [-> _].
    + destruct (emu_started now fl) as [?|[started Hst]]; [done|].
      destruct Hc as [-> | ->].
      * destruct (run_reaches RunNil) as (p & Hp & Hr). exists (cancelled p). exact (exits_after now fl started p RunNil Hst Hp Hr).
      * destruct (run_reaches AcceptError) as (p & Hp & Hr). exists (cancelled p). exact (exits_after now fl started p AcceptError Hst Hp Hr).
  - intros Hx. inversion Hx as [c Hc|started p r Hst Hp Hr Hcode Hcan].
    + by destruct (emu_start_refuses _ _ _ Hc).
    + destruct r; try done. destruct (Run_returns _ _ Hp Hr) as (_ & Hc & _). by rewrite (Hc eq_refl) in Hcan.
Qed.

(** ** An instance *)

#[export] Instance sample_crypto : Crypto := {
  PrivateKey := string;
  GenerateKey := inl "key";
  CreateCertificate t key := inl (String.concat "," (DNSNames t));
  LoadX509KeyPair cert key := if String.eqb cert key then inr "open: no such file" else inl ([cert], key);
}.

Definition sample_tls : TLSConfig := mkTLSConfig _ [(["localhost,dsql-emulator,db.example"], "key")] VersionTLS12.

Definition example_flags : emuFlags :=
  mkEmuFlags "db.example:5432" "127.0.0.1:5433" "info" "" "" false DefaultServerVersion.

Definition example_started : ProxyConfig * option TLSConfig :=
  (mkProxyConfig "db.example:5432" "127.0.0.1:5433" (10 * second) (Some default_ruleset) true "16.15", Some sample_tls).

Lemma example_starts : emu_start 0 example_flags = inl example_started.
Proof. reflexivity. Qed.

Lemma emulator_certificate_witness :
  exists t, CreateCertificate t "key" = inl "localhost,dsql-emulator,db.example" /\ covers t "db.example".
Proof.
  destruct (emulator_certificate 0 example_flags _ _ example_starts eq_refl eq_refl eq_refl)
    as (conf & key & der & Hc & _ & _ & Hk & t & Ht & _ & _ & _ & Hcov & _).
  injection Hc as <-. injection Hk as <- <-. exists t. split; [exact Ht|].
  apply Hcov. exists "db.example". split; [by right | apply same_host_refl].
Defined.

(** A pair that cannot be read, an upstream that is not given, and the defaults. *)
Example emu_start_codes :
  emu_start 0 (mkEmuFlags "" "127.0.0.1:5433" "info" "x.pem" "x.pem" false "") = inr 2 /\
  emu_start 0 (mkEmuFlags "" "" "info" "" "" true "") = inr 2 /\
  exists started, emu_start 0 default_flags = inl started.
Proof. split_and!; try reflexivity. by eexists. Qed.
